(* ===== verification/_CoqProject ===== *)
-Q . S2P
Prelude.v
GoStrings.v
K8s.v
Json.v
GoTime.v
Base64.v
Sha256.v
Api.v
Kube.v
Rights.v
Externals.v
Helpers.v
ImageSet.v
Instances.v
Nested.v
Samples.v
Ensure.v
ImageSetProps.v
CollectionBuild.v
Collection.v
CollectionProps.v
CollectionRuns.v
CollectionBuildProps.v
ImportController.v
ImportProps.v
Health.v
Bootstrap.v
HealthProps.v
Ignition.v
Registry.v
RegistryProps.v
Operators.v
OperatorProps.v
PlatformStatus.v
PlatformStatusProps.v
Platform.v
CABundles.v
Tekton.v
PipelineScripts.v
PullSecrets.v
PullSecretProps.v
Pipelines.v
PipelineProps.v
CABundleProps.v
Quay.v
ConnectedQuay.v
Events.v
UpdateService.v
KeycloakAdmin.v
Keycloak.v
Postgres.v
KeycloakOAuth.v
ManagedKeycloak.v
Signing.v
Trustify.v
Artifacts.v
RHTPA.v
Architect.v
ArchitectProps.v
Airgapped.v
HostInventory.v
PlatformReconciler.v
Startup.v
ArtifactProps.v
AirgappedProps.v
QuayProps.v
PostgresProps.v
SigningProps.v
SampleCluster.v
RightsProps.v
PlatformReconcilerProps.v
KeycloakProps.v
IssuerProps.v
RHTPAProps.v
StartupProps.v
