(* ===== verification/Prelude.v ===== *)
(** * A verification development of the mirror operator

    The operator runs on OpenShift.  On a connected cluster it mirrors images into bundles
    (CollectionPipelines, run by Tekton); on an airgapped cluster it imports the bundles
    (MirrorImports) into registries it installs on the master nodes; a DisconnectedPlatform
    configures both and installs what they need: operators, Quay, signing, a pull secret and
    CA bundles, the pipelines themselves, and on the airgapped side ACM with its host
    inventory.  For signing and for the analysis of what is mirrored it runs a Keycloak, whose
    realms and clients it configures over HTTP.  Its reconcilers are called with the name of an object, read the state of the
    cluster through the API server, and write to it.

    ** How the program is modelled

    A reconciler is a value of [Kube.prog]: a finite tree of calls (get, list, create,
    update, status update, delete, the clock, HTTP requests, sleeping, a command in a pod,
    the random source) whose continuations take the reply.  [Kube.exec] relates it to every trace that
    some environment can produce, so a theorem over [exec] holds whatever the API server
    answers: errors, stale reads and concurrent writers included.  Where a theorem needs the
    environment to behave (an update answers with the object that was sent, for example) it
    says so as a hypothesis on the trace, and its witness runs the reconciler against the
    in-memory server of Samples.  [Kube.wp] is the same statement by recursion on the program;
    [Kube.always] and [Kube.rg] are the rules the proofs use for safety properties and for
    properties that rely on replies.  A nil dereference, an index out of range and a failed
    type assertion are [Panic].  No fuel is needed: the loops of the source range over finite
    data.  The one exception, the lines of a PEM body in Registry, takes the length of the
    body as its bound, and every line consumes at least one character of it.

    Structs are records with one field per field that is used, with the prefix of the type
    ([cps_] for CollectionPipelineSpec, and so on); pointers are options, nil slices empty
    lists, [map[string]string] is stdpp's [gmap], [map[string]interface{}] an association
    list of the dynamic values [K8s.json], and integers are [Z].  Text is [string], with
    Go's string functions in GoStrings, dates in GoTime, base64 in Base64, SHA-256 in Sha256
    and the printing of JSON in Json.

    ** The files

    - Prelude, GoStrings, K8s, Json, GoTime, Base64, Sha256: notations, automation, generic
      lemmas, the Go and Kubernetes data and functions the program uses.
    - Api: the types of src/api/v1.
    - Kube: calls, programs, executions and their logic.  Externals: the class of what the
      program takes from libraries and from the environment, with its documented laws.
      Instances: concrete instances that satisfy the laws.  Nested: lemmas on the accessors
      of unstructured objects.  Samples: an in-memory API server and sample objects, for the
      witnesses.  Ensure: the abstract specification of a function that keeps one object as
      wanted, what it means to refine it, and that such a function settles.
    - Helpers: src/internal/controller/helpers.go.
    - ImageSet, CollectionBuild, Collection: src/internal/controller/collectionpipeline_controller.go,
      namely the image set configuration and its enrichments (YAML behind the class
      [IscYaml]), the PipelineRun that is built, and the reconciler with the functions it
      calls, each with the name it has in the source.  The long reconcile function is split
      where the source has its comments ([reconcileTrigger], [reconcileStorage],
      [reconcileParent], [reconcileDependency], [reconcileVersion], [awaitSigning],
      [startRun], [trackPipelineRun]); a part that may return early yields a [Kube.step].
    - ImportController: src/internal/controller/mirrorimport_controller.go.
    - Health, Bootstrap: rhtashealthcheck_controller.go and clusterbootstrap_controller.go.
    - Ignition, Registry: src/internal/controller/mirrorregistry.
    - Of disconnectedplatform_controller.go: Operators (the operator tables and what installs
      them), PlatformStatus (conditions, phase, aggregated histories, inline RHTAS checks),
      Platform (the names and the cluster look-ups the other parts share), CABundles (the
      cluster, service and combined bundles, and the operator's own subscription),
      PullSecrets (the pull secret, its copies, the robot account and generated secrets),
      Tekton, PipelineScripts and Pipelines (the tasks as data, with their scripts, those of
      pipelines/rhcos.go and of the import pipeline included, and the two templates), Quay
      and ConnectedQuay (Clair feeds, components and variables; then the managed registry),
      Architect (the Airgap Architect application and its console plugin), UpdateService
      (the update service of a connected platform), Artifacts (the bucket of collections,
      its published address and the file server), Events (what the events of other objects
      are turned into), KeycloakAdmin, Keycloak, KeycloakOAuth and ManagedKeycloak (the
      requests to its administration interface; the realm of the signing service; OpenShift
      as its provider of identities; its object, its health and its removal), Postgres (its
      database and the one of the profile analyzer), Signing (the Securesign object, the root
      keys and keyless signing of collections), Trustify and RHTPA (the realm and the object
      of the Trusted Profile Analyzer) and PlatformReconciler: the reconcile that calls all
      of them, with what ends it, what is passed over and what is reported, and the removal.
    - Startup: cmd/main.go and the SetupWithManager functions: flags and images, options of the
      manager, the watches of each controller, the order of the start ([main], a tree of calls
      that fail or succeed) and the watchers that register a controller later ([managerStep]).
    - Rights: the markers above the reconcilers that the ClusterRole of the operator is
      generated from, and the right that each call needs.
    - Airgapped, HostInventory: disconnectedplatform_airgapped.go.  The first has Quay, the
      import scanner, the update service and the hub of ACM; the second the host inventory
      (mirror configuration, signature policy, RHCOS server, agent service, image sets,
      InfraEnv, credential) and the reconcile that calls all of it ([reconcileAirgapped]).
    - The files ending in Props, and CollectionRuns: the properties, with their witnesses.
      SampleCluster is a sample cluster on which the whole platform is reconciled.

    ** What is shown

    - Collections (CollectionRuns, CollectionProps, CollectionBuildProps): a reconcile
      creates at most one PipelineRun, which is recorded, or deleted when the collection records
      another run by then, unless one of those calls fails; the status of a
      collection stays consistent in every state that reconciles reach; nothing is run
      before the parent and the base version were read and are ready, and nothing while
      managed signing that could be looked for is not applied; claims only
      grow and are deleted only when no child needs them; the finalizer protocol; what the
      PipelineRun contains; what tracking copies.
    - Image sets (ImageSetProps): the intermediate configuration takes every operator and image
      from the intermediate registry, under the name it had; where references are rewritten to;
      each enrichment adds what it should, once, and keeps what was there; what happens on a
      text that does not parse.
    - Imports (ImportProps): the phase machine, its termination in three changes, the run
      that is started, the record of a finished import, and the only way it can panic.
    - Pipelines (PipelineProps): the tasks, parameters, results and workspaces of both
      pipelines fit together and what they mount covers what their scripts read; a run
      whose tasks succeed never gets stuck; scanning precedes signing, signing precedes
      mirroring; the runs of the two reconcilers supply what the templates declare.
    - The registry (RegistryProps): the cluster is pointed at registries only after it
      trusts them; nodes run with the CA that is stored; the CA is generated once; the
      files of a node decode to their contents and secrets are private.
    - Quay (QuayProps): the changes made to the registry of Quay settle.
    - Pull secrets and CA bundles (PullSecretProps, CABundleProps): no registry is lost when
      pull secrets are merged; what generated secrets are; the functions that keep a bundle,
      a copy or a template refine one abstract specification and settle; the combined bundle.
    - Airgap Architect (ArchitectProps): names, wiring, roll-out and removal.
    - The airgapped platform (AirgappedProps): nothing comes before the hub of ACM; errors
      are never lost; which mirrors and which signature policy discovered nodes get; its
      kept objects refine the same abstract specification.
    - Health and bootstrap (HealthProps): the report of the checks, the repairs they make,
      which tokens are accepted; the bootstrap reconciler converges.
    - The platform (OperatorProps, PlatformStatusProps): which operators are subscribed to,
      what is reported of them and when an airgapped platform may stop waiting; conditions
      stay unique by type and the phase agrees with them; what reporting success writes;
      the history that is gathered; the two repairs of the TUF keys write the same keys.
    - The whole operator (RightsProps): every call of every reconciler and event handler is
      one its rules allow, but one (the cache needs to list and watch what is read), and the roles
      it writes grant only what it holds.
    - The start (StartupProps): each controller is registered or waited for, once, in every
      state reached; what was decided by the one look for Tekton at the start.
    - The reconcile of a platform (PlatformReconcilerProps): what it reports for each step that
      fails and when none that counts does, when it comes back, what it removes before its
      finalizer goes, and what waits for Keycloak.
    - Keycloak (KeycloakProps): every request of a reconcile goes to the host the cluster
      names; the password is sent to its token endpoint only and a token only back to the
      host that issued it, over HTTPS.
    - The profile analyzer (RHTPAProps): when it is deleted, and that it is written again.
    - Signing and databases (SigningProps, IssuerProps, PostgresProps, ArtifactProps): the
      published root keys are those of the signing service; collections sign as the client,
      and with a realm from the issuer, that the service accepts; volumes grow within their maximum; the update
      service refines the specification of Ensure.
    - Several statements and examples record behaviour that looks unintended: the claim of
      a base pipeline deleted with an increment, a signing check that never fires, versions
      that collide, histories and conditions that grow at every reconcile, a degradation
      that keeps its first message, secrets that are a constant, a route to a port that does
      not exist, a bundle that never holds its own SBOM, mirrors accepted unsigned, a kind
      the operator may not list, a platform that says it is ready whatever failed, a phase
      Error that no condition explains, a run left behind when recording it fails, a look for
      managed signing whose failure lets a run start, probes that differ from what the server
      keeps at every reconcile, an import pipeline that is not written when Tekton is installed after the start, an analyzer that
      is deleted before it is known that a new one can be created.

    ** What is not modelled

    Logging and its flags, the text of the command line (a flag that is set is a value of
    [Startup.setting]) and the inside of the manager, whose calls have arbitrary answers;
    generated deep copies, since records are values; what the shell scripts of the tasks do when
    they run (their text is data, and the text of the embedded import script is a parameter);
    [ensureKeycloakOIDCClient], which only a test calls.  In Rights the resource of a kind is
    its plural in lower case, as for the kinds used here.  HTTP requests carry their address,
    header and body; that the client does not verify certificates is not modelled, so that the
    statements on Keycloak are about the address a request is sent to.  That the realms and
    clients of Keycloak settle would need a model of the server of Keycloak, which is not code
    of this program. *)

From Stdlib Require Export ZArith Lia Ascii.
From Stdlib Require Export String.
From stdpp Require Export base tactics list strings gmap fin_maps sets.

(** ** Notations of the development *)

Declare Scope go_scope.
Delimit Scope go_scope with go.

(** Go's [==] on strings. *)
Notation "s == t" := (String.eqb s t) (at level 70, no associativity) : go_scope.
Notation "s != t" := (negb (String.eqb s t)) (at level 70, no associativity) : go_scope.

#[global] Open Scope go_scope.
#[global] Open Scope string_scope.
#[global] Open Scope list_scope.

(** ** Functional record update

    [set proj f r] is [r] with the field [proj] mapped by [f].  A record type
    gives its eta-expansion once ([Eta]); the setter of a field is then found by
    rewriting that one field in it. *)

Class Eta (R : Type) := eta : R -> R.
Class Setter {R T : Type} (proj : R -> T) := set : (T -> T) -> R -> R.
Arguments set {R T} proj {_} _ _ /.

Ltac solve_setter :=
  match goal with
  | |- @Setter ?R ?T ?proj =>
      let inst := constr:(_ : Eta R) in
      let e := eval red in inst in
      exact (fun (f : T -> T) (r : R) =>
        ltac:(let t := eval cbv beta in (e r) in
              match t with
              | context C [proj r] => let u := context C [f (proj r)] in exact u
              end))
  end.

#[global] Hint Extern 1 (Setter _) => solve_setter : typeclass_instances.

Notation "r <| p := v |>" := (set p (fun _ => v) r)
  (at level 1, left associativity, p at level 11, v at level 99,
   format "r  <| p  :=  v |>") : go_scope.
Notation "r <| p ::= f |>" := (set p f r)
  (at level 1, left associativity, p at level 11, f at level 99,
   format "r  <| p  ::=  f |>") : go_scope.

(** ** Automation shared by the components *)

(** Splits the innermost [match] or [if] of the goal, keeping the equation. *)
Ltac split_match :=
  match goal with
  | |- context [match ?x with _ => _ end] =>
      lazymatch x with
      | context [match _ with _ => _ end] => fail
      | _ => let E := fresh "E" in destruct x eqn:E
      end
  end.

(** The same in a hypothesis. *)
Ltac split_match_in H :=
  match type of H with
  | context [match ?x with _ => _ end] =>
      lazymatch x with
      | context [match _ with _ => _ end] => fail
      | _ => let E := fresh "E" in destruct x eqn:E
      end
  end.

(** Turns boolean string comparisons into equalities. *)
Ltac str_eq :=
  repeat match goal with
  | H : (_ == _) = true |- _ => apply String.eqb_eq in H
  | H : (_ == _) = false |- _ => apply String.eqb_neq in H
  | H : (_ != _) = true |- _ => apply negb_true_iff, String.eqb_neq in H
  | H : (_ != _) = false |- _ => apply negb_false_iff, String.eqb_eq in H
  | H : (_ && _)%bool = true |- _ => apply andb_true_iff in H as [? ?]
  | H : (_ || _)%bool = false |- _ => apply orb_false_iff in H as [? ?]
  | H : negb _ = true |- _ => apply negb_true_iff in H
  | H : negb _ = false |- _ => apply negb_false_iff in H
  end.

Lemma str_eqb_refl (s : string) : (s == s) = true.
Proof. apply String.eqb_refl. Qed.

Lemma str_eqb_ne (s t : string) : s <> t -> (s == t) = false.
Proof. apply String.eqb_neq. Qed.

Lemma str_eqb_sym (s t : string) : (s == t) = (t == s).
Proof. apply String.eqb_sym. Qed.

Create HintDb go.

#[export] Hint Resolve str_eqb_refl str_eqb_ne : go.

(** ** Generic lemmas on lists *)

(** Replaces the first element satisfying [p] by its image, [None] when there
    is none: the shape of every "find it and update it in place" loop. *)
Fixpoint update_first {A} (p : A -> bool) (f : A -> A) (l : list A) : option (list A) :=
  match l with
  | [] => None
  | x :: l' =>
      if p x then Some (f x :: l')
      else match update_first p f l' with
           | Some l2 => Some (x :: l2)
           | None => None
           end
  end.

(** The first element satisfying [p]. *)
Fixpoint find_first {A} (p : A -> bool) (l : list A) : option A :=
  match l with
  | [] => None
  | x :: l' => if p x then Some x else find_first p l'
  end.

Lemma find_first_Some {A} (p : A -> bool) l x :
  find_first p l = Some x -> In x l /\ p x = true.
Proof.
  induction l as [|y l IH]; simpl; [done|].
  destruct (p y) eqn:E; intros H; [naive_solver|]. destruct (IH H); auto.
Qed.

Lemma find_first_None {A} (p : A -> bool) l :
  find_first p l = None <-> forall x, In x l -> p x = false.
Proof.
  induction l as [|y l IH]; simpl; [naive_solver|].
  destruct (p y) eqn:E; [naive_solver congruence|naive_solver].
Qed.

Lemma update_first_None {A} (p : A -> bool) f l :
  update_first p f l = None <-> forall x, In x l -> p x = false.
Proof.
  induction l as [|y l IH]; simpl; [naive_solver|].
  destruct (p y) eqn:E; [naive_solver congruence|].
  destruct (update_first p f l); naive_solver.
Qed.

Lemma update_first_split {A} (p : A -> bool) f l l' :
  update_first p f l = Some l' ->
  exists l1 x l2, l = l1 ++ x :: l2 /\ l' = l1 ++ f x :: l2 /\ p x = true /\
    (forall y, In y l1 -> p y = false).
Proof.
  revert l'; induction l as [|y l IH]; simpl; intros l' H; [done|].
  destruct (p y) eqn:E.
  - injection H as <-. exists [], y, l. naive_solver.
  - destruct (update_first p f l) as [l2|]; [|done]. injection H as <-.
    destruct (IH _ eq_refl) as (a & x & b & -> & -> & Hp & Hn).
    exists (y :: a), x, b. naive_solver.
Qed.

Lemma update_first_length {A} (p : A -> bool) f l l' :
  update_first p f l = Some l' -> length l' = length l.
Proof.
  intros (a & x & b & -> & -> & _)%update_first_split. rewrite !length_app. done.
Qed.

(** Go's [append(slice, x)] on the elements. *)
Abbreviation snoc l x := (l ++ [x]).

Lemma fold_left_concat {A B} (f : A -> B -> A) (ls : list (list B)) a :
  fold_left f (concat ls) a = fold_left (fun a l => fold_left f l a) ls a.
Proof. revert a; induction ls as [|l ls IH]; intros a; simpl; [done|]. by rewrite fold_left_app, IH. Qed.

Lemma fold_left_map {A B C} (f : A -> C -> A) (g : B -> C) l a :
  fold_left f (map g l) a = fold_left (fun a x => f a (g x)) l a.
Proof. revert a; induction l as [|x l IH]; intros a; simpl; auto. Qed.

Lemma fold_left_same {A B} (f g : A -> B -> A) l a :
  (forall a x, f a x = g a x) -> fold_left f l a = fold_left g l a.
Proof. intros H. revert a; induction l as [|x l IH]; intros a; simpl; [done|]. by rewrite H, IH. Qed.

Lemma find_first_snoc {A} (p : A -> bool) l x :
  find_first p l = None -> p x = true -> find_first p (snoc l x) = Some x.
Proof. intros H Hx. induction l as [|y l IH]; simpl in *; [by rewrite Hx|]. by destruct (p y); [|apply IH]. Qed.

Lemma existsb_In {A} (f : A -> bool) l :
  existsb f l = true <-> exists x, In x l /\ f x = true.
Proof. apply existsb_exists. Qed.

Lemma existsb_false {A} (f : A -> bool) l :
  existsb f l = false <-> forall x, In x l -> f x = false.
Proof.
  induction l as [|y l IH]; simpl; [naive_solver|].
  destruct (f y) eqn:E; simpl; [naive_solver congruence|naive_solver].
Qed.
