(* ===== verification/GoStrings.v ===== *)
(** The functions of Go's [strings] and [strconv] packages that the program
    calls, on byte strings, with the lemmas the components use.  A Go string is a
    byte sequence and [string] is a sequence of 8-bit characters, so lengths and
    indices are byte lengths and byte indices, as in Go. *)
From S2P Require Import Prelude.
From stdpp Require Import pretty.

(** ** Prefixes, suffixes and searching *)

Fixpoint drop_str (n : nat) (s : string) : string :=
  match n, s with
  | O, _ => s
  | S n', String _ s' => drop_str n' s'
  | S _, EmptyString => EmptyString
  end.

Fixpoint take_str (n : nat) (s : string) : string :=
  match n, s with
  | O, _ => EmptyString
  | S n', String c s' => String c (take_str n' s')
  | S _, EmptyString => EmptyString
  end.

Definition HasPrefix (s pre : string) : bool := String.prefix pre s.

Definition TrimPrefix (s pre : string) : string :=
  if HasPrefix s pre then drop_str (String.length pre) s else s.

Definition HasSuffix (s suf : string) : bool :=
  (String.length suf <=? String.length s)%nat &&
  (drop_str (String.length s - String.length suf) s == suf).

Definition TrimSuffix (s suf : string) : string :=
  if HasSuffix s suf then take_str (String.length s - String.length suf) s else s.

(** First occurrence of [sub], as an optional byte index. *)
Fixpoint index_opt (s sub : string) : option nat :=
  if String.prefix sub s then Some O
  else match s with
       | EmptyString => None
       | String _ s' => match index_opt s' sub with
                        | Some n => Some (S n)
                        | None => None
                        end
       end.

(** Last occurrence of [sub]. *)
Fixpoint last_index_opt (s sub : string) : option nat :=
  match s with
  | EmptyString => if String.prefix sub s then Some O else None
  | String _ s' => match last_index_opt s' sub with
                   | Some n => Some (S n)
                   | None => if String.prefix sub s then Some O else None
                   end
  end.

Definition Contains (s sub : string) : bool :=
  match index_opt s sub with Some _ => true | None => false end.

(** ** Splitting and joining (a non-empty separator) *)

(** [split_go n sep skip s]: the pieces of [s] after dropping [skip] bytes, at
    most [n] of them when [n] is given; the last piece is the unsplit rest. *)
Fixpoint split_go (n : option nat) (sep : string) (skip : nat) (s : string) : list string :=
  match n with
  | Some O => []
  | Some (S O) => [drop_str skip s]
  | _ =>
      match s with
      | EmptyString => [EmptyString]
      | String c s' =>
          match skip with
          | S k => split_go n sep k s'
          | O =>
              if String.prefix sep s then
                EmptyString :: split_go (option_map Nat.pred n) sep (String.length sep - 1) s'
              else match split_go n sep O s' with
                   | p :: ps => String c p :: ps
                   | [] => []
                   end
          end
      end
  end.

Definition Split (s sep : string) : list string := split_go None sep 0 s.
Definition SplitN (s sep : string) (n : nat) : list string := split_go (Some n) sep 0 s.

Fixpoint Join (elems : list string) (sep : string) : string :=
  match elems with
  | [] => EmptyString
  | [x] => x
  | x :: rest => x +:+ sep +:+ Join rest sep
  end.

Definition ReplaceAll (s old new : string) : string := Join (Split s old) new.

(** ** Numbers *)

(** [fmt]'s [%d]. *)
Definition itoa (z : Z) : string := pretty z.

Definition digit_val (c : Ascii.ascii) : option Z :=
  let n := Z.of_nat (Ascii.nat_of_ascii c) in
  if ((48 <=? n) && (n <=? 57))%Z%bool then Some (n - 48)%Z else None.

Fixpoint digits_val (acc : Z) (s : string) : option Z :=
  match s with
  | EmptyString => Some acc
  | String c s' => match digit_val c with
                   | Some d => digits_val (10 * acc + d)%Z s'
                   | None => None
                   end
  end.

(** [strconv.Atoi]: an optional sign, then decimal digits, within [int64]. *)
Definition Atoi (s : string) : option Z :=
  let check (z : Z) :=
    if ((- 2 ^ 63 <=? z) && (z <? 2 ^ 63))%Z%bool then Some z else None in
  let unsigned (t : string) :=
    match t with EmptyString => None | _ => digits_val 0 t end in
  match s with
  | String "-"%char t => match unsigned t with Some z => check (- z)%Z | None => None end
  | String "+"%char t => match unsigned t with Some z => check z | None => None end
  | _ => match unsigned s with Some z => check z | None => None end
  end.

(** ** Lemmas on appending and dropping *)

#[local] Arguments String.append !_ _ / : simpl nomatch.

Lemma app_str_nil_r (s : string) : s +:+ EmptyString = s.
Proof. induction s as [|c s IH]; simpl; [done|]. by rewrite IH. Qed.

Lemma app_str_assoc (s t u : string) : (s +:+ t) +:+ u = s +:+ (t +:+ u).
Proof. induction s as [|c s IH]; simpl; [done|]. by rewrite IH. Qed.

Lemma length_app_str (s t : string) :
  String.length (s +:+ t) = (String.length s + String.length t)%nat.
Proof. induction s as [|c s IH]; simpl; [done|]. by rewrite IH. Qed.

Lemma app_str_cancel_l (s t u : string) : s +:+ t = s +:+ u -> t = u.
Proof. induction s as [|c s IH]; simpl; [done|]. intros [= H]. auto. Qed.

Lemma drop_str_app (s t : string) : drop_str (String.length s) (s +:+ t) = t.
Proof. induction s as [|c s IH]; simpl; [by destruct t|done]. Qed.

Lemma take_drop_str n (s : string) : take_str n s +:+ drop_str n s = s.
Proof.
  revert s; induction n as [|n IH]; intros s; [done|].
  destruct s as [|c s]; simpl; [done|]. by rewrite IH.
Qed.

Lemma length_take_str n (s : string) : String.length (take_str n s) = Nat.min n (String.length s).
Proof.
  revert s; induction n as [|n IH]; intros s; [done|].
  destruct s as [|c s]; simpl; [done|]. by rewrite IH.
Qed.

(** ** Prefixes and suffixes *)

Lemma prefix_spec (pre s : string) :
  String.prefix pre s = true <-> s = pre +:+ drop_str (String.length pre) s.
Proof.
  revert s; induction pre as [|c pre IH]; intros s; simpl.
  - by destruct s.
  - destruct s as [|d s]; [done|]. simpl.
    destruct (Ascii.ascii_dec c d) as [->|Hne]; simpl.
    + rewrite IH. split; [by intros <-|]. by intros [= H].
    + split; [done|]. by intros [= H].
Qed.

Lemma prefix_app (pre t : string) : String.prefix pre (pre +:+ t) = true.
Proof. apply prefix_spec. by rewrite drop_str_app. Qed.

Lemma HasPrefix_app (pre t : string) : HasPrefix (pre +:+ t) pre = true.
Proof. apply prefix_app. Qed.

Lemma HasPrefix_inv (s pre : string) :
  HasPrefix s pre = true -> exists t, s = pre +:+ t.
Proof. intros H%prefix_spec. eauto. Qed.

Lemma TrimPrefix_app (pre t : string) : TrimPrefix (pre +:+ t) pre = t.
Proof. unfold TrimPrefix. by rewrite HasPrefix_app, drop_str_app. Qed.

Lemma HasSuffix_app (s suf : string) : HasSuffix (s +:+ suf) suf = true.
Proof.
  unfold HasSuffix. rewrite length_app_str.
  replace (String.length s + String.length suf - String.length suf)%nat
    with (String.length s) by lia.
  rewrite drop_str_app, str_eqb_refl, andb_true_r. apply Nat.leb_le. lia.
Qed.

Lemma HasSuffix_inv (s suf : string) :
  HasSuffix s suf = true -> exists t, s = t +:+ suf.
Proof.
  unfold HasSuffix. intros [_ H]%andb_true_iff. apply String.eqb_eq in H.
  exists (take_str (String.length s - String.length suf) s).
  rewrite <- H at 2. by rewrite take_drop_str.
Qed.

(** ** Searching *)

Lemma index_opt_Some (s sub : string) n :
  index_opt s sub = Some n ->
  s = take_str n s +:+ sub +:+ drop_str (n + String.length sub) s /\
  (n <= String.length s)%nat.
Proof.
  revert n; induction s as [|c s IH]; intros n H.
  - destruct sub; [|done]. injection H as <-. split; [done|simpl; lia].
  - cbn [index_opt] in H. destruct (String.prefix sub (String c s)) eqn:E.
    + injection H as <-. apply prefix_spec in E. split; [exact E|lia].
    + destruct (index_opt s sub) as [m|]; [|done]. injection H as <-.
      destruct (IH m eq_refl) as [Heq Hle]. simpl. split; [|lia].
      by rewrite <- Heq.
Qed.

Lemma index_opt_app (s sub t : string) : exists n, index_opt (s +:+ sub +:+ t) sub = Some n.
Proof.
  induction s as [|c s [n IH]].
  - exists O. change (EmptyString +:+ sub +:+ t) with (sub +:+ t).
    pose proof (prefix_app sub t) as H.
    destruct (sub +:+ t); cbn [index_opt]; by rewrite H.
  - cbn [String.append index_opt]. destruct (String.prefix sub _); [eauto|].
    rewrite IH. eauto.
Qed.

Lemma Contains_spec (s sub : string) :
  Contains s sub = true <-> exists a b, s = a +:+ sub +:+ b.
Proof.
  unfold Contains. split.
  - destruct (index_opt s sub) as [n|] eqn:E; [|done]. intros _.
    apply index_opt_Some in E as [-> _]. eauto.
  - intros (a & b & ->). destruct (index_opt_app a sub b) as [n ->]. done.
Qed.

Lemma last_index_opt_Some (s sub : string) n :
  last_index_opt s sub = Some n ->
  s = take_str n s +:+ sub +:+ drop_str (n + String.length sub) s.
Proof.
  revert n; induction s as [|c s IH]; intros n H; cbn [last_index_opt] in H.
  - destruct sub; [|done]. by injection H as <-.
  - destruct (last_index_opt s sub) as [m|] eqn:E'.
    + injection H as <-. simpl. by rewrite <- (IH m eq_refl).
    + destruct (String.prefix sub (String c s)) eqn:E; [|done].
      injection H as <-. by apply prefix_spec in E.
Qed.

(** ** Splitting *)

Lemma split_go_unfold n sep k c s :
  n <> Some O -> n <> Some 1%nat ->
  split_go n sep k (String c s) =
    match k with
    | S k => split_go n sep k s
    | O => if String.prefix sep (String c s)
           then EmptyString :: split_go (option_map Nat.pred n) sep (String.length sep - 1) s
           else match split_go n sep O s with
                | p :: ps => String c p :: ps
                | [] => []
                end
    end.
Proof. intros H0 H1. destruct n as [[|[|m]]|]; done. Qed.

(** The piece count: none, one, or at least two. *)
Lemma split_limit_cases (n : option nat) :
  n = Some O \/ n = Some 1%nat \/ (n <> Some O /\ n <> Some 1%nat).
Proof. destruct n as [[|[|m]]|]; naive_solver. Qed.

Lemma split_go_nonempty n sep k s : n <> Some O -> split_go n sep k s <> [].
Proof.
  revert n k; induction s as [|c s IH]; intros n k Hn.
  - destruct n as [[|[|]]|]; done.
  - destruct (split_limit_cases n) as [->|[->|[_ H1]]]; [done|done|].
    rewrite split_go_unfold by done.
    destruct k; [|by apply IH]. destruct (String.prefix sep _); [done|].
    destruct (split_go n sep 0 s) eqn:E; [|done]. by apply IH in E.
Qed.

Lemma Join_cons x l sep : l <> [] -> Join (x :: l) sep = x +:+ sep +:+ Join l sep.
Proof. by destruct l. Qed.

Lemma Join_split_go n sep k s :
  n <> Some O -> sep <> EmptyString -> Join (split_go n sep k s) sep = drop_str k s.
Proof.
  intros Hn Hsep. revert n k Hn; induction s as [|c s IH]; intros n k Hn.
  - destruct n as [[|[|]]|]; [done|done| |]; by destruct k.
  - destruct (split_limit_cases n) as [->|[->|[_ H1]]]; [done|done|].
    rewrite split_go_unfold by done. destruct k as [|k]; [|by rewrite IH].
    destruct (String.prefix sep (String c s)) eqn:E.
    + assert (option_map Nat.pred n <> Some O) by (destruct n as [[|[|]]|]; simpl; congruence).
      rewrite Join_cons by (by apply split_go_nonempty). rewrite IH by done.
      apply prefix_spec in E. destruct sep as [|d sep]; [done|].
      simpl in E |- *. by rewrite Nat.sub_0_r.
    + pose proof (IH n O Hn) as Hj. pose proof (split_go_nonempty n sep O s Hn) as Hne.
      destruct (split_go n sep 0 s) as [|p [|q ps]]; [done| |]; simpl in *; by rewrite Hj.
Qed.

(** [strings.Join] undoes [strings.Split] and [strings.SplitN]. *)
Lemma Join_Split s sep : sep <> EmptyString -> Join (Split s sep) sep = s.
Proof. intros. unfold Split. by rewrite Join_split_go. Qed.

Lemma Join_SplitN s sep n : (0 < n)%nat -> sep <> EmptyString -> Join (SplitN s sep n) sep = s.
Proof. intros. unfold SplitN. rewrite Join_split_go; [done| |done]. intros [= ->]. lia. Qed.

Lemma split_go_length n sep k s : (length (split_go (Some n) sep k s) <= n)%nat.
Proof.
  revert n k; induction s as [|c s IH]; intros n k.
  - destruct n as [|[|m]]; simpl; lia.
  - destruct n as [|[|m]]; [simpl; lia|simpl; lia|].
    rewrite split_go_unfold by done. destruct k as [|k]; [|apply IH].
    destruct (String.prefix sep (String c s)); simpl.
    + specialize (IH (S m) (String.length sep - 1)%nat). lia.
    + specialize (IH (S (S m)) O). destruct (split_go _ sep 0 s); simpl in *; lia.
Qed.

Lemma SplitN_length s sep n : (length (SplitN s sep n) <= n)%nat.
Proof. apply split_go_length. Qed.

(** A string with no separator is its own only piece. *)
Lemma split_go_none n sep s :
  n <> Some O -> index_opt s sep = None -> split_go n sep 0 s = [s].
Proof.
  revert n; induction s as [|c s IH]; intros n Hn H.
  - destruct n as [[|[|]]|]; done.
  - cbn [index_opt] in H. destruct (String.prefix sep (String c s)) eqn:E; [done|].
    destruct (index_opt s sep) eqn:Ei; [done|].
    destruct (split_limit_cases n) as [->|[->|[_ H1]]]; [done|done|].
    rewrite split_go_unfold, E, IH; done.
Qed.

Lemma SplitN_2_length s sep :
  sep <> EmptyString -> index_opt s sep <> None -> length (SplitN s sep 2) = 2%nat.
Proof.
  intros Hsep. unfold SplitN. induction s as [|c s IH]; intros H.
  - by destruct sep.
  - cbn [index_opt] in H. rewrite split_go_unfold by done.
    destruct (String.prefix sep (String c s)) eqn:E.
    + simpl. by destruct s.
    + destruct (index_opt s sep) eqn:Ei; [|done].
      specialize (IH ltac:(done)). by destruct (split_go _ sep 0 s).
Qed.

(** ** Splitting at a single byte *)

Definition sep1 (c : Ascii.ascii) : string := String c EmptyString.

Lemma prefix_sep1 c d s : String.prefix (sep1 c) (String d s) = true <-> c = d.
Proof.
  unfold sep1. simpl. destruct (Ascii.ascii_dec c d); [|done].
  by destruct s.
Qed.

Lemma index_sep1_cons c d s :
  index_opt (String d s) (sep1 c) = None <-> c <> d /\ index_opt s (sep1 c) = None.
Proof.
  cbn [index_opt]. destruct (String.prefix (sep1 c) (String d s)) eqn:E.
  - apply prefix_sep1 in E. naive_solver.
  - assert (c <> d) by (intros ->; by rewrite (proj2 (prefix_sep1 d d s)) in E).
    destruct (index_opt s (sep1 c)); naive_solver.
Qed.

Lemma split_go_sep1_pieces c s p :
  In p (split_go None (sep1 c) 0 s) -> index_opt p (sep1 c) = None.
Proof.
  revert p; induction s as [|d s IH]; intros p.
  - simpl. intros [<-|[]]. done.
  - rewrite split_go_unfold by done. destruct (String.prefix _ _) eqn:E.
    + intros [<-|H]; [done|]. by apply IH.
    + destruct (split_go None (sep1 c) 0 s) as [|q qs]; [done|].
      intros [<-|H]; [|apply IH; by right].
      apply index_sep1_cons. split; [|apply IH; by left].
      intros <-. by rewrite (proj2 (prefix_sep1 c c s)) in E.
Qed.

Lemma Split_pieces c s p : In p (Split s (sep1 c)) -> index_opt p (sep1 c) = None.
Proof. apply split_go_sep1_pieces. Qed.

(** The first piece of a text whose head has no separator. *)
Lemma split_go_app c n a b :
  n <> Some O -> n <> Some 1%nat -> index_opt a (sep1 c) = None ->
  split_go n (sep1 c) 0 (a +:+ String c b) = a :: split_go (option_map Nat.pred n) (sep1 c) 0 b.
Proof.
  intros H0 H1. induction a as [|d a IH]; intros Ha.
  - change (EmptyString +:+ String c b) with (String c b). rewrite split_go_unfold by done.
    by rewrite (proj2 (prefix_sep1 c c b)).
  - apply index_sep1_cons in Ha as [Hne Ha].
    change (String d a +:+ String c b) with (String d (a +:+ String c b)).
    rewrite split_go_unfold by done. rewrite IH by done.
    destruct (String.prefix _ _) eqn:E; [|done]. apply prefix_sep1 in E. by subst.
Qed.

Lemma SplitN_2_app c a b :
  index_opt a (sep1 c) = None -> SplitN (a +:+ String c b) (sep1 c) 2 = [a; b].
Proof. intros H. unfold SplitN. rewrite split_go_app by done. simpl. by destruct b. Qed.

(** A text with a separator has at least two pieces. *)
Lemma split_go_two c a b : exists p q ps, split_go None (sep1 c) 0 (a +:+ String c b) = p :: q :: ps.
Proof.
  induction a as [|d a (p & q & ps & IH)].
  - change (EmptyString +:+ String c b) with (String c b). rewrite split_go_unfold by done.
    rewrite (proj2 (prefix_sep1 c c b)) by done. simpl.
    destruct (split_go None (sep1 c) 0 b) eqn:E; [by apply split_go_nonempty in E|].
    by do 3 eexists.
  - change (String d a +:+ String c b) with (String d (a +:+ String c b)).
    rewrite split_go_unfold by done. change (option_map Nat.pred None) with (@None nat).
    change (String.length (sep1 c) - 1)%nat with O. rewrite IH.
    destruct (String.prefix _ _); by do 3 eexists.
Qed.

(** The last piece is what follows the last separator. *)
Lemma Split_last_app c a b :
  index_opt b (sep1 c) = None -> List.last (Split (a +:+ String c b) (sep1 c)) "" = b.
Proof.
  intros Hb. unfold Split. induction a as [|d a IH].
  - change (EmptyString +:+ String c b) with (String c b). rewrite split_go_unfold by done.
    rewrite (proj2 (prefix_sep1 c c b)) by done. simpl.
    by rewrite split_go_none.
  - change (String d a +:+ String c b) with (String d (a +:+ String c b)).
    rewrite split_go_unfold by done. change (option_map Nat.pred None) with (@None nat).
    change (String.length (sep1 c) - 1)%nat with O.
    destruct (split_go_two c a b) as (p & q & ps & E). rewrite E in *.
    destruct (String.prefix _ _); exact IH.
Qed.

(** A text with exactly two separators. *)
Lemma Split_three c a b d :
  index_opt a (sep1 c) = None -> index_opt b (sep1 c) = None -> index_opt d (sep1 c) = None ->
  Split (a +:+ sep1 c +:+ b +:+ sep1 c +:+ d) (sep1 c) = [a; b; d].
Proof.
  intros Ha Hb Hd. unfold Split. change (sep1 c +:+ ?x) with (String c x).
  rewrite split_go_app by done. simpl option_map. change (sep1 c +:+ ?x) with (String c x).
  rewrite split_go_app by done. simpl option_map. by rewrite split_go_none.
Qed.

(** ** [fmt.Sprintf]

    The verbs the program's templates use: [%s], [%d], their indexed forms [%[n]s] and
    [%[n]d], and [%%].  The arguments come rendered; [next] is the argument the next plain
    verb takes. *)
Fixpoint Sprintf_from (args : list string) (next : nat) (format : string) : string :=
  match format with
  | String "%" (String "%" rest) => String "%" (Sprintf_from args next rest)
  | String "%" (String "[" (String d (String "]" (String _ rest)))) =>
      let n := N.to_nat (N_of_ascii d - N_of_ascii "0") in
      default EmptyString (nth_error args (Nat.pred n)) +:+ Sprintf_from args n rest
  | String "%" (String _ rest) =>
      default EmptyString (nth_error args next) +:+ Sprintf_from args (S next) rest
  | String c rest => String c (Sprintf_from args next rest)
  | EmptyString => EmptyString
  end.
Definition Sprintf (format : string) (args : list string) : string := Sprintf_from args 0 format.

Example Sprintf_verbs : Sprintf "a%sb%%c%[1]sd%[2]d." ["x"; "7"] = "axb%cxd7.".
Proof. reflexivity. Qed.

(** ** [strings.TrimSpace] *)

(** The length in bytes of the white-space character the text begins with: 0 when there is none.
    The characters are those of [unicode.IsSpace], in UTF-8. *)
Definition space_len (s : string) : nat :=
  match s with
  | EmptyString => 0
  | String a t =>
      let n := N_of_ascii a in
      if (((9 <=? n) && (n <=? 13)) || (n =? 32))%N then 1
      else
        match t with
        | EmptyString => 0
        | String b t2 =>
            let m := N_of_ascii b in
            if ((n =? 194) && ((m =? 133) || (m =? 160)))%N then 2
            else
              match t2 with
              | EmptyString => 0
              | String c _ =>
                  let k := N_of_ascii c in
                  if (((n =? 225) && (m =? 154) && (k =? 128))
                      || ((n =? 226) && (m =? 128) &&
                          (((128 <=? k) && (k <=? 138)) || (k =? 168) || (k =? 169) || (k =? 175)))
                      || ((n =? 226) && (m =? 129) && (k =? 159))
                      || ((n =? 227) && (m =? 128) && (k =? 128)))%N
                  then 3 else 0
              end
        end
  end.

(** [skip] bytes of the current white space remain. *)
Fixpoint trim_left (skip : nat) (s : string) : string :=
  match s with
  | EmptyString => EmptyString
  | String _ t =>
      match skip with
      | S k => trim_left k t
      | O => match space_len s with O => s | S k => trim_left k t end
      end
  end.

Fixpoint trim_right (s : string) : string :=
  match s with
  | EmptyString => EmptyString
  | String c t => if trim_left 0 s == EmptyString then EmptyString else String c (trim_right t)
  end.

Definition TrimSpace (s : string) : string := trim_right (trim_left 0 s).

(** A tab, a line feed and a carriage return. *)
Definition tab : string := String "009" EmptyString.
Definition newline : string := String "010" EmptyString.

Example TrimSpace_both : TrimSpace (" " +:+ tab +:+ "a b" +:+ newline +:+ " ") = "a b".
Proof. reflexivity. Qed.
Example TrimSpace_only : TrimSpace (newline +:+ newline) = "".
Proof. reflexivity. Qed.

(** Templates are written with [^] for the double quote. *)
Fixpoint dq (s : string) : string :=
  match s with
  | EmptyString => EmptyString
  | String c rest => String (if Ascii.eqb c "^" then "034"%char else c) (dq rest)
  end.
