(* ===== verification/K8s.v ===== *)
(** The data of the Kubernetes, Tekton and Go libraries the program works on:
    object metadata, conditions, core objects, Tekton PipelineRuns and the dynamic
    values of [map[string]interface{}].  Of each library struct only the fields the
    program reads or writes are kept.  A nil slice is [[]]; a nil map is [None] in
    the maps the program writes to (assigning to an entry of a nil map panics) and
    the empty map elsewhere; a pointer is an [option]. *)
From S2P Require Import Prelude GoStrings.

(** ** Time, durations, quantities *)

(** An instant: nanoseconds since the Unix epoch.  [metav1.Time]'s zero value is
    year 1, January 1, which [IsZero] recognises. *)
Definition time : Set := Z.
Definition zero_time : time := (-62135596800 * 10 ^ 9)%Z.

(** [metav1.Time.IsZero]. *)
Definition IsZero (t : option time) : bool :=
  match t with None => true | Some t => (t =? zero_time)%Z end.

(** [time.Duration], in nanoseconds. *)
Definition Duration : Set := Z.
Definition Second : Duration := (10 ^ 9)%Z.
Definition Minute : Duration := (60 * Second)%Z.
Definition Hour : Duration := (60 * Minute)%Z.

(** [resource.Quantity], as the number it denotes, in nano-units. *)
Definition Quantity : Set := Z.

(** ** Metadata *)

Record NamespacedName := mkNN { nn_Namespace : string; nn_Name : string }.

Record TypeMeta := mkTypeMeta { tm_APIVersion : string; tm_Kind : string }.

Record GroupVersionKind := mkGVK { g_Group : string; g_Version : string; g_Kind : string }.

Record OwnerReference := mkOwnerRef {
  or_APIVersion : string;
  or_Kind : string;
  or_Name : string;
  or_UID : string;
  or_Controller : option bool;
  or_BlockOwnerDeletion : option bool;
}.

Record ObjectMeta := mkMeta {
  om_Name : string;
  om_GenerateName : string;
  om_Namespace : string;
  om_UID : string;
  om_ResourceVersion : string;
  om_Generation : Z;
  om_CreationTimestamp : time;
  om_DeletionTimestamp : option time;
  om_Labels : gmap string string;
  om_Annotations : gmap string string;
  om_OwnerReferences : list OwnerReference;
  om_Finalizers : list string;
}.
#[export] Instance eta_ObjectMeta : Eta ObjectMeta := fun r =>
  mkMeta (om_Name r) (om_GenerateName r) (om_Namespace r) (om_UID r) (om_ResourceVersion r)
    (om_Generation r) (om_CreationTimestamp r) (om_DeletionTimestamp r) (om_Labels r)
    (om_Annotations r) (om_OwnerReferences r) (om_Finalizers r).

(** [metav1.ObjectMeta{}]. *)
Definition meta0 : ObjectMeta := mkMeta "" "" "" "" "" 0 zero_time None ∅ ∅ [] [].

Record LocalObjectReference := mkLocalRef { lor_Name : string }.

(** [metav1.Condition]. *)
Record Condition := mkCondition {
  c_Type : string;
  c_Status : string;
  c_ObservedGeneration : Z;
  c_LastTransitionTime : time;
  c_Reason : string;
  c_Message : string;
}.
#[export] Instance eta_Condition : Eta Condition := fun r =>
  mkCondition (c_Type r) (c_Status r) (c_ObservedGeneration r) (c_LastTransitionTime r)
    (c_Reason r) (c_Message r).

Definition ConditionTrue : string := "True".
Definition ConditionFalse : string := "False".

(** ** Core objects *)

Record ConfigMap := mkConfigMap { cm_Meta : ObjectMeta; cm_Data : option (gmap string string) }.
#[export] Instance eta_ConfigMap : Eta ConfigMap := fun r => mkConfigMap (cm_Meta r) (cm_Data r).

Record Secret := mkTypedSecret {
  sec_Meta : ObjectMeta;
  sec_Data : option (gmap string string);
  sec_Type : string;
}.
#[export] Instance eta_Secret : Eta Secret := fun r =>
  mkTypedSecret (sec_Meta r) (sec_Data r) (sec_Type r).
(** A secret whose type is left to the server. *)
Definition mkSecret (m : ObjectMeta) (d : option (gmap string string)) : Secret := mkTypedSecret m d "".
Definition SecretTypeOpaque : string := "Opaque".

Record ServiceAccount := mkServiceAccount {
  sa_Meta : ObjectMeta;
  sa_ImagePullSecrets : list LocalObjectReference;
}.
#[export] Instance eta_ServiceAccount : Eta ServiceAccount := fun r =>
  mkServiceAccount (sa_Meta r) (sa_ImagePullSecrets r).

(** Reading a possibly nil map: the zero value when the key is absent. *)
Definition map_get (m : option (gmap string string)) (k : string) : string :=
  match m with None => "" | Some m => default "" (m !! k) end.

(** The two-value form [v, ok := m[k]]. *)
Definition map_get_ok (m : option (gmap string string)) (k : string) : option string :=
  m ≫= (fun m => m !! k).

Inductive VolumeSource :=
| VolSecret (secretName : string)
| VolConfigMap (name : string) (defaultMode : option Z)
| VolHostPath (path : string)
| VolClaim (claimName : string) (readOnly : bool)
| VolEmptyDir
| VolOther.
Record Volume := mkVolume { vol_Name : string; vol_Source : VolumeSource }.
Record VolumeMount := mkVolumeMount { vm_Name : string; vm_MountPath : string; vm_ReadOnly : bool }.

Record PersistentVolumeClaim := mkPVC {
  pvc_Meta : ObjectMeta;
  pvc_AccessModes : list string;
  pvc_Requests : option (gmap string Quantity);   (* Spec.Resources.Requests *)
  pvc_Capacity : gmap string Quantity;            (* Status.Capacity *)
  pvc_Phase : string;                             (* Status.Phase *)
}.
#[export] Instance eta_PVC : Eta PersistentVolumeClaim := fun r =>
  mkPVC (pvc_Meta r) (pvc_AccessModes r) (pvc_Requests r) (pvc_Capacity r) (pvc_Phase r).

Definition ReadWriteOnce : string := "ReadWriteOnce".
Definition ClaimBound : string := "Bound".
Definition ResourceStorage : string := "storage".

(** [rl[name]] of a [ResourceList]: the zero quantity when absent. *)
Definition quantity_at (rl : option (gmap string Quantity)) (k : string) : Quantity :=
  match rl with None => 0%Z | Some m => default 0%Z (m !! k) end.

(** An environment variable: a literal value or a key of a secret. *)
Record EnvVar := mkEnvVar {
  ev_Name : string;
  ev_Value : string;
  ev_SecretKeyRef : option (string * string);     (* ValueFrom.SecretKeyRef: name, key *)
}.
Definition envValue (n v : string) : EnvVar := mkEnvVar n v None.

Record Container := mkContainer {
  ct_Name : string;
  ct_Image : string;
  ct_Command : list string;
  ct_Args : list string;
  ct_Env : list EnvVar;
}.

Record Job := mkJob {
  job_Meta : ObjectMeta;
  job_TTLSecondsAfterFinished : option Z;
  job_BackoffLimit : option Z;
  job_RestartPolicy : string;
  job_Containers : list Container;
}.

Record ContainerStatus := mkContainerStatus {
  cs_RestartCount : Z;
  cs_WaitingReason : option string;               (* State.Waiting.Reason *)
}.

Record Pod := mkPod {
  pod_Meta : ObjectMeta;
  pod_Phase : string;
  pod_ContainerStatuses : list ContainerStatus;
  pod_Containers : list string;                   (* the names in Spec.Containers *)
  pod_Volumes : list Volume;
}.
Definition PodRunning : string := "Running".
Definition PodPending : string := "Pending".
Definition PodFailed : string := "Failed".

Record NodeAddress := mkNodeAddress { na_Type : string; na_Address : string }.
Record NodeCondition := mkNodeCondition { nc_Type : string; nc_Status : string }.
Record Node := mkNode {
  node_Meta : ObjectMeta;
  node_Addresses : list NodeAddress;
  node_Conditions : list NodeCondition;
}.
Definition NodeInternalIP : string := "InternalIP".
Definition NodeInternalDNS : string := "InternalDNS".
Definition NodeReady : string := "Ready".

Record Namespace := mkNamespace { ns_Meta : ObjectMeta }.

(** ** Workloads and access control *)

Record ContainerPort := mkContainerPort { cpo_Name : string; cpo_Port : Z; cpo_Protocol : string }.

(** A container of a workload.  Quantities are kept as the constants they are parsed from. *)
Record PodContainer := mkPodContainer {
  pc_Name : string;
  pc_Image : string;
  pc_Command : list string;
  pc_Env : list EnvVar;
  pc_Ports : list ContainerPort;
  pc_VolumeMounts : list VolumeMount;
  pc_Requests : list (string * string);
  pc_Limits : list (string * string);
}.
#[export] Instance eta_PodContainer : Eta PodContainer := fun r =>
  mkPodContainer (pc_Name r) (pc_Image r) (pc_Command r) (pc_Env r) (pc_Ports r) (pc_VolumeMounts r)
    (pc_Requests r) (pc_Limits r).

Record PodSpec := mkPodSpec {
  ps_ServiceAccountName : string;
  ps_RestartPolicy : string;
  ps_NodeSelector : gmap string string;
  ps_Containers : list PodContainer;
  ps_Volumes : list Volume;
}.
#[export] Instance eta_PodSpec : Eta PodSpec := fun r =>
  mkPodSpec (ps_ServiceAccountName r) (ps_RestartPolicy r) (ps_NodeSelector r) (ps_Containers r)
    (ps_Volumes r).

Record Deployment := mkDeployment {
  dep_Meta : ObjectMeta;
  dep_Replicas : option Z;
  dep_MatchLabels : gmap string string;
  dep_PodLabels : gmap string string;
  dep_PodSpec : PodSpec;
}.
#[export] Instance eta_Deployment : Eta Deployment := fun r =>
  mkDeployment (dep_Meta r) (dep_Replicas r) (dep_MatchLabels r) (dep_PodLabels r) (dep_PodSpec r).

Record StatefulSet := mkStatefulSet {
  sts_Meta : ObjectMeta;
  sts_ServiceName : string;
  sts_Replicas : option Z;
  sts_MatchLabels : gmap string string;
  sts_PodLabels : gmap string string;
  sts_PodSpec : PodSpec;
}.

Record CronJob := mkCronJob {
  cj_Meta : ObjectMeta;
  cj_Schedule : string;
  cj_SuccessfulJobsHistoryLimit : option Z;
  cj_FailedJobsHistoryLimit : option Z;
  cj_BackoffLimit : option Z;
  cj_PodSpec : PodSpec;
}.
#[export] Instance eta_CronJob : Eta CronJob := fun r =>
  mkCronJob (cj_Meta r) (cj_Schedule r) (cj_SuccessfulJobsHistoryLimit r) (cj_FailedJobsHistoryLimit r)
    (cj_BackoffLimit r) (cj_PodSpec r).

Record ServicePort := mkServicePort {
  sp_Name : string; sp_Port : Z; sp_TargetPort : Z; sp_Protocol : string }.
Record Service := mkService {
  svc_Meta : ObjectMeta;
  svc_Selector : gmap string string;
  svc_Ports : list ServicePort;
  svc_ClusterIP : string;
}.
#[export] Instance eta_Service : Eta Service := fun r =>
  mkService (svc_Meta r) (svc_Selector r) (svc_Ports r) (svc_ClusterIP r).

Record PolicyRule := mkPolicyRule {
  pol_APIGroups : list string; pol_Resources : list string; pol_Verbs : list string }.
(** [Role] and [ClusterRole], [RoleBinding] and [ClusterRoleBinding]. *)
Record Role := mkRole { role_Meta : ObjectMeta; role_Rules : list PolicyRule }.
#[export] Instance eta_Role : Eta Role := fun r => mkRole (role_Meta r) (role_Rules r).
Record Subject := mkSubject { sub_Kind : string; sub_Name : string; sub_Namespace : string }.
Record RoleRef := mkRoleRef { rref_APIGroup : string; rref_Kind : string; rref_Name : string }.
Record RoleBinding := mkRoleBinding {
  rb_Meta : ObjectMeta; rb_Subjects : list Subject; rb_RoleRef : RoleRef }.

(** ** Tekton PipelineRuns *)

(** [pipelinev1.Param] with a string value. *)
Record Param := mkParam { p_Name : string; p_StringVal : string }.

(** The volume a workspace is bound to. *)
Inductive WorkspaceSource :=
| WsPVC (claim : string)
| WsConfigMap (name : string) (optional : option bool)
| WsSecret (name : string)
| WsEmptyDir.

Record WorkspaceBinding := mkWorkspace { ws_Name : string; ws_Source : WorkspaceSource }.

(** The part of an embedded pipeline the program inspects: for each task its name
    and the environments of its steps ([None]: no [TaskSpec]). *)
Record PipelineTask := mkTask { pt_Name : string; pt_Steps : option (list (list EnvVar)) }.

Record PipelineRunSpec := mkPRSpec {
  prs_PipelineRef : option string;
  prs_PipelineSpec : option (list PipelineTask);
  prs_Params : list Param;
  prs_Workspaces : list WorkspaceBinding;
  prs_TimeoutPipeline : option Duration;
  prs_TimeoutTasks : option Duration;
}.

(** A knative status condition. *)
Record PRCondition := mkPRCondition { prc_Type : string; prc_Status : string }.

Record PRResult := mkPRResult { prr_Name : string; prr_StringVal : string }.

Record PipelineRunStatus := mkPRStatus {
  prst_StartTime : option time;
  prst_CompletionTime : option time;
  prst_Conditions : list PRCondition;
  prst_Results : list PRResult;
}.

Record PipelineRun := mkPR {
  pr_Meta : ObjectMeta;
  pr_Spec : PipelineRunSpec;
  pr_Status : PipelineRunStatus;
}.

(** ** Dynamic values

    The values held by an [interface{}] in this program.  [JStrs] and [JMaps] are
    the dynamic types [[]string] and [[]map[string]interface{}], which a type
    assertion to [[]interface{}] does not accept. *)

Inductive json :=
| JNil
| JBool (b : bool)
| JInt (z : Z)                                    (* int and int64 *)
| JFloat (bits : Z)                               (* float64, its bit pattern *)
| JStr (s : string)
| JList (l : list json)
| JMap (m : list (string * json))
| JStrs (l : list string)
| JMaps (l : list (list (string * json))).

Abbreviation fields := (list (string * json)).

(** [m[k]], the nil interface when the key is absent. *)
Fixpoint jget (m : fields) (k : string) : json :=
  match m with
  | [] => JNil
  | (k', v) :: m' => if k' == k then v else jget m' k
  end.

(** [_, ok := m[k]]. *)
Fixpoint jhas (m : fields) (k : string) : bool :=
  match m with
  | [] => false
  | (k', _) :: m' => (k' == k) || jhas m' k
  end.

(** [m[k] = v]. *)
Fixpoint jset (m : fields) (k : string) (v : json) : fields :=
  match m with
  | [] => [(k, v)]
  | (k', v') :: m' => if k' == k then (k, v) :: m' else (k', v') :: jset m' k v
  end.

(** The type assertions [v.(string)], [v.(map[string]interface{})], ... *)
Definition as_string (v : json) : option string := match v with JStr s => Some s | _ => None end.
Definition as_bool (v : json) : option bool := match v with JBool b => Some b | _ => None end.
Definition as_map (v : json) : option fields := match v with JMap m => Some m | _ => None end.
Definition as_list (v : json) : option (list json) := match v with JList l => Some l | _ => None end.
Definition as_maps (v : json) : option (list fields) := match v with JMaps l => Some l | _ => None end.

(** [v == "s"] for an interface [v] and a string constant. *)
Definition iface_is (v : json) (s : string) : bool :=
  match v with JStr t => t == s | _ => false end.

(** An object of a kind the program has no Go type for. *)
Record Unstructured := mkUnstructured {
  u_GVK : GroupVersionKind;
  u_Meta : ObjectMeta;
  u_Object : fields;                              (* everything but the metadata *)
}.
#[export] Instance eta_Unstructured : Eta Unstructured := fun r =>
  mkUnstructured (u_GVK r) (u_Meta r) (u_Object r).

(** ** Lemmas *)

Lemma jget_jset_eq m k v : jget (jset m k v) k = v.
Proof.
  induction m as [|[k' v'] m IH]; simpl; [by rewrite str_eqb_refl|].
  destruct (k' == k) eqn:E; simpl; [by rewrite str_eqb_refl|by rewrite E].
Qed.

Lemma jget_jset_ne m k k' v : k <> k' -> jget (jset m k v) k' = jget m k'.
Proof.
  intros Hne. induction m as [|[k2 v2] m IH]; simpl.
  - by rewrite str_eqb_ne.
  - destruct (k2 == k) eqn:E; simpl.
    + str_eq. subst. by rewrite (str_eqb_ne k k').
    + by rewrite IH.
Qed.

Lemma iface_is_spec v s : iface_is v s = true <-> v = JStr s.
Proof. destruct v; simpl; try (split; congruence). rewrite String.eqb_eq. naive_solver. Qed.
#[export] Hint Resolve jget_jset_eq jget_jset_ne : go.

#[export] Instance NamespacedName_eq_dec : EqDecision NamespacedName.
Proof. solve_decision. Defined.
#[export] Instance GroupVersionKind_eq_dec : EqDecision GroupVersionKind.
Proof. solve_decision. Defined.
