(* ===== verification/Json.v ===== *)
(** JSON values as the program sees them: what [encoding/json] decodes into an [interface{}]
    ([json_plain]), and the equality of such values up to the order of the keys of their
    objects ([json_equiv]), since a Go map has no order and printing one sorts its keys. *)
From S2P Require Import Prelude GoStrings K8s.
From Stdlib Require Import RelationClasses Morphisms.

(** ** UTF-8 *)

Definition is_cont (c : ascii) : bool := ((128 <=? N_of_ascii c) && (N_of_ascii c <? 192))%N.

(** [utf8.ValidString]: the encodings of one, two, three and four bytes, overlong forms and
    surrogates excluded. *)
Fixpoint utf8_valid (s : string) : bool :=
  match s with
  | EmptyString => true
  | String a t =>
      let n := N_of_ascii a in
      if (n <? 128)%N then utf8_valid t
      else
        match t with
        | String b t2 =>
            let m := N_of_ascii b in
            if ((194 <=? n) && (n <? 224))%N then is_cont b && utf8_valid t2
            else
              match t2 with
              | String c t3 =>
                  if ((224 <=? n) && (n <? 240))%N then
                    ((negb (n =? 224) || (160 <=? m)) && (negb (n =? 237) || (m <? 160)))%N
                      && is_cont b && is_cont c && utf8_valid t3
                  else
                    match t3 with
                    | String d t4 =>
                        if ((240 <=? n) && (n <? 245))%N then
                          ((negb (n =? 240) || (144 <=? m)) && (negb (n =? 244) || (m <? 144)))%N
                            && is_cont b && is_cont c && is_cont d && utf8_valid t4
                        else false
                    | EmptyString => false
                    end
              | EmptyString => false
              end
        | EmptyString => false
        end
  end.

(** ** Decoded values *)

(** Not a NaN or an infinity. *)
Definition finite_bits (bits : Z) : bool := negb ((bits / 2 ^ 52) mod 2048 =? 2047)%Z.

(** A value that decoding can produce: no Go slices of strings or of maps, no integers
    (numbers are float64), text that is UTF-8. *)
Fixpoint json_plain (v : json) : bool :=
  match v with
  | JNil | JBool _ => true
  | JFloat bits => finite_bits bits
  | JStr s => utf8_valid s
  | JList l => forallb json_plain l
  | JMap m => forallb (fun kv => utf8_valid (fst kv) && json_plain (snd kv)) m
  | JInt _ | JStrs _ | JMaps _ => false
  end.

(** ** Equality up to the order of keys *)

Inductive json_equiv : json -> json -> Prop :=
| je_refl v : json_equiv v v
| je_list l l' : json_equivs l l' -> json_equiv (JList l) (JList l')
| je_map m m' :
    (forall k, jhas m k = jhas m' k) ->
    (forall k, json_equiv (jget m k) (jget m' k)) ->
    json_equiv (JMap m) (JMap m')
with json_equivs : list json -> list json -> Prop :=
| jes_nil : json_equivs [] []
| jes_cons v v' l l' : json_equiv v v' -> json_equivs l l' -> json_equivs (v :: l) (v' :: l').

Scheme json_equiv_mut := Induction for json_equiv Sort Prop
with json_equivs_mut := Induction for json_equivs Sort Prop.

Definition fields_equiv (m m' : fields) : Prop := json_equiv (JMap m) (JMap m').

(** ** Lemmas *)

#[export] Instance json_equiv_refl : Reflexive json_equiv.
Proof. intros v. apply je_refl. Qed.

Lemma json_equivs_refl l : json_equivs l l.
Proof. induction l; constructor; [apply je_refl|done]. Qed.

#[export] Instance json_equiv_sym : Symmetric json_equiv.
Proof.
  intros v v'.
  apply (json_equiv_mut (fun v v' _ => json_equiv v' v) (fun l l' _ => json_equivs l' l));
    intros; constructor; auto.
Qed.

Lemma json_equiv_trans_mut v1 v2 :
  json_equiv v1 v2 -> forall v3, json_equiv v2 v3 -> json_equiv v1 v3.
Proof.
  apply (json_equiv_mut (fun v1 v2 _ => forall v3, json_equiv v2 v3 -> json_equiv v1 v3)
           (fun l1 l2 _ => forall l3, json_equivs l2 l3 -> json_equivs l1 l3)).
  - auto.
  - intros l l' Hl IH v3 H. inversion H; subst; constructor; auto.
  - intros m m' Hh Hg IH v3 H. inversion H as [|?|? m3 Hh3 Hg3]; subst; [by constructor|].
    constructor; [intros k; by rewrite Hh|intros k; by apply IH].
  - auto.
  - intros w w' l l' _ IHw _ IHl l3 H. inversion H; subst. constructor; auto.
Qed.
#[export] Instance json_equiv_trans : Transitive json_equiv.
Proof. intros v1 v2 v3 H1 H2. by eapply json_equiv_trans_mut. Qed.
#[export] Instance json_equiv_equivalence : Equivalence json_equiv.
Proof. split; exact _. Qed.
#[export] Instance fields_equiv_equivalence : Equivalence fields_equiv.
Proof.
  split; unfold fields_equiv; [intros m; reflexivity|intros m m' H; by symmetry|].
  intros m1 m2 m3 H1 H2. by transitivity (JMap m2).
Qed.

Lemma fields_equiv_spec m m' :
  fields_equiv m m' <->
  (forall k, jhas m k = jhas m' k) /\ (forall k, json_equiv (jget m k) (jget m' k)).
Proof.
  unfold fields_equiv. split; [|intros [? ?]; by constructor].
  intros H. inversion H; subst; [split; [done|intros; reflexivity]|done].
Qed.

(** What is equal to an object is an object. *)
Lemma json_equiv_map_inv v m : json_equiv v (JMap m) -> exists x, v = JMap x /\ fields_equiv x m.
Proof.
  intros H. remember (JMap m) as w eqn:E. destruct H as [v|l l' H|m1 m2 H1 H2]; [|done|].
  - exists m. split; [done|reflexivity].
  - injection E as ->. exists m1. split; [done|]. by apply fields_equiv_spec.
Qed.

#[export] Instance jget_proper : Proper (fields_equiv ==> eq ==> json_equiv) jget.
Proof. intros m m' [_ H]%fields_equiv_spec k ? <-. apply H. Qed.
#[export] Instance jhas_proper : Proper (fields_equiv ==> eq ==> eq) jhas.
Proof. intros m m' [H _]%fields_equiv_spec k ? <-. apply H. Qed.

Lemma jhas_jset m k v k' : jhas (jset m k v) k' = (k == k') || jhas m k'.
Proof.
  induction m as [|[k2 v2] m IH]; simpl; [by rewrite orb_false_r|].
  destruct (k2 == k) eqn:E; simpl; [str_eq; subst; by destruct (k == k')|].
  rewrite IH. by destruct (k2 == k'), (k == k').
Qed.

Lemma jget_jset m k v k' : jget (jset m k v) k' = if k == k' then v else jget m k'.
Proof.
  destruct (k == k') eqn:E; str_eq; subst; [apply jget_jset_eq|by apply jget_jset_ne].
Qed.

Lemma jget_absent m k : jhas m k = false -> jget m k = JNil.
Proof.
  induction m as [|[k' v] m IH]; simpl; [done|]. intros [H1 H2]%orb_false_iff.
  rewrite H1. auto.
Qed.

#[export] Instance jset_proper : Proper (fields_equiv ==> eq ==> json_equiv ==> fields_equiv) jset.
Proof.
  intros m m' Hm k ? <- v v' Hv. apply fields_equiv_spec. split; intros k'.
  - by rewrite !jhas_jset, Hm.
  - rewrite !jget_jset. destruct (k == k'); [done|by rewrite Hm].
Qed.

(** Setting a key to what it has, or two keys in either order, makes no difference. *)
Lemma jset_same m k v : jhas m k = true -> json_equiv (jget m k) v -> fields_equiv (jset m k v) m.
Proof.
  intros Hk Hv. apply fields_equiv_spec. split; intros k'.
  - rewrite jhas_jset. destruct (k == k') eqn:E; str_eq; subst; [by rewrite Hk|done].
  - rewrite jget_jset. destruct (k == k') eqn:E; str_eq; subst; [by symmetry|reflexivity].
Qed.

Lemma jset_comm m k1 v1 k2 v2 :
  k1 <> k2 -> fields_equiv (jset (jset m k1 v1) k2 v2) (jset (jset m k2 v2) k1 v1).
Proof.
  intros Hne. apply fields_equiv_spec. split; intros k.
  - rewrite !jhas_jset. by destruct (k1 == k), (k2 == k).
  - rewrite !jget_jset. destruct (k1 == k) eqn:E1, (k2 == k) eqn:E2; try reflexivity.
    str_eq. congruence.
Qed.

Lemma jset_jset m k v v' : fields_equiv (jset (jset m k v) k v') (jset m k v').
Proof.
  apply fields_equiv_spec. split; intros k'.
  - rewrite !jhas_jset. by destruct (k == k').
  - rewrite !jget_jset. by destruct (k == k').
Qed.

(** What is in a decoded object is decoded. *)
Lemma json_plain_jget m k : json_plain (JMap m) = true -> json_plain (jget m k) = true.
Proof.
  induction m as [|[k' v] m IH]; simpl; [done|].
  intros [[_ Hv]%andb_true_iff Hm]%andb_true_iff. destruct (k' == k); auto.
Qed.

Lemma json_plain_jset m k v :
  json_plain (JMap m) = true -> utf8_valid k = true -> json_plain v = true ->
  json_plain (JMap (jset m k v)) = true.
Proof.
  intros Hm Hk Hv. induction m as [|[k' v'] m IH]; simpl; [by rewrite Hk, Hv|].
  simpl in Hm. apply andb_true_iff in Hm as [H1 H2].
  apply andb_true_iff in H1 as [H1 H1']. specialize (IH H2). simpl in IH.
  destruct (k' == k); simpl; [by rewrite Hk, Hv|by rewrite H1, H1', IH].
Qed.

Lemma json_plain_map_key m k : json_plain (JMap m) = true -> jhas m k = true -> utf8_valid k = true.
Proof.
  induction m as [|[k' v] m IH]; simpl; [done|].
  intros [[Hk _]%andb_true_iff Hm]%andb_true_iff [E|E]%orb_true_iff; [by str_eq; subst|auto].
Qed.

Example utf8_accepts : utf8_valid "café ✗" = true.
Proof. reflexivity. Qed.
Example utf8_rejects : utf8_valid (String "255" EmptyString) = false.
Proof. reflexivity. Qed.

(** ** Paths *)

(** The value at a path of nested maps: [Some None] when absent, [None] when a step is
    not a map. *)
Fixpoint walk (m : fields) (path : list string) : option (option json) :=
  match path with
  | [] => Some (Some (JMap m))
  | [k] => Some (if jhas m k then Some (jget m k) else None)
  | k :: rest =>
      if jhas m k then
        match jget m k with
        | JMap m' => walk m' rest
        | _ => None
        end
      else Some None
  end.

(** Two paths, neither of which is the start of the other. *)
Fixpoint diverge (p q : list string) : bool :=
  match p, q with
  | x :: p', y :: q' => if x == y then diverge p' q' else true
  | _, _ => false
  end.

(** A value can be set at the path: each step on the way is a map or missing. *)
Fixpoint settable (m : fields) (path : list string) : bool :=
  match path with
  | [] => false
  | [k] => true
  | k :: rest =>
      if jhas m k then match jget m k with JMap m' => settable m' rest | _ => false end
      else true
  end.

(** A value the accessors can copy: Go slices of strings or of maps make them panic. *)
Fixpoint copyable (v : json) : bool :=
  match v with
  | JList l => forallb copyable l
  | JMap m => forallb (fun kv => copyable (snd kv)) m
  | JStrs _ | JMaps _ => false
  | _ => true
  end.

(** ** Comparing interfaces *)

(** [a == b] at float64: NaN is not equal to itself, and the two zeros are equal. *)
Definition float_eqb (a b : Z) : bool :=
  let nan x := negb (finite_bits x) && negb (x mod 2 ^ 52 =? 0)%Z in
  ((a =? b)%Z && negb (nan a)) || ((a mod 2 ^ 63 =? 0)%Z && (b mod 2 ^ 63 =? 0)%Z).

(** [a == b] at interfaces; [None]: it panics, since slices and maps cannot be compared. *)
Definition iface_eqb (a b : json) : option bool :=
  match a, b with
  | JNil, JNil => Some true
  | JBool x, JBool y => Some (Bool.eqb x y)
  | JInt x, JInt y => Some (x =? y)%Z
  | JFloat x, JFloat y => Some (float_eqb x y)
  | JStr x, JStr y => Some (x == y)
  | JList _, JList _ | JMap _, JMap _ | JStrs _, JStrs _ | JMaps _, JMaps _ => None
  | _, _ => Some false
  end.
