(* ===== verification/GoTime.v ===== *)
(** Calendar dates and the [time.Format] layouts the program uses.  The local time
    zone is a property of the process: it is given by the offset in force at each
    instant. *)
From S2P Require Import Prelude GoStrings K8s.

(** Proleptic Gregorian date of a day number (0 is 1970-01-01), by 400-year eras of
    146097 days with the year starting in March. *)
Definition civil_from_days (z0 : Z) : Z * Z * Z :=
  let z := (z0 + 719468)%Z in
  let era := (z / 146097)%Z in
  let doe := (z mod 146097)%Z in
  let yoe := ((doe - doe / 1460 + doe / 36524 - doe / 146096) / 365)%Z in
  let doy := (doe - (365 * yoe + yoe / 4 - yoe / 100))%Z in
  let mp := ((5 * doy + 2) / 153)%Z in
  let d := (doy - (153 * mp + 2) / 5 + 1)%Z in
  let m := (if mp <? 10 then mp + 3 else mp - 9)%Z in
  let y := (yoe + era * 400 + (if m <=? 2 then 1 else 0))%Z in
  (y, m, d).

(** Decimal, left-padded with zeros to [w] digits. *)
Fixpoint zeros (n : nat) : string :=
  match n with O => EmptyString | S n' => String "0"%char (zeros n') end.
Definition pad (w : nat) (z : Z) : string :=
  let s := itoa (Z.abs z) in
  (if (z <? 0)%Z then "-" else "") +:+ zeros (w - String.length s) +:+ s.

Section Zone.
(** Seconds east of UTC at an instant. *)
Context (utcOffset : time -> Z).

Definition local_seconds (t : time) : Z := (t / Second + utcOffset t)%Z.

Definition local_date (t : time) : Z * Z * Z := civil_from_days (local_seconds t / 86400).

(** Layouts ["2006"], ["01"], ["02"] and ["20060102"]. *)
Definition Format2006 (t : time) : string := let '(y, _, _) := local_date t in pad 4 y.
Definition Format01 (t : time) : string := let '(_, m, _) := local_date t in pad 2 m.
Definition Format02 (t : time) : string := let '(_, _, d) := local_date t in pad 2 d.
Definition Format20060102 (t : time) : string := Format2006 t +:+ Format01 t +:+ Format02 t.

(** [time.RFC3339]: ["2006-01-02T15:04:05Z07:00"]. *)
Definition FormatRFC3339 (t : time) : string :=
  let s := (local_seconds t mod 86400)%Z in
  let off := utcOffset t in
  let zone :=
    if (off =? 0)%Z then "Z"
    else (if (off <? 0)%Z then "-" else "+") +:+ pad 2 (Z.abs off / 3600) +:+ ":"
           +:+ pad 2 (Z.abs off / 60 mod 60) in
  Format2006 t +:+ "-" +:+ Format01 t +:+ "-" +:+ Format02 t +:+ "T" +:+
  pad 2 (s / 3600) +:+ ":" +:+ pad 2 (s / 60 mod 60) +:+ ":" +:+ pad 2 (s mod 60) +:+ zone.
End Zone.

Example civil_epoch : civil_from_days 0 = (1970, 1, 1)%Z.
Proof. reflexivity. Qed.
Example civil_leap : civil_from_days 11016 = (2000, 2, 29)%Z.
Proof. reflexivity. Qed.
Example civil_zero : civil_from_days (zero_time / (86400 * Second)) = (1, 1, 1)%Z.
Proof. reflexivity. Qed.

(** Months are 1 to 12 and days 1 to 31. *)
Lemma civil_month_range z : let '(_, m, _) := civil_from_days z in (1 <= m <= 12)%Z.
Proof.
  unfold civil_from_days.
  set (doe := ((z + 719468) mod 146097)%Z).
  assert (0 <= doe < 146097)%Z by (apply Z.mod_pos_bound; lia).
  set (yoe := ((doe - doe / 1460 + doe / 36524 - doe / 146096) / 365)%Z).
  set (doy := (doe - (365 * yoe + yoe / 4 - yoe / 100))%Z).
  assert (0 <= doy <= 366)%Z.
  { unfold doy, yoe. Z.to_euclidean_division_equations. nia. }
  set (mp := ((5 * doy + 2) / 153)%Z).
  assert (0 <= mp <= 11)%Z by (unfold mp; Z.to_euclidean_division_equations; lia).
  destruct (mp <? 10)%Z eqn:E; [apply Z.ltb_lt in E|apply Z.ltb_ge in E]; lia.
Qed.
