(* ===== verification/Base64.v ===== *)
(** [encoding/base64] of the Go standard library, at the two encodings the program
    uses: [StdEncoding] (padded) to write Ignition files and credentials, and
    [RawURLEncoding] (unpadded, URL alphabet) to read the payload of a JWT.  Decoding
    follows the library: line breaks are skipped and trailing bits are not checked. *)
From S2P Require Import Prelude GoStrings.

(** ** Alphabets *)

Inductive alphabet := StdAlphabet | URLAlphabet.

(** The digit of a six-bit value. *)
Definition encode_digit (a : alphabet) (n : N) : ascii :=
  (if n <? 26 then ascii_of_N (65 + n)
   else if n <? 52 then ascii_of_N (97 + (n - 26))
   else if n <? 62 then ascii_of_N (48 + (n - 52))
   else match a with
        | StdAlphabet => if n =? 62 then "+"%char else "/"%char
        | URLAlphabet => if n =? 62 then "-"%char else "_"%char
        end)%N.

(** The value of a digit. *)
Definition decode_digit (a : alphabet) (c : ascii) : option N :=
  (let n := N_of_ascii c in
   if (65 <=? n) && (n <=? 90) then Some (n - 65)
   else if (97 <=? n) && (n <=? 122) then Some (n - 97 + 26)
   else if (48 <=? n) && (n <=? 57) then Some (n - 48 + 52)
   else match a with
        | StdAlphabet =>
            if Ascii.eqb c "+" then Some 62 else if Ascii.eqb c "/" then Some 63 else None
        | URLAlphabet =>
            if Ascii.eqb c "-" then Some 62 else if Ascii.eqb c "_" then Some 63 else None
        end)%N.

(** ** Groups of three bytes *)

Definition d0 (x : N) : N := (x / 4)%N.
Definition d1 (x y : N) : N := ((x mod 4) * 16 + y / 16)%N.
Definition d2 (y z : N) : N := ((y mod 16) * 4 + z / 64)%N.
Definition d3 (z : N) : N := (z mod 64)%N.

Definition b0 (p q : N) : N := ((p * 4 + q / 16) mod 256)%N.
Definition b1 (q r : N) : N := ((q * 16 + r / 4) mod 256)%N.
Definition b2 (r s : N) : N := ((r * 64 + s) mod 256)%N.

(** The padding of an encoding: [=] characters, or nothing. *)
Definition padding (padded : bool) (n : nat) : list ascii :=
  if padded then replicate n "="%char else [].

Fixpoint encode_bytes (a : alphabet) (padded : bool) (l : list ascii) : list ascii :=
  let e := encode_digit a in
  match l with
  | [] => []
  | [x] => let x := N_of_ascii x in [e (d0 x); e (d1 x 0)] ++ padding padded 2
  | [x; y] =>
      let x := N_of_ascii x in let y := N_of_ascii y in
      [e (d0 x); e (d1 x y); e (d2 y 0)] ++ padding padded 1
  | x :: y :: z :: rest =>
      let x := N_of_ascii x in let y := N_of_ascii y in let z := N_of_ascii z in
      e (d0 x) :: e (d1 x y) :: e (d2 y z) :: e (d3 z) :: encode_bytes a padded rest
  end.

(** Decoding digits of an unpadded encoding: a single leftover digit is an error. *)
Fixpoint decode_digits (l : list N) : option (list ascii) :=
  match l with
  | [] => Some []
  | [_] => None
  | [p; q] => Some [ascii_of_N (b0 p q)]
  | [p; q; r] => Some [ascii_of_N (b0 p q); ascii_of_N (b1 q r)]
  | p :: q :: r :: s :: rest =>
      option_map (fun t => ascii_of_N (b0 p q) :: ascii_of_N (b1 q r) :: ascii_of_N (b2 r s) :: t)
        (decode_digits rest)
  end.

Definition is_newline (c : ascii) : bool := Ascii.eqb c "010" || Ascii.eqb c "013".

(** [base64.StdEncoding.EncodeToString] and [base64.RawURLEncoding.EncodeToString]. *)
Definition StdEncodeToString (s : string) : string :=
  string_of_list_ascii (encode_bytes StdAlphabet true (list_ascii_of_string s)).
Definition RawURLEncodeToString (s : string) : string :=
  string_of_list_ascii (encode_bytes URLAlphabet false (list_ascii_of_string s)).

(** [base64.RawURLEncoding.DecodeString]; [None]: a [CorruptInputError]. *)
Definition RawURLDecodeString (s : string) : option string :=
  digits ← mapM (decode_digit URLAlphabet)
             (List.filter (fun c => negb (is_newline c)) (list_ascii_of_string s));
  bytes ← decode_digits digits;
  Some (string_of_list_ascii bytes).

(** The standard encoding with its padding removed, decoded: what a consumer of an
    Ignition file does. *)
Definition StdDecodeString (s : string) : option string :=
  digits ← mapM (decode_digit StdAlphabet)
             (List.filter (fun c => negb (Ascii.eqb c "=")) (list_ascii_of_string s));
  bytes ← decode_digits digits;
  Some (string_of_list_ascii bytes).

(** ** Round trip *)

Lemma N_of_ascii_lt c : (N_of_ascii c < 256)%N.
Proof. apply N_ascii_bounded. Qed.

Lemma decode_encode_digit a n : (n < 64)%N -> decode_digit a (encode_digit a n) = Some n.
Proof.
  intros H.
  assert (Hall : forallb (fun k => bool_decide (decode_digit a (encode_digit a (N.of_nat k)) = Some (N.of_nat k)))
                   (List.seq 0 64) = true) by (destruct a; vm_compute; reflexivity).
  rewrite forallb_forall in Hall. specialize (Hall (N.to_nat n)). rewrite N2Nat.id in Hall.
  apply (bool_decide_eq_true_1 _), Hall, in_seq. lia.
Qed.

Lemma digit_not_special a n : (n < 64)%N ->
  is_newline (encode_digit a n) = false /\ Ascii.eqb (encode_digit a n) "=" = false.
Proof.
  intros H. pose proof (decode_encode_digit a n H) as E. split.
  - unfold is_newline. apply orb_false_iff.
    split; apply Ascii.eqb_neq; intros C; rewrite C in E; by destruct a.
  - apply Ascii.eqb_neq. intros C. rewrite C in E. by destruct a.
Qed.

Lemma d_bounds x y z : (x < 256 -> y < 256 -> z < 256 ->
  d0 x < 64 /\ d1 x y < 64 /\ d2 y z < 64 /\ d3 z < 64)%N.
Proof. unfold d0, d1, d2, d3. intros. zify. Z.to_euclidean_division_equations. lia. Qed.

Lemma pair_div u v k : (v < k -> (u * k + v) / k = u)%N.
Proof. intros. rewrite N.div_add_l, N.div_small; lia. Qed.

Lemma pair_mod u v k : (v < k -> (u * k + v) mod k = v)%N.
Proof.
  intros. rewrite N.add_comm, N.Div0.mod_add. by apply N.mod_small.
Qed.

Lemma div_below x k m : (0 < k -> x < k * m -> x / k < m)%N.
Proof. intros. apply N.Div0.div_lt_upper_bound; lia. Qed.

Lemma div_mod_sum x k : (0 < k -> x / k * k + x mod k = x)%N.
Proof. intros. pose proof (N.div_mod x k). lia. Qed.

Lemma b_inverse x y z : (x < 256 -> y < 256 -> z < 256 ->
  b0 (d0 x) (d1 x y) = x /\ b1 (d1 x y) (d2 y z) = y /\ b2 (d2 y z) (d3 z) = z)%N.
Proof.
  intros Hx Hy Hz. unfold b0, b1, b2, d0, d1, d2, d3.
  pose proof (div_mod_sum x 4) as X. pose proof (div_mod_sum y 16) as Y.
  pose proof (div_mod_sum z 64) as Z.
  repeat split.
  - rewrite pair_div by (apply div_below; lia). rewrite X by lia. by apply N.mod_small.
  - rewrite pair_div by (apply div_below; lia).
    replace ((x mod 4 * 16 + y / 16) * 16 + y mod 16)%N
      with (x mod 4 * 256 + y)%N by lia. by apply pair_mod.
  - replace ((y mod 16 * 4 + z / 64) * 64 + z mod 64)%N
      with (y mod 16 * 256 + z)%N by lia. by apply pair_mod.
Qed.

(** The digits an encoder writes, before they are turned into characters. *)
Fixpoint digits_of (l : list ascii) : list N :=
  match l with
  | [] => []
  | [x] => [d0 (N_of_ascii x); d1 (N_of_ascii x) 0]
  | [x; y] =>
      let x := N_of_ascii x in let y := N_of_ascii y in [d0 x; d1 x y; d2 y 0]
  | x :: y :: z :: rest =>
      let x := N_of_ascii x in let y := N_of_ascii y in let z := N_of_ascii z in
      d0 x :: d1 x y :: d2 y z :: d3 z :: digits_of rest
  end.

(** Induction three bytes at a time. *)
Lemma triples_ind (P : list ascii -> Prop) :
  P [] -> (forall x, P [x]) -> (forall x y, P [x; y]) ->
  (forall x y z l, P l -> P (x :: y :: z :: l)) -> forall l, P l.
Proof.
  intros H0 H1 H2 H3. fix IH 1.
  intros [|x [|y [|z l]]]; [exact H0|apply H1|apply H2|apply H3, IH].
Qed.

Lemma digits_bounded l : Forall (fun n => n < 64)%N (digits_of l).
Proof.
  induction l as [|x|x y|x y z l IH] using triples_ind; simpl; [constructor|..].
  - pose proof (d_bounds (N_of_ascii x) 0 0) as B.
    destruct B as (?&?&_); [apply N_of_ascii_lt|lia..|]. by repeat constructor.
  - pose proof (d_bounds (N_of_ascii x) (N_of_ascii y) 0) as B.
    destruct B as (?&?&?&_); [apply N_of_ascii_lt|apply N_of_ascii_lt|lia|]. by repeat constructor.
  - pose proof (d_bounds (N_of_ascii x) (N_of_ascii y) (N_of_ascii z)) as B.
    destruct B as (?&?&?&?); [apply N_of_ascii_lt..|]. by repeat constructor.
Qed.

Lemma encode_bytes_digits a padded l :
  exists n, encode_bytes a padded l = map (encode_digit a) (digits_of l) ++ padding padded n.
Proof.
  induction l as [|x|x y|x y z l [n IH]] using triples_ind; simpl.
  - exists 0. by destruct padded.
  - by exists 2.
  - by exists 1.
  - exists n. by rewrite IH.
Qed.

Lemma decode_digits_of l : decode_digits (digits_of l) = Some l.
Proof.
  induction l as [|x|x y|x y z l IH] using triples_ind; [done|..].
  - cbn -[d0 d1 b0]. destruct (b_inverse (N_of_ascii x) 0 0) as (->&_&_);
      [apply N_of_ascii_lt|lia..|]. by rewrite ascii_N_embedding.
  - cbn -[d0 d1 d2 b0 b1]. destruct (b_inverse (N_of_ascii x) (N_of_ascii y) 0) as (->&->&_);
      [apply N_of_ascii_lt|apply N_of_ascii_lt|lia|]. by rewrite !ascii_N_embedding.
  - cbn -[d0 d1 d2 d3 b0 b1 b2].
    destruct (b_inverse (N_of_ascii x) (N_of_ascii y) (N_of_ascii z)) as (->&->&->);
      [apply N_of_ascii_lt..|]. by rewrite !ascii_N_embedding, IH.
Qed.

Lemma mapM_decode a l : Forall (fun n => n < 64)%N l ->
  mapM (decode_digit a) (map (encode_digit a) l) = Some l.
Proof. induction 1 as [|n l Hn _ IH]; [done|]. simpl. by rewrite decode_encode_digit, IH. Qed.

Lemma filter_digits a (p : ascii -> bool) l n :
  (forall m, (m < 64)%N -> p (encode_digit a m) = true) -> p "="%char = false \/ n = 0 ->
  Forall (fun n => n < 64)%N l ->
  List.filter p (map (encode_digit a) l ++ replicate n "="%char) = map (encode_digit a) l.
Proof.
  intros Hp Hn. induction 1 as [|m l Hm _ IH]; simpl.
  - destruct Hn as [Hn| ->]; [|done]. induction n as [|n IHn]; simpl; [done|by rewrite Hn].
  - by rewrite Hp, IH.
Qed.

(** Standard encoding, padding stripped and decoded, is the identity on byte strings. *)
Lemma StdDecode_encode s : StdDecodeString (StdEncodeToString s) = Some s.
Proof.
  unfold StdDecodeString, StdEncodeToString.
  rewrite list_ascii_of_string_of_list_ascii.
  destruct (encode_bytes_digits StdAlphabet true (list_ascii_of_string s)) as [n ->].
  simpl padding. rewrite filter_digits.
  - rewrite mapM_decode by apply digits_bounded. simpl.
    rewrite decode_digits_of. cbn. by rewrite string_of_list_ascii_of_string.
  - intros m Hm. by destruct (digit_not_special StdAlphabet m Hm) as [_ ->].
  - by left.
  - apply digits_bounded.
Qed.

(** The payload a JWT issuer encodes is the payload [RawURLDecodeString] reads. *)
Lemma RawURLDecode_encode s : RawURLDecodeString (RawURLEncodeToString s) = Some s.
Proof.
  unfold RawURLDecodeString, RawURLEncodeToString.
  rewrite list_ascii_of_string_of_list_ascii.
  destruct (encode_bytes_digits URLAlphabet false (list_ascii_of_string s)) as [n ->].
  simpl padding. change (@nil ascii) with (replicate 0 "="%char).
  rewrite filter_digits.
  - rewrite mapM_decode by apply digits_bounded. simpl.
    rewrite decode_digits_of. cbn. by rewrite string_of_list_ascii_of_string.
  - intros m Hm. by destruct (digit_not_special URLAlphabet m Hm) as [-> _].
  - by right.
  - apply digits_bounded.
Qed.

Example std_encodes_hello : StdEncodeToString "hello" = "aGVsbG8=".
Proof. vm_compute. reflexivity. Qed.

(** A character that is not a digit does not occur in an unpadded encoding. *)
Lemma RawURLEncode_avoids c s :
  decode_digit URLAlphabet c = None -> index_opt (RawURLEncodeToString s) (sep1 c) = None.
Proof.
  intros Hc. unfold RawURLEncodeToString.
  destruct (encode_bytes_digits URLAlphabet false (list_ascii_of_string s)) as [n ->].
  simpl padding. rewrite app_nil_r. induction (digits_bounded (list_ascii_of_string s)) as [|m l Hm _ IH].
  - done.
  - cbn [map string_of_list_ascii]. apply index_sep1_cons. split; [|done].
    intros ->. by rewrite decode_encode_digit in Hc.
Qed.
