(* ===== verification/Sha256.v ===== *)
(** Go's [crypto/sha256] and [encoding/hex], which the program uses to name resources and to
    recognise a specification it has already applied: SHA-256 (FIPS 180-4) on the bytes of a
    string, with 32-bit words as [Z] modulo 2^32. *)
From S2P Require Import Prelude GoStrings.
#[local] Open Scope Z_scope.

(** ** Words *)

Definition w32 (x : Z) : Z := x mod 2 ^ 32.
Definition add32 (x y : Z) : Z := w32 (x + y).
Definition rotr (n x : Z) : Z := Z.lor (Z.shiftr x n) (w32 (Z.shiftl x (32 - n))).
Definition not32 (x : Z) : Z := Z.lxor x (2 ^ 32 - 1).

Definition Ch (x y z : Z) : Z := Z.lxor (Z.land x y) (Z.land (not32 x) z).
Definition Maj (x y z : Z) : Z := Z.lxor (Z.lxor (Z.land x y) (Z.land x z)) (Z.land y z).
Definition BSig0 (x : Z) : Z := Z.lxor (Z.lxor (rotr 2 x) (rotr 13 x)) (rotr 22 x).
Definition BSig1 (x : Z) : Z := Z.lxor (Z.lxor (rotr 6 x) (rotr 11 x)) (rotr 25 x).
Definition SSig0 (x : Z) : Z := Z.lxor (Z.lxor (rotr 7 x) (rotr 18 x)) (Z.shiftr x 3).
Definition SSig1 (x : Z) : Z := Z.lxor (Z.lxor (rotr 17 x) (rotr 19 x)) (Z.shiftr x 10).

(** The constants of the standard: the first 32 bits of the fractional parts of the cube roots
    of the first 64 primes, and of the square roots of the first eight. *)
Definition primes : list Z :=
  let prime n := forallb (fun d => negb (n mod d =? 0)) (map Z.of_nat (seq 2 (Z.to_nat (Z.sqrt n) - 1))) in
  List.filter prime (map Z.of_nat (seq 2 310)).

(** The cube root of [n] below [2 ^ bits], rounded down, one bit after the other. *)
Fixpoint cbrt (bits : nat) (n root : Z) : Z :=
  match bits with
  | O => root
  | S m => let r := root + 2 ^ Z.of_nat m in cbrt m n (if r * r * r <=? n then r else root)
  end.

Definition K256 : list Z := Eval vm_compute in map (fun p => w32 (cbrt 40 (p * 2 ^ 96) 0)) primes.
Definition H256 : list Z := Eval vm_compute in map (fun p => w32 (Z.sqrt (p * 2 ^ 64))) (take 8 primes).

(** ** Padding and blocks *)

Definition byte_of (c : ascii) : Z := Z.of_N (N_of_ascii c).
Fixpoint bytes_of (s : string) : list Z :=
  match s with
  | EmptyString => []
  | String c t => byte_of c :: bytes_of t
  end.

(** The [n] bytes of [x], the most significant first. *)
Fixpoint be_bytes (n : nat) (x : Z) : list Z :=
  match n with
  | O => []
  | S m => (x / 256 ^ Z.of_nat m) mod 256 :: be_bytes m x
  end.

Definition pad (msg : list Z) : list Z :=
  let len := Z.of_nat (length msg) in
  let zeros := Z.to_nat ((55 - len) mod 64) in
  msg ++ [0x80] ++ repeat 0 zeros ++ be_bytes 8 (8 * len).

Definition word_of (a b c d : Z) : Z := ((a * 256 + b) * 256 + c) * 256 + d.
Fixpoint words (bs : list Z) : list Z :=
  match bs with
  | a :: b :: c :: d :: rest => word_of a b c d :: words rest
  | _ => []
  end.

(** The message schedule: the sixteen words of a block, then forty-eight more.  [w] holds
    the last sixteen words, the most recent first. *)
Fixpoint schedule (n : nat) (w : list Z) : list Z :=
  match n with
  | O => []
  | S m =>
      let at_ i := nth i w 0 in
      let new := add32 (add32 (SSig1 (at_ 1%nat)) (at_ 6%nat)) (add32 (SSig0 (at_ 14%nat)) (at_ 15%nat)) in
      new :: schedule m (new :: removelast w)
  end.
Definition scheduled (block : list Z) : list Z := block ++ schedule 48 (rev block).

(** ** Compression *)

Definition round (st : list Z) (kw : Z * Z) : list Z :=
  match st with
  | [a; b; c; d; e; f; g; h] =>
      let t1 := add32 (add32 h (BSig1 e)) (add32 (Ch e f g) (add32 (fst kw) (snd kw))) in
      let t2 := add32 (BSig0 a) (Maj a b c) in
      [add32 t1 t2; a; b; c; add32 d t1; e; f; g]
  | _ => st
  end.

Definition compress (st block : list Z) : list Z :=
  zip_with add32 st (fold_left round (zip K256 (scheduled block)) st).

(** [n] blocks of sixteen words. *)
Fixpoint hashBlocks (n : nat) (st ws : list Z) : list Z :=
  match n with
  | O => st
  | S m => hashBlocks m (compress st (take 16 ws)) (drop 16 ws)
  end.

(** [sha256.Sum256]. *)
Definition Sum256 (data : string) : list Z :=
  let ws := words (pad (bytes_of data)) in
  concat (map (be_bytes 4) (hashBlocks (length ws / 16) H256 ws)).

(** ** Hexadecimal *)

Definition hexDigit (n : Z) : ascii :=
  default "0"%char (String.get (Z.to_nat n) "0123456789abcdef").

(** [hex.EncodeToString]. *)
Fixpoint EncodeToString (bs : list Z) : string :=
  match bs with
  | [] => EmptyString
  | b :: rest => String (hexDigit (b / 16)) (String (hexDigit (b mod 16)) (EncodeToString rest))
  end.

(** ** Lemmas *)

Example sum_empty :
  EncodeToString (Sum256 "") = "e3b0c44298fc1c149afbf4c8996fb92427ae41e4649b934ca495991b7852b855".
Proof. by vm_compute. Qed.

Example sum_abc :
  EncodeToString (Sum256 "abc") = "ba7816bf8f01cfea414140de5dae2223b00361a396177a9cb410ff61f20015ad".
Proof. by vm_compute. Qed.

(** Two blocks. *)
Example sum_two_blocks :
  EncodeToString (Sum256 "abcdbcdecdefdefgefghfghighijhijkijkljklmklmnlmnomnopnopq") =
  "248d6a61d20638b8e5c026930c3e6039a33ce45964ff2167f6ecedd419db06c1".
Proof. by vm_compute. Qed.

Lemma length_be_bytes n x : length (be_bytes n x) = n.
Proof. induction n as [|n IH]; simpl; [done|by rewrite IH]. Qed.

(** A padded message is a whole number of blocks. *)
Lemma length_pad msg : exists k, length (pad msg) = (64 * S k)%nat.
Proof.
  unfold pad. rewrite !length_app, repeat_length, length_be_bytes. simpl length.
  set (len := length msg).
  assert (H : Z.of_nat len + 9 + (55 - Z.of_nat len) mod 64 = 64 * ((Z.of_nat len + 72) / 64)).
  { Z.to_euclidean_division_equations; lia. }
  exists (Z.to_nat ((Z.of_nat len + 72) / 64) - 1)%nat.
  assert (0 <= (55 - Z.of_nat len) mod 64) by (apply Z.mod_pos_bound; lia).
  assert (1 <= (Z.of_nat len + 72) / 64) by (apply Z.div_le_lower_bound; lia). lia.
Qed.

Lemma length_schedule n w : length (schedule n w) = n.
Proof. revert w; induction n as [|n IH]; intros w; simpl; [done|by rewrite IH]. Qed.

Lemma length_round st kw : length (round st kw) = length st.
Proof. unfold round. by do 9 (destruct st as [|? st]; [done|]). Qed.

Lemma length_rounds kws st : length (fold_left round kws st) = length st.
Proof. revert st; induction kws as [|kw kws IH]; intros st; simpl; [done|by rewrite IH, length_round]. Qed.

Lemma length_compress st block : length (compress st block) = length st.
Proof. unfold compress. rewrite length_zip_with, length_rounds. lia. Qed.

Lemma length_hashBlocks n st ws : length (hashBlocks n st ws) = length st.
Proof. revert st ws; induction n as [|n IH]; intros st ws; simpl; [done|by rewrite IH, length_compress]. Qed.

(** A digest has thirty-two bytes. *)
Lemma length_Sum256 s : length (Sum256 s) = 32%nat.
Proof.
  unfold Sum256. set (st := hashBlocks _ _ _).
  assert (Hst : length st = 8%nat) by (unfold st; by rewrite length_hashBlocks).
  clearbody st. assert (H : forall l, length (concat (map (be_bytes 4) l)) = (4 * length l)%nat).
  { induction l as [|x l IH]; [done|]. cbn [map concat]. rewrite length_app, IH, length_be_bytes. simpl. lia. }
  rewrite H, Hst. done.
Qed.

Lemma length_EncodeToString bs : String.length (EncodeToString bs) = (2 * length bs)%nat.
Proof. induction bs as [|b bs IH]; [done|]. simpl. rewrite IH. lia. Qed.

Lemma be_bytes_range n x b : In b (be_bytes n x) -> 0 <= b < 256.
Proof.
  induction n as [|n IH]; simpl; [done|]. intros [<-|H]; [|auto].
  apply Z.mod_pos_bound. lia.
Qed.

(** Every element of a digest is a byte. *)
Lemma Sum256_bytes s b : In b (Sum256 s) -> 0 <= b < 256.
Proof.
  unfold Sum256. intros (l & Hl & Hb)%in_concat. apply in_map_iff in Hl as (x & <- & _).
  by eapply be_bytes_range.
Qed.
