(* ===== verification/Api.v ===== *)
(** The custom resources of the [mirror.mirror.mathianasj.github.com/v1] API group
    ([src/api/v1]): one record per Go struct, with the struct's fields in order and
    a prefix naming the struct.  String-typed enumerations stay strings, as in the
    code: a stored object may hold any value. *)
From S2P Require Import Prelude K8s.

(** ** Enumeration constants *)

Definition PlatformModeConnected : string := "connected".
Definition PlatformModeAirgapped : string := "airgapped".
Definition TriggerTypeScheduled : string := "scheduled".
Definition TriggerTypeManual : string := "manual".
Definition TriggerTypeEvent : string := "event".
Definition PlatformPhaseReady : string := "Ready".
Definition PlatformPhaseCollecting : string := "Collecting".
Definition PlatformPhaseImporting : string := "Importing".
Definition PlatformPhaseError : string := "Error".
Definition BootstrapPhasePending : string := "Pending".
Definition BootstrapPhaseValidating : string := "Validating".
Definition BootstrapPhaseInstalling : string := "Installing".
Definition BootstrapPhaseComplete : string := "Complete".
Definition BootstrapPhaseFailed : string := "Failed".
Definition CollectionPhasePending : string := "Pending".
Definition CollectionPhaseCollecting : string := "Collecting".
Definition CollectionPhaseComplete : string := "Complete".
Definition CollectionPhaseFailed : string := "Failed".

(** [GroupVersion]. *)
Definition GroupVersion : string * string := ("mirror.mirror.mathianasj.github.com", "v1").

(** ** MirrorImport *)

(** [BundleSource], [api/v1/mirrorimport_types.go]. *)
Record BundleSource := mkBundleSource {
  bs_PVC : string;
  bs_Filename : string;
}.
#[export] Instance eta_BundleSource : Eta BundleSource := fun r =>
  mkBundleSource (bs_PVC r) (bs_Filename r).

(** [RegistryConfig], [api/v1/mirrorimport_types.go]. *)
Record RegistryConfig := mkRegistryConfig {
  rgc_URL : string;
  rgc_CAConfigMap : string;
}.
#[export] Instance eta_RegistryConfig : Eta RegistryConfig := fun r =>
  mkRegistryConfig (rgc_URL r) (rgc_CAConfigMap r).

(** [PublishConfig], [api/v1/mirrorimport_types.go]. *)
Record PublishConfig := mkPublishConfig {
  pbc_CatalogSource : bool;
  pbc_ImageContentSourcePolicy : bool;
}.
#[export] Instance eta_PublishConfig : Eta PublishConfig := fun r =>
  mkPublishConfig (pbc_CatalogSource r) (pbc_ImageContentSourcePolicy r).

(** [EnterpriseContractPolicy], [api/v1/mirrorimport_types.go]. *)
Record EnterpriseContractPolicy := mkEnterpriseContractPolicy {
  ecp_ConfigMapRef : LocalObjectReference;
}.
#[export] Instance eta_EnterpriseContractPolicy : Eta EnterpriseContractPolicy := fun r =>
  mkEnterpriseContractPolicy (ecp_ConfigMapRef r).

(** [CosignVerificationConfig], [api/v1/mirrorimport_types.go]. *)
Record CosignVerificationConfig := mkCosignVerificationConfig {
  cvc_PublicKeySecretRef : option LocalObjectReference;
  cvc_EnterpriseContractPolicy : option EnterpriseContractPolicy;
}.
#[export] Instance eta_CosignVerificationConfig : Eta CosignVerificationConfig := fun r =>
  mkCosignVerificationConfig (cvc_PublicKeySecretRef r) (cvc_EnterpriseContractPolicy r).

(** [MirrorImportSpec], [api/v1/mirrorimport_types.go]. *)
Record MirrorImportSpec := mkMirrorImportSpec {
  mis_ImageSetConfig : string;
  mis_Bundle : BundleSource;
  mis_TargetRegistry : RegistryConfig;
  mis_Publish : PublishConfig;
  mis_CollectionVersion : string;
  mis_Verify : option CosignVerificationConfig;
}.
#[export] Instance eta_MirrorImportSpec : Eta MirrorImportSpec := fun r =>
  mkMirrorImportSpec (mis_ImageSetConfig r) (mis_Bundle r) (mis_TargetRegistry r) (mis_Publish
    r) (mis_CollectionVersion r) (mis_Verify r).

(** [MirrorImportStatus], [api/v1/mirrorimport_types.go]. *)
Record MirrorImportStatus := mkMirrorImportStatus {
  mist_Conditions : list Condition;
  mist_Phase : string;
  mist_PipelineRunRef : string;
}.
#[export] Instance eta_MirrorImportStatus : Eta MirrorImportStatus := fun r =>
  mkMirrorImportStatus (mist_Conditions r) (mist_Phase r) (mist_PipelineRunRef r).

(** [MirrorImport], [api/v1/mirrorimport_types.go]. *)
Record MirrorImport := mkMirrorImport {
  mi_TypeMeta : TypeMeta;
  mi_ObjectMeta : ObjectMeta;
  mi_Spec : MirrorImportSpec;
  mi_Status : MirrorImportStatus;
}.
#[export] Instance eta_MirrorImport : Eta MirrorImport := fun r =>
  mkMirrorImport (mi_TypeMeta r) (mi_ObjectMeta r) (mi_Spec r) (mi_Status r).

(** ** CollectionPipeline *)

(** [S3Config], [api/v1/collectionpipeline_types.go]. *)
Record S3Config := mkS3Config {
  s3c_Bucket : string;
  s3c_Region : string;
  s3c_Endpoint : string;
  s3c_SecretRef : LocalObjectReference;
}.
#[export] Instance eta_S3Config : Eta S3Config := fun r =>
  mkS3Config (s3c_Bucket r) (s3c_Region r) (s3c_Endpoint r) (s3c_SecretRef r).

(** [BundleOutput], [api/v1/collectionpipeline_types.go]. *)
Record BundleOutput := mkBundleOutput {
  bo_PVC : string;
  bo_Filename : string;
  bo_S3 : option S3Config;
}.
#[export] Instance eta_BundleOutput : Eta BundleOutput := fun r =>
  mkBundleOutput (bo_PVC r) (bo_Filename r) (bo_S3 r).

(** [ArtifactOutput], [api/v1/collectionpipeline_types.go]. *)
Record ArtifactOutput := mkArtifactOutput {
  ao_Output : option BundleOutput;
}.
#[export] Instance eta_ArtifactOutput : Eta ArtifactOutput := fun r =>
  mkArtifactOutput (ao_Output r).

(** [KeylessSigningConfig], [api/v1/collectionpipeline_types.go]. *)
Record KeylessSigningConfig := mkKeylessSigningConfig {
  ksc_FulcioURL : string;
  ksc_RekorURL : string;
  ksc_TUFURL : string;
  ksc_OIDCIssuer : string;
  ksc_OIDCClientID : string;
  ksc_OIDCClientSecret : option LocalObjectReference;
}.
#[export] Instance eta_KeylessSigningConfig : Eta KeylessSigningConfig := fun r =>
  mkKeylessSigningConfig (ksc_FulcioURL r) (ksc_RekorURL r) (ksc_TUFURL r) (ksc_OIDCIssuer r)
    (ksc_OIDCClientID r) (ksc_OIDCClientSecret r).

(** [CosignSigningConfig], [api/v1/collectionpipeline_types.go]. *)
Record CosignSigningConfig := mkCosignSigningConfig {
  csc_KeySecretRef : option LocalObjectReference;
  csc_PasswordSecretRef : option LocalObjectReference;
  csc_Keyless : option KeylessSigningConfig;
}.
#[export] Instance eta_CosignSigningConfig : Eta CosignSigningConfig := fun r =>
  mkCosignSigningConfig (csc_KeySecretRef r) (csc_PasswordSecretRef r) (csc_Keyless r).

(** [CollectionPipelineSpec], [api/v1/collectionpipeline_types.go]. *)
Record CollectionPipelineSpec := mkCollectionPipelineSpec {
  cps_ImageSetConfig : string;
  cps_TriggerType : string;
  cps_Incremental : bool;
  cps_BaseVersion : string;
  cps_Storage : ArtifactOutput;
  cps_Signing : option CosignSigningConfig;
  cps_Timeout : option Duration;
  cps_ParentPipeline : string;
  cps_StorageSize : option Quantity;
}.
#[export] Instance eta_CollectionPipelineSpec : Eta CollectionPipelineSpec := fun r =>
  mkCollectionPipelineSpec (cps_ImageSetConfig r) (cps_TriggerType r) (cps_Incremental r)
    (cps_BaseVersion r) (cps_Storage r) (cps_Signing r) (cps_Timeout r) (cps_ParentPipeline r)
    (cps_StorageSize r).

(** [CollectionPipelineStatus], [api/v1/collectionpipeline_types.go]. *)
Record CollectionPipelineStatus := mkCollectionPipelineStatus {
  cpst_Conditions : list Condition;
  cpst_Phase : string;
  cpst_Version : string;
  cpst_PipelineRunRef : string;
  cpst_ConfigMapRef : string;
  cpst_StartTime : option time;
  cpst_CompletionTime : option time;
  cpst_BundleURL : string;
  cpst_SignatureURL : string;
  cpst_SbomUrl : string;
  cpst_WorkingPVCName : string;
  cpst_ParentPipelineVersion : string;
}.
#[export] Instance eta_CollectionPipelineStatus : Eta CollectionPipelineStatus := fun r =>
  mkCollectionPipelineStatus (cpst_Conditions r) (cpst_Phase r) (cpst_Version r)
    (cpst_PipelineRunRef r) (cpst_ConfigMapRef r) (cpst_StartTime r) (cpst_CompletionTime r)
    (cpst_BundleURL r) (cpst_SignatureURL r) (cpst_SbomUrl r) (cpst_WorkingPVCName r)
    (cpst_ParentPipelineVersion r).

(** [CollectionPipeline], [api/v1/collectionpipeline_types.go]. *)
Record CollectionPipeline := mkCollectionPipeline {
  cp_TypeMeta : TypeMeta;
  cp_ObjectMeta : ObjectMeta;
  cp_Spec : CollectionPipelineSpec;
  cp_Status : CollectionPipelineStatus;
}.
#[export] Instance eta_CollectionPipeline : Eta CollectionPipeline := fun r =>
  mkCollectionPipeline (cp_TypeMeta r) (cp_ObjectMeta r) (cp_Spec r) (cp_Status r).

(** ** ClusterBootstrap *)

(** [NetworkConfig], [api/v1/clusterbootstrap_types.go]. *)
Record NetworkConfig := mkNetworkConfig {
  nwc_ClusterNetwork : string;
  nwc_ServiceNetwork : string;
  nwc_NetworkType : string;
}.
#[export] Instance eta_NetworkConfig : Eta NetworkConfig := fun r =>
  mkNetworkConfig (nwc_ClusterNetwork r) (nwc_ServiceNetwork r) (nwc_NetworkType r).

(** [NodeResources], [api/v1/clusterbootstrap_types.go]. *)
Record NodeResources := mkNodeResources {
  nr_CPU : Z;
  nr_Memory : Z;
  nr_Disk : Z;
}.
#[export] Instance eta_NodeResources : Eta NodeResources := fun r =>
  mkNodeResources (nr_CPU r) (nr_Memory r) (nr_Disk r).

(** [NodePoolConfig], [api/v1/clusterbootstrap_types.go]. *)
Record NodePoolConfig := mkNodePoolConfig {
  npc_Replicas : Z;
  npc_Resources : option NodeResources;
}.
#[export] Instance eta_NodePoolConfig : Eta NodePoolConfig := fun r =>
  mkNodePoolConfig (npc_Replicas r) (npc_Resources r).

(** [OperatorInstall], [api/v1/clusterbootstrap_types.go]. *)
Record OperatorInstall := mkOperatorInstall {
  oi_Name : string;
  oi_Namespace : string;
  oi_Channel : string;
}.
#[export] Instance eta_OperatorInstall : Eta OperatorInstall := fun r =>
  mkOperatorInstall (oi_Name r) (oi_Namespace r) (oi_Channel r).

(** [PostInstallConfig], [api/v1/clusterbootstrap_types.go]. *)
Record PostInstallConfig := mkPostInstallConfig {
  pic_Operators : list OperatorInstall;
}.
#[export] Instance eta_PostInstallConfig : Eta PostInstallConfig := fun r =>
  mkPostInstallConfig (pic_Operators r).

(** [ClusterBootstrapSpec], [api/v1/clusterbootstrap_types.go]. *)
Record ClusterBootstrapSpec := mkClusterBootstrapSpec {
  cbs_Version : string;
  cbs_Platform : string;
  cbs_InstallConfig : LocalObjectReference;
  cbs_MirrorRegistry : string;
  cbs_PullSecret : LocalObjectReference;
  cbs_TrustBundle : option LocalObjectReference;
  cbs_Network : option NetworkConfig;
  cbs_ControlPlane : option NodePoolConfig;
  cbs_Compute : option NodePoolConfig;
  cbs_PostInstall : option PostInstallConfig;
}.
#[export] Instance eta_ClusterBootstrapSpec : Eta ClusterBootstrapSpec := fun r =>
  mkClusterBootstrapSpec (cbs_Version r) (cbs_Platform r) (cbs_InstallConfig r)
    (cbs_MirrorRegistry r) (cbs_PullSecret r) (cbs_TrustBundle r) (cbs_Network r)
    (cbs_ControlPlane r) (cbs_Compute r) (cbs_PostInstall r).

(** [ClusterBootstrapStatus], [api/v1/clusterbootstrap_types.go]. *)
Record ClusterBootstrapStatus := mkClusterBootstrapStatus {
  cbst_Phase : string;
  cbst_Conditions : list Condition;
  cbst_Kubeconfig : option LocalObjectReference;
  cbst_ConsoleURL : string;
  cbst_StartTime : option time;
  cbst_CompletionTime : option time;
}.
#[export] Instance eta_ClusterBootstrapStatus : Eta ClusterBootstrapStatus := fun r =>
  mkClusterBootstrapStatus (cbst_Phase r) (cbst_Conditions r) (cbst_Kubeconfig r)
    (cbst_ConsoleURL r) (cbst_StartTime r) (cbst_CompletionTime r).

(** [ClusterBootstrap], [api/v1/clusterbootstrap_types.go]. *)
Record ClusterBootstrap := mkClusterBootstrap {
  cb_TypeMeta : TypeMeta;
  cb_ObjectMeta : ObjectMeta;
  cb_Spec : ClusterBootstrapSpec;
  cb_Status : ClusterBootstrapStatus;
}.
#[export] Instance eta_ClusterBootstrap : Eta ClusterBootstrap := fun r =>
  mkClusterBootstrap (cb_TypeMeta r) (cb_ObjectMeta r) (cb_Spec r) (cb_Status r).

(** ** DisconnectedPlatform *)

(** [ArtifactStorageConfig], [api/v1/disconnectedplatform_types.go]. *)
Record ArtifactStorageConfig := mkArtifactStorageConfig {
  asc_StorageClass : string;
  asc_Size : string;
}.
#[export] Instance eta_ArtifactStorageConfig : Eta ArtifactStorageConfig := fun r =>
  mkArtifactStorageConfig (asc_StorageClass r) (asc_Size r).

(** [OLMSubscriptionConfig], [api/v1/disconnectedplatform_types.go]. *)
Record OLMSubscriptionConfig := mkOLMSubscriptionConfig {
  olm_Disabled : bool;
  olm_Channel : string;
  olm_ApprovalStrategy : string;
  olm_CatalogSource : string;
  olm_CatalogSourceNS : string;
  olm_StartingCSV : string;
}.
#[export] Instance eta_OLMSubscriptionConfig : Eta OLMSubscriptionConfig := fun r =>
  mkOLMSubscriptionConfig (olm_Disabled r) (olm_Channel r) (olm_ApprovalStrategy r)
    (olm_CatalogSource r) (olm_CatalogSourceNS r) (olm_StartingCSV r).

(** [OperatorConfig], [api/v1/disconnectedplatform_types.go]. *)
Record OperatorConfig := mkOperatorConfig {
  ocf_OpenShiftPipelines : option OLMSubscriptionConfig;
  ocf_Keycloak : option OLMSubscriptionConfig;
  ocf_RHTAS : option OLMSubscriptionConfig;
  ocf_RHTPA : option OLMSubscriptionConfig;
  ocf_QuayOperator : option OLMSubscriptionConfig;
  ocf_OSUS : option OLMSubscriptionConfig;
}.
#[export] Instance eta_OperatorConfig : Eta OperatorConfig := fun r =>
  mkOperatorConfig (ocf_OpenShiftPipelines r) (ocf_Keycloak r) (ocf_RHTAS r) (ocf_RHTPA r)
    (ocf_QuayOperator r) (ocf_OSUS r).

(** [ManagedKeycloakConfig], [api/v1/disconnectedplatform_types.go]. *)
Record ManagedKeycloakConfig := mkManagedKeycloakConfig {
  mkc_Enabled : bool;
  mkc_Realm : string;
  mkc_AdminUser : string;
  mkc_AdminPassword : string;
  mkc_TLSSecret : option LocalObjectReference;
}.
#[export] Instance eta_ManagedKeycloakConfig : Eta ManagedKeycloakConfig := fun r =>
  mkManagedKeycloakConfig (mkc_Enabled r) (mkc_Realm r) (mkc_AdminUser r) (mkc_AdminPassword r)
    (mkc_TLSSecret r).

(** [RHTASOIDCConfig], [api/v1/disconnectedplatform_types.go]. *)
Record RHTASOIDCConfig := mkRHTASOIDCConfig {
  roc_Issuer : string;
  roc_ClientID : string;
  roc_ClientSecret : string;
  roc_Type : string;
  roc_Managed : option ManagedKeycloakConfig;
}.
#[export] Instance eta_RHTASOIDCConfig : Eta RHTASOIDCConfig := fun r =>
  mkRHTASOIDCConfig (roc_Issuer r) (roc_ClientID r) (roc_ClientSecret r) (roc_Type r)
    (roc_Managed r).

(** [RHTASDatabaseConfig], [api/v1/disconnectedplatform_types.go]. *)
Record RHTASDatabaseConfig := mkRHTASDatabaseConfig {
  rdc_Host : string;
  rdc_Name : string;
  rdc_Port : Z;
  rdc_Username : string;
  rdc_Password : string;
}.
#[export] Instance eta_RHTASDatabaseConfig : Eta RHTASDatabaseConfig := fun r =>
  mkRHTASDatabaseConfig (rdc_Host r) (rdc_Name r) (rdc_Port r) (rdc_Username r) (rdc_Password
    r).

(** [RHTASInstallerConfig], [api/v1/disconnectedplatform_types.go]. *)
Record RHTASInstallerConfig := mkRHTASInstallerConfig {
  ric_OIDC : option RHTASOIDCConfig;
  ric_Database : option RHTASDatabaseConfig;
  ric_TrustedRootKeys : option LocalObjectReference;
}.
#[export] Instance eta_RHTASInstallerConfig : Eta RHTASInstallerConfig := fun r =>
  mkRHTASInstallerConfig (ric_OIDC r) (ric_Database r) (ric_TrustedRootKeys r).

(** [RHTPAStorageConfig], [api/v1/disconnectedplatform_types.go]. *)
Record RHTPAStorageConfig := mkRHTPAStorageConfig {
  tsc_Type : string;
  tsc_Size : string;
  tsc_AccessKey : string;
  tsc_SecretKey : string;
  tsc_Bucket : string;
  tsc_Region : string;
}.
#[export] Instance eta_RHTPAStorageConfig : Eta RHTPAStorageConfig := fun r =>
  mkRHTPAStorageConfig (tsc_Type r) (tsc_Size r) (tsc_AccessKey r) (tsc_SecretKey r) (tsc_Bucket
    r) (tsc_Region r).

(** [RHTPADatabaseConfig], [api/v1/disconnectedplatform_types.go]. *)
Record RHTPADatabaseConfig := mkRHTPADatabaseConfig {
  tdc_Host : string;
  tdc_Name : string;
  tdc_Username : string;
  tdc_Password : string;
}.
#[export] Instance eta_RHTPADatabaseConfig : Eta RHTPADatabaseConfig := fun r =>
  mkRHTPADatabaseConfig (tdc_Host r) (tdc_Name r) (tdc_Username r) (tdc_Password r).

(** [RHTPAOIDCConfig], [api/v1/disconnectedplatform_types.go]. *)
Record RHTPAOIDCConfig := mkRHTPAOIDCConfig {
  toc_Issuer : string;
  toc_ClientID : string;
  toc_ClientSecret : string;
}.
#[export] Instance eta_RHTPAOIDCConfig : Eta RHTPAOIDCConfig := fun r =>
  mkRHTPAOIDCConfig (toc_Issuer r) (toc_ClientID r) (toc_ClientSecret r).

(** [RHTPAImportersConfig], [api/v1/disconnectedplatform_types.go]. *)
Record RHTPAImportersConfig := mkRHTPAImportersConfig {
  tim_RedHatSBOMs : bool;
  tim_CVE : bool;
  tim_OSVGitHub : bool;
}.
#[export] Instance eta_RHTPAImportersConfig : Eta RHTPAImportersConfig := fun r =>
  mkRHTPAImportersConfig (tim_RedHatSBOMs r) (tim_CVE r) (tim_OSVGitHub r).

(** [RHTPAInstallerConfig], [api/v1/disconnectedplatform_types.go]. *)
Record RHTPAInstallerConfig := mkRHTPAInstallerConfig {
  tic_Storage : option RHTPAStorageConfig;
  tic_Database : option RHTPADatabaseConfig;
  tic_OIDC : option RHTPAOIDCConfig;
  tic_DatabaseStorageSize : string;
  tic_DatabaseMaxStorageSize : string;
  tic_Importers : option RHTPAImportersConfig;
}.
#[export] Instance eta_RHTPAInstallerConfig : Eta RHTPAInstallerConfig := fun r =>
  mkRHTPAInstallerConfig (tic_Storage r) (tic_Database r) (tic_OIDC r) (tic_DatabaseStorageSize
    r) (tic_DatabaseMaxStorageSize r) (tic_Importers r).

(** [QuayStorageConfig], [api/v1/disconnectedplatform_types.go]. *)
Record QuayStorageConfig := mkQuayStorageConfig {
  qsc_Type : string;
  qsc_Size : string;
  qsc_StorageClass : string;
  qsc_S3Bucket : string;
  qsc_S3AccessKey : string;
  qsc_S3SecretKey : string;
  qsc_S3Endpoint : string;
}.
#[export] Instance eta_QuayStorageConfig : Eta QuayStorageConfig := fun r =>
  mkQuayStorageConfig (qsc_Type r) (qsc_Size r) (qsc_StorageClass r) (qsc_S3Bucket r)
    (qsc_S3AccessKey r) (qsc_S3SecretKey r) (qsc_S3Endpoint r).

(** [QuayDatabaseConfig], [api/v1/disconnectedplatform_types.go]. *)
Record QuayDatabaseConfig := mkQuayDatabaseConfig {
  qdc_Host : string;
  qdc_Name : string;
  qdc_Port : Z;
  qdc_Username : string;
  qdc_Password : string;
}.
#[export] Instance eta_QuayDatabaseConfig : Eta QuayDatabaseConfig := fun r =>
  mkQuayDatabaseConfig (qdc_Host r) (qdc_Name r) (qdc_Port r) (qdc_Username r) (qdc_Password r).

(** [ClairConfig], [api/v1/disconnectedplatform_types.go]. *)
Record ClairConfig := mkClairConfig {
  clc_UseRedHatVEXOnly : bool;
}.
#[export] Instance eta_ClairConfig : Eta ClairConfig := fun r =>
  mkClairConfig (clc_UseRedHatVEXOnly r).

(** [ManagedQuayConfig], [api/v1/disconnectedplatform_types.go]. *)
Record ManagedQuayConfig := mkManagedQuayConfig {
  mqc_Enabled : bool;
  mqc_OrganizationName : string;
  mqc_Storage : option QuayStorageConfig;
  mqc_Database : option QuayDatabaseConfig;
  mqc_AdminUser : string;
  mqc_AdminPassword : string;
  mqc_Clair : option ClairConfig;
  mqc_Replicas : option Z;
}.
#[export] Instance eta_ManagedQuayConfig : Eta ManagedQuayConfig := fun r =>
  mkManagedQuayConfig (mqc_Enabled r) (mqc_OrganizationName r) (mqc_Storage r) (mqc_Database r)
    (mqc_AdminUser r) (mqc_AdminPassword r) (mqc_Clair r) (mqc_Replicas r).

(** [QuayInstallerConfig], [api/v1/disconnectedplatform_types.go]. *)
Record QuayInstallerConfig := mkQuayInstallerConfig {
  qic_Managed : option ManagedQuayConfig;
  qic_ExternalURL : string;
}.
#[export] Instance eta_QuayInstallerConfig : Eta QuayInstallerConfig := fun r =>
  mkQuayInstallerConfig (qic_Managed r) (qic_ExternalURL r).

(** [CertIssuerReference], [api/v1/disconnectedplatform_types.go]. *)
Record CertIssuerReference := mkCertIssuerReference {
  cir_Name : string;
  cir_Kind : string;
}.
#[export] Instance eta_CertIssuerReference : Eta CertIssuerReference := fun r =>
  mkCertIssuerReference (cir_Name r) (cir_Kind r).

(** [RHCOSCollectionConfig], [api/v1/disconnectedplatform_types.go]. *)
Record RHCOSCollectionConfig := mkRHCOSCollectionConfig {
  rhc_Enabled : bool;
  rhc_ServerBaseImage : string;
}.
#[export] Instance eta_RHCOSCollectionConfig : Eta RHCOSCollectionConfig := fun r =>
  mkRHCOSCollectionConfig (rhc_Enabled r) (rhc_ServerBaseImage r).

(** [ConnectedConfig], [api/v1/disconnectedplatform_types.go]. *)
Record ConnectedConfig := mkConnectedConfig {
  cc_CollectionSchedule : string;
  cc_MirrorRegistry : string;
  cc_ArtifactStorage : ArtifactStorageConfig;
  cc_TriggerTypes : list string;
  cc_Operators : option OperatorConfig;
  cc_RHTAS : option RHTASInstallerConfig;
  cc_RHTPA : option RHTPAInstallerConfig;
  cc_Quay : option QuayInstallerConfig;
  cc_CertIssuer : option CertIssuerReference;
  cc_RHCOSCollection : option RHCOSCollectionConfig;
  cc_MirrorOperatorCatalog : string;
}.
#[export] Instance eta_ConnectedConfig : Eta ConnectedConfig := fun r =>
  mkConnectedConfig (cc_CollectionSchedule r) (cc_MirrorRegistry r) (cc_ArtifactStorage r)
    (cc_TriggerTypes r) (cc_Operators r) (cc_RHTAS r) (cc_RHTPA r) (cc_Quay r) (cc_CertIssuer r)
    (cc_RHCOSCollection r) (cc_MirrorOperatorCatalog r).

(** [MirrorRegistryConfig], [api/v1/disconnectedplatform_types.go]. *)
Record MirrorRegistryConfig := mkMirrorRegistryConfig {
  mrc_DataPath : string;
  mrc_Port : Z;
  mrc_QuayImage : string;
  mrc_RedisImage : string;
  mrc_PauseImage : string;
  mrc_ImagePullSecret : option LocalObjectReference;
}.
#[export] Instance eta_MirrorRegistryConfig : Eta MirrorRegistryConfig := fun r =>
  mkMirrorRegistryConfig (mrc_DataPath r) (mrc_Port r) (mrc_QuayImage r) (mrc_RedisImage r)
    (mrc_PauseImage r) (mrc_ImagePullSecret r).

(** [AirgappedQuayStorageConfig], [api/v1/disconnectedplatform_types.go]. *)
Record AirgappedQuayStorageConfig := mkAirgappedQuayStorageConfig {
  aqs_Size : string;
  aqs_StorageClass : string;
}.
#[export] Instance eta_AirgappedQuayStorageConfig : Eta AirgappedQuayStorageConfig := fun r =>
  mkAirgappedQuayStorageConfig (aqs_Size r) (aqs_StorageClass r).

(** [AirgappedQuayConfig], [api/v1/disconnectedplatform_types.go]. *)
Record AirgappedQuayConfig := mkAirgappedQuayConfig {
  aqc_Enabled : bool;
  aqc_OrganizationName : string;
  aqc_Storage : option AirgappedQuayStorageConfig;
  aqc_AdminUser : string;
  aqc_AdminPassword : string;
  aqc_Clair : option ClairConfig;
  aqc_Replicas : option Z;
}.
#[export] Instance eta_AirgappedQuayConfig : Eta AirgappedQuayConfig := fun r =>
  mkAirgappedQuayConfig (aqc_Enabled r) (aqc_OrganizationName r) (aqc_Storage r) (aqc_AdminUser
    r) (aqc_AdminPassword r) (aqc_Clair r) (aqc_Replicas r).

(** [MultiClusterHubConfig], [api/v1/disconnectedplatform_types.go]. *)
Record MultiClusterHubConfig := mkMultiClusterHubConfig {
  mch_ImagePullSecret : option LocalObjectReference;
  mch_CustomCAConfigMap : string;
  mch_DisableHubSelfManagement : bool;
}.
#[export] Instance eta_MultiClusterHubConfig : Eta MultiClusterHubConfig := fun r =>
  mkMultiClusterHubConfig (mch_ImagePullSecret r) (mch_CustomCAConfigMap r)
    (mch_DisableHubSelfManagement r).

(** [HostInventoryVersion], [api/v1/disconnectedplatform_types.go]. *)
Record HostInventoryVersion := mkHostInventoryVersion {
  hiv_OpenshiftVersion : string;
  hiv_CpuArchitecture : string;
}.
#[export] Instance eta_HostInventoryVersion : Eta HostInventoryVersion := fun r =>
  mkHostInventoryVersion (hiv_OpenshiftVersion r) (hiv_CpuArchitecture r).

(** [InfraEnvConfig], [api/v1/disconnectedplatform_types.go]. *)
Record InfraEnvConfig := mkInfraEnvConfig {
  iec_Enabled : bool;
  iec_Namespace : string;
  iec_NetworkType : string;
  iec_NMStateConfigLabels : gmap string string;
  iec_SSHAuthorizedKey : string;
  iec_AdditionalNTPSources : list string;
  iec_CpuArchitecture : string;
  iec_ImageType : string;
}.
#[export] Instance eta_InfraEnvConfig : Eta InfraEnvConfig := fun r =>
  mkInfraEnvConfig (iec_Enabled r) (iec_Namespace r) (iec_NetworkType r)
    (iec_NMStateConfigLabels r) (iec_SSHAuthorizedKey r) (iec_AdditionalNTPSources r)
    (iec_CpuArchitecture r) (iec_ImageType r).

(** [CredentialConfig], [api/v1/disconnectedplatform_types.go]. *)
Record CredentialConfig := mkCredentialConfig {
  crc_Enabled : bool;
  crc_Name : string;
  crc_Namespace : string;
  crc_BaseDomain : string;
}.
#[export] Instance eta_CredentialConfig : Eta CredentialConfig := fun r =>
  mkCredentialConfig (crc_Enabled r) (crc_Name r) (crc_Namespace r) (crc_BaseDomain r).

(** [HostInventoryConfig], [api/v1/disconnectedplatform_types.go]. *)
Record HostInventoryConfig := mkHostInventoryConfig {
  hic_Enabled : bool;
  hic_RHCOSImage : string;
  hic_Versions : list HostInventoryVersion;
  hic_DatabaseStorageSize : string;
  hic_FilesystemStorageSize : string;
  hic_ImageStorageSize : string;
  hic_StorageClass : string;
  hic_InfraEnv : option InfraEnvConfig;
  hic_Credential : option CredentialConfig;
}.
#[export] Instance eta_HostInventoryConfig : Eta HostInventoryConfig := fun r =>
  mkHostInventoryConfig (hic_Enabled r) (hic_RHCOSImage r) (hic_Versions r)
    (hic_DatabaseStorageSize r) (hic_FilesystemStorageSize r) (hic_ImageStorageSize r)
    (hic_StorageClass r) (hic_InfraEnv r) (hic_Credential r).

(** [AirgappedACMConfig], [api/v1/disconnectedplatform_types.go]. *)
Record AirgappedACMConfig := mkAirgappedACMConfig {
  acm_Enabled : bool;
  acm_Subscription : option OLMSubscriptionConfig;
  acm_MultiClusterHub : option MultiClusterHubConfig;
  acm_HostInventory : option HostInventoryConfig;
}.
#[export] Instance eta_AirgappedACMConfig : Eta AirgappedACMConfig := fun r =>
  mkAirgappedACMConfig (acm_Enabled r) (acm_Subscription r) (acm_MultiClusterHub r)
    (acm_HostInventory r).

(** [AirgappedRHTASConfig], [api/v1/disconnectedplatform_types.go]. *)
Record AirgappedRHTASConfig := mkAirgappedRHTASConfig {
  art_TrustedRootKeys : option LocalObjectReference;
}.
#[export] Instance eta_AirgappedRHTASConfig : Eta AirgappedRHTASConfig := fun r =>
  mkAirgappedRHTASConfig (art_TrustedRootKeys r).

(** [AirgappedConfig], [api/v1/disconnectedplatform_types.go]. *)
Record AirgappedConfig := mkAirgappedConfig {
  ac_ManagementCluster : bool;
  ac_MirrorRegistry : string;
  ac_BootstrapEnabled : bool;
  ac_ImportPath : string;
  ac_ImportScanSchedule : string;
  ac_RegistryCredentials : option LocalObjectReference;
  ac_Quay : option AirgappedQuayConfig;
  ac_ACM : option AirgappedACMConfig;
  ac_RHTAS : option AirgappedRHTASConfig;
  ac_MirrorRegistryConfig : option MirrorRegistryConfig;
  ac_DefaultImageSetConfig : string;
  ac_VerifyPublicKey : option LocalObjectReference;
}.
#[export] Instance eta_AirgappedConfig : Eta AirgappedConfig := fun r =>
  mkAirgappedConfig (ac_ManagementCluster r) (ac_MirrorRegistry r) (ac_BootstrapEnabled r)
    (ac_ImportPath r) (ac_ImportScanSchedule r) (ac_RegistryCredentials r) (ac_Quay r) (ac_ACM
    r) (ac_RHTAS r) (ac_MirrorRegistryConfig r) (ac_DefaultImageSetConfig r) (ac_VerifyPublicKey
    r).

(** [TLSConfig], [api/v1/disconnectedplatform_types.go]. *)
Record TLSConfig := mkTLSConfig {
  tlc_Termination : string;
}.
#[export] Instance eta_TLSConfig : Eta TLSConfig := fun r =>
  mkTLSConfig (tlc_Termination r).

(** [RouteConfig], [api/v1/disconnectedplatform_types.go]. *)
Record RouteConfig := mkRouteConfig {
  rtc_Host : string;
  rtc_TLS : option TLSConfig;
}.
#[export] Instance eta_RouteConfig : Eta RouteConfig := fun r =>
  mkRouteConfig (rtc_Host r) (rtc_TLS r).

(** [ConsolePluginConfig], [api/v1/disconnectedplatform_types.go]. *)
Record ConsolePluginConfig := mkConsolePluginConfig {
  cpc_Enabled : bool;
  cpc_Image : string;
}.
#[export] Instance eta_ConsolePluginConfig : Eta ConsolePluginConfig := fun r =>
  mkConsolePluginConfig (cpc_Enabled r) (cpc_Image r).

(** [AirgapArchitectConfig], [api/v1/disconnectedplatform_types.go]. *)
Record AirgapArchitectConfig := mkAirgapArchitectConfig {
  aac_Enabled : bool;
  aac_FrontendImage : string;
  aac_BackendImage : string;
  aac_ConsolePlugin : option ConsolePluginConfig;
  aac_Replicas : Z;
  aac_Route : option RouteConfig;
  aac_PullSecret : option LocalObjectReference;
  aac_GitHubTokenSecret : option LocalObjectReference;
}.
#[export] Instance eta_AirgapArchitectConfig : Eta AirgapArchitectConfig := fun r =>
  mkAirgapArchitectConfig (aac_Enabled r) (aac_FrontendImage r) (aac_BackendImage r)
    (aac_ConsolePlugin r) (aac_Replicas r) (aac_Route r) (aac_PullSecret r)
    (aac_GitHubTokenSecret r).

(** [GitOpsConfig], [api/v1/disconnectedplatform_types.go]. *)
Record GitOpsConfig := mkGitOpsConfig {
  goc_Enabled : bool;
  goc_RepositoryURL : string;
  goc_Branch : string;
  goc_Path : string;
  goc_Credentials : option LocalObjectReference;
}.
#[export] Instance eta_GitOpsConfig : Eta GitOpsConfig := fun r =>
  mkGitOpsConfig (goc_Enabled r) (goc_RepositoryURL r) (goc_Branch r) (goc_Path r)
    (goc_Credentials r).

(** [DisconnectedPlatformSpec], [api/v1/disconnectedplatform_types.go]. *)
Record DisconnectedPlatformSpec := mkDisconnectedPlatformSpec {
  dps_Mode : string;
  dps_Connected : option ConnectedConfig;
  dps_Airgapped : option AirgappedConfig;
  dps_Architect : option AirgapArchitectConfig;
  dps_GitOps : option GitOpsConfig;
}.
#[export] Instance eta_DisconnectedPlatformSpec : Eta DisconnectedPlatformSpec := fun r =>
  mkDisconnectedPlatformSpec (dps_Mode r) (dps_Connected r) (dps_Airgapped r) (dps_Architect r)
    (dps_GitOps r).

(** [CollectionInfo], [api/v1/disconnectedplatform_types.go]. *)
Record CollectionInfo := mkCollectionInfo {
  ci_Version : string;
  ci_Timestamp : time;
  ci_Size : string;
  ci_Status : string;
}.
#[export] Instance eta_CollectionInfo : Eta CollectionInfo := fun r =>
  mkCollectionInfo (ci_Version r) (ci_Timestamp r) (ci_Size r) (ci_Status r).

(** [ImportInfo], [api/v1/disconnectedplatform_types.go]. *)
Record ImportInfo := mkImportInfo {
  ii_Version : string;
  ii_Timestamp : time;
  ii_Status : string;
}.
#[export] Instance eta_ImportInfo : Eta ImportInfo := fun r =>
  mkImportInfo (ii_Version r) (ii_Timestamp r) (ii_Status r).

(** [ComponentStatus], [api/v1/disconnectedplatform_types.go]. *)
Record ComponentStatus := mkComponentStatus {
  cst_Name : string;
  cst_Status : string;
  cst_Kind : string;
  cst_APIGroup : string;
  cst_Namespace : string;
  cst_URL : string;
  cst_LastCheck : option time;
}.
#[export] Instance eta_ComponentStatus : Eta ComponentStatus := fun r =>
  mkComponentStatus (cst_Name r) (cst_Status r) (cst_Kind r) (cst_APIGroup r) (cst_Namespace r)
    (cst_URL r) (cst_LastCheck r).

(** [RHTASRootKeysInfo], [api/v1/disconnectedplatform_types.go]. *)
Record RHTASRootKeysInfo := mkRHTASRootKeysInfo {
  rrk_ConfigMap : string;
  rrk_FulcioRootHash : string;
  rrk_RekorKeyHash : string;
  rrk_LastUpdated : time;
  rrk_TUFRepositoryURL : string;
}.
#[export] Instance eta_RHTASRootKeysInfo : Eta RHTASRootKeysInfo := fun r =>
  mkRHTASRootKeysInfo (rrk_ConfigMap r) (rrk_FulcioRootHash r) (rrk_RekorKeyHash r)
    (rrk_LastUpdated r) (rrk_TUFRepositoryURL r).

(** [DisconnectedPlatformStatus], [api/v1/disconnectedplatform_types.go]. *)
Record DisconnectedPlatformStatus := mkDisconnectedPlatformStatus {
  dpst_Phase : string;
  dpst_Conditions : list Condition;
  dpst_LastCollection : option CollectionInfo;
  dpst_CollectionHistory : list CollectionInfo;
  dpst_LastImport : option ImportInfo;
  dpst_ImportHistory : list ImportInfo;
  dpst_Components : list ComponentStatus;
  dpst_RHTASRootKeys : option RHTASRootKeysInfo;
}.
#[export] Instance eta_DisconnectedPlatformStatus : Eta DisconnectedPlatformStatus := fun r =>
  mkDisconnectedPlatformStatus (dpst_Phase r) (dpst_Conditions r) (dpst_LastCollection r)
    (dpst_CollectionHistory r) (dpst_LastImport r) (dpst_ImportHistory r) (dpst_Components r)
    (dpst_RHTASRootKeys r).

(** [DisconnectedPlatform], [api/v1/disconnectedplatform_types.go]. *)
Record DisconnectedPlatform := mkDisconnectedPlatform {
  dp_TypeMeta : TypeMeta;
  dp_ObjectMeta : ObjectMeta;
  dp_Spec : DisconnectedPlatformSpec;
  dp_Status : DisconnectedPlatformStatus;
}.
#[export] Instance eta_DisconnectedPlatform : Eta DisconnectedPlatform := fun r =>
  mkDisconnectedPlatform (dp_TypeMeta r) (dp_ObjectMeta r) (dp_Spec r) (dp_Status r).

(** ** MirrorRelease (deprecated, kept for existing objects) *)

(** [MirrorReleaseSpec], [api/v1/mirrorrelease_types.go]. *)
Record MirrorReleaseSpec := mkMirrorReleaseSpec {
  mrs_ImageSetConfig : string;
  mrs_Output : option BundleOutput;
}.
#[export] Instance eta_MirrorReleaseSpec : Eta MirrorReleaseSpec := fun r =>
  mkMirrorReleaseSpec (mrs_ImageSetConfig r) (mrs_Output r).

(** [MirrorReleaseStatus], [api/v1/mirrorrelease_types.go]. *)
Record MirrorReleaseStatus := mkMirrorReleaseStatus {
  mrst_Conditions : list Condition;
  mrst_Phase : string;
  mrst_PipelineRunRef : string;
  mrst_ConfigMapRef : string;
}.
#[export] Instance eta_MirrorReleaseStatus : Eta MirrorReleaseStatus := fun r =>
  mkMirrorReleaseStatus (mrst_Conditions r) (mrst_Phase r) (mrst_PipelineRunRef r)
    (mrst_ConfigMapRef r).

(** [MirrorRelease], [api/v1/mirrorrelease_types.go]. *)
Record MirrorRelease := mkMirrorRelease {
  mr_TypeMeta : TypeMeta;
  mr_ObjectMeta : ObjectMeta;
  mr_Spec : MirrorReleaseSpec;
  mr_Status : MirrorReleaseStatus;
}.
#[export] Instance eta_MirrorRelease : Eta MirrorRelease := fun r =>
  mkMirrorRelease (mr_TypeMeta r) (mr_ObjectMeta r) (mr_Spec r) (mr_Status r).
