(* ===== verification/Kube.v ===== *)
(** The boundary of the program: the calls it makes on the Kubernetes API, on the
    clock, on HTTP endpoints and on the cryptographic library, and what an execution
    against an arbitrary environment is.

    A reconciler is a [prog]: a finite tree of calls whose continuations take the
    reply.  Nothing is assumed of the replies: [exec] relates a program to every
    trace some environment can produce, so a theorem over [exec] holds whatever the
    API server answers (errors, stale reads, concurrent writers included).  [wp] is
    the same statement by recursion on the program, which is what the proofs use,
    and [run] executes a program against a concrete server. *)
From S2P Require Import Prelude GoStrings K8s Api.

(** ** Errors *)

(** What [apierrors] can tell about an error. *)
Inductive reason := ReasonNotFound | ReasonAlreadyExists | ReasonConflict | ReasonOther.

Record error := mkError { e_Reason : reason; e_Msg : string }.

Definition IsNotFound (e : error) : bool :=
  match e_Reason e with ReasonNotFound => true | _ => false end.
Definition IsAlreadyExists (e : error) : bool :=
  match e_Reason e with ReasonAlreadyExists => true | _ => false end.
Definition IsConflict (e : error) : bool :=
  match e_Reason e with ReasonConflict => true | _ => false end.

(** [fmt.Errorf(msg)], and [fmt.Errorf("msg: %w", err)], which keeps what
    [apierrors] sees of [err]. *)
Definition Errorf (msg : string) : error := mkError ReasonOther msg.
Definition Wrapf (msg : string) (e : error) : error :=
  mkError (e_Reason e) (msg +:+ ": " +:+ e_Msg e).

(** A Go [(value, error)] pair of which exactly one is meaningful. *)
Inductive result (A : Type) : Type :=
| Ok (a : A)
| Err (e : error).
Arguments Ok {A} a.
Arguments Err {A} e.

Definition err_of {A} (r : result A) : option error :=
  match r with Ok _ => None | Err e => Some e end.

Definition to_option {A} (r : result A) : option A :=
  match r with Ok a => Some a | Err _ => None end.

(** ** Kinds of objects *)

Inductive kind :=
| KMirrorImport
| KCollectionPipeline
| KClusterBootstrap
| KDisconnectedPlatform
| KPipelineRun
| KConfigMap
| KSecret
| KServiceAccount
| KPersistentVolumeClaim
| KJob
| KPod
| KNode
| KNamespace
| KDeployment
| KStatefulSet
| KCronJob
| KService
| KRole
| KRoleBinding
| KClusterRole
| KClusterRoleBinding
| KUnstructured (g : GroupVersionKind).

#[export] Instance kind_eq_dec : EqDecision kind.
Proof. solve_decision. Defined.

Definition obj (K : kind) : Set :=
  match K with
  | KMirrorImport => MirrorImport
  | KCollectionPipeline => CollectionPipeline
  | KClusterBootstrap => ClusterBootstrap
  | KDisconnectedPlatform => DisconnectedPlatform
  | KPipelineRun => PipelineRun
  | KConfigMap => ConfigMap
  | KSecret => Secret
  | KServiceAccount => ServiceAccount
  | KPersistentVolumeClaim => PersistentVolumeClaim
  | KJob => Job
  | KPod => Pod
  | KNode => Node
  | KNamespace => Namespace
  | KDeployment => Deployment
  | KStatefulSet => StatefulSet
  | KCronJob => CronJob
  | KService => Service
  | KRole | KClusterRole => Role
  | KRoleBinding | KClusterRoleBinding => RoleBinding
  | KUnstructured _ => Unstructured
  end.

Definition meta {K : kind} : obj K -> ObjectMeta :=
  match K return obj K -> ObjectMeta with
  | KMirrorImport => mi_ObjectMeta
  | KCollectionPipeline => cp_ObjectMeta
  | KClusterBootstrap => cb_ObjectMeta
  | KDisconnectedPlatform => dp_ObjectMeta
  | KPipelineRun => pr_Meta
  | KConfigMap => cm_Meta
  | KSecret => sec_Meta
  | KServiceAccount => sa_Meta
  | KPersistentVolumeClaim => pvc_Meta
  | KJob => job_Meta
  | KPod => pod_Meta
  | KNode => node_Meta
  | KNamespace => ns_Meta
  | KDeployment => dep_Meta
  | KStatefulSet => sts_Meta
  | KCronJob => cj_Meta
  | KService => svc_Meta
  | KRole | KClusterRole => role_Meta
  | KRoleBinding | KClusterRoleBinding => rb_Meta
  | KUnstructured _ => u_Meta
  end.

(** [client.ObjectKeyFromObject]. *)
Definition key_of_meta (m : ObjectMeta) : NamespacedName := mkNN (om_Namespace m) (om_Name m).
Definition key_of {K} (o : obj K) : NamespacedName := key_of_meta (meta o).

(** ** Calls and replies *)

(** The fields of the certificate template that [generateCA] fills in. *)
Record CertTemplate := mkCertTemplate {
  ctp_SerialNumber : Z;
  ctp_CommonName : string;
  ctp_Organization : list string;
  ctp_NotBefore : time;
  ctp_NotAfter : time;
  ctp_KeyUsageCertSign : bool;
  ctp_KeyUsageCRLSign : bool;
  ctp_BasicConstraintsValid : bool;
  ctp_IsCA : bool;
  ctp_MaxPathLen : Z;
  ctp_MaxPathLenZero : bool;
}.

(** An HTTP response: its status and its body decoded as a JSON object. *)
Record HttpResponse := mkHttpResponse { http_StatusCode : Z; http_Body : result fields }.

(** A request with headers and a body, sent by a client that does not verify certificates;
    its response, with the header [Location] and the text of the body. *)
Inductive HttpBody :=
| NoBody
| FormBody (data : list (string * string))
| TextBody (text : string).
Record HttpRequest := mkHttpRequest {
  rq_Method : string;
  rq_URL : string;
  rq_Headers : list (string * string);
  rq_Body : HttpBody;
}.
Record HttpReply := mkHttpReply {
  hp_StatusCode : Z;
  hp_Status : string;
  hp_Location : string;
  hp_Body : string;
}.

(** What running a command in a container gives: the two ways the client can fail, and the
    text on the standard output and error. *)
Record ExecReply := mkExecReply {
  ex_NoExecutor : option error;
  ex_StreamError : option error;
  ex_Stdout : string;
  ex_Stderr : string;
}.

Inductive call :=
| CGet (K : kind) (k : NamespacedName)
| CList (K : kind) (ns : option string) (labels : list (string * string))
| CCreate (K : kind) (o : obj K)
| CUpdate (K : kind) (o : obj K)
| CStatusUpdate (K : kind) (o : obj K)
| CDelete (K : kind) (o : obj K)
| CNow
| CPostForm (url : string) (data : list (string * string))
| CHttp (rq : HttpRequest)                        (* http.Client.Do *)
| CSleep (d : Duration)                           (* time.Sleep *)
| CGenerateKey                                    (* ecdsa.GenerateKey(P256) *)
| CRandInt (max : Z)                              (* rand.Int *)
| CCreateCertificate (t : CertTemplate) (key : string)
| CMarshalECPrivateKey (key : string)
| CExecInPod (ns pod container : string) (command : list string) (stdin : option string).

(** A write that succeeds replies with the stored object, which the client copies
    into the program's variable. *)
Definition reply (c : call) : Set :=
  match c with
  | CGet K _ => result (obj K)
  | CList K _ _ => result (list (obj K))
  | CCreate K _ | CUpdate K _ | CStatusUpdate K _ => result (obj K)
  | CDelete _ _ => option error
  | CNow => time
  | CPostForm _ _ => result HttpResponse
  | CHttp _ => result HttpReply
  | CSleep _ => unit
  | CGenerateKey => result string
  | CRandInt _ => result Z
  | CCreateCertificate _ _ => result string
  | CMarshalECPrivateKey _ => result string
  | CExecInPod _ _ _ _ _ => ExecReply
  end.

(** ** Programs *)

Inductive prog (A : Type) : Type :=
| Ret (a : A)
| Panic (msg : string)
| Call (c : call) (k : reply c -> prog A).
Arguments Ret {A} a.
Arguments Panic {A} msg.
Arguments Call {A} c k.

Fixpoint prog_bind {A B} (f : A -> prog B) (p : prog A) : prog B :=
  match p with
  | Ret a => f a
  | Panic m => Panic m
  | Call c k => Call c (fun r => prog_bind f (k r))
  end.

#[export] Instance prog_mret : MRet prog := @Ret.
#[export] Instance prog_mbind : MBind prog := @prog_bind.

Definition Get (K : kind) (k : NamespacedName) : prog (result (obj K)) := Call (CGet K k) Ret.
Definition List_ (K : kind) (ns : option string) (labels : list (string * string))
  : prog (result (list (obj K))) := Call (CList K ns labels) Ret.
Definition Create (K : kind) (o : obj K) : prog (result (obj K)) := Call (CCreate K o) Ret.
Definition Update (K : kind) (o : obj K) : prog (result (obj K)) := Call (CUpdate K o) Ret.
Definition StatusUpdate (K : kind) (o : obj K) : prog (result (obj K)) :=
  Call (CStatusUpdate K o) Ret.
Definition Delete (K : kind) (o : obj K) : prog (option error) := Call (CDelete K o) Ret.
Definition Now : prog time := Call CNow Ret.
Definition PostForm (url : string) (data : list (string * string)) : prog (result HttpResponse) :=
  Call (CPostForm url data) Ret.

Definition Sleep (d : Duration) : prog unit := Call (CSleep d) Ret.

(** ** What a reconciler returns *)

Record Result := mkResult { res_Requeue : bool; res_RequeueAfter : Duration }.
Definition Result0 : Result := mkResult false 0%Z.
Definition Requeue : Result := mkResult true 0%Z.
Definition RequeueAfter (d : Duration) : Result := mkResult false d.

Definition reconcile_out : Type := Result * option error.

Definition done : prog reconcile_out := Ret (Result0, None).
Definition fail_with (e : error) : prog reconcile_out := Ret (Result0, Some e).
(** [return ctrl.Result{}, r.Update(ctx, o)] and its status counterpart. *)
Definition return_update (K : kind) (o : obj K) : prog reconcile_out :=
  r ← Update K o; Ret (Result0, err_of r).
Definition return_status_update (K : kind) (o : obj K) : prog reconcile_out :=
  r ← StatusUpdate K o; Ret (Result0, err_of r).

(** A part of a reconciler that either returns from it or hands a value on to the
    part that follows. *)
Inductive step (A : Type) : Type :=
| Exit (o : reconcile_out)
| Next (a : A).
Arguments Exit {A} o.
Arguments Next {A} a.

Definition andThen {A} (p : prog (step A)) (f : A -> prog reconcile_out) : prog reconcile_out :=
  s ← p;
  match s with
  | Exit o => Ret o
  | Next a => f a
  end.

Notation "'let!' x := p 'in' q" := (andThen p (fun x => q))
  (at level 200, x name, p at level 100, q at level 200) : go_scope.

Definition exit_err {A} (e : error) : prog (step A) := Ret (Exit (Result0, Some e)).
(** [return ctrl.Result{}, r.Status().Update(ctx, o)] inside such a part. *)
Definition exit_status_update {A} (K : kind) (o : obj K) : prog (step A) :=
  r ← StatusUpdate K o; Ret (Exit (Result0, err_of r)).

(** [if err := p; err != nil { return fmt.Errorf("msg: %w", err) }], then [q]. *)
Definition orFail (msg : string) (p q : prog (option error)) : prog (option error) :=
  r ← p;
  match r with
  | Some e => mret (Some (Wrapf msg e))
  | None => q
  end.

(** ** Executions *)

Record event := Ev { ev_call : call; ev_reply : reply ev_call }.

Abbreviation trace := (list event).

Inductive outcome (A : Type) : Type :=
| Done (a : A)
| Panicked (msg : string).
Arguments Done {A} a.
Arguments Panicked {A} msg.

Inductive exec {A : Type} : prog A -> trace -> outcome A -> Prop :=
| exec_ret a : exec (Ret a) [] (Done a)
| exec_panic m : exec (Panic m) [] (Panicked m)
| exec_call c k r tr o : exec (k r) tr o -> exec (Call c k) (Ev c r :: tr) o.

Fixpoint wp {A} (p : prog A) (Q : trace -> outcome A -> Prop) : Prop :=
  match p with
  | Ret a => Q [] (Done a)
  | Panic m => Q [] (Panicked m)
  | Call c k => forall r, wp (k r) (fun tr o => Q (Ev c r :: tr) o)
  end.

(** A concrete environment: a state and a reply to every call. *)
Class Server (S : Type) := handle : forall c : call, S -> reply c * S.

Fixpoint run {A S} `{Server S} (p : prog A) (s : S) : trace * outcome A * S :=
  match p with
  | Ret a => ([], Done a, s)
  | Panic m => ([], Panicked m, s)
  | Call c k =>
      let '(r, s1) := handle c s in
      let '(tr, o, s2) := run (k r) s1 in
      (Ev c r :: tr, o, s2)
  end.

(** Classes of calls. *)
Definition is_write (c : call) : bool :=
  match c with
  | CCreate _ _ | CUpdate _ _ | CStatusUpdate _ _ | CDelete _ _ => true
  | _ => false
  end.

(** A property of traces that holds of the pieces when it holds of each. *)
Class TraceProp (S : trace -> Prop) : Prop := {
  tp_nil : S [];
  tp_app : forall t1 t2, S t1 -> S t2 -> S (t1 ++ t2);
}.

(** Every execution has a trace in [S]. *)
Definition always (S : trace -> Prop) {A} (p : prog A) : Prop := wp p (fun tr _ => S tr).

(** Every execution returns: no panic. *)
Definition returns {A} (p : prog A) : Prop := wp p (fun _ o => exists a, o = Done a).

(** Every call of a trace satisfies [P]. *)
Definition calls (P : call -> Prop) (tr : trace) : Prop := Forall (fun e => P (ev_call e)) tr.

(** Writes to objects of one kind. *)
Definition creates (K : kind) (c : call) : bool :=
  match c with CCreate K' _ => bool_decide (K' = K) | _ => false end.
Definition updates (K : kind) (c : call) : bool :=
  match c with CUpdate K' _ => bool_decide (K' = K) | _ => false end.
Definition status_updates (K : kind) (c : call) : bool :=
  match c with CStatusUpdate K' _ => bool_decide (K' = K) | _ => false end.
Definition deletes (K : kind) (c : call) : bool :=
  match c with CDelete K' _ => bool_decide (K' = K) | _ => false end.

(** A program that writes nothing. *)
Definition reads (c : call) : Prop := is_write c = false.

Definition writes (tr : trace) : list call := filter is_write (map ev_call tr).

(** ** The laws of [exec] and [wp] *)

Lemma exec_inv {A} (p : prog A) tr o :
  exec p tr o ->
  match p with
  | Ret a => tr = [] /\ o = Done a
  | Panic m => tr = [] /\ o = Panicked m
  | Call c k => exists r tr', tr = Ev c r :: tr' /\ exec (k r) tr' o
  end.
Proof. destruct 1; eauto. Qed.

Lemma wp_exec {A} (p : prog A) Q :
  wp p Q <-> (forall tr o, exec p tr o -> Q tr o).
Proof.
  revert Q; induction p as [a|m|c k IH]; intros Q; simpl.
  - split; [intros H tr o [-> ->]%exec_inv; done|intros H; apply H; constructor].
  - split; [intros H tr o [-> ->]%exec_inv; done|intros H; apply H; constructor].
  - split.
    + intros H tr o (r & tr' & -> & He)%exec_inv. specialize (H r). rewrite IH in H. auto.
    + intros H r. apply IH. intros tr o He. apply H. by constructor.
Qed.

Lemma wp_mono {A} (p : prog A) (P Q : trace -> outcome A -> Prop) :
  (forall tr o, P tr o -> Q tr o) -> wp p P -> wp p Q.
Proof.
  revert P Q; induction p as [a|m|c k IH]; intros P Q HPQ; simpl; [auto|auto|].
  intros H r. eapply IH; [|apply H]. simpl. auto.
Qed.

Lemma wp_conj {A} (p : prog A) (P Q : trace -> outcome A -> Prop) :
  wp p P -> wp p Q -> wp p (fun tr o => P tr o /\ Q tr o).
Proof.
  rewrite !wp_exec. auto.
Qed.

Lemma wp_true {A} (p : prog A) (Q : trace -> outcome A -> Prop) :
  (forall tr o, Q tr o) -> wp p Q.
Proof. rewrite wp_exec. auto. Qed.

(** The sequencing rule. *)
Lemma wp_bind {A B} (p : prog A) (f : A -> prog B) Q :
  wp (p ≫= f) Q <->
  wp p (fun tr o => match o with
                    | Done a => wp (f a) (fun tr' o' => Q (tr ++ tr') o')
                    | Panicked m => Q tr (Panicked m)
                    end).
Proof.
  unfold mbind, prog_mbind. revert Q; induction p as [a|m|c k IH]; intros Q; simpl; [done|done|].
  split; intros H r; [apply (IH r) in H|apply (IH r), H]; exact H.
Qed.

(** One call, and what follows its reply. *)
Lemma exec_call_bind {A} c (f : reply c -> prog A) tr o :
  exec (Call c Ret ≫= f) tr o -> exists r tr', tr = Ev c r :: tr' /\ exec (f r) tr' o.
Proof. exact (exec_inv (Call c f) tr o). Qed.

Lemma exec_bind {A B} (p : prog A) (f : A -> prog B) tr o :
  exec (p ≫= f) tr o <->
  (exists m, exec p tr (Panicked m) /\ o = Panicked m) \/
  (exists a tr1 tr2, exec p tr1 (Done a) /\ exec (f a) tr2 o /\ tr = tr1 ++ tr2).
Proof.
  unfold mbind, prog_mbind. revert tr; induction p as [a|m|c k IH]; intros tr; simpl.
  - split.
    + intros H. right. exists a, [], tr. split_and!; [constructor|done|done].
    + intros [(m & H & _)|(b & tr1 & tr2 & H & H2 & ->)].
      * apply exec_inv in H as [_ H]. done.
      * by apply exec_inv in H as [-> [= ->]].
  - split.
    + intros [-> ->]%exec_inv. left. eexists. split; [constructor|done].
    + intros [(m' & H & ->)|(b & tr1 & tr2 & H & _)].
      * apply exec_inv in H as [-> [= ->]]. constructor.
      * by apply exec_inv in H as [_ H].
  - split.
    + intros (r & tr' & -> & H)%exec_inv. apply IH in H as [(m & H & ->)|(a & t1 & t2 & H1 & H2 & ->)].
      * left. eexists. split; [by constructor|done].
      * right. exists a, (Ev c r :: t1), t2. split_and!; [by constructor|done|done].
    + intros [(m & H & ->)|(a & t1 & t2 & H1 & H2 & ->)].
      * apply exec_inv in H as (r & tr' & -> & H). constructor. apply IH. eauto.
      * apply exec_inv in H1 as (r & tr' & -> & H). simpl. constructor. apply IH. right. eauto 10.
Qed.

(** Every run of a program on a concrete server is an execution, and there is one. *)
Lemma run_exec {A S} `{Server S} (p : prog A) (s : S) :
  exec p (fst (fst (run p s))) (snd (fst (run p s))).
Proof.
  revert s; induction p as [a|m|c k IH]; intros s; simpl; [constructor|constructor|].
  destruct (handle c s) as [r s1]. specialize (IH r s1).
  destruct (run (k r) s1) as [[tr o] s2]. by constructor.
Qed.

(** Programs terminate: from any state there is an outcome. *)
Lemma run_bind {A B S} `{Server S} (p : prog A) (f : A -> prog B) (s : S) :
  run (p ≫= f) s =
  match run p s with
  | (tr, Done a, s1) => let '(tr2, o, s2) := run (f a) s1 in (tr ++ tr2, o, s2)
  | (tr, Panicked m, s1) => (tr, Panicked m, s1)
  end.
Proof.
  unfold mbind, prog_mbind. revert s; induction p as [a|m|c k IH]; intros s; simpl.
  - by destruct (run (f a) s) as [[tr o] s2].
  - done.
  - destruct (handle c s) as [r s1]. rewrite IH.
    destruct (run (k r) s1) as [[tr [a|m]] s2]; [|done].
    by destruct (run (f a) s2) as [[tr2 o] s3].
Qed.

Lemma prog_bind_assoc {A B C} (p : prog A) (f : A -> prog B) (g : B -> prog C) Q :
  wp ((p ≫= f) ≫= g) Q <-> wp (p ≫= (fun a => f a ≫= g)) Q.
Proof.
  unfold mbind, prog_mbind. revert Q; induction p as [a|m|c k IH]; intros Q; simpl; [done|done|].
  split; intros H r; [apply (IH r) in H|apply (IH r), H]; exact H.
Qed.

Lemma exec_assoc {A B C} (p : prog A) (f : A -> prog B) (g : B -> prog C) tr o :
  exec ((p ≫= f) ≫= g) tr o <-> exec (p ≫= (fun a => f a ≫= g)) tr o.
Proof.
  unfold mbind, prog_mbind. revert tr; induction p as [a|m|c k IH]; intros tr; simpl; [done|done|].
  split; intros (r & t & -> & H)%exec_inv; constructor; by apply IH.
Qed.

(** *** Calls of a program *)

#[export] Instance calls_trace_prop (P : call -> Prop) : TraceProp (calls P).
Proof. split; [constructor|]. intros t1 t2 H1 H2. by apply Forall_app. Qed.

#[export] Instance and_trace_prop (S T : trace -> Prop) :
  TraceProp S -> TraceProp T -> TraceProp (fun tr => S tr /\ T tr).
Proof. intros [] []. split; [done|]. intros t1 t2 [] []. auto. Qed.

Lemma calls_mono (P Q : call -> Prop) tr : (forall c, P c -> Q c) -> calls P tr -> calls Q tr.
Proof. intros HPQ H. eapply Forall_impl; [exact H|]. auto. Qed.

Lemma always_exec {A} (S : trace -> Prop) (p : prog A) tr o : always S p -> exec p tr o -> S tr.
Proof. unfold always. rewrite wp_exec. intros H He. by apply (H tr o). Qed.

(** The writes of the pieces of a trace. *)
Lemma writes_app t1 t2 : writes (t1 ++ t2) = writes t1 ++ writes t2.
Proof. unfold writes. rewrite map_app. apply filter_app. Qed.
Lemma writes_reads tr : calls reads tr -> writes tr = [].
Proof.
  induction 1 as [|[c r] tr Hc _ IH]; [done|]. unfold reads in Hc. unfold writes. cbn in *. by rewrite Hc.
Qed.

(** A program that writes nothing keeps any [S] that reads keep. *)
Lemma always_reads (S : trace -> Prop) `{!TraceProp S} {A} (p : prog A) :
  (forall e, reads (ev_call e) -> S [e]) -> always (calls reads) p -> always S p.
Proof.
  intros He. apply wp_mono. intros tr _ H. induction H as [|e tr H _ IH]; [apply tp_nil|].
  change (e :: tr) with ([e] ++ tr). apply tp_app; auto.
Qed.

Lemma always_mono {A} (S T : trace -> Prop) (p : prog A) :
  (forall tr, S tr -> T tr) -> always S p -> always T p.
Proof. intros HST. apply wp_mono. auto. Qed.

Section Always.
Context (S : trace -> Prop) `{!TraceProp S}.

Lemma always_ret {A} (a : A) : always S (Ret a).
Proof. apply tp_nil. Qed.

Lemma always_panic {A} m : always S (@Panic A m).
Proof. apply tp_nil. Qed.

Lemma always_call c : (forall r, S [Ev c r]) -> always S (Call c Ret).
Proof. intros H r. apply H. Qed.

(** [p] returns a value or the trace goes on; the traces of the two parts. *)
Lemma exec_bind_returns {A B} (p : prog A) (f : A -> prog B) tr o :
  returns p -> exec (p ≫= f) tr o ->
  exists a t1 t2, tr = t1 ++ t2 /\ exec p t1 (Done a) /\ exec (f a) t2 o.
Proof.
  unfold returns. rewrite wp_exec. intros Hp [(m & H & _)|(a & t1 & t2 & H1 & H2 & ->)]%exec_bind.
  - by destruct (Hp _ _ H).
  - eauto 10.
Qed.

Lemma exec_orFail msg p q tr o :
  returns p -> exec (orFail msg p q) tr o ->
  exists r t1 t2, tr = t1 ++ t2 /\ exec p t1 (Done r) /\
    match r with
    | Some e => t2 = [] /\ o = Done (Some (Wrapf msg e))
    | None => exec q t2 o
    end.
Proof.
  intros Hp H. apply exec_bind_returns in H as (r & t1 & t2 & -> & H1 & H2); [|done].
  exists r, t1, t2. split_and!; [done|done|]. destruct r as [e|]; [by apply exec_inv in H2|done].
Qed.

Lemma returns_bind {A B} (p : prog A) (f : A -> prog B) :
  returns p -> (forall a, returns (f a)) -> returns (p ≫= f).
Proof.
  unfold returns. intros Hp Hf. apply wp_bind. eapply wp_mono; [|exact Hp].
  intros tr o' [a ->]. eapply wp_mono; [|apply Hf]. auto.
Qed.

Lemma returns_orFail msg p q : returns p -> returns q -> returns (orFail msg p q).
Proof. intros Hp Hq. apply returns_bind; [done|]. intros [e|]; [by eexists|done]. Qed.

(** A program that keeps [S], followed by one whose executions satisfy [Q']. *)
Lemma wp_after {A B} (p : prog A) (f : A -> prog B) (Q Q' : trace -> outcome B -> Prop) :
  always S p ->
  (forall tr m, S tr -> Q tr (Panicked m)) ->
  (forall t1 t2 o, S t1 -> Q' t2 o -> Q (t1 ++ t2) o) ->
  (forall a, wp (f a) Q') -> wp (p ≫= f) Q.
Proof.
  intros Hp Hm Happ Hf. apply wp_bind. eapply wp_mono; [|apply Hp].
  intros tr [a|m] HS; [|by apply Hm]. eapply wp_mono; [|apply Hf]. intros tr' o. by apply Happ.
Qed.

Lemma wp_after_step {A} (p : prog (step A)) (f : A -> prog reconcile_out)
    (Q : trace -> outcome reconcile_out -> Prop) :
  always S p ->
  (forall tr o, S tr -> Q tr o) ->
  (forall t1 t2 o, S t1 -> Q t2 o -> Q (t1 ++ t2) o) ->
  (forall a, wp (f a) Q) -> wp (andThen p f) Q.
Proof.
  intros Hp Hm Happ Hf. apply (wp_after p _ Q Q); [done|auto|done|].
  intros [o|a]; [|by apply Hf]. apply Hm, tp_nil.
Qed.

Lemma always_bind {A B} (p : prog A) (f : A -> prog B) :
  always S p -> (forall a, always S (f a)) -> always S (p ≫= f).
Proof.
  intros Hp Hf.
  apply (wp_after p f (fun tr _ => S tr) (fun tr _ => S tr)); [done|auto|intros t1 t2 _; apply tp_app|done].
Qed.

Lemma always_andThen {A} (p : prog (step A)) (f : A -> prog reconcile_out) :
  always S p -> (forall a, always S (f a)) -> always S (andThen p f).
Proof. intros Hp Hf. apply always_bind; [done|]. intros [o|a]; [apply tp_nil|apply Hf]. Qed.
End Always.

(** ** Rely and guarantee

    [rg R G p post]: in an execution whose events all satisfy [R] (what is assumed of
    the replies), every call satisfies [G] and the value returned satisfies [post]. *)

Definition rg (R : event -> Prop) (G : call -> Prop) {A} (p : prog A) (post : A -> Prop) : Prop :=
  wp p (fun tr o => Forall R tr ->
          calls G tr /\ match o with Done a => post a | Panicked _ => True end).

(** What a part of a reconciler guarantees about the value it hands on. *)
Definition on_next {A} (post : A -> Prop) (s : step A) : Prop :=
  match s with Exit _ => True | Next a => post a end.

Section RelyGuarantee.
Context (R : event -> Prop) (G : call -> Prop).

Lemma rg_exec {A} (p : prog A) post tr o :
  rg R G p post -> exec p tr o -> Forall R tr ->
  calls G tr /\ match o with Done a => post a | Panicked _ => True end.
Proof. unfold rg. rewrite wp_exec. intros H He. by apply H. Qed.

Lemma rg_ret {A} (a : A) (post : A -> Prop) : post a -> rg R G (Ret a) post.
Proof. intros H _. split; [constructor|done]. Qed.

Lemma rg_panic {A} m (post : A -> Prop) : rg R G (Panic m) post.
Proof. intros _. split; [constructor|done]. Qed.

Lemma rg_call c (post : reply c -> Prop) :
  G c -> (forall r, R (Ev c r) -> post r) -> rg R G (Call c Ret) post.
Proof.
  intros Hc Hp r H. apply Forall_cons in H as [H _]. split; [by repeat constructor|auto].
Qed.

Lemma rg_bind {A B} (p : prog A) (f : A -> prog B) mid post :
  rg R G p mid -> (forall a, mid a -> rg R G (f a) post) -> rg R G (p ≫= f) post.
Proof.
  intros Hp Hf. apply wp_bind. eapply wp_mono; [|exact Hp].
  intros tr [a|m] H; [|done]. apply wp_exec. intros tr' o He HR.
  apply Forall_app in HR as [HR1 HR2]. destruct (H HR1) as [HG Hm].
  destruct (rg_exec _ _ _ _ (Hf a Hm) He HR2) as [HG2 Hp2].
  split; [by apply Forall_app|exact Hp2].
Qed.

Lemma rg_conseq {A} (p : prog A) (post post' : A -> Prop) :
  (forall a, post a -> post' a) -> rg R G p post -> rg R G p post'.
Proof.
  intros Hpp. apply wp_mono. intros tr [a|m] H HR; destruct (H HR); auto.
Qed.

Lemma rg_andThen {A} (p : prog (step A)) (f : A -> prog reconcile_out) mid post :
  rg R G p (fun s => match s with Exit o => post o | Next a => mid a end) ->
  (forall a, mid a -> rg R G (f a) post) -> rg R G (andThen p f) post.
Proof.
  intros Hp Hf. eapply rg_bind; [exact Hp|]. intros [o|a] H; [by apply rg_ret|auto].
Qed.

(** A program all of whose calls satisfy [G]. *)
Lemma rg_always {A} (p : prog A) (post : A -> Prop) :
  always (calls G) p -> (forall a, post a) -> rg R G p post.
Proof. intros Hp Ha. eapply wp_mono; [|exact Hp]. intros tr [a|m] H _; auto. Qed.
End RelyGuarantee.

(** More may be assumed, less guaranteed. *)
Lemma rg_mono {A} (R R' : event -> Prop) (G G' : call -> Prop) (p : prog A) post :
  (forall e, R' e -> R e) -> (forall c, G c -> G' c) -> rg R G p post -> rg R' G' p post.
Proof.
  intros HR HG. apply wp_mono. intros tr o H Htr. destruct H as [H1 H2].
  - eapply Forall_impl; [exact Htr|exact HR].
  - split; [by eapply calls_mono|done].
Qed.

(** The rule of [andThen]. *)
Lemma wp_andThen {A} (p : prog (step A)) (f : A -> prog reconcile_out) Q :
  wp (andThen p f) Q <->
  wp p (fun tr o => match o with
                    | Done (Exit x) => Q tr (Done x)
                    | Done (Next a) => wp (f a) (fun tr' o' => Q (tr ++ tr') o')
                    | Panicked m => Q tr (Panicked m)
                    end).
Proof.
  unfold andThen. rewrite wp_bind. split; apply wp_mono; intros tr [[x|a]|m]; simpl;
    rewrite ?app_nil_r; done.
Qed.

(** ** Symbolic execution *)

(** Exposes the first call of a [wp] goal, introduces its reply and splits the
    branches of the program until the leaves of the tree. *)
Ltac wp_simpl :=
  cbn [wp mbind mret prog_mbind prog_mret prog_bind Get List_ Create Update StatusUpdate Delete
       Now PostForm done fail_with return_update return_status_update err_of].

Ltac wp_step :=
  wp_simpl;
  match goal with
  | |- forall _ : reply _, _ => let r := fresh "r" in intros r; cbn [reply obj] in r
  | |- wp (match ?x with _ => _ end) _ => let E := fresh "E" in destruct x eqn:E
  | |- wp (prog_bind _ (match ?x with _ => _ end)) _ => let E := fresh "E" in destruct x eqn:E
  end.

(** Proves [always S p] by cases on the program.  Lemmas on the parts it calls, and on
    [S] at single events, are in the hint database [always]. *)
Create HintDb always.

Ltac returns_go :=
  cbv beta zeta;
  first
    [ solve [eauto with always]
    | lazymatch goal with
      | |- returns (match ?x with _ => _ end) => destruct x eqn:?
      | |- returns (_ ≫= _) => apply returns_bind; [|intros ?]
      | |- returns (orFail _ _ _) => apply returns_orFail
      | |- returns (Call _ Ret) => by intros ?; eexists
      | |- returns (mret _) => by eexists
      | |- returns (Ret _) => by eexists
      end; returns_go
    | progress unfold Get, List_, Create, Update, StatusUpdate, Delete, Now, PostForm, done,
        fail_with, return_update, return_status_update, exit_err, exit_status_update; returns_go
    | idtac ].

Ltac always_leaf := solve [eauto with always].

Ltac always_step :=
  lazymatch goal with
  | |- always _ (match ?x with _ => _ end) => destruct x eqn:?
  | |- always _ (andThen _ _) => apply always_andThen; [exact _| |intros ?]
  | |- always _ (_ ≫= _) => apply always_bind; [exact _| |intros ?]
  | |- always _ (mret _) => apply always_ret; exact _
  | |- always _ (Ret _) => apply always_ret; exact _
  | |- always _ (Panic _) => apply always_panic; exact _
  | |- always _ (Call _ Ret) => apply always_call; intros ?
  end.

Ltac always_go :=
  cbv beta zeta;
  first
    [ always_leaf
    | always_step; always_go
    | progress unfold Get, List_, Create, Update, StatusUpdate, Delete, Now, PostForm, done,
        fail_with, return_update, return_status_update, exit_err, exit_status_update; always_go
    | idtac ].

(** One step of an [rg] proof: sequencing is left to the caller, who gives the
    intermediate condition. *)
Ltac rg_leaf :=
  lazymatch goal with
  | |- rg _ _ (match ?x with _ => _ end) _ => let E := fresh "E" in destruct x eqn:E
  | |- rg _ _ (mret _) _ => apply rg_ret
  | |- rg _ _ (Ret _) _ => apply rg_ret
  | |- rg _ _ (Panic _) _ => apply rg_panic
  | |- rg _ _ (Call _ Ret) _ => apply rg_call; [|intros ? ?]
  end.

Ltac wp_go := repeat wp_step; wp_simpl.

(** From a statement on executions to a [wp] goal. *)
Ltac wp_start :=
  let tr := fresh "tr" in let o := fresh "o" in let H := fresh "H" in
  intros tr o H; revert tr o H; apply wp_exec.
