(* ===== verification/Rights.v ===== *)
(** What the operator may do: the rules its ClusterRole is generated from (the markers
    [+kubebuilder:rbac] above the reconcilers), and the rights each call needs.  The resource of
    a kind is its name in lower case and in the plural, as the API names it. *)
From S2P Require Import Prelude GoStrings K8s Json Api Kube.

(** ** The rules *)

Definition mirrorGroup : string := "mirror.mirror.mathianasj.github.com".
Definition readVerbs : list string := ["get"; "list"; "watch"].
Definition allVerbs : list string := readVerbs ++ ["create"; "update"; "patch"; "delete"].
(** One marker; the group [core] is the empty one. *)
Definition rule (group resource : string) (verbs : list string) : PolicyRule :=
  mkPolicyRule [group] [resource] verbs.

Definition collectionRules : list PolicyRule :=
  [rule mirrorGroup "collectionpipelines" allVerbs;
   rule mirrorGroup "collectionpipelines/status" ["get"; "update"; "patch"];
   rule mirrorGroup "collectionpipelines/finalizers" ["update"];
   rule mirrorGroup "disconnectedplatforms" (readVerbs ++ ["update"; "patch"]);
   rule mirrorGroup "disconnectedplatforms/status" ["get"; "update"; "patch"];
   rule "tekton.dev" "pipelineruns" allVerbs;
   rule "tekton.dev" "pipelineruns/status" ["get"];
   rule "" "persistentvolumeclaims" allVerbs;
   rule "" "configmaps" (readVerbs ++ ["create"; "update"; "patch"]);
   rule "" "secrets" readVerbs;
   rule "batch" "jobs" ["create"; "delete"; "get"; "list"; "watch"]].
Definition platformRules : list PolicyRule :=
  [rule mirrorGroup "disconnectedplatforms" allVerbs;
   rule mirrorGroup "disconnectedplatforms/status" (readVerbs ++ ["update"; "patch"]);
   rule mirrorGroup "disconnectedplatforms/finalizers" ["update"];
   rule mirrorGroup "collectionpipelines" readVerbs;
   rule mirrorGroup "collectionpipelines/status" readVerbs;
   rule mirrorGroup "mirrorimports" readVerbs;
   rule mirrorGroup "mirrorimports/status" readVerbs;
   rule mirrorGroup "clusterbootstraps" readVerbs;
   rule "operators.coreos.com" "subscriptions" allVerbs;
   rule "operators.coreos.com" "operatorgroups" allVerbs;
   rule "operators.coreos.com" "clusterserviceversions" readVerbs;
   rule "packages.operators.coreos.com" "packagemanifests" readVerbs;
   rule "rhtpa.io" "trustedprofileanalyzers" allVerbs;
   rule "rhtas.redhat.com" "securesigns" allVerbs;
   rule "rhtas.redhat.com" "tufs" readVerbs;
   rule "k8s.keycloak.org" "keycloaks" allVerbs;
   rule "k8s.keycloak.org" "keycloakrealmimports" allVerbs;
   rule "cert-manager.io" "certificates" allVerbs;
   rule "cert-manager.io" "issuers" allVerbs;
   rule "cert-manager.io" "clusterissuers" readVerbs;
   rule "apps" "deployments" allVerbs;
   rule "" "services" allVerbs;
   rule "" "pods" (readVerbs ++ ["create"; "delete"]);
   rule "" "pods/exec" ["create"];
   rule "" "secrets" (readVerbs ++ ["create"; "update"; "delete"]);
   rule "" "configmaps" allVerbs;
   rule "" "serviceaccounts" allVerbs;
   rule "rbac.authorization.k8s.io" "roles" allVerbs;
   rule "rbac.authorization.k8s.io" "rolebindings" allVerbs;
   rule "rbac.authorization.k8s.io" "clusterroles" allVerbs;
   rule "rbac.authorization.k8s.io" "clusterrolebindings" allVerbs;
   rule "route.openshift.io" "routes" allVerbs;
   rule "route.openshift.io" "routes/custom-host" ["create"; "update"; "patch"];
   rule "console.openshift.io" "consoleplugins" allVerbs;
   rule "operator.openshift.io" "consoles" (readVerbs ++ ["update"; "patch"]);
   rule "operator.openshift.io" "ingresscontrollers" (readVerbs ++ ["update"; "patch"]);
   rule "config.openshift.io" "ingresses" readVerbs;
   rule "config.openshift.io" "infrastructures" readVerbs;
   rule "networking.k8s.io" "ingresses" readVerbs;
   rule "objectbucket.io" "objectbucketclaims" allVerbs;
   rule "tekton.dev" "pipelines" allVerbs;
   rule "tekton.dev" "taskruns" readVerbs;
   rule "tekton.dev" "taskruns/status" ["get"];
   rule "quay.redhat.com" "quayregistries" allVerbs;
   rule "" "namespaces" (readVerbs ++ ["create"]);
   rule "" "persistentvolumeclaims" allVerbs;
   rule "apps" "statefulsets" allVerbs;
   rule "oauth.openshift.io" "oauthclients" allVerbs;
   rule "rhtas.redhat.com" "securesigns/status" readVerbs;
   rule "updateservice.operator.openshift.io" "updateservices" allVerbs;
   rule "batch" "cronjobs" allVerbs;
   rule "" "persistentvolumes" allVerbs;
   rule "operator.open-cluster-management.io" "multiclusterhubs" allVerbs;
   rule "operator.open-cluster-management.io" "multiclusterhubs/status" readVerbs;
   rule "metal3.io" "provisionings" (readVerbs ++ ["create"; "update"; "patch"]);
   rule "agent-install.openshift.io" "agentserviceconfigs" (readVerbs ++ ["create"; "update"; "patch"]);
   rule "agent-install.openshift.io" "infraenvs" allVerbs;
   rule "config.openshift.io" "proxies" readVerbs;
   rule "config.openshift.io" "clusterversions" readVerbs;
   rule "" "nodes" readVerbs;
   rule "machineconfiguration.openshift.io" "machineconfigs" allVerbs;
   rule "config.openshift.io" "imagedigestmirrorsets" allVerbs;
   rule "config.openshift.io" "imagetagmirrorsets" readVerbs;
   rule "config.openshift.io" "clusterimagepolicies" readVerbs;
   rule "config.openshift.io" "images" ["get"; "update"; "patch"];
   rule "hive.openshift.io" "clusterimagesets" allVerbs].
Definition importRules : list PolicyRule :=
  [rule mirrorGroup "mirrorimports" allVerbs;
   rule mirrorGroup "mirrorimports/status" ["get"; "update"; "patch"];
   rule mirrorGroup "mirrorimports/finalizers" ["update"];
   rule mirrorGroup "disconnectedplatforms" (readVerbs ++ ["update"; "patch"]);
   rule mirrorGroup "disconnectedplatforms/status" ["get"; "update"; "patch"];
   rule "tekton.dev" "pipelineruns" allVerbs;
   rule "tekton.dev" "pipelineruns/status" ["get"];
   rule "" "persistentvolumeclaims" readVerbs;
   rule "operators.coreos.com" "catalogsources" allVerbs;
   rule "config.openshift.io" "imagecontentsourcepolicies" allVerbs;
   rule "config.openshift.io" "imagedigestmirrorsets" allVerbs;
   rule "config.openshift.io" "imagetagmirrorsets" allVerbs;
   rule "" "configmaps" readVerbs].
Definition bootstrapRules : list PolicyRule :=
  [rule mirrorGroup "clusterbootstraps" allVerbs;
   rule mirrorGroup "clusterbootstraps/status" ["get"; "update"; "patch"];
   rule mirrorGroup "clusterbootstraps/finalizers" ["update"]].
Definition healthRules : list PolicyRule :=
  [rule "rhtas.redhat.com" "securesigns" (readVerbs ++ ["update"; "patch"]);
   rule "rhtas.redhat.com" "securesigns/status" ["get"; "update"; "patch"];
   rule "k8s.keycloak.org" "keycloaks" readVerbs;
   rule "" "pods" (readVerbs ++ ["delete"]);
   rule "apps" "deployments" readVerbs].

(** The ClusterRole holds the rules of all of them. *)
Definition operatorRules : list PolicyRule :=
  collectionRules ++ platformRules ++ importRules ++ bootstrapRules ++ healthRules.

(** ** The rights a call needs *)

Definition lowerChar (c : ascii) : ascii :=
  let n := nat_of_ascii c in if (65 <=? n)%nat && (n <=? 90)%nat then ascii_of_nat (n + 32) else c.
Fixpoint lower (s : string) : string :=
  match s with EmptyString => EmptyString | String c s => String (lowerChar c) (lower s) end.
Definition plural (s : string) : string :=
  if HasSuffix s "s" then s +:+ "es" else if HasSuffix s "y" then TrimSuffix s "y" +:+ "ies" else s +:+ "s".

(** The group and the kind of an object. *)
Definition groupKind (K : kind) : string * string :=
  match K with
  | KMirrorImport => (mirrorGroup, "MirrorImport")
  | KCollectionPipeline => (mirrorGroup, "CollectionPipeline")
  | KClusterBootstrap => (mirrorGroup, "ClusterBootstrap")
  | KDisconnectedPlatform => (mirrorGroup, "DisconnectedPlatform")
  | KPipelineRun => ("tekton.dev", "PipelineRun")
  | KConfigMap => ("", "ConfigMap")
  | KSecret => ("", "Secret")
  | KServiceAccount => ("", "ServiceAccount")
  | KPersistentVolumeClaim => ("", "PersistentVolumeClaim")
  | KJob => ("batch", "Job")
  | KPod => ("", "Pod")
  | KNode => ("", "Node")
  | KNamespace => ("", "Namespace")
  | KDeployment => ("apps", "Deployment")
  | KStatefulSet => ("apps", "StatefulSet")
  | KCronJob => ("batch", "CronJob")
  | KService => ("", "Service")
  | KRole => ("rbac.authorization.k8s.io", "Role")
  | KRoleBinding => ("rbac.authorization.k8s.io", "RoleBinding")
  | KClusterRole => ("rbac.authorization.k8s.io", "ClusterRole")
  | KClusterRoleBinding => ("rbac.authorization.k8s.io", "ClusterRoleBinding")
  | KUnstructured g => (g_Group g, g_Kind g)
  end.

(** A verb on a resource of a group. *)
Record Right := mkRight { rt_verb : string; rt_group : string; rt_resource : string }.
Definition on (verb : string) (K : kind) (sub : string) : Right :=
  mkRight verb (fst (groupKind K)) (plural (lower (snd (groupKind K))) +:+ sub).

(** Objects with a schema are read from the cache of the manager ([mgr.GetClient] of main.go),
    which lists and watches their kind; the others are read one by one. *)
Definition cached (K : kind) : bool := match K with KUnstructured _ => false | _ => true end.
Definition readRights (verb : string) (K : kind) : list Right :=
  on verb K "" :: (if cached K then [on "list" K ""; on "watch" K ""] else []).
Definition rightsOf (c : call) : list Right :=
  match c with
  | CGet K _ => readRights "get" K
  | CList K _ _ => readRights "list" K
  | CCreate K _ => [on "create" K ""]
  | CUpdate K _ => [on "update" K ""]
  | CStatusUpdate K _ => [on "update" K "/status"]
  | CDelete K _ => [on "delete" K ""]
  | CExecInPod _ _ _ _ _ => [on "create" KPod "/exec"]
  | _ => []
  end.

Definition allows (r : Right) (p : PolicyRule) : bool :=
  existsb (String.eqb (rt_group r)) (pol_APIGroups p) && existsb (String.eqb (rt_resource r)) (pol_Resources p) &&
  existsb (String.eqb (rt_verb r)) (pol_Verbs p).
Definition held (r : Right) : bool := existsb (allows r) operatorRules.

(** The operator holds every right the call needs. *)
Definition permitted (c : call) : bool := forallb held (rightsOf c).

(** The rights a rule grants; who creates a role must hold them. *)
Definition grants (p : PolicyRule) : list Right :=
  g ← pol_APIGroups p; res ← pol_Resources p; v ← pol_Verbs p; [mkRight v g res].

(** ** The roles that are written *)

(** A rule in an object of a dynamic kind. *)
Definition stringsOf (v : json) : list string := omap as_string (default [] (as_list v)).
Definition ruleOf (v : json) : PolicyRule :=
  let m := default [] (as_map v) in
  mkPolicyRule (stringsOf (jget m "apiGroups")) (stringsOf (jget m "resources")) (stringsOf (jget m "verbs")).

(** The rules of a role, [None] for an object of another kind. *)
Definition rulesOf {K : kind} : obj K -> option (list PolicyRule) :=
  match K return obj K -> option (list PolicyRule) with
  | KRole | KClusterRole => fun o => Some (role_Rules o)
  | KUnstructured g => fun o =>
      if (g_Group g == "rbac.authorization.k8s.io") && ((g_Kind g == "Role") || (g_Kind g == "ClusterRole"))
      then Some (map ruleOf (default [] (as_list (jget (u_Object o) "rules"))))
      else None
  | _ => fun _ => None
  end.
Definition writtenRules (c : call) : option (list PolicyRule) :=
  match c with
  | CCreate K o | CUpdate K o => rulesOf o
  | _ => None
  end.

(** A role that is written grants nothing the operator does not hold. *)
Definition grantable (c : call) : bool :=
  match writtenRules c with
  | Some rules => forallb held (concat (map grants rules))
  | None => true
  end.
