(* ===== verification/Externals.v ===== *)
(** What the program takes from its environment and from libraries that are not part
    of it: environment variables, the time zone, [apimachinery]'s accessors of
    dynamic objects and quantities, the YAML and JSON parsers.  They are the fields
    of a class, so every definition that uses one takes it as an argument; the
    documented behaviour a theorem relies on is a separate class of laws. *)
From S2P Require Import Prelude GoStrings K8s Json Kube.
From Stdlib Require Import Morphisms.

Class Externals := {
  (** [os.Getenv], fixed for the life of the process. *)
  Getenv : string -> string;
  (** The local zone: seconds east of UTC. *)
  UTCOffset : time -> Z;

  (** [metav1.NewControllerRef]. *)
  NewControllerRef : ObjectMeta -> GroupVersionKind -> OwnerReference;

  (** [unstructured.Nested...]: the value, whether it was found, the error. *)
  NestedString : fields -> list string -> string * bool * option error;
  NestedBool : fields -> list string -> bool * bool * option error;
  NestedSlice : fields -> list string -> list json * bool * option error;
  NestedStringSlice : fields -> list string -> list string * bool * option error;
  NestedMap : fields -> list string -> fields * bool * option error;
  NestedInt64 : fields -> list string -> Z * bool * option error;
  (** [unstructured.SetNested...]: the object afterwards, and the error. *)
  SetNestedField : fields -> json -> list string -> fields * option error;
  SetNestedSlice : fields -> list json -> list string -> fields * option error;
  SetNestedStringSlice : fields -> list string -> list string -> fields * option error;

  (** [unstructured.RemoveNestedField]: the object afterwards. *)
  RemoveNestedField : fields -> list string -> fields;

  (** [Quantity.Cmp]: -1, 0 or 1. *)
  QuantityCmp : Quantity -> Quantity -> Z;
  (** [resource.MustParse]; [None]: it panics. *)
  MustParse : string -> option Quantity;

  (** [PipelineRun.IsDone]'s answer. *)
  IsDone : PipelineRun -> bool;

  (** [yaml.Unmarshal] and [yaml.Marshal] at [map[string]interface{}]. *)
  yaml_Unmarshal_map : string -> result fields;
  yaml_Marshal_map : fields -> result string;

  (** [json.Unmarshal] at [map[string]interface{}]. *)
  json_Unmarshal_map : string -> result fields;
  (** The same, keeping apart the nil map that decoding [null] leaves ([None]). *)
  json_Unmarshal_object : string -> result (option fields);
  (** [json.NewDecoder(_).Decode] at [map[string]interface{}], as above, and at
      [[]map[string]interface{}]: what was decoded, with an error or not. *)
  json_Decode_object : string -> result (option fields);
  json_Decode_maps : string -> list fields * option error;
  (** Whether [url.Parse] accepts a text. *)
  ParsesURL : string -> bool;
  (** [json.Marshal]. *)
  json_Marshal : json -> result string;
  (** [fmt.Sprintf("%v", v)] at a dynamic value. *)
  FormatValue : json -> string;
}.

(** [s, _, _ := unstructured.NestedString(...)]. *)
Definition nested_string {X : Externals} (m : fields) (path : list string) : string :=
  let '(s, _, _) := NestedString m path in s.
Definition nested_slice {X : Externals} (m : fields) (path : list string) : list json :=
  let '(l, _, _) := NestedSlice m path in l.

Definition nested_map {X : Externals} (m : fields) (path : list string) : fields :=
  let '(r, _, _) := NestedMap m path in r.
Definition nested_int64 {X : Externals} (m : fields) (path : list string) : Z :=
  let '(n, _, _) := NestedInt64 m path in n.
(** [unstructured.SetNested...] where the error is dropped. *)
Definition set_field {X : Externals} (path : list string) (v : json) (m : fields) : fields :=
  fst (SetNestedField m v path).

(** [json.Marshal] where its error is dropped. *)
Definition marshalText {X : Externals} (v : json) : string :=
  match json_Marshal v with Ok s => s | Err _ => "" end.

(** Documented behaviour. *)
Class ExternalsLaws (X : Externals) : Prop := {
  (** [Cmp] compares the numbers. *)
  QuantityCmp_gt : forall a b, (QuantityCmp a b > 0)%Z <-> (a > b)%Z;
  QuantityCmp_lt : forall a b, (QuantityCmp a b < 0)%Z <-> (a < b)%Z;
  (** A slice that was set is the slice that is read back. *)
  NestedSlice_set : forall m l path m',
    SetNestedSlice m l path = (m', None) -> NestedSlice m' path = (l, true, None);
  NestedStringSlice_set : forall m l path m',
    SetNestedStringSlice m l path = (m', None) -> NestedStringSlice m' path = (l, true, None);
  (** So is a string. *)
  NestedString_set : forall m s path m',
    SetNestedField m (JStr s) path = (m', None) -> NestedString m' path = (s, true, None);
  (** The accessors return what is at the path, a copy of it for maps and slices. *)
  NestedString_at : forall m path s,
    walk m path = Some (Some (JStr s)) -> NestedString m path = (s, true, None);
  NestedSlice_at : forall m path l,
    walk m path = Some (Some (JList l)) -> copyable (JList l) = true ->
    NestedSlice m path = (l, true, None);
  NestedMap_at : forall m path r,
    walk m path = Some (Some (JMap r)) -> copyable (JMap r) = true -> NestedMap m path = (r, true, None);
  NestedInt64_at : forall m path n,
    walk m path = Some (Some (JInt n)) -> NestedInt64 m path = (n, true, None);
  NestedBool_at : forall m path b,
    walk m path = Some (Some (JBool b)) -> NestedBool m path = (b, true, None);
  (** The zero value where there is no value of the type. *)
  NestedString_zero : forall m path,
    (forall s, walk m path <> Some (Some (JStr s))) -> fst (fst (NestedString m path)) = "";
  NestedSlice_zero : forall m path,
    (forall l, walk m path <> Some (Some (JList l))) -> fst (fst (NestedSlice m path)) = [];
  NestedBool_zero : forall m path,
    (forall b, walk m path <> Some (Some (JBool b))) -> fst (fst (NestedBool m path)) = false;
  (** A field is set when each step on the way to it is a map or missing; then it is there,
      and the fields at other places are as they were. *)
  SetNestedField_ok : forall m v path, settable m path = true -> snd (SetNestedField m v path) = None;
  SetNestedField_at : forall m v path m',
    SetNestedField m v path = (m', None) -> walk m' path = Some (Some v);
  SetNestedField_other : forall m v path m' path',
    SetNestedField m v path = (m', None) -> diverge path path' = true -> walk m' path' = walk m path';
  SetNestedField_settable : forall m v path m' path',
    SetNestedField m v path = (m', None) -> diverge path path' = true ->
    settable m path' = true -> settable m' path' = true;
  SetNestedSlice_field : forall m l path, SetNestedSlice m l path = SetNestedField m (JList l) path;
  (** An accessor that finds nothing returns the zero value. *)
  NestedSlice_not_found : forall m path l e,
    NestedSlice m path = (l, false, e) -> l = [];
  (** Decoding gives decoded values, and every decoded value can be encoded; decoding what
      encoding gave is the value again, the order of keys aside. *)
  json_Unmarshal_plain : forall s m,
    json_Unmarshal_object s = Ok (Some m) -> json_plain (JMap m) = true;
  json_Marshal_plain : forall m,
    json_plain (JMap m) = true -> exists s, json_Marshal (JMap m) = Ok s;
  json_Unmarshal_Marshal : forall m s,
    json_plain (JMap m) = true -> json_Marshal (JMap m) = Ok s ->
    exists m', json_Unmarshal_object s = Ok (Some m') /\ fields_equiv m' m;
  (** Printing a map sorts its keys. *)
  FormatValue_equiv :: Proper (json_equiv ==> eq) FormatValue;
  (** The controller reference names its owner. *)
  NewControllerRef_owner : forall m g,
    or_UID (NewControllerRef m g) = om_UID m /\ or_Name (NewControllerRef m g) = om_Name m /\
    or_Kind (NewControllerRef m g) = g_Kind g /\
    or_Controller (NewControllerRef m g) = Some true;
}.
