(* ===== verification/Helpers.v ===== *)
(** [internal/controller/helpers.go]: string-list helpers, environment defaults,
    cluster look-ups, Quay component lists, proxy environments and the CA-bundle
    injection into pipeline tasks. *)
From S2P Require Import Prelude GoStrings K8s Api Kube Externals.

Definition architectNamespace : string := "mirror-operator-system".
Definition clusterCABundleName : string := "cluster-ca-bundle".
Definition clusterCABundleKey : string := "ca-bundle.crt".

(** ** Lists of strings *)

Fixpoint containsString (slice : list string) (s : string) : bool :=
  match slice with
  | [] => false
  | item :: rest => if item == s then true else containsString rest s
  end.

Fixpoint removeString (slice : list string) (s : string) : list string :=
  match slice with
  | [] => []
  | item :: rest => if item != s then item :: removeString rest s else removeString rest s
  end.

(** ** Quay components *)

(** [makeComponent], the closure of [buildQuayComponents]. *)
Definition makeComponent (replicaOverride : option Z) (kind_ : string) (managed : bool) : fields :=
  let c := [("kind", JStr kind_); ("managed", JBool managed)] in
  let overrides : fields :=
    match replicaOverride with
    | Some n => if (kind_ == "quay") || (kind_ == "clair") || (kind_ == "mirror")
                then [("replicas", JInt n)] else []
    | None => []
    end in
  let overrides :=
    if kind_ == "quay" then
      jset overrides "env"
        (JList [JMap [("name", JStr "GUNICORN_CMD_ARGS"); ("value", JStr "--timeout 300")]])
    else overrides in
  if (0 <? length overrides)%nat then jset c "overrides" (JMap overrides) else c.

Definition buildQuayComponents (replicaOverride : option Z)
    (objectStorageManaged routeManaged tlsManaged : bool) : list json :=
  let hpaManaged := match replicaOverride with Some _ => false | None => true end in
  [ JMap (makeComponent replicaOverride "clair" true);
    JMap (makeComponent replicaOverride "postgres" true);
    JMap (makeComponent replicaOverride "objectstorage" objectStorageManaged);
    JMap (makeComponent replicaOverride "redis" true);
    JMap [("kind", JStr "horizontalpodautoscaler"); ("managed", JBool hpaManaged)];
    JMap (makeComponent replicaOverride "route" routeManaged);
    JMap (makeComponent replicaOverride "mirror" true);
    JMap (makeComponent replicaOverride "tls" tlsManaged);
    JMap (makeComponent replicaOverride "quay" true) ].

(** ** Tekton tasks: the cluster CA bundle *)

Definition caPath : string := "/workspace/cluster-ca-bundle/" +:+ clusterCABundleKey.

Definition envMap (n v : string) : fields := [("name", JStr n); ("value", JStr v)].

(** One step: the four CA variables are appended to its environment.  An [env] that
    is not a [[]map[string]interface{}] counts as empty. *)
Definition injectCAIntoStep (step : fields) : fields :=
  let env := default [] (as_maps (jget step "env")) in
  jset step "env" (JMaps (env ++
    [envMap "SSL_CERT_FILE" caPath; envMap "CURL_CA_BUNDLE" caPath;
     envMap "AWS_CA_BUNDLE" caPath; envMap "REQUESTS_CA_BUNDLE" caPath])).

Definition injectCAIntoTask (task : fields) : fields :=
  let ws := default [] (as_maps (jget task "workspaces")) in
  let task := jset task "workspaces" (JMaps (snoc ws [("name", JStr "cluster-ca-bundle")])) in
  match as_map (jget task "taskSpec") with
  | None => task
  | Some taskSpec =>
      match as_maps (jget taskSpec "steps") with
      | None => task
      | Some steps =>
          jset task "taskSpec"
            (JMap (jset taskSpec "steps" (JMaps (map injectCAIntoStep steps))))
      end
  end.

Definition injectCABundleIntoTasks (tasks : list fields) : list fields := map injectCAIntoTask tasks.

(** ** Proxy environments *)

Definition proxyPairs (httpProxy httpsProxy noProxy : string) : list (string * string) :=
  [("HTTP_PROXY", httpProxy); ("HTTPS_PROXY", httpsProxy); ("NO_PROXY", noProxy);
   ("http_proxy", httpProxy); ("https_proxy", httpsProxy); ("no_proxy", noProxy)].

Fixpoint nonEmptyPairs {A} (mk : string -> string -> A) (l : list (string * string)) : list A :=
  match l with
  | [] => []
  | (k, v) :: rest => if v != "" then mk k v :: nonEmptyPairs mk rest else nonEmptyPairs mk rest
  end.

Definition proxyEnvVarsUnstructured (httpProxy httpsProxy noProxy : string) : list fields :=
  if (httpProxy == "") && (httpsProxy == "") && (noProxy == "") then []
  else nonEmptyPairs envMap (proxyPairs httpProxy httpsProxy noProxy).

Definition proxyEnvVarsTyped (httpProxy httpsProxy noProxy : string) : list EnvVar :=
  if (httpProxy == "") && (httpsProxy == "") && (noProxy == "") then []
  else nonEmptyPairs envValue (proxyPairs httpProxy httpsProxy noProxy).

Definition proxyEnvForSubscription (httpProxy httpsProxy noProxy : string) : list fields :=
  if (httpProxy == "") && (httpsProxy == "") && (noProxy == "") then []
  else nonEmptyPairs envMap
         [("HTTP_PROXY", httpProxy); ("HTTPS_PROXY", httpsProxy); ("NO_PROXY", noProxy)].

(** ** Cluster look-ups *)

Definition clusterKey (name : string) : NamespacedName := mkNN "" name.
Definition gvkInfrastructure := mkGVK "config.openshift.io" "v1" "Infrastructure".
Definition gvkClusterVersion := mkGVK "config.openshift.io" "v1" "ClusterVersion".
Definition gvkProxy := mkGVK "config.openshift.io" "v1" "Proxy".
Definition gvkIngress := mkGVK "config.openshift.io" "v1" "Ingress".
Definition gvkMachineConfig := mkGVK "machineconfiguration.openshift.io" "v1" "MachineConfig".

Definition trustedCAConfigMapName : string := "trusted-ca-bundle".

Section Lookups.
Context {X : Externals}.

Definition envOrDefault (key fallback : string) : string :=
  let v := Getenv key in if v != "" then v else fallback.

Definition isSingleNodeOpenShift : prog bool :=
  r ← Get (KUnstructured gvkInfrastructure) (clusterKey "cluster");
  match r with
  | Err _ => mret false
  | Ok infra =>
      mret (nested_string (u_Object infra) ["status"; "controlPlaneTopology"] == "SingleReplica")
  end.

Definition resolveQuayReplicaOverride (explicit : option Z) : prog (option Z) :=
  match explicit with
  | Some n => mret (Some n)
  | None => sno ← isSingleNodeOpenShift; mret (if (sno : bool) then Some 1%Z else None)
  end.

Definition getClusterVersion : prog string :=
  r ← Get (KUnstructured gvkClusterVersion) (clusterKey "version");
  match r with
  | Err _ => mret ""
  | Ok cv => mret (nested_string (u_Object cv) ["status"; "desired"; "version"])
  end.

Definition getClusterProxyFromClient : prog (string * string * string) :=
  r ← Get (KUnstructured gvkProxy) (clusterKey "cluster");
  match r with
  | Err _ => mret ("", "", "")
  | Ok proxy =>
      mret (nested_string (u_Object proxy) ["status"; "httpProxy"],
            nested_string (u_Object proxy) ["status"; "httpsProxy"],
            nested_string (u_Object proxy) ["status"; "noProxy"])
  end.

(** The method of the platform reconciler has the same body. *)
Definition getClusterProxy : prog (string * string * string) :=
  r ← Get (KUnstructured gvkProxy) (clusterKey "cluster");
  match r with
  | Err _ => mret ("", "", "")
  | Ok proxy =>
      mret (nested_string (u_Object proxy) ["status"; "httpProxy"],
            nested_string (u_Object proxy) ["status"; "httpsProxy"],
            nested_string (u_Object proxy) ["status"; "noProxy"])
  end.

Definition getClusterSSHKey : prog string :=
  r ← Get (KUnstructured gvkMachineConfig) (clusterKey "99-master-ssh");
  match r with
  | Err _ => mret ""
  | Ok mc =>
      let '(users, found, _) := NestedSlice (u_Object mc) ["spec"; "config"; "passwd"; "users"] in
      match (found : bool), users with
      | true, u0 :: _ =>
          match as_map u0 with
          | None => mret ""
          | Some user =>
              let '(keys, found, _) := NestedStringSlice user ["sshAuthorizedKeys"] in
              match (found : bool), keys with
              | true, k0 :: _ => mret k0
              | _, _ => mret ""
              end
          end
      | _, _ => mret ""
      end
  end.

Definition reconcileTrustedCAConfigMap : prog (option error) :=
  r ← Get KConfigMap (mkNN architectNamespace trustedCAConfigMapName);
  match r with
  | Ok _ => mret None
  | Err e =>
      if negb (IsNotFound e) then mret (Some e)
      else
        c ← Create KConfigMap
              (mkConfigMap
                 (meta0 <| om_Name := trustedCAConfigMapName |>
                        <| om_Namespace := architectNamespace |>
                        <| om_Labels := {[ "config.openshift.io/inject-trusted-cabundle" := "true" ]} |>)
                 None);
        mret (err_of c)
  end.
End Lookups.

(** ** Lemmas *)

Lemma containsString_In l s : containsString l s = true <-> In s l.
Proof.
  induction l as [|x l IH]; simpl; [done|].
  destruct (x == s) eqn:E; str_eq; naive_solver.
Qed.

Lemma containsString_false l s : containsString l s = false <-> ~ In s l.
Proof. rewrite <- containsString_In. by destruct (containsString l s). Qed.

Lemma containsString_app l1 l2 s :
  containsString (l1 ++ l2) s = containsString l1 s || containsString l2 s.
Proof. induction l1 as [|x l1 IH]; simpl; [done|]. by destruct (x == s). Qed.

Lemma containsString_snoc l s : containsString (snoc l s) s = true.
Proof. rewrite containsString_app. simpl. by rewrite str_eqb_refl, orb_true_r. Qed.

(** [removeString] is the filter that keeps the other strings. *)
Lemma removeString_filter l s : removeString l s = filter (fun x => x <> s) l.
Proof.
  induction l as [|x l IH]; simpl; [done|]. rewrite filter_cons.
  destruct (x == s) eqn:E; simpl; str_eq; case_decide; subst; try done; by rewrite IH.
Qed.

Lemma In_removeString l s x : In x (removeString l s) <-> In x l /\ x <> s.
Proof.
  rewrite removeString_filter, <- !list_elem_of_In, list_elem_of_filter. naive_solver.
Qed.

Lemma containsString_removeString l s : containsString (removeString l s) s = false.
Proof. rewrite containsString_false, In_removeString. naive_solver. Qed.

(** Adding the finalizer and removing it gives back a list without it. *)
Lemma removeString_snoc l s : containsString l s = false -> removeString (snoc l s) s = l.
Proof.
  intros H%containsString_false. induction l as [|x l IH]; simpl.
  - by rewrite str_eqb_refl.
  - rewrite (str_eqb_ne x s) by (intros ->; apply H; by left). simpl.
    rewrite IH; [done|]. intros Hin. apply H. by right.
Qed.

#[export] Hint Rewrite containsString_snoc containsString_removeString : go.

Lemma nonEmptyPairs_In {A} (mk : string -> string -> A) l x :
  In x (nonEmptyPairs mk l) <-> exists k v, In (k, v) l /\ v <> "" /\ x = mk k v.
Proof.
  induction l as [|[k v] l IH]; simpl; [naive_solver|].
  destruct (v == "") eqn:E; simpl; str_eq; rewrite ?IH; naive_solver.
Qed.
