(* ===== verification/ImageSet.v ===== *)
(** The ImageSetConfiguration side of [collectionpipeline_controller.go]: the oc-mirror
    configuration type, image-reference rewriting, OCP version detection and the
    enrichments applied before a configuration is handed to oc-mirror. *)
From S2P Require Import Prelude GoStrings K8s Api Kube Externals Helpers.

(** ** The configuration *)

Record ChannelConfig := mkChannelConfig {
  chc_Name : string;
  chc_MinVersion : string;
  chc_MaxVersion : string;
  chc_Full : bool;
}.

Record PlatformConfig := mkPlatformConfig {
  plc_Channels : list ChannelConfig;
  plc_Graph : bool;
  plc_Architectures : list string;
}.

Record PackageConfig := mkPackageConfig {
  pkc_Name : string;
  pkc_DefaultChannel : string;
  pkc_Channels : list ChannelConfig;
}.

(** [OperatorConfig] of the controller package. *)
Record IscOperatorConfig := mkIscOperatorConfig {
  opc_Catalog : string;
  opc_Packages : list PackageConfig;
}.

Record ImageConfig := mkImageConfig { imc_Name : string }.

Record HelmRepoConfig := mkHelmRepoConfig { hrc_Name : string; hrc_URL : string }.

Record HelmChartConfig := mkHelmChartConfig {
  hcc_Name : string;
  hcc_Repository : string;
  hcc_Version : string;
}.

Record HelmConfig := mkHelmConfig {
  hmc_Repositories : list HelmRepoConfig;
  hmc_Charts : list HelmChartConfig;
}.

Record ImageSetConfigurationMirror := mkIscMirror {
  icm_Platform : option PlatformConfig;
  icm_Operators : list IscOperatorConfig;
  icm_AdditionalImages : list ImageConfig;
  icm_Helm : option HelmConfig;
}.
#[export] Instance eta_IscMirror : Eta ImageSetConfigurationMirror := fun r =>
  mkIscMirror (icm_Platform r) (icm_Operators r) (icm_AdditionalImages r) (icm_Helm r).

Record ImageSetConfiguration := mkISC {
  isc_Kind : string;
  isc_APIVersion : string;
  isc_Mirror : ImageSetConfigurationMirror;
}.
#[export] Instance eta_ISC : Eta ImageSetConfiguration := fun r =>
  mkISC (isc_Kind r) (isc_APIVersion r) (isc_Mirror r).

(** [yaml.Unmarshal] and [yaml.Marshal] at this type. *)
Class IscYaml := {
  yaml_Unmarshal_ISC : string -> result ImageSetConfiguration;
  yaml_Marshal_ISC : ImageSetConfiguration -> result string;
}.
(** Marshalling a value and reading the text back gives the value. *)
Class IscYamlLaws (Y : IscYaml) : Prop := {
  yaml_ISC_roundtrip : forall c s,
    yaml_Marshal_ISC c = Ok s -> yaml_Unmarshal_ISC s = Ok c;
}.

Definition communityOperatorCatalog : string := "registry.redhat.io/redhat/community-operator-index".
Definition mirrorOperatorPackage : string := "mirror-operator".

(** ** Image references *)

(** [strings.Index(ref, "/"); i > 0], the prefix [ref[:i]], and the test of a
    registry host. *)
Definition normalizeImageRef (ref : string) : string :=
  match index_opt ref "/" with
  | Some (S i) =>
      let prefix := take_str (S i) ref in
      if Contains prefix "." || Contains prefix ":" || (prefix == "localhost") then ref
      else "docker.io/" +:+ ref
  | _ => "docker.io/" +:+ ref
  end.

(** [pathComponents[len(pathComponents)-1]]; [strings.Split] never returns an empty
    slice. *)
Definition last_component (path : string) : string := List.last (Split path "/") "".

Definition rewriteImageReference (originalRef intermediateRegistry : string) : string :=
  let ref := TrimPrefix originalRef "docker://" in
  let ref := normalizeImageRef ref in
  match SplitN ref "/" 2 with
  | _ :: repositoryPath :: _ =>
      let imageName := last_component repositoryPath in
      if HasSuffix originalRef "/*" then intermediateRegistry +:+ "/" +:+ repositoryPath
      else intermediateRegistry +:+ "/" +:+ imageName
  | _ => intermediateRegistry +:+ "/" +:+ ref
  end.

Definition rewriteOperator (intermediateRegistry : string) (op : IscOperatorConfig) : IscOperatorConfig :=
  mkIscOperatorConfig (rewriteImageReference (opc_Catalog op) intermediateRegistry) (opc_Packages op).

Definition rewriteImage (intermediateRegistry : string) (img : ImageConfig) : ImageConfig :=
  mkImageConfig (rewriteImageReference (imc_Name img) intermediateRegistry).

(** The configuration [generateIntermediateImageSetConfig] builds from the parsed one. *)
Definition intermediateConfig (intermediateRegistry : string) (c : ImageSetConfiguration)
  : ImageSetConfiguration :=
  let m := isc_Mirror c in
  mkISC (isc_Kind c) (isc_APIVersion c)
    (mkIscMirror (icm_Platform m)
       (map (rewriteOperator intermediateRegistry) (icm_Operators m))
       (map (rewriteImage intermediateRegistry) (icm_AdditionalImages m))
       (icm_Helm m)).

Section Yaml.
Context {X : Externals} {Y : IscYaml}.

Definition generateIntermediateImageSetConfig (pipeline : CollectionPipeline)
    (intermediateRegistry : string) : result string :=
  match yaml_Unmarshal_ISC (cps_ImageSetConfig (cp_Spec pipeline)) with
  | Err e => Err (Wrapf "failed to parse ImageSetConfiguration" e)
  | Ok originalConfig =>
      match yaml_Marshal_ISC (intermediateConfig intermediateRegistry originalConfig) with
      | Err e => Err (Wrapf "failed to marshal intermediate config" e)
      | Ok s => Ok s
      end
  end.

(** ** OCP version detection *)

(** [mirror.platform.channels[0]] of a decoded configuration. *)
Definition firstChannel (isc : fields) : option fields :=
  mirror ← as_map (jget isc "mirror");
  platformConfig ← as_map (jget mirror "platform");
  channels ← as_list (jget platformConfig "channels");
  match channels with [] => None | c0 :: _ => as_map c0 end.

(** The version a channel stands for. *)
Definition channelVersion (channel : fields) : option string :=
  match as_string (jget channel "minVersion") with
  | Some ((String _ _) as minVersion) =>
      match SplitN minVersion "." 3 with
      | p0 :: p1 :: _ => Some (p0 +:+ "." +:+ p1)
      | _ => Some minVersion
      end
  | _ =>
      match as_string (jget channel "name") with
      | Some name =>
          match last_index_opt name "-" with
          | Some idx => Some (drop_str (S idx) name)
          | None => Some name
          end
      | None => None
      end
  end.

Definition extractOCPVersion (configYAML : string) : string :=
  match yaml_Unmarshal_map configYAML with
  | Err _ => "latest"
  | Ok imageSetConfig => default "latest" (firstChannel imageSetConfig ≫= channelVersion)
  end.

(** ** Enrichments *)

Definition injectDefaultArchitecture (configYAML : string) : string :=
  match yaml_Unmarshal_map configYAML with
  | Err _ => configYAML
  | Ok imageSetConfig =>
      match as_map (jget imageSetConfig "mirror") with
      | None => configYAML
      | Some mirror =>
          match as_map (jget mirror "platform") with
          | None => configYAML
          | Some platform =>
              if jhas platform "architectures" then configYAML
              else
                let platform := jset platform "architectures" (JStrs ["amd64"]) in
                let isc := jset imageSetConfig "mirror"
                             (JMap (jset mirror "platform" (JMap platform))) in
                match yaml_Marshal_map isc with
                | Err _ => configYAML
                | Ok out => out
                end
          end
      end
  end.

(** The catalog the mirror-operator is taken from; [None]: none for this version. *)
Definition mirrorOperatorCatalogRef (configYAML catalogOverride : string) : option string :=
  if catalogOverride != "" then Some catalogOverride
  else
    let ocVersion := extractOCPVersion configYAML in
    match SplitN ocVersion "." 2 with
    | [_; minorStr] =>
        match Atoi minorStr with
        | Some minor =>
            if (minor <? 18)%Z then None
            else Some (communityOperatorCatalog +:+ ":v" +:+ ocVersion)
        | None => None
        end
    | _ => None
    end.

Definition catalogMatches (catalogRef catalogOverride : string) (op : IscOperatorConfig) : bool :=
  (opc_Catalog op == catalogRef) ||
  ((catalogOverride == "") && HasPrefix (opc_Catalog op) communityOperatorCatalog).

Definition hasMirrorOperator (op : IscOperatorConfig) : bool :=
  existsb (fun pkg => pkc_Name pkg == mirrorOperatorPackage) (opc_Packages op).

Definition mirrorOperatorPkg : PackageConfig := mkPackageConfig mirrorOperatorPackage "" [].

(** The loop over the operators: [None] when the first matching catalog already has
    the package; otherwise the operators with the package added. *)
Fixpoint addMirrorOperator (matches : IscOperatorConfig -> bool) (catalogRef : string)
    (ops : list IscOperatorConfig) : option (list IscOperatorConfig) :=
  match ops with
  | [] => Some [mkIscOperatorConfig catalogRef [mirrorOperatorPkg]]
  | op :: rest =>
      if matches op then
        if hasMirrorOperator op then None
        else Some (mkIscOperatorConfig (opc_Catalog op) (snoc (opc_Packages op) mirrorOperatorPkg) :: rest)
      else
        match addMirrorOperator matches catalogRef rest with
        | Some rest' => Some (op :: rest')
        | None => None
        end
  end.

Definition injectMirrorOperator (configYAML catalogOverride : string) : string :=
  match yaml_Unmarshal_ISC configYAML with
  | Err _ => configYAML
  | Ok config =>
      match mirrorOperatorCatalogRef configYAML catalogOverride with
      | None => configYAML
      | Some catalogRef =>
          match addMirrorOperator (catalogMatches catalogRef catalogOverride) catalogRef
                  (icm_Operators (isc_Mirror config)) with
          | None => configYAML
          | Some ops =>
              match yaml_Marshal_ISC
                      (config <| isc_Mirror ::= fun m => m <| icm_Operators := ops |> |>) with
              | Err _ => configYAML
              | Ok out => out
              end
          end
      end
  end.

(** The additional-images loop of [injectArchitectImages]: [existing] is the set of
    names present before the loop. *)
Fixpoint addImages (existing : list string) (images : list string) (cur : list ImageConfig)
  : list ImageConfig :=
  match images with
  | [] => cur
  | image :: rest =>
      if (image != "") && negb (containsString existing image)
      then addImages existing rest (snoc cur (mkImageConfig image))
      else addImages existing rest cur
  end.

Definition defaultFrontendImage : string :=
  envOrDefault "RELATED_IMAGE_ARCHITECT_FRONTEND"
    "quay.io/mathianasj/openshift-airgap-architect-frontend:latest".
Definition defaultBackendImage : string :=
  envOrDefault "RELATED_IMAGE_ARCHITECT_BACKEND"
    "quay.io/mathianasj/openshift-airgap-architect-backend:latest".

Definition architectImages (a : AirgapArchitectConfig) : list string :=
  [ (if aac_FrontendImage a != "" then aac_FrontendImage a else defaultFrontendImage);
    (if aac_BackendImage a != "" then aac_BackendImage a else defaultBackendImage) ].

(** The console plugin is enabled and there is no front-end image: nothing to export. *)
Definition consolePluginOnly (a : AirgapArchitectConfig) : bool :=
  match aac_ConsolePlugin a with
  | Some cp => cpc_Enabled cp && (aac_FrontendImage a == "")
  | None => false
  end.

(** [injectArchitectImages] once the platform is found. *)
Definition injectArchitectImagesFor (platform : DisconnectedPlatform) (configYAML : string) : string :=
  match dps_Architect (dp_Spec platform) with
  | None => configYAML
  | Some a =>
      if negb (aac_Enabled a) then configYAML
      else if consolePluginOnly a then configYAML
      else
        match yaml_Unmarshal_ISC configYAML with
        | Err _ => configYAML
        | Ok config =>
            let imgs := icm_AdditionalImages (isc_Mirror config) in
            let imgs' := addImages (map imc_Name imgs) (architectImages a) imgs in
            match yaml_Marshal_ISC
                    (config <| isc_Mirror ::= fun m => m <| icm_AdditionalImages := imgs' |> |>) with
            | Err _ => configYAML
            | Ok out => out
            end
        end
  end.

Definition rhcosEnabled (c : ConnectedConfig) : bool :=
  match cc_RHCOSCollection c with
  | Some rc => rhc_Enabled rc
  | None => true
  end.

(** [injectRHCOSServerImage] once the platform is found: the text and the error it
    returns. *)
Definition injectRHCOSServerImageFor (platform : DisconnectedPlatform)
    (configYAML intermediateRegistry : string) : string * option error :=
  match dps_Connected (dp_Spec platform) with
  | None => (configYAML, None)
  | Some connected =>
      if negb (rhcosEnabled connected) then (configYAML, None)
      else if intermediateRegistry == "" then (configYAML, None)
      else
        match yaml_Unmarshal_ISC configYAML with
        | Err e => ("", Some (Wrapf "failed to parse ImageSetConfiguration" e))
        | Ok config =>
            let ocVersion := extractOCPVersion configYAML in
            let rhcosServerImage := intermediateRegistry +:+ "/rhcos-server:" +:+ ocVersion in
            let imgs := icm_AdditionalImages (isc_Mirror config) in
            let found := existsb (fun img => HasPrefix (imc_Name img)
                                               (intermediateRegistry +:+ "/rhcos-server:")) imgs in
            let imgs' := if found then imgs else snoc imgs (mkImageConfig rhcosServerImage) in
            match yaml_Marshal_ISC
                    (config <| isc_Mirror ::= fun m => m <| icm_AdditionalImages := imgs' |> |>) with
            | Err e => ("", Some (Wrapf "failed to marshal config" e))
            | Ok out => (out, None)
            end
        end
  end.
End Yaml.
