(* ===== verification/Instances.v ===== *)
(** Concrete instances of the interfaces of [Externals] and [ImageSet]: a structural
    implementation of the dynamic-object accessors and a lossless text encoding in
    the place of YAML.  They show that the laws can be met and are what the worked
    examples of the properties compute with. *)
From S2P Require Import Prelude GoStrings K8s Json Api Kube Externals Helpers ImageSet.
From stdpp Require Import countable.

(** ** A lossless encoding of countable data as text *)

Fixpoint string_of_pos (p : positive) : string :=
  match p with
  | xH => EmptyString
  | xO q => String "0" (string_of_pos q)
  | xI q => String "1" (string_of_pos q)
  end.

Fixpoint pos_of_string (s : string) : option positive :=
  match s with
  | EmptyString => Some xH
  | String "0"%char t => option_map xO (pos_of_string t)
  | String "1"%char t => option_map xI (pos_of_string t)
  | String _ _ => None
  end.

Lemma pos_of_string_of_pos p : pos_of_string (string_of_pos p) = Some p.
Proof. induction p as [p IH|p IH|]; simpl; [by rewrite IH..|done]. Qed.

(** ** ImageSetConfigurations are countable *)

#[local] Ltac solve_countable_with f g :=
  apply (inj_countable' f g); intros []; reflexivity.

#[export] Instance ChannelConfig_eq_dec : EqDecision ChannelConfig.
Proof. solve_decision. Defined.
#[export] Instance ChannelConfig_countable : Countable ChannelConfig.
Proof.
  apply (inj_countable' (fun c => (chc_Name c, chc_MinVersion c, chc_MaxVersion c, chc_Full c))
           (fun '(a, b, c, d) => mkChannelConfig a b c d)); by intros [].
Defined.
#[export] Instance PlatformConfig_eq_dec : EqDecision PlatformConfig.
Proof. solve_decision. Defined.
#[export] Instance PlatformConfig_countable : Countable PlatformConfig.
Proof.
  apply (inj_countable' (fun c => (plc_Channels c, plc_Graph c, plc_Architectures c))
           (fun '(a, b, c) => mkPlatformConfig a b c)); by intros [].
Defined.
#[export] Instance PackageConfig_eq_dec : EqDecision PackageConfig.
Proof. solve_decision. Defined.
#[export] Instance PackageConfig_countable : Countable PackageConfig.
Proof.
  apply (inj_countable' (fun c => (pkc_Name c, pkc_DefaultChannel c, pkc_Channels c))
           (fun '(a, b, c) => mkPackageConfig a b c)); by intros [].
Defined.
#[export] Instance IscOperatorConfig_eq_dec : EqDecision IscOperatorConfig.
Proof. solve_decision. Defined.
#[export] Instance IscOperatorConfig_countable : Countable IscOperatorConfig.
Proof.
  apply (inj_countable' (fun c => (opc_Catalog c, opc_Packages c))
           (fun '(a, b) => mkIscOperatorConfig a b)); by intros [].
Defined.
#[export] Instance ImageConfig_eq_dec : EqDecision ImageConfig.
Proof. solve_decision. Defined.
#[export] Instance ImageConfig_countable : Countable ImageConfig.
Proof. apply (inj_countable' imc_Name mkImageConfig); by intros []. Defined.
#[export] Instance HelmRepoConfig_eq_dec : EqDecision HelmRepoConfig.
Proof. solve_decision. Defined.
#[export] Instance HelmRepoConfig_countable : Countable HelmRepoConfig.
Proof.
  apply (inj_countable' (fun c => (hrc_Name c, hrc_URL c)) (fun '(a, b) => mkHelmRepoConfig a b));
    by intros [].
Defined.
#[export] Instance HelmChartConfig_eq_dec : EqDecision HelmChartConfig.
Proof. solve_decision. Defined.
#[export] Instance HelmChartConfig_countable : Countable HelmChartConfig.
Proof.
  apply (inj_countable' (fun c => (hcc_Name c, hcc_Repository c, hcc_Version c))
           (fun '(a, b, c) => mkHelmChartConfig a b c)); by intros [].
Defined.
#[export] Instance HelmConfig_eq_dec : EqDecision HelmConfig.
Proof. solve_decision. Defined.
#[export] Instance HelmConfig_countable : Countable HelmConfig.
Proof.
  apply (inj_countable' (fun c => (hmc_Repositories c, hmc_Charts c))
           (fun '(a, b) => mkHelmConfig a b)); by intros [].
Defined.
#[export] Instance IscMirror_eq_dec : EqDecision ImageSetConfigurationMirror.
Proof. solve_decision. Defined.
#[export] Instance IscMirror_countable : Countable ImageSetConfigurationMirror.
Proof.
  apply (inj_countable'
           (fun c => (icm_Platform c, icm_Operators c, icm_AdditionalImages c, icm_Helm c))
           (fun '(a, b, c, d) => mkIscMirror a b c d)); by intros [].
Defined.
#[export] Instance ISC_eq_dec : EqDecision ImageSetConfiguration.
Proof. solve_decision. Defined.
#[export] Instance ISC_countable : Countable ImageSetConfiguration.
Proof.
  apply (inj_countable' (fun c => (isc_Kind c, isc_APIVersion c, isc_Mirror c))
           (fun '(a, b, c) => mkISC a b c)); by intros [].
Defined.

(** The encoding in the place of YAML: every configuration can be marshalled, and a
    text that encodes none does not parse. *)
Definition sampleYaml : IscYaml := {|
  yaml_Unmarshal_ISC s :=
    match pos_of_string s ≫= decode with
    | Some c => Ok c
    | None => Err (Errorf "yaml: cannot unmarshal")
    end;
  yaml_Marshal_ISC c := Ok (string_of_pos (encode c));
|}.

#[export] Instance sampleYaml_laws : IscYamlLaws sampleYaml.
Proof.
  constructor. intros c s [= <-]. simpl. rewrite pos_of_string_of_pos. simpl.
  by rewrite decode_encode.
Qed.

(** ** Dynamic objects *)

(** Setting a value, creating the missing maps on the way; [None] when a step is not a
    map. *)
Fixpoint put (m : fields) (path : list string) (v : json) : option fields :=
  match path with
  | [] => None
  | [k] => Some (jset m k v)
  | k :: rest =>
      let sub := if jhas m k then as_map (jget m k) else Some [] in
      match sub with
      | Some m' => option_map (fun m2 => jset m k (JMap m2)) (put m' rest v)
      | None => None
      end
  end.

Definition nested {A} (as_A : json -> option A) (zero : A) (m : fields) (path : list string)
  : A * bool * option error :=
  match walk m path with
  | None => (zero, false, Some (Errorf "accessor error"))
  | Some None => (zero, false, None)
  | Some (Some v) =>
      match as_A v with
      | Some a => (a, true, None)
      | None => (zero, false, Some (Errorf "accessor error: wrong type"))
      end
  end.

Definition strings_of (v : json) : option (list string) :=
  match v with JList l => mapM as_string l | _ => None end.

Definition setNested (m : fields) (v : json) (path : list string) : fields * option error :=
  match put m path v with
  | Some m' => (m', None)
  | None => (m, Some (Errorf "value cannot be set"))
  end.

(** ** Dynamic values as text *)

Abbreviation leaf := (bool + (Z + string))%type.
Abbreviation strLeaf s := (GenLeaf (inr (inr s)) : gen_tree leaf).

Fixpoint json_tree (v : json) : gen_tree leaf :=
  match v with
  | JNil => GenNode 0 []
  | JBool b => GenNode 1 [GenLeaf (inl b)]
  | JInt z => GenNode 2 [GenLeaf (inr (inl z))]
  | JFloat z => GenNode 3 [GenLeaf (inr (inl z))]
  | JStr s => GenNode 4 [strLeaf s]
  | JList l => GenNode 5 (map json_tree l)
  | JMap m => GenNode 6 (map (fun kv => GenNode 0 [strLeaf kv.1; json_tree kv.2]) m)
  | JStrs l => GenNode 7 (map (fun s => strLeaf s) l)
  | JMaps l => GenNode 8 (map (fun m => GenNode 0
                 (map (fun kv => GenNode 0 [strLeaf kv.1; json_tree kv.2]) m)) l)
  end.

Definition tree_str (t : gen_tree leaf) : string :=
  match t with GenLeaf (inr (inr s)) => s | _ => "" end.
(** The subtrees under a node. *)
Definition under {A} (f : gen_tree leaf -> A) (t : gen_tree leaf) : list A :=
  match t with GenNode _ l => map f l | GenLeaf _ => [] end.

Fixpoint tree_json (t : gen_tree leaf) : json :=
  match t with
  | GenNode 1 [GenLeaf (inl b)] => JBool b
  | GenNode 2 [GenLeaf (inr (inl z))] => JInt z
  | GenNode 3 [GenLeaf (inr (inl z))] => JFloat z
  | GenNode 4 [t] => JStr (tree_str t)
  | GenNode 5 l => JList (map tree_json l)
  | GenNode 6 l => JMap (map (fun t => match t with
                                       | GenNode _ [k; v] => (tree_str k, tree_json v)
                                       | _ => ("", JNil) end) l)
  | GenNode 7 l => JStrs (map tree_str l)
  | GenNode 8 l => JMaps (map (fun t => match t with
                                        | GenNode _ l => map (fun t => match t with
                                            | GenNode _ [k; v] => (tree_str k, tree_json v)
                                            | _ => ("", JNil) end) l
                                        | _ => [] end) l)
  | _ => JNil
  end.

Lemma tree_json_tree v : tree_json (json_tree v) = v.
Proof.
  revert v. fix IH 1. intros [| | | | |l|m|l|l]; simpl; try done; f_equal.
  - induction l as [|v l IHl]; simpl; [done|by rewrite IH, IHl].
  - induction m as [|[k v] m IHm]; simpl; [done|by rewrite IH, IHm].
  - induction l as [|s l IHl]; simpl; [done|by rewrite IHl].
  - induction l as [|m l IHl]; simpl; [done|]. rewrite IHl. f_equal.
    induction m as [|[k v] m IHm]; simpl; [done|by rewrite IH, IHm].
Qed.

Definition json_text (v : json) : string := string_of_pos (encode (json_tree v)).
Definition json_of_text (s : string) : option json := option_map tree_json (pos_of_string s ≫= decode).

(** The float64 of an integer below 2^53. *)
Definition float_bits (n : Z) : Z :=
  if (n =? 0)%Z then 0
  else
    let a := Z.abs n in
    let e := Z.log2 a in
    (if (n <? 0)%Z then 2 ^ 63 else 0) + (1023 + e) * 2 ^ 52 + (a - 2 ^ e) * 2 ^ (52 - e).

(** What is left of a value once it is text: the types of Go's slices are lost. *)
Fixpoint plain_of (v : json) : json :=
  match v with
  | JInt n => JFloat (float_bits n)
  | JList l => JList (map plain_of l)
  | JMap m => JMap (map (fun kv => (fst kv, plain_of (snd kv))) m)
  | JStrs l => JList (map JStr l)
  | JMaps l => JList (map (fun m => JMap (map (fun kv => (fst kv, plain_of (snd kv))) m)) l)
  | _ => v
  end.

Lemma plain_of_plain v : json_plain v = true -> plain_of v = v.
Proof.
  revert v. fix IH 1. intros [| | | | |l|m|l|l]; simpl; intros H; try done; f_equal.
  - induction l as [|v l IHl]; simpl in *; [done|]. apply andb_true_iff in H as [Hv Hl].
    by rewrite IH, IHl.
  - induction m as [|[k v] m IHm]; simpl in *; [done|]. apply andb_true_iff in H as [Hv Hl].
    apply andb_true_iff in Hv as [_ Hv]. by rewrite IH, IHm.
Qed.

Lemma json_of_text_text v : json_of_text (json_text v) = Some v.
Proof.
  unfold json_of_text, json_text. rewrite pos_of_string_of_pos. simpl.
  rewrite decode_encode. simpl. by rewrite tree_json_tree.
Qed.

(** Decoding [null] leaves a nil map. *)
Definition json_object_of_text (s : string) : result (option fields) :=
  if s == "null" then Ok None
  else match json_of_text s with
       | Some (JMap m) => if json_plain (JMap m) then Ok (Some m) else Err (Errorf "json")
       | _ => Err (Errorf "json: cannot unmarshal")
       end.

(** The field at the end of a path of maps is dropped. *)
Fixpoint removeNested (m : fields) (path : list string) : fields :=
  match path with
  | [] => m
  | [k] => List.filter (fun kv => fst kv != k) m
  | k :: rest =>
      match jget m k with
      | JMap sub => jset m k (JMap (removeNested sub rest))
      | _ => m
      end
  end.

Definition gibibytes (n : Z) : Quantity := (n * 2 ^ 30 * 10 ^ 9)%Z.

(** A list of objects; other elements are left nil. *)
Definition json_maps_of_text (s : string) : list fields * option error :=
  match json_of_text s with
  | Some (JList l) =>
      (map (fun v => default [] (as_map v)) l,
       if forallb (fun v => bool_decide (is_Some (as_map v))) l then None
       else Some (Errorf "json: cannot unmarshal"))
  | _ => ([], Some (Errorf "json: cannot unmarshal"))
  end.

(** An environment with no variables, in UTC, whose YAML and JSON texts are given by
    two tables. *)
Definition sampleExternals (yaml json_ : string -> option fields) : Externals := {|
  Getenv _ := "";
  UTCOffset _ := 0%Z;
  NewControllerRef m g :=
    mkOwnerRef (g_Group g +:+ "/" +:+ g_Version g) (g_Kind g) (om_Name m) (om_UID m)
      (Some true) (Some true);
  NestedString := nested as_string "";
  NestedBool := nested as_bool false;
  NestedSlice := nested as_list [];
  NestedStringSlice := nested strings_of [];
  NestedMap := nested as_map [];
  NestedInt64 := nested (fun v => match v with JInt n => Some n | _ => None end) 0%Z;
  SetNestedField := setNested;
  SetNestedSlice m l path := setNested m (JList l) path;
  SetNestedStringSlice m l path := setNested m (JList (map JStr l)) path;
  RemoveNestedField := removeNested;
  QuantityCmp a b := if (a <? b)%Z then (-1)%Z else if (b <? a)%Z then 1%Z else 0%Z;
  MustParse s :=
    match TrimSuffix s "Gi" with
    | "100" => Some (gibibytes 100) | "50" => Some (gibibytes 50) | "200" => Some (gibibytes 200)
    | "5" => Some (gibibytes 5) | _ => None
    end;
  IsDone pr := match prst_CompletionTime (pr_Status pr) with Some _ => true | None => false end;
  yaml_Unmarshal_map s := match yaml s with Some m => Ok m | None => Err (Errorf "yaml") end;
  yaml_Marshal_map m := Ok "encoded";
  json_Unmarshal_object := json_object_of_text;
  json_Decode_object := json_object_of_text;
  json_Decode_maps := json_maps_of_text;
  ParsesURL _ := true;
  json_Marshal v := Ok (json_text (plain_of v));
  json_Unmarshal_map s := match json_ s with Some m => Ok m | None => Err (Errorf "json") end;
  FormatValue v := match v with JStr s => s | JBool true => "true" | JBool false => "false" | _ => "<nil>" end;
|}.

Lemma jhas_jset_eq m k v : jhas (jset m k v) k = true.
Proof.
  induction m as [|[k' v'] m IH]; simpl; [by rewrite str_eqb_refl|].
  destruct (k' == k) eqn:E; simpl; [by rewrite str_eqb_refl|by rewrite E, IH].
Qed.

Lemma walk_cons m k k2 rest :
  walk m (k :: k2 :: rest) =
    if jhas m k then match jget m k with JMap m' => walk m' (k2 :: rest) | _ => None end
    else Some None.
Proof. done. Qed.

Lemma put_cons m k k2 rest v :
  put m (k :: k2 :: rest) v =
    match (if jhas m k then as_map (jget m k) else Some []) with
    | Some m' => option_map (fun m2 => jset m k (JMap m2)) (put m' (k2 :: rest) v)
    | None => None
    end.
Proof. done. Qed.

Lemma walk_put m path v m' : put m path v = Some m' -> walk m' path = Some (Some v).
Proof.
  revert m m'; induction path as [|k rest IH]; intros m m' H; [done|].
  destruct rest as [|k2 rest].
  - injection H as <-. simpl. by rewrite jhas_jset_eq, jget_jset_eq.
  - rewrite put_cons in H. destruct (if jhas m k then _ else _) as [sub|]; [|done].
    destruct (put sub (k2 :: rest) v) as [m2|] eqn:E; [|done]. injection H as <-.
    rewrite walk_cons, jhas_jset_eq, jget_jset_eq. by apply (IH sub).
Qed.

Lemma walk_put_other m path v m' path' :
  put m path v = Some m' -> diverge path path' = true -> walk m' path' = walk m path'.
Proof.
  revert m m' path'; induction path as [|k rest IH]; intros m m' path' H Hd; [done|].
  destruct path' as [|k' rest']; [done|]. simpl in Hd.
  assert (Ho : forall sub, k <> k' ->
    walk (jset m k sub) (k' :: rest') = walk m (k' :: rest')).
  { intros sub Hk. destruct rest'; simpl; by rewrite jhas_jset, jget_jset_ne, (str_eqb_ne k k') by congruence. }
  destruct (k == k') eqn:E; str_eq.
  - subst k'. destruct rest as [|k2 rest]; [done|]. destruct rest' as [|k2' rest']; [done|].
    rewrite put_cons in H. rewrite !walk_cons.
    destruct (jhas m k) eqn:Eh.
    + destruct (jget m k) as [| | | | | |sub| |]; try done. cbn [as_map] in H.
      destruct (put sub (k2 :: rest) v) as [m2|] eqn:E2; [|done]. injection H as <-.
      rewrite jhas_jset_eq, jget_jset_eq. eapply IH; [exact E2|exact Hd].
    + destruct (put [] (k2 :: rest) v) as [m2|] eqn:E2; [|done]. injection H as <-.
      rewrite jhas_jset_eq, jget_jset_eq, (IH [] m2 _ E2 Hd). by destruct rest'.
  - destruct rest as [|k2 rest]; [injection H as <-; by apply Ho|].
    rewrite put_cons in H. destruct (if jhas m k then _ else _) as [sub|]; [|done].
    destruct (put sub (k2 :: rest) v) as [m2|]; [|done]. injection H as <-. by apply Ho.
Qed.

Lemma put_settable m path v : settable m path = true -> exists m', put m path v = Some m'.
Proof.
  revert m; induction path as [|k rest IH]; intros m H; [done|].
  destruct rest as [|k2 rest]; [by eexists|].
  rewrite put_cons. change (settable m (k :: k2 :: rest)) with
    (if jhas m k then match jget m k with JMap m' => settable m' (k2 :: rest) | _ => false end else true) in H.
  destruct (jhas m k).
  - destruct (jget m k) as [| | | | | |sub| |]; try done. destruct (IH sub H) as [m2 E].
    simpl as_map. cbv iota. rewrite E. by eexists.
  - destruct (IH []) as [m2 E]; [by destruct rest|]. rewrite E. by eexists.
Qed.

Lemma settable_cons m k k2 rest :
  settable m (k :: k2 :: rest) =
    if jhas m k then match jget m k with JMap m' => settable m' (k2 :: rest) | _ => false end else true.
Proof. done. Qed.

Lemma settable_put m path v m' path' :
  put m path v = Some m' -> diverge path path' = true ->
  settable m path' = true -> settable m' path' = true.
Proof.
  revert m m' path'; induction path as [|k rest IH]; intros m m' path' H Hd Hs; [done|].
  destruct path' as [|k' [|k2' rest']]; [done|done|]. simpl in Hd.
  assert (Ho : forall sub, k <> k' -> settable (jset m k sub) (k' :: k2' :: rest') = true).
  { intros sub Hk. by rewrite settable_cons, jhas_jset, jget_jset_ne, (str_eqb_ne k k') by congruence. }
  destruct (k == k') eqn:E; str_eq.
  - subst k'. destruct rest as [|k2 rest]; [done|]. rewrite put_cons in H. rewrite settable_cons in *.
    destruct (jhas m k) eqn:Eh.
    + destruct (jget m k) as [| | | | | |sub| |]; try done. cbn [as_map] in H.
      destruct (put sub (k2 :: rest) v) as [m2|] eqn:E2; [|done]. injection H as <-.
      rewrite jhas_jset_eq, jget_jset_eq. eapply IH; [exact E2|exact Hd|exact Hs].
    + destruct (put [] (k2 :: rest) v) as [m2|] eqn:E2; [|done]. injection H as <-.
      rewrite jhas_jset_eq, jget_jset_eq. eapply IH; [exact E2|exact Hd|by destruct rest'].
  - destruct rest as [|k2 rest]; [injection H as <-; by apply Ho|].
    rewrite put_cons in H. destruct (if jhas m k then _ else _) as [sub|]; [|done].
    destruct (put sub (k2 :: rest) v) as [m2|]; [|done]. injection H as <-. by apply Ho.
Qed.

Lemma string_of_pos_null p : string_of_pos p <> "null".
Proof. destruct p; simpl; congruence. Qed.

Lemma json_object_of_text_text m :
  json_plain (JMap m) = true -> json_object_of_text (json_text (JMap m)) = Ok (Some m).
Proof.
  intros H. unfold json_object_of_text. rewrite str_eqb_ne by apply string_of_pos_null.
  by rewrite json_of_text_text, H.
Qed.

Lemma json_object_of_text_plain s m :
  json_object_of_text s = Ok (Some m) -> json_plain (JMap m) = true.
Proof.
  unfold json_object_of_text. destruct (s == "null"); [done|].
  destruct (json_of_text s) as [[]|]; try done. destruct (json_plain (JMap m0)) eqn:E; congruence.
Qed.

#[export] Instance sampleExternals_laws y j : ExternalsLaws (sampleExternals y j).
Proof.
  constructor.
  - intros a b. simpl. destruct (Z.ltb_spec a b); [lia|]. destruct (Z.ltb_spec b a); lia.
  - intros a b. simpl. destruct (Z.ltb_spec a b); [lia|]. destruct (Z.ltb_spec b a); lia.
  - intros m l path m' H. simpl in *. unfold setNested in H. unfold nested.
    destruct (put m path (JList l)) as [m2|] eqn:E; [|done]. injection H as <-.
    by rewrite (walk_put _ _ _ _ E).
  - intros m l path m' H. simpl in *. unfold setNested in H. unfold nested.
    destruct (put m path _) as [m2|] eqn:E; [|done]. injection H as <-.
    rewrite (walk_put _ _ _ _ E). simpl.
    assert (Hl : mapM as_string (map JStr l) = Some l) by (clear; induction l as [|x l IH]; simpl; [done|by rewrite IH]).
    by rewrite Hl.
  - intros m s path m' H. simpl in *. unfold setNested in H. unfold nested.
    destruct (put m path (JStr s)) as [m2|] eqn:E; [|done]. injection H as <-.
    by rewrite (walk_put _ _ _ _ E).
  - intros m path s H. simpl. unfold nested. by rewrite H.
  - intros m path l H _. simpl. unfold nested. by rewrite H.
  - intros m path r H _. simpl. unfold nested. by rewrite H.
  - intros m path n H. simpl. unfold nested. by rewrite H.
  - intros m path b H. simpl. unfold nested. by rewrite H.
  - intros m path H. simpl. unfold nested. destruct (walk m path) as [[[]|]|]; naive_solver.
  - intros m path H. simpl. unfold nested. destruct (walk m path) as [[[]|]|]; naive_solver.
  - intros m path H. simpl. unfold nested. destruct (walk m path) as [[[]|]|]; naive_solver.
  - intros m v path H. simpl. unfold setNested. by destruct (put_settable m path v H) as [m' ->].
  - intros m v path m' H. simpl in H. unfold setNested in H.
    destruct (put m path v) as [m2|] eqn:E; [|done]. injection H as <-. eapply walk_put; exact E.
  - intros m v path m' path' H Hd. simpl in H. unfold setNested in H.
    destruct (put m path v) as [m2|] eqn:E; [|done]. injection H as <-. by eapply walk_put_other.
  - intros m v path m' path' H Hd Hs. simpl in H. unfold setNested in H.
    destruct (put m path v) as [m2|] eqn:E; [|done]. injection H as <-. by eapply settable_put.
  - done.
  - intros m path l e H. simpl in H. unfold nested in H.
    destruct (walk m path) as [[v|]|]; [destruct (as_list v)| |]; congruence.
  - exact json_object_of_text_plain.
  - intros m _. by eexists.
  - intros m s Hm [= <-]. exists m. split; [|reflexivity].
    change (JMap _) with (plain_of (JMap m)). rewrite plain_of_plain by done. by apply json_object_of_text_text.
  - intros v v' []; done.
  - done.
Qed.
