(* ===== verification/Nested.v ===== *)
(** Objects built by setting one field after the other: what is at each path afterwards. *)
From S2P Require Import Prelude GoStrings K8s Json Kube Externals.

Section Nested.
Context {X : Externals} `{!ExternalsLaws X}.

Definition set_fields (l : list (list string * json)) (m : fields) : fields :=
  fold_left (fun m pv => set_field (fst pv) (snd pv) m) l m.

Lemma set_field_ok m v path :
  settable m path = true -> SetNestedField m v path = (set_field path v m, None).
Proof. intros H. unfold set_field. rewrite (surjective_pairing (SetNestedField m v path)). simpl. f_equal. by apply SetNestedField_ok. Qed.

Lemma set_field_at m v path : settable m path = true -> walk (set_field path v m) path = Some (Some v).
Proof. intros H. eapply SetNestedField_at, set_field_ok, H. Qed.

Lemma set_field_other m v path path' :
  settable m path = true -> diverge path path' = true -> walk (set_field path v m) path' = walk m path'.
Proof. intros H. eapply SetNestedField_other, set_field_ok, H. Qed.

Lemma set_field_settable m v path path' :
  settable m path = true -> diverge path path' = true -> settable m path' = true ->
  settable (set_field path v m) path' = true.
Proof. intros H. eapply SetNestedField_settable, set_field_ok, H. Qed.

(** The paths differ two by two. *)
Fixpoint apart (l : list (list string * json)) : bool :=
  match l with
  | [] => true
  | pv :: rest => forallb (fun pv' => diverge (fst pv) (fst pv')) rest && apart rest
  end.

Lemma set_fields_other l m path :
  forallb (fun pv => settable m (fst pv)) l = true -> apart l = true ->
  forallb (fun pv => diverge (fst pv) path) l = true ->
  walk (set_fields l m) path = walk m path.
Proof.
  revert m; induction l as [|[p v] l IH]; intros m Hs Ha Hd; [done|].
  simpl in *. rewrite !andb_true_iff in *. destruct Hs as [Hp Hs], Ha as [Hap Ha], Hd as [Hd Hds].
  rewrite (IH (set_field p v m)); [by apply set_field_other| |done|done].
  rewrite forallb_forall in *. intros pv Hin. apply set_field_settable; [done|by apply Hap|by apply Hs].
Qed.

Lemma set_fields_at l m path v :
  forallb (fun pv => settable m (fst pv)) l = true -> apart l = true ->
  In (path, v) l -> walk (set_fields l m) path = Some (Some v).
Proof.
  revert m; induction l as [|[p w] l IH]; intros m Hs Ha Hin; [done|].
  simpl in Hs, Ha. rewrite !andb_true_iff in *. destruct Hs as [Hp Hs], Ha as [Hap Ha].
  assert (Hs' : forallb (fun pv => settable (set_field p w m) (fst pv)) l = true).
  { rewrite forallb_forall in *. intros pv Hpv. apply set_field_settable; [done|by apply Hap|by apply Hs]. }
  destruct Hin as [[= -> ->]|Hin]; [|by apply (IH (set_field p w m))].
  simpl. rewrite set_fields_other; [by apply set_field_at|done|done|].
  rewrite forallb_forall in *. intros pv Hpv. specialize (Hap pv Hpv). revert Hap.
  generalize (fst pv). clear. induction path as [|x path IH]; intros [|y q]; simpl; try done.
  rewrite (str_eqb_sym x y). destruct (y == x); auto.
Qed.

(** On a new object. *)
Lemma fresh_field l path v :
  forallb (fun pv => match fst pv with [] => false | _ => true end) l = true -> apart l = true ->
  In (path, v) l -> walk (set_fields l []) path = Some (Some v).
Proof.
  intros Hn Ha Hin. apply set_fields_at; [|done|done].
  rewrite forallb_forall in *. intros pv Hpv. specialize (Hn pv Hpv). by destruct (fst pv) as [|? [|??]].
Qed.

(** What the accessors return, from what is at the path. *)
Definition string_at (v : option (option json)) : string :=
  match v with Some (Some (JStr s)) => s | _ => "" end.
Definition slice_at (v : option (option json)) : list json :=
  match v with Some (Some (JList l)) => l | _ => [] end.
Definition bool_at (v : option (option json)) : bool :=
  match v with Some (Some (JBool b)) => b | _ => false end.

Lemma nested_string_walk m path : nested_string m path = string_at (walk m path).
Proof.
  assert (H := NestedString_zero m path). assert (Ha := NestedString_at m path).
  unfold nested_string. destruct (walk m path) as [[[]|]|]; cbn [string_at]; try by rewrite (Ha _ eq_refl).
  all: destruct (NestedString m path) as [[? ?] ?]; apply H; naive_solver.
Qed.

Lemma nested_bool_walk m path : fst (fst (NestedBool m path)) = bool_at (walk m path).
Proof.
  assert (H := NestedBool_zero m path). assert (Ha := NestedBool_at m path).
  destruct (walk m path) as [[[]|]|]; cbn [bool_at]; try by rewrite (Ha _ eq_refl).
  all: apply H; naive_solver.
Qed.

Lemma copyable_get m k : copyable (JMap m) = true -> jhas m k = true -> copyable (jget m k) = true.
Proof.
  induction m as [|[k' v] m IH]; simpl; [done|]. intros [Hv Hm]%andb_true_iff.
  destruct (k' == k); [done|]. by apply IH.
Qed.

Lemma copyable_walk m path v : copyable (JMap m) = true -> walk m path = Some (Some v) -> copyable v = true.
Proof.
  revert m; induction path as [|k path IH]; intros m Hc H; [by injection H as <-|].
  destruct path as [|k2 path].
  - simpl in H. destruct (jhas m k) eqn:E; [|done]. injection H as <-. by apply copyable_get.
  - change (walk m (k :: k2 :: path)) with
      (if jhas m k then match jget m k with JMap m' => walk m' (k2 :: path) | _ => None end else Some None) in H.
    destruct (jhas m k) eqn:E; [|done]. pose proof (copyable_get _ _ Hc E) as Hk.
    destruct (jget m k); try done. by eapply IH.
Qed.

Lemma nested_slice_walk m path : copyable (JMap m) = true -> nested_slice m path = slice_at (walk m path).
Proof.
  intros Hc. assert (H := NestedSlice_zero m path). assert (Ha := NestedSlice_at m path).
  assert (Hw := copyable_walk m path). unfold nested_slice.
  destruct (walk m path) as [[[]|]|]; cbn [slice_at]; try by rewrite (Ha _ eq_refl (Hw _ Hc eq_refl)).
  all: destruct (NestedSlice m path) as [[? ?] ?]; apply H; naive_solver.
Qed.

Lemma copyable_jset m k v : copyable (JMap m) = true -> copyable v = true -> copyable (JMap (jset m k v)) = true.
Proof.
  intros Hm Hv. induction m as [|[k' v'] m IH]; simpl in *; [by rewrite Hv|].
  apply andb_true_iff in Hm as [H1 H2]. destruct (k' == k); simpl; apply andb_true_iff; split; auto.
Qed.
End Nested.
