(* ===== verification/Samples.v ===== *)
(** An in-memory API server and sample objects, on which the witnesses of the
    properties run the reconcilers. *)
From S2P Require Import Prelude GoStrings K8s GoTime Api Kube Externals Helpers ImageSet Instances.

(** ** The server *)

(** The objects of each kind, and the replies that are fixed in advance. *)
Record store := mkStore {
  st_objs : forall K : kind, list (obj K);
  st_clock : time;
  st_http : string -> result HttpResponse;
  st_web : HttpRequest -> result HttpReply;
}.

Definition objs0 : forall K : kind, list (obj K) := fun _ => [].

Definition set_objs (s : forall K, list (obj K)) (K : kind) (l : list (obj K))
  : forall K, list (obj K) :=
  fun K' =>
    match kind_eq_dec K K' with
    | left e => eq_rect K (fun K => list (obj K)) l K' e
    | right _ => s K'
    end.

Definition with_objs (s : store) (K : kind) (l : list (obj K)) : store :=
  mkStore (set_objs (st_objs s) K l) (st_clock s) (st_http s) (st_web s).

Definition has_key {K} (k : NamespacedName) (o : obj K) : bool := bool_decide (key_of o = k).

Definition notFound : error := mkError ReasonNotFound "not found".
Definition alreadyExists : error := mkError ReasonAlreadyExists "already exists".

(** A generated name gets a fixed suffix. *)
Definition generateName (m : ObjectMeta) : ObjectMeta :=
  if om_Name m == "" then m <| om_Name := om_GenerateName m +:+ "x7k2p" |> else m.

Definition named (K : kind) : obj K -> obj K :=
  match K return obj K -> obj K with
  | KPipelineRun => fun pr => mkPR (generateName (pr_Meta pr)) (pr_Spec pr) (pr_Status pr)
  | _ => fun o => o
  end.

Definition in_namespace {K} (ns : option string) (o : obj K) : bool :=
  match ns with Some n => om_Namespace (meta o) == n | None => true end.

#[export] Instance memory_server : Server store := fun c s =>
  match c return reply c * store with
  | CGet K k =>
      (match find_first (has_key k) (st_objs s K) with Some o => Ok o | None => Err notFound end, s)
  | CList K ns _ => (Ok (List.filter (in_namespace ns) (st_objs s K)), s)
  | CCreate K o =>
      let o := named K o in
      if existsb (has_key (key_of o)) (st_objs s K) then (Err alreadyExists, s)
      else (Ok o, with_objs s K (snoc (st_objs s K) o))
  | CUpdate K o =>
      match update_first (has_key (key_of o)) (fun _ => o) (st_objs s K) with
      | Some l => (Ok o, with_objs s K l)
      | None => (Err notFound, s)
      end
  | CStatusUpdate K o =>
      match update_first (has_key (key_of o)) (fun _ => o) (st_objs s K) with
      | Some l => (Ok o, with_objs s K l)
      | None => (Err notFound, s)
      end
  | CDelete K o =>
      (None, with_objs s K (List.filter (fun o' => negb (has_key (key_of o) o')) (st_objs s K)))
  | CNow => (st_clock s, s)
  | CPostForm url _ => (st_http s url, s)
  | CHttp rq => (st_web s rq, s)
  | CSleep d => (tt, s)
  | CGenerateKey => (Ok "key", s)
  | CRandInt _ => (Ok 7%Z, s)
  | CCreateCertificate _ _ => (Ok "certificate", s)
  | CMarshalECPrivateKey _ => (Ok "private key", s)
  | CExecInPod _ _ _ _ _ => (mkExecReply None None "sample-token" "", s)
  end.

(** The same server, on which one call fails. *)
Definition refused : error := mkError ReasonOther "the server is currently unable to handle the request".
Definition refuse (c : call) : option (reply c) :=
  match c return option (reply c) with
  | CGet _ _ => Some (Err refused)
  | CList _ _ _ => Some (Err refused)
  | CCreate _ _ => Some (Err refused)
  | CUpdate _ _ => Some (Err refused)
  | CStatusUpdate _ _ => Some (Err refused)
  | CDelete _ _ => Some (Some refused)
  | _ => None
  end.
(** Of the calls that are chosen the one with this number is refused. *)
Definition refusing (which : call -> bool) : Server (nat * store) := fun c ns =>
  let '(n, s) := ns in
  let served n := let '(r, s) := memory_server c s in (r, (n, s)) in
  if which c then
    match n, refuse c with
    | 1, Some r => (r, (0, s))
    | _, _ => served (pred n)
    end
  else served n.

Definition noHttp (url : string) : result HttpResponse := Err (Errorf "no route to host").

Definition noWeb (rq : HttpRequest) : result HttpReply := Err (Errorf "no route to host").

(** 2024-05-17 09:30:00 UTC. *)
Definition sampleClock : time := (1715938200 * Second)%Z.

Definition emptyStore : store := mkStore objs0 sampleClock noHttp noWeb.

(** ** Sample objects *)

Definition sampleMeta (ns name : string) : ObjectMeta :=
  meta0 <| om_Name := name |> <| om_Namespace := ns |> <| om_UID := "uid-" +:+ name |>.

Definition sampleIsc : ImageSetConfiguration :=
  mkISC "ImageSetConfiguration" "mirror.openshift.io/v2alpha1"
    (mkIscMirror (Some (mkPlatformConfig [mkChannelConfig "stable-4.18" "4.18.3" "" false] true []))
       [mkIscOperatorConfig "registry.redhat.io/redhat/redhat-operator-index:v4.18" []]
       [mkImageConfig "registry.access.redhat.com/ubi9/ubi:latest"] None).

(** The text of [sampleIsc] in the sample encoding. *)
Definition sampleIscText : string := string_of_pos (countable.encode sampleIsc).

Definition sampleChannelMap : fields :=
  [("mirror", JMap [("platform", JMap [("channels", JList [JMap [("name", JStr "stable-4.18"); ("minVersion", JStr "4.18.3")]])])])].

Definition sampleX : Externals :=
  sampleExternals (fun s => if s == sampleIscText then Some sampleChannelMap else None) (fun _ => None).

Definition sampleReq : NamespacedName := mkNN "mirror" "weekly".

(** Runs a reconciler on a store. *)
Definition traceOf {A} (p : prog A) (s : store) : trace := fst (fst (run p s)).
Definition outcomeOf {A} (p : prog A) (s : store) : outcome A := snd (fst (run p s)).

Lemma traceOf_exec {A} (p : prog A) (s : store) : exec p (traceOf p s) (outcomeOf p s).
Proof. apply run_exec. Qed.

(** Collection pipelines of the namespace "mirror". *)
Definition sampleSpec : CollectionPipelineSpec :=
  mkCollectionPipelineSpec sampleIscText "manual" false "" (mkArtifactOutput None) None None "" None.

Definition status0 : CollectionPipelineStatus :=
  mkCollectionPipelineStatus [] "" "" "" "" None None "" "" "" "" "".

Definition samplePipeline (name : string) (spec : CollectionPipelineSpec)
    (status : CollectionPipelineStatus) (finalizers : list string) : CollectionPipeline :=
  mkCollectionPipeline (mkTypeMeta "" "")
    ((sampleMeta "mirror" name) <| om_Finalizers := finalizers |>) spec status.

Definition sampleFinalizer : string := "mirror.mathianasj.github.com/pipeline-finalizer".

Definition samplePVC (name : string) (size : Quantity) : PersistentVolumeClaim :=
  mkPVC (sampleMeta "mirror" name) [ReadWriteOnce] (Some {[ ResourceStorage := size ]}) ∅ ClaimBound.

(** A store holding the given pipelines. *)
Definition pipelinesStore (ps : list CollectionPipeline) : store :=
  with_objs emptyStore KCollectionPipeline ps.
