(* ===== verification/Ensure.v ===== *)
(** The contract of a function that keeps one object as it should be: read it, write it when
    it is not as wanted, create it when it does not exist.  [ensured] is the abstract
    specification, a relation between traces and results; [refines] says that every execution
    of a program is one of the specification.  A program that refines a specification whose
    object is as wanted once written settles: on the in-memory server, a run after a
    successful one only reads. *)
From S2P Require Import Prelude GoStrings K8s Api Kube Samples.

(** ** The specification *)

Record ensure_spec (K : kind) := mkEnsure {
  es_key : NamespacedName;
  es_ok : obj K -> bool;                  (* the object is as wanted *)
  es_fix : obj K -> obj K;                (* what an object that is not is replaced with *)
  es_new : obj K;                         (* what is created *)
  es_update_error : error -> error;
  es_create_error : error -> error;
}.
Arguments mkEnsure {K}.
Arguments es_key {K}. Arguments es_ok {K}. Arguments es_fix {K}. Arguments es_new {K}.
Arguments es_update_error {K}. Arguments es_create_error {K}.

Inductive ensured {K} (es : ensure_spec K) : trace -> option error -> Prop :=
| ensured_ok o :
    es_ok es o = true -> ensured es [Ev (CGet K (es_key es)) (Ok o)] None
| ensured_fixed o (u : result (obj K)) :
    es_ok es o = false ->
    ensured es [Ev (CGet K (es_key es)) (Ok o); Ev (CUpdate K (es_fix es o)) u]
      (option_map (es_update_error es) (err_of u))
| ensured_created e (c : result (obj K)) :
    IsNotFound e = true ->
    ensured es [Ev (CGet K (es_key es)) (Err e); Ev (CCreate K (es_new es)) c]
      (option_map (es_create_error es) (err_of c))
| ensured_failed e :
    IsNotFound e = false -> ensured es [Ev (CGet K (es_key es)) (Err e)] (Some e).

Definition refines {K} (es : ensure_spec K) (p : prog (option error)) : Prop :=
  forall tr o, exec p tr o -> exists r, o = Done r /\ ensured es tr r.

(** What it takes to settle: the object that is written is as wanted and has the key that is
    read.  Objects whose name the server generates are left out. *)
Class Converges {K} (es : ensure_spec K) : Prop := {
  fix_ok : forall o, es_ok es (es_fix es o) = true;
  fix_key : forall o, key_of o = es_key es -> key_of (es_fix es o) = es_key es;
  new_ok : es_ok es (es_new es) = true;
  new_key : key_of (es_new es) = es_key es;
  not_generated : forall o : obj K, named K o = o;
}.

(** ** The in-memory server *)

Lemma set_objs_same s K (l : list (obj K)) : set_objs s K l K = l.
Proof.
  unfold set_objs. destruct (kind_eq_dec K K) as [e|n]; [|done].
  by rewrite <- (Eqdep_dec.eq_rect_eq_dec kind_eq_dec).
Qed.

Lemma find_first_update {A} (p : A -> bool) o l l' :
  update_first p (fun _ => o) l = Some l' -> p o = true -> find_first p l' = Some o.
Proof.
  revert l'; induction l as [|x l IH]; simpl; intros l' H Hp; [done|].
  destruct (p x) eqn:E; [injection H as <-; simpl; by rewrite Hp|].
  destruct (update_first p _ l) as [l2|] eqn:E2; [|done]. injection H as <-. simpl. rewrite E. by apply IH.
Qed.

Lemma update_first_found {A} (p : A -> bool) f l x :
  find_first p l = Some x -> exists l', update_first p f l = Some l'.
Proof.
  induction l as [|y l IH]; simpl; [done|]. destruct (p y); [eauto|].
  intros H. destruct (IH H) as [l' ->]. eauto.
Qed.

Lemma find_first_existsb {A} (p : A -> bool) l : find_first p l = None -> existsb p l = false.
Proof. rewrite find_first_None, existsb_false. done. Qed.

Lemma has_key_spec {K} k (o : obj K) : has_key k o = true <-> key_of o = k.
Proof. apply bool_decide_eq_true. Qed.

(** What a program that refines a specification does on the server: the store after it holds
    an object that is as wanted, and the only writes are to that object. *)
Definition holds {K} (es : ensure_spec K) (s : store) : Prop :=
  exists o, find_first (has_key (es_key es)) (st_objs s K) = Some o /\ es_ok es o = true.

(** A trace is what the server answers from the first store to the second. *)
Fixpoint served (tr : trace) (s s1 : store) : Prop :=
  match tr with
  | [] => s = s1
  | Ev c r :: tr' => let '(r', s') := handle c s in r = r' /\ served tr' s' s1
  end.

Lemma run_served {A} (p : prog A) (s : store) : served (fst (fst (run p s))) s (snd (run p s)).
Proof.
  revert s; induction p as [a|m|c k IH]; intros s; simpl; [done|done|].
  destruct (handle c s) as [r s1] eqn:E. specialize (IH r s1).
  destruct (run (k r) s1) as [[tr o] s2]. simpl in *. by rewrite E.
Qed.

(** ** Lemmas *)

Section Refinement.
Context {K : kind} (es : ensure_spec K).

(** A program that refines a specification returns, and writes that object at most once. *)
Lemma refines_writes p tr o :
  refines es p -> exec p tr o ->
  (exists r, o = Done r) /\ (length (writes tr) <= 1)%nat /\
  forall c, In c (writes tr) -> c = CCreate K (es_new es) \/ exists x, c = CUpdate K (es_fix es x).
Proof.
  intros Hp He. destruct (Hp _ _ He) as (r & -> & H). split; [by eexists|].
  destruct H as [? ?|? ? ?|? r0 ?|? ?]; cbn; (split; [simpl; lia|]);
    intros c Hc; simpl in Hc; try done; (destruct Hc as [<-|[]]); eauto.
Qed.

Context `{!Converges es}.

Lemma ensured_holds tr r s s1 :
  ensured es tr r -> served tr s s1 -> r = None /\ holds es s1.
Proof.
  intros [x Hok|x u Hok|e c He|e He]; cbn [served].
  - destruct (handle (CGet K (es_key es)) s) as [r' s'] eqn:E. unfold handle, memory_server in E.
    injection E as <- <-. intros [H <-]. split; [done|]. exists x. split; [|done].
    destruct (find_first _ _) as [y|]; congruence.
  - destruct (handle (CGet K (es_key es)) s) as [r' s'] eqn:E. unfold handle, memory_server in E.
    injection E as <- <-. destruct (find_first (has_key (es_key es)) (st_objs s K)) as [y|] eqn:Ef;
      [|by intros [? _]]. intros [[= <-] H].
    assert (Hk : key_of (es_fix es x) = es_key es).
    { apply fix_key. apply find_first_Some in Ef as [_ Ef]. by apply has_key_spec in Ef. }
    destruct (update_first_found _ (fun _ => es_fix es x) _ _ Ef) as [l' El].
    unfold handle, memory_server in H. rewrite Hk, El in H. destruct H as [-> <-]. split; [done|].
    exists (es_fix es x). simpl. rewrite set_objs_same. split; [|apply fix_ok].
    eapply find_first_update; [exact El|by apply has_key_spec].
  - destruct (handle (CGet K (es_key es)) s) as [r' s'] eqn:E. unfold handle, memory_server in E.
    injection E as <- <-. destruct (find_first (has_key (es_key es)) (st_objs s K)) as [y|] eqn:Ef;
      [by intros [? _]|]. intros [_ H].
    unfold handle, memory_server in H. rewrite not_generated, new_key, (find_first_existsb _ _ Ef) in H.
    destruct H as [-> <-]. split; [done|].
    exists (es_new es). simpl. rewrite set_objs_same. split; [|apply new_ok].
    apply find_first_snoc; [done|]. apply has_key_spec, new_key.
  - destruct (handle (CGet K (es_key es)) s) as [r' s'] eqn:E. unfold handle, memory_server in E.
    injection E as <- <-. destruct (find_first (has_key (es_key es)) (st_objs s K)) as [y|] eqn:Ef;
      [by intros [? _]|]. intros [[= ->] _]. done.
Qed.

Lemma ensured_idle tr r s s1 :
  holds es s -> ensured es tr r -> served tr s s1 -> writes tr = [] /\ r = None /\ s1 = s.
Proof.
  intros (x & Ex & Hx) H. destruct H as [y Hok|y u Hok|e c He|e He]; cbn [served];
    unfold handle, memory_server; rewrite Ex; intros [[= E] H].
  - split_and!; done.
  - congruence.
Qed.

(** A run on the server of a program that refines the specification succeeds and leaves the
    object as wanted; from then on a run only reads. *)
Lemma refines_settles p s :
  refines es p ->
  outcomeOf p s = Done None /\
  let s1 := snd (run p s) in
  holds es s1 /\ writes (traceOf p s1) = [] /\ outcomeOf p s1 = Done None /\ snd (run p s1) = s1.
Proof.
  intros Hp. destruct (Hp _ _ (traceOf_exec p s)) as (r & E & H).
  destruct (ensured_holds _ _ _ _ H (run_served p s)) as [-> Hh]. split; [done|]. intros s1.
  destruct (Hp _ _ (traceOf_exec p s1)) as (r2 & E2 & H2).
  destruct (ensured_idle _ _ _ _ Hh H2 (run_served p s1)) as (Hw & -> & Es). done.
Qed.
End Refinement.

(** What settling means for a program on a store of the in-memory server. *)
Definition settles_on (s : store) (p : prog (option error)) : Prop :=
  outcomeOf p s = Done None /\
  let s1 := snd (run p s) in
  writes (traceOf p s1) = [] /\ outcomeOf p s1 = Done None /\ snd (run p s1) = s1.

Lemma refines_settles_on {K} (es : ensure_spec K) `{!Converges es} p s : refines es p -> settles_on s p.
Proof.
  intros H. destruct (refines_settles es p s H) as (H1 & _ & H2 & H3 & H4). by split_and!.
Qed.

(** The constructors of [ensured] with the result as an equation. *)
Section Leaves.
Context {K : kind} (es : ensure_spec K).

Lemma leaf_fixed o (u : result (obj K)) r :
  es_ok es o = false -> r = option_map (es_update_error es) (err_of u) ->
  ensured es [Ev (CGet K (es_key es)) (Ok o); Ev (CUpdate K (es_fix es o)) u] r.
Proof. intros H ->. by apply ensured_fixed. Qed.

Lemma leaf_created e (c : result (obj K)) r :
  IsNotFound e = true -> r = option_map (es_create_error es) (err_of c) ->
  ensured es [Ev (CGet K (es_key es)) (Err e); Ev (CCreate K (es_new es)) c] r.
Proof. intros H ->. by apply ensured_created. Qed.
End Leaves.

(** Errors that are passed on as they are. *)
Definition noWrap : error -> error := fun e => e.
Lemma noWrap_err {A} (r : result A) : err_of r = option_map noWrap (err_of r).
Proof. by destruct r. Qed.

(** Proves [refines es p] by going through the calls of [p]. *)
Ltac refine_go :=
  intros tr o H;
  repeat (cbv beta zeta in H;
    lazymatch type of H with
    | exec (Call _ Ret ≫= _) _ _ =>
        let r := fresh "r" in let t := fresh "t" in let E := fresh "E" in
        apply exec_call_bind in H as (r & t & E & H); subst; cbn [reply obj] in r
    | exec (mret _) _ _ => apply exec_inv in H as [? ?]; subst
    | exec (match ?x with _ => _ end) _ _ => destruct x eqn:?
    | exec _ _ _ => progress unfold Get, Update, Create in H
    end);
  eexists; (split; [reflexivity|]).

(** Closes a leaf of [refine_go] for the specification [es]. *)
Ltac refine_leaf es :=
  repeat match goal with
  | H : negb _ = true |- _ => apply negb_true_iff in H
  | H : negb _ = false |- _ => apply negb_false_iff in H
  end;
  lazymatch goal with
  | |- ensured _ [_] None => apply (ensured_ok es)
  | |- ensured _ [_] (Some _) => apply (ensured_failed es)
  | |- ensured _ [_; Ev (CUpdate _ _) _] _ => apply (leaf_fixed es)
  | |- ensured _ [_; Ev (CCreate _ _) _] _ => apply (leaf_created es)
  end; first [assumption | apply noWrap_err | reflexivity].
