(* ===== verification/ImageSetProps.v ===== *)
(** Properties of the image-set functions: where rewritten references point, what the
    intermediate configuration keeps, and what each enrichment adds, keeps and does
    on a text it cannot parse. *)
From S2P Require Import Prelude GoStrings K8s Api Kube Externals Helpers ImageSet Instances Samples.

(** ** Specification vocabulary *)

(** [host] is recognised as a registry host. *)
Definition is_registry (host : string) : bool :=
  Contains host "." || Contains host ":" || (host == "localhost").

(** Where a reference goes in the registry path [reg].  An image keeps its name, with tag or
    digest: what follows the last slash.  A wildcard keeps its path, after the registry when it
    starts with one. *)
Definition plainRef (ref : string) : string := TrimPrefix ref "docker://".
Inductive relocated (reg ref : string) : string -> Prop :=
| relocated_image name :
    HasSuffix ref "/*" = false -> index_opt name "/" = None ->
    plainRef ref = name \/ (exists pre, plainRef ref = pre +:+ "/" +:+ name) ->
    relocated reg ref (reg +:+ "/" +:+ name)
| relocated_wildcard host path :
    HasSuffix ref "/*" = true -> index_opt host "/" = None -> is_registry host = true ->
    plainRef ref = host +:+ "/" +:+ path -> relocated reg ref (reg +:+ "/" +:+ path)
| relocated_short :
    HasSuffix ref "/*" = true ->
    (forall host path, plainRef ref = host +:+ "/" +:+ path -> host <> "" -> index_opt host "/" = None ->
       is_registry host = false) ->
    relocated reg ref (reg +:+ "/" +:+ plainRef ref).

(** ** Helper lemmas *)

Lemma no_slash_take a b :
  index_opt a "/" = None -> take_str (String.length a) (a +:+ b) = a.
Proof.
  intros _. induction a as [|c a IH]; [by destruct b|].
  change (String c a +:+ b) with (String c (a +:+ b)). simpl. by rewrite IH.
Qed.

Lemma index_first_slash a b :
  index_opt a "/" = None -> index_opt (a +:+ String "/" b) "/" = Some (String.length a).
Proof.
  intros H. induction a as [|c a IH].
  - change (EmptyString +:+ String "/" b) with (String "/" b). cbn. by destruct b.
  - apply (index_sep1_cons "/"%char) in H as [Hne H].
    change (String c a +:+ String "/" b) with (String c (a +:+ String "/" b)).
    cbn [index_opt]. rewrite IH by exact H.
    destruct (String.prefix "/" (String c _)) eqn:E; [|done].
    apply (prefix_sep1 "/"%char) in E. done.
Qed.

(** A text with a slash is its first component, the slash and the rest. *)
Lemma split_first_slash s :
  index_opt s "/" <> None ->
  exists a b, s = a +:+ String "/" b /\ index_opt a "/" = None.
Proof.
  induction s as [|c s IH]; [done|]. intros H.
  destruct (Ascii.ascii_dec c "/") as [->|Hne].
  - exists EmptyString, s. done.
  - destruct (index_opt s "/") eqn:E.
    + destruct IH as (a & b & -> & Ha); [done|].
      exists (String c a), b. split; [done|].
      apply (index_sep1_cons "/"%char). split; [congruence|done].
    + exfalso. apply H. apply (index_sep1_cons "/"%char). split; [congruence|done].
Qed.

Lemma normalize_qualified host path :
  host <> "" -> index_opt host "/" = None -> is_registry host = true ->
  normalizeImageRef (host +:+ String "/" path) = host +:+ String "/" path.
Proof.
  intros Hne Hs Hr. unfold normalizeImageRef. rewrite index_first_slash by done.
  destruct (String.length host) as [|n] eqn:E; [by destruct host|].
  rewrite <- E, no_slash_take by done. unfold is_registry in Hr. by rewrite Hr.
Qed.

(** The result of normalisation has a registry host. *)
Lemma normalize_shape ref :
  exists host path, normalizeImageRef ref = host +:+ String "/" path /\ host <> "" /\
    index_opt host "/" = None /\ is_registry host = true.
Proof.
  assert (Hd : exists host path, "docker.io/" +:+ ref = host +:+ String "/" path /\ host <> "" /\
    index_opt host "/" = None /\ is_registry host = true) by (exists "docker.io", ref; done).
  unfold normalizeImageRef. destruct (index_opt ref "/") as [[|i]|] eqn:E; [done| |done].
  destruct (_ || _ || _) eqn:Er; [|done].
  destruct (split_first_slash ref) as (a & b & -> & Ha); [by rewrite E|].
  rewrite index_first_slash in E by done. injection E as E.
  rewrite <- E, no_slash_take in Er by done.
  exists a, b. split_and!; [done|by destruct a|done|done].
Qed.

Lemma rewrite_split host path originalRef reg :
  index_opt host "/" = None ->
  normalizeImageRef (TrimPrefix originalRef "docker://") = host +:+ String "/" path ->
  rewriteImageReference originalRef reg =
    reg +:+ "/" +:+ (if HasSuffix originalRef "/*" then path else last_component path).
Proof.
  intros Hh Hn. unfold rewriteImageReference. rewrite Hn.
  change "/" with (sep1 "/") at 2. rewrite SplitN_2_app by done.
  by destruct (HasSuffix originalRef "/*").
Qed.

Lemma last_component_no_slash path : index_opt (last_component path) "/" = None.
Proof.
  unfold last_component. apply (Split_pieces "/"%char path).
  change (sep1 "/") with "/". assert (H : Split path "/" <> []) by (by apply split_go_nonempty).
  destruct (exists_last H) as (l & x & ->). rewrite List.last_last.
  apply in_or_app. right. by left.
Qed.

(** What follows the last slash. *)
Lemma last_split s :
  index_opt s "/" = None /\ last_component s = s \/
  exists a b, s = a +:+ "/" +:+ b /\ index_opt b "/" = None /\ last_component s = b.
Proof.
  assert (H : index_opt s "/" = None \/ exists a b, s = a +:+ String "/" b /\ index_opt b "/" = None).
  { induction s as [|c s [IH|(a & b & -> & Hb)]]; [by left| |right; by exists (String c a), b].
    destruct (Ascii.ascii_dec "/" c) as [<-|Hne]; [right; by exists EmptyString, s|left].
    by apply (index_sep1_cons "/"%char). }
  destruct H as [H|(a & b & -> & Hb)]; [left|right].
  - split; [done|]. unfold last_component, Split. by rewrite split_go_none.
  - exists a, b. split_and!; [done|done|]. by apply (Split_last_app "/"%char).
Qed.

Lemma normalize_cases r :
  (normalizeImageRef r = r /\ exists host path, r = host +:+ String "/" path /\
     index_opt host "/" = None /\ is_registry host = true) \/
  (normalizeImageRef r = "docker.io/" +:+ r /\
   forall host path, r = host +:+ "/" +:+ path -> host <> "" -> index_opt host "/" = None -> is_registry host = false).
Proof.
  destruct (decide (normalizeImageRef r = r)) as [E|E].
  - left. split; [done|]. destruct (normalize_shape r) as (h & p & En & _ & Hh & Hr). rewrite E in En. eauto.
  - right. split.
    + unfold normalizeImageRef in *. destruct (index_opt r "/") as [[|i]|]; try done. by destruct (_ || _ || _).
    + intros host path -> Hne Hs. destruct (is_registry host) eqn:Er; [|done].
      destruct (E (normalize_qualified host path Hne Hs Er)).
Qed.

Lemma rewrite_relocated ref reg : relocated reg ref (rewriteImageReference ref reg).
Proof.
  destruct (normalize_cases (plainRef ref)) as [[E (h & p & Ep & Hh & Hr)]|[E Hn]].
  - rewrite (rewrite_split h p) by (rewrite <- ?Ep; done).
    destruct (HasSuffix ref "/*") eqn:Es; [by apply (relocated_wildcard reg ref h p)|].
    destruct (last_split p) as [[Hp ->]|(a & b & Eab & Hb & ->)]; apply relocated_image; try done; right.
    + by exists h.
    + exists (h +:+ "/" +:+ a). rewrite Ep, Eab. by rewrite !app_str_assoc.
  - rewrite (rewrite_split "docker.io" (plainRef ref)) by done.
    destruct (HasSuffix ref "/*") eqn:Es; [by apply relocated_short|].
    destruct (last_split (plainRef ref)) as [[Hp ->]|(a & b & Eab & Hb & ->)]; apply relocated_image; try done.
    + by left.
    + right. by exists a.
Qed.

(** ** Properties *)

(** Normalising an image reference twice is normalising it once: a reference that got
    a registry is recognised as having one. *)
Theorem normalizeImageRef_idempotent (ref : string) :
  normalizeImageRef (normalizeImageRef ref) = normalizeImageRef ref.
Proof.
  destruct (normalize_shape ref) as (h & p & -> & H1 & H2 & H3). by apply normalize_qualified.
Qed.

(** Whatever the reference, rewriting puts it under the intermediate registry; a
    specific image becomes one path component (the flat layout of oc-mirror) and a
    wildcard keeps the repository path of the normalised reference. *)
Theorem rewriteImageReference_layout (ref reg : string) :
  exists host path,
    normalizeImageRef (TrimPrefix ref "docker://") = host +:+ "/" +:+ path /\
    index_opt host "/" = None /\ is_registry host = true /\
    (HasSuffix ref "/*" = true -> rewriteImageReference ref reg = reg +:+ "/" +:+ path) /\
    (HasSuffix ref "/*" = false -> exists name,
       rewriteImageReference ref reg = reg +:+ "/" +:+ name /\ index_opt name "/" = None /\
       name = last_component path).
Proof.
  destruct (normalize_shape (TrimPrefix ref "docker://")) as (h & p & E & _ & Hh & Hr).
  exists h, p. split_and!; [done|done|done| |]; intros Hs; rewrite (rewrite_split h p), Hs by done.
  - done.
  - exists (last_component p). split_and!; [done|apply last_component_no_slash|done].
Qed.

(** Rewriting forgets the organisation: two images of one registry that differ only in
    the repository path before the last component become the same reference. *)
Theorem rewriteImageReference_flat (host dir1 dir2 name reg : string) :
  host <> "" -> index_opt host "/" = None -> is_registry host = true ->
  HasPrefix (host +:+ "/" +:+ dir1 +:+ "/" +:+ name) "docker://" = false ->
  HasPrefix (host +:+ "/" +:+ dir2 +:+ "/" +:+ name) "docker://" = false ->
  index_opt name "/" = None -> name <> "*" ->
  rewriteImageReference (host +:+ "/" +:+ dir1 +:+ "/" +:+ name) reg = reg +:+ "/" +:+ name /\
  rewriteImageReference (host +:+ "/" +:+ dir2 +:+ "/" +:+ name) reg = reg +:+ "/" +:+ name.
Proof.
  intros Hne Hh Hr Hp1 Hp2 Hn Hs.
  assert (forall dir, HasPrefix (host +:+ "/" +:+ dir +:+ "/" +:+ name) "docker://" = false ->
    rewriteImageReference (host +:+ "/" +:+ dir +:+ "/" +:+ name) reg = reg +:+ "/" +:+ name); [|auto].
  intros dir Hp. rewrite (rewrite_split host (dir +:+ "/" +:+ name)); [|done|].
  2:{ unfold TrimPrefix. rewrite Hp. by apply normalize_qualified. }
  assert (Hlast : last_component (dir +:+ "/" +:+ name) = name) by (by apply (Split_last_app "/"%char)).
  rewrite Hlast. destruct (HasSuffix _ "/*") eqn:E; [|done]. exfalso.
  apply HasSuffix_inv in E as [t E]. apply Hs. rewrite <- Hlast.
  assert (last_component (host +:+ "/" +:+ dir +:+ "/" +:+ name) = "*") as H.
  { rewrite E. by apply (Split_last_app "/"%char t). }
  rewrite <- H, Hlast. symmetry.
  replace (host +:+ "/" +:+ dir +:+ "/" +:+ name) with ((host +:+ "/" +:+ dir) +:+ "/" +:+ name)
    by (by rewrite !app_str_assoc).
  by apply (Split_last_app "/"%char).
Qed.

Lemma rewriteImageReference_flat_witness :
  rewriteImageReference "quay.io/team-a/app:1" "reg/mirror" = "reg/mirror/app:1" /\
  rewriteImageReference "quay.io/team-b/app:1" "reg/mirror" = "reg/mirror/app:1".
Proof. apply (rewriteImageReference_flat "quay.io" "team-a" "team-b" "app:1"); done. Defined.

Lemma addMirrorOperator_None ms ref ops :
  addMirrorOperator ms ref ops = None ->
  exists op, In op ops /\ ms op = true /\ hasMirrorOperator op = true.
Proof.
  induction ops as [|op ops IH]; simpl; [done|].
  destruct (ms op) eqn:Em.
  - destruct (hasMirrorOperator op) eqn:Eh; [|done]. intros _. exists op. auto.
  - destruct (addMirrorOperator ms ref ops); [done|]. intros _.
    destruct IH as (o & ? & ? & ?); [done|]. exists o. auto.
Qed.

(** The operators before and after: one appended catalog, or one extended in place. *)
Lemma addMirrorOperator_Some ms ref ops ops' :
  addMirrorOperator ms ref ops = Some ops' ->
  (ops' = snoc ops (mkIscOperatorConfig ref [mirrorOperatorPkg]) /\
   forall op, In op ops -> ms op = false) \/
  (exists l1 op l2, ops = l1 ++ op :: l2 /\ ms op = true /\ hasMirrorOperator op = false /\
     ops' = l1 ++ mkIscOperatorConfig (opc_Catalog op) (snoc (opc_Packages op) mirrorOperatorPkg) :: l2).
Proof.
  revert ops'; induction ops as [|op ops IH]; simpl; intros ops' H.
  - injection H as <-. by left.
  - destruct (ms op) eqn:Em.
    + destruct (hasMirrorOperator op) eqn:Eh; [done|]. injection H as <-.
      right. exists [], op, ops. done.
    + destruct (addMirrorOperator ms ref ops) as [r|]; [|done]. injection H as <-.
      destruct (IH r eq_refl) as [[-> Hn]|(l1 & o & l2 & -> & ? & ? & ->)].
      * left. split; [done|]. intros o [<-|Ho]; auto.
      * right. exists (op :: l1), o, l2. done.
Qed.

Lemma hasMirrorOperator_added cat pkgs :
  hasMirrorOperator (mkIscOperatorConfig cat (snoc pkgs mirrorOperatorPkg)) = true.
Proof. unfold hasMirrorOperator. simpl. rewrite existsb_app. apply orb_true_r. Qed.

Lemma addImages_spec existing images cur :
  exists added, addImages existing images cur = cur ++ map mkImageConfig added /\
    (forall i, In i added -> In i images /\ i <> "" /\ ~ In i existing) /\
    (forall i, In i images -> i <> "" -> In i existing \/ In i added).
Proof.
  revert cur; induction images as [|i images IH]; simpl; intros cur.
  - exists []. rewrite app_nil_r. naive_solver.
  - destruct ((i != "") && negb (containsString existing i)) eqn:E.
    + apply andb_true_iff in E as [E1 E2]. str_eq. apply containsString_false in E2.
      destruct (IH (snoc cur (mkImageConfig i))) as (a & -> & H1 & H2).
      exists (i :: a). rewrite <- app_assoc. naive_solver.
    + destruct (IH cur) as (a & -> & H1 & H2). exists a.
      split_and!; [done|naive_solver|]. intros j [<-|Hj] Hne; [|auto].
      rewrite (str_eqb_ne _ _ Hne) in E. simpl in E. str_eq. left. by apply containsString_In.
Qed.

Section Enrich.
Context {X : Externals} {Y : IscYaml} `{!IscYamlLaws Y}.

(** The marshaller accepts every configuration. *)
Definition marshal_total : Prop := forall c, exists t, yaml_Marshal_ISC c = Ok t.

(** C39: The intermediate configuration of a parseable one.  Each catalog and each additional
    image is relocated to the intermediate registry, in the same order and with the same packages:
    an image keeps its name, tag and digest and loses its path, a wildcard keeps its path.  The
    kind, the version, the platform section and the Helm section are kept as they were, so that
    Helm repositories still name their original addresses. *)
Theorem generateIntermediateImageSetConfig_closed (pipeline : CollectionPipeline) (reg out : string)
    (H : generateIntermediateImageSetConfig pipeline reg = Ok out) :
  exists c c', yaml_Unmarshal_ISC (cps_ImageSetConfig (cp_Spec pipeline)) = Ok c /\
    yaml_Unmarshal_ISC out = Ok c' /\
    Forall2 (fun op op' => relocated reg (opc_Catalog op) (opc_Catalog op') /\ opc_Packages op' = opc_Packages op)
      (icm_Operators (isc_Mirror c)) (icm_Operators (isc_Mirror c')) /\
    Forall2 (fun img img' => relocated reg (imc_Name img) (imc_Name img'))
      (icm_AdditionalImages (isc_Mirror c)) (icm_AdditionalImages (isc_Mirror c')) /\
    isc_Kind c' = isc_Kind c /\ isc_APIVersion c' = isc_APIVersion c /\
    icm_Platform (isc_Mirror c') = icm_Platform (isc_Mirror c) /\
    icm_Helm (isc_Mirror c') = icm_Helm (isc_Mirror c).
Proof.
  unfold generateIntermediateImageSetConfig in H.
  destruct (yaml_Unmarshal_ISC (cps_ImageSetConfig _)) as [c|e]; [|done].
  destruct (yaml_Marshal_ISC _) as [t|e] eqn:E; [|done]. injection H as <-.
  exists c, (intermediateConfig reg c). rewrite (yaml_ISC_roundtrip _ _ E).
  split_and!; try done; simpl; apply Forall2_fmap_r, Forall_Forall2_diag, Forall_true; intros x;
    [split; [|done]|]; apply rewrite_relocated.
Qed.

(** When a catalog is known for the version, the configuration that comes out names
    the mirror-operator package in a matching catalog, and the operators that were
    configured are kept in order, at most one of them gaining that package. *)
Theorem injectMirrorOperator_ensures (configYAML ov ref : string) (c : ImageSetConfiguration) :
  marshal_total ->
  yaml_Unmarshal_ISC configYAML = Ok c ->
  mirrorOperatorCatalogRef configYAML ov = Some ref ->
  exists c', yaml_Unmarshal_ISC (injectMirrorOperator configYAML ov) = Ok c' /\
    (exists op, In op (icm_Operators (isc_Mirror c')) /\ catalogMatches ref ov op = true /\
       hasMirrorOperator op = true) /\
    (exists extra, map opc_Catalog (icm_Operators (isc_Mirror c')) =
       map opc_Catalog (icm_Operators (isc_Mirror c)) ++ extra) /\
    (forall op, In op (icm_Operators (isc_Mirror c)) ->
       exists op' added, In op' (icm_Operators (isc_Mirror c')) /\ opc_Catalog op' = opc_Catalog op /\
         opc_Packages op' = opc_Packages op ++ added) /\
    icm_AdditionalImages (isc_Mirror c') = icm_AdditionalImages (isc_Mirror c) /\
    icm_Platform (isc_Mirror c') = icm_Platform (isc_Mirror c).
Proof.
  intros Hm Hc Hr. unfold injectMirrorOperator. rewrite Hc, Hr.
  destruct (addMirrorOperator _ _ _) as [ops|] eqn:Ea.
  2:{ exists c. apply addMirrorOperator_None in Ea. split_and!; try done.
      - exists []. by rewrite app_nil_r.
      - intros op Hop. exists op, []. by rewrite app_nil_r. }
  destruct (Hm (c <| isc_Mirror ::= fun m => m <| icm_Operators := ops |> |>)) as [t Ht].
  rewrite Ht. apply yaml_ISC_roundtrip in Ht. rewrite Ht. eexists. split; [done|]. simpl.
  assert (Hnew : catalogMatches ref ov (mkIscOperatorConfig ref [mirrorOperatorPkg]) = true).
  { unfold catalogMatches. simpl. by rewrite str_eqb_refl. }
  apply addMirrorOperator_Some in Ea as [[-> _]|(l1 & o & l2 & -> & Ho & _ & ->)]; split_and!; try done.
  - exists (mkIscOperatorConfig ref [mirrorOperatorPkg]). split_and!; [|done|done].
    apply in_or_app. right. by left.
  - rewrite map_app. eauto.
  - intros op Hop. exists op, []. rewrite app_nil_r. split_and!; [|done|done].
    apply in_or_app. by left.
  - eexists. split_and!; [apply in_or_app; right; by left|exact Ho|apply hasMirrorOperator_added].
  - exists []. by rewrite app_nil_r, !map_app.
  - intros op [Hop|[<-|Hop]]%in_app_or.
    + exists op, []. rewrite app_nil_r. split_and!; [|done|done]. apply in_or_app. by left.
    + eexists _, _. split_and!; [apply in_or_app; right; by left|done|done].
    + exists op, []. rewrite app_nil_r. split_and!; [|done|done]. apply in_or_app. right. by right.
Qed.

(** Without an override nothing is injected for a version below 4.18, and for a
    version that is not [major.minor]. *)
Theorem injectMirrorOperator_version_gate (configYAML : string) :
  match SplitN (extractOCPVersion configYAML) "." 2 with
  | [_; minor] => match Atoi minor with Some n => (n < 18)%Z | None => True end
  | _ => True
  end ->
  injectMirrorOperator configYAML "" = configYAML.
Proof.
  intros H. unfold injectMirrorOperator, mirrorOperatorCatalogRef. simpl.
  destruct (yaml_Unmarshal_ISC configYAML); [|done].
  destruct (SplitN _ "." 2) as [|p [|q [|]]]; try done.
  destruct (Atoi q) as [n|]; [|done]. by apply Z.ltb_lt in H as ->.
Qed.

(** With the Architect enabled, both Architect images are in the configuration that
    comes out and the configured images are a prefix of its images. *)
Theorem injectArchitectImages_ensures (platform : DisconnectedPlatform) (a : AirgapArchitectConfig)
    (configYAML : string) (c : ImageSetConfiguration) :
  marshal_total ->
  dps_Architect (dp_Spec platform) = Some a -> aac_Enabled a = true -> consolePluginOnly a = false ->
  yaml_Unmarshal_ISC configYAML = Ok c ->
  exists c' added, yaml_Unmarshal_ISC (injectArchitectImagesFor platform configYAML) = Ok c' /\
    icm_AdditionalImages (isc_Mirror c') =
      icm_AdditionalImages (isc_Mirror c) ++ map mkImageConfig added /\
    (forall i, In i (architectImages a) -> i <> "" ->
       In i (map imc_Name (icm_AdditionalImages (isc_Mirror c')))) /\
    (forall i, In i added -> In i (architectImages a) /\
       ~ In i (map imc_Name (icm_AdditionalImages (isc_Mirror c)))) /\
    icm_Operators (isc_Mirror c') = icm_Operators (isc_Mirror c).
Proof.
  intros Hm Ha He Hcp Hc. unfold injectArchitectImagesFor. rewrite Ha, He, Hcp, Hc. cbn [negb].
  destruct (addImages_spec (map imc_Name (icm_AdditionalImages (isc_Mirror c))) (architectImages a)
              (icm_AdditionalImages (isc_Mirror c))) as (added & -> & H1 & H2).
  destruct (Hm (c <| isc_Mirror ::= fun m => m <| icm_AdditionalImages :=
    icm_AdditionalImages (isc_Mirror c) ++ map mkImageConfig added |> |>)) as [t Ht].
  rewrite Ht. apply yaml_ISC_roundtrip in Ht. rewrite Ht. do 2 eexists. simpl.
  split_and!; [done|done| |intros i Hi; destruct (H1 i Hi) as (? & ? & ?); done|done].
  intros i Hi Hne. simpl. rewrite map_app, in_app_iff, map_map. simpl. rewrite map_id. auto.
Qed.

(** On a text that is not an ImageSetConfiguration the mirror-operator and Architect
    enrichments return the text as it is; the RHCOS enrichment returns the empty text and an
    error, and it is the empty text that goes on to the ConfigMap. *)
Theorem enrichments_unparseable (platform : DisconnectedPlatform) (connected : ConnectedConfig)
    (configYAML ov reg : string) (e : error) :
  yaml_Unmarshal_ISC configYAML = Err e ->
  dps_Connected (dp_Spec platform) = Some connected -> rhcosEnabled connected = true -> reg <> "" ->
  injectMirrorOperator configYAML ov = configYAML /\
  injectArchitectImagesFor platform configYAML = configYAML /\
  injectRHCOSServerImageFor platform configYAML reg =
    ("", Some (Wrapf "failed to parse ImageSetConfiguration" e)).
Proof.
  intros He Hc Hr Hreg.
  unfold injectMirrorOperator, injectArchitectImagesFor, injectRHCOSServerImageFor.
  rewrite He, Hc, Hr, (str_eqb_ne _ _ Hreg). simpl.
  destruct (dps_Architect _) as [a|]; [|done]. by destruct (aac_Enabled a), (consolePluginOnly a).
Qed.

(** For a parseable configuration the RHCOS enrichment succeeds, the images that were there are
    kept in order, and an RHCOS server image of the intermediate registry is among them;
    one is added only when there was none. *)
Theorem injectRHCOSServerImage_ensures (platform : DisconnectedPlatform) (connected : ConnectedConfig)
    (configYAML reg : string) (c : ImageSetConfiguration) :
  marshal_total -> yaml_Unmarshal_ISC configYAML = Ok c ->
  dps_Connected (dp_Spec platform) = Some connected -> rhcosEnabled connected = true -> reg <> "" ->
  exists out c' added, injectRHCOSServerImageFor platform configYAML reg = (out, None) /\
    yaml_Unmarshal_ISC out = Ok c' /\
    icm_AdditionalImages (isc_Mirror c') = icm_AdditionalImages (isc_Mirror c) ++ added /\
    (exists img, In img (icm_AdditionalImages (isc_Mirror c')) /\
       HasPrefix (imc_Name img) (reg +:+ "/rhcos-server:") = true) /\
    ((exists img, In img (icm_AdditionalImages (isc_Mirror c)) /\
       HasPrefix (imc_Name img) (reg +:+ "/rhcos-server:") = true) -> added = []) /\
    (length added <= 1)%nat.
Proof.
  intros Hm Hc Hp Hr Hreg. unfold injectRHCOSServerImageFor.
  rewrite Hp, Hr, (str_eqb_ne _ _ Hreg), Hc. cbn [negb].
  set (imgs := icm_AdditionalImages (isc_Mirror c)).
  set (found := existsb _ imgs).
  set (new := mkImageConfig (reg +:+ "/rhcos-server:" +:+ extractOCPVersion configYAML)).
  set (c' := c <| isc_Mirror ::= fun m => m <| icm_AdditionalImages := if found then imgs else snoc imgs new |> |>).
  destruct (Hm c') as [t Ht]. rewrite Ht. apply yaml_ISC_roundtrip in Ht.
  exists t, c', (if found then [] else [new]). split_and!; [done|done| | | |destruct found; simpl; lia].
  - simpl. destruct found; [by rewrite app_nil_r|done].
  - assert (Himgs : icm_AdditionalImages (isc_Mirror c') = if found then imgs else snoc imgs new) by done.
    rewrite Himgs. destruct found eqn:E.
    + apply existsb_exists in E as (img & Hin & Himg). by exists img.
    + exists new. split; [apply in_or_app; right; by left|].
      unfold new. simpl. rewrite <- app_str_assoc. apply HasPrefix_app.
  - intros (img & Hin & Himg). replace found with true; [done|]. symmetry.
    apply existsb_exists. eauto.
Qed.
End Enrich.

(** ** Worked examples *)

#[local] Existing Instance sampleX.
#[local] Existing Instance sampleYaml.

Lemma sampleIsc_parses : yaml_Unmarshal_ISC sampleIscText = Ok sampleIsc.
Proof. apply yaml_ISC_roundtrip. reflexivity. Qed.

Lemma sample_marshal_total : marshal_total.
Proof. intros c. eexists. reflexivity. Qed.

Definition samplePipe : CollectionPipeline := samplePipeline "weekly" sampleSpec status0 [].
Definition intermediateText : string :=
  string_of_pos (countable.encode (intermediateConfig "quay.local/mirror" sampleIsc)).

Lemma generateIntermediateImageSetConfig_closed_witness :
  map imc_Name (icm_AdditionalImages (isc_Mirror (intermediateConfig "quay.local/mirror" sampleIsc))) =
    ["quay.local/mirror/ubi:latest"] /\
  exists c c', yaml_Unmarshal_ISC sampleIscText = Ok c /\ yaml_Unmarshal_ISC intermediateText = Ok c' /\
    Forall2 (fun img img' => relocated "quay.local/mirror" (imc_Name img) (imc_Name img'))
      (icm_AdditionalImages (isc_Mirror c)) (icm_AdditionalImages (isc_Mirror c')).
Proof.
  split; [vm_compute; reflexivity|].
  destruct (generateIntermediateImageSetConfig_closed samplePipe "quay.local/mirror" intermediateText)
    as (c & c' & H1 & H2 & _ & H3 & _).
  - unfold generateIntermediateImageSetConfig.
    change (cps_ImageSetConfig (cp_Spec samplePipe)) with sampleIscText. by rewrite sampleIsc_parses.
  - exists c, c'. auto.
Defined.

Definition sampleCatalog : string := "registry.redhat.io/redhat/community-operator-index:v4.18".

Lemma sample_catalog : mirrorOperatorCatalogRef sampleIscText "" = Some sampleCatalog.
Proof. vm_compute. reflexivity. Qed.

Lemma injectMirrorOperator_ensures_witness :
  exists c', yaml_Unmarshal_ISC (injectMirrorOperator sampleIscText "") = Ok c' /\
    (exists op, In op (icm_Operators (isc_Mirror c')) /\ catalogMatches sampleCatalog "" op = true /\
       hasMirrorOperator op = true) /\
    (exists extra, map opc_Catalog (icm_Operators (isc_Mirror c')) =
       map opc_Catalog (icm_Operators (isc_Mirror sampleIsc)) ++ extra) /\
    (forall op, In op (icm_Operators (isc_Mirror sampleIsc)) ->
       exists op' added, In op' (icm_Operators (isc_Mirror c')) /\ opc_Catalog op' = opc_Catalog op /\
         opc_Packages op' = opc_Packages op ++ added) /\
    icm_AdditionalImages (isc_Mirror c') = icm_AdditionalImages (isc_Mirror sampleIsc) /\
    icm_Platform (isc_Mirror c') = icm_Platform (isc_Mirror sampleIsc).
Proof.
  apply (injectMirrorOperator_ensures sampleIscText "" sampleCatalog sampleIsc);
    [apply sample_marshal_total|apply sampleIsc_parses|apply sample_catalog].
Defined.

Lemma injectMirrorOperator_version_gate_witness : injectMirrorOperator "text" "" = "text".
Proof. apply injectMirrorOperator_version_gate. vm_compute. exact I. Defined.

Definition sampleArchitect : AirgapArchitectConfig :=
  mkAirgapArchitectConfig true "quay.io/me/frontend:1" "" None 1%Z None None None.
Definition sampleConnected : ConnectedConfig :=
  mkConnectedConfig "" "" (mkArtifactStorageConfig "" "") [] None None None None None None "".
Definition samplePlatform : DisconnectedPlatform :=
  mkDisconnectedPlatform (mkTypeMeta "" "") (sampleMeta "" "platform")
    (mkDisconnectedPlatformSpec "connected" (Some sampleConnected) None (Some sampleArchitect) None)
    (mkDisconnectedPlatformStatus "" [] None [] None [] [] None).

Lemma injectArchitectImages_ensures_witness :
  exists c' added, yaml_Unmarshal_ISC (injectArchitectImagesFor samplePlatform sampleIscText) = Ok c' /\
    icm_AdditionalImages (isc_Mirror c') =
      icm_AdditionalImages (isc_Mirror sampleIsc) ++ map mkImageConfig added /\
    (forall i, In i (architectImages sampleArchitect) -> i <> "" ->
       In i (map imc_Name (icm_AdditionalImages (isc_Mirror c')))) /\
    (forall i, In i added -> In i (architectImages sampleArchitect) /\
       ~ In i (map imc_Name (icm_AdditionalImages (isc_Mirror sampleIsc)))) /\
    icm_Operators (isc_Mirror c') = icm_Operators (isc_Mirror sampleIsc).
Proof.
  apply (injectArchitectImages_ensures samplePlatform sampleArchitect sampleIscText sampleIsc);
    [apply sample_marshal_total|reflexivity..|apply sampleIsc_parses].
Defined.

Lemma enrichments_unparseable_witness :
  injectMirrorOperator "not yaml" "" = "not yaml" /\
  injectArchitectImagesFor samplePlatform "not yaml" = "not yaml" /\
  injectRHCOSServerImageFor samplePlatform "not yaml" "quay.local/mirror" =
    ("", Some (Wrapf "failed to parse ImageSetConfiguration" (Errorf "yaml: cannot unmarshal"))).
Proof. by apply (enrichments_unparseable samplePlatform sampleConnected). Defined.

Lemma injectRHCOSServerImage_ensures_witness :
  exists out c' added,
    injectRHCOSServerImageFor samplePlatform sampleIscText "quay.local/mirror" = (out, None) /\
    yaml_Unmarshal_ISC out = Ok c' /\
    icm_AdditionalImages (isc_Mirror c') = icm_AdditionalImages (isc_Mirror sampleIsc) ++ added /\
    (exists img, In img (icm_AdditionalImages (isc_Mirror c')) /\
       HasPrefix (imc_Name img) ("quay.local/mirror" +:+ "/rhcos-server:") = true) /\
    ((exists img, In img (icm_AdditionalImages (isc_Mirror sampleIsc)) /\
       HasPrefix (imc_Name img) ("quay.local/mirror" +:+ "/rhcos-server:") = true) -> added = []) /\
    (length added <= 1)%nat.
Proof.
  apply (injectRHCOSServerImage_ensures samplePlatform sampleConnected sampleIscText "quay.local/mirror" sampleIsc);
    [apply sample_marshal_total|apply sampleIsc_parses|reflexivity|reflexivity|done].
Defined.
