(* ===== verification/CollectionBuild.v ===== *)
(** The PipelineRun a collection runs as: [buildPipelineRun] of
    [collectionpipeline_controller.go] and the look-ups it is built from.  The Go
    function is one sequence of appends to [params] and [workspaces]; each group of
    appends is a definition here, and [buildPipelineRun] concatenates them in the
    order of the code, with the look-ups in between. *)
From S2P Require Import Prelude GoStrings K8s Api Kube Externals Helpers ImageSet.

Definition pipelineFinalizer : string := "mirror.mathianasj.github.com/pipeline-finalizer".
Definition configMapKey : string := "imageset-config.yaml".

(** The reconciler's configuration. *)
Record CollectionPipelineReconciler := mkCollectionReconciler { cpr_MirrorImage : string }.

Definition gvkRoute := mkGVK "route.openshift.io" "v1" "Route".
Definition gvkTPA := mkGVK "rhtpa.io" "v1" "TrustedProfileAnalyzer".
Definition gvkKubeIngress := mkGVK "networking.k8s.io" "v1" "Ingress".
Definition gvkCollectionPipeline := mkGVK (fst GroupVersion) (snd GroupVersion) "CollectionPipeline".

Definition cp_Name (p : CollectionPipeline) : string := om_Name (cp_ObjectMeta p).
Definition cp_Namespace (p : CollectionPipeline) : string := om_Namespace (cp_ObjectMeta p).

Definition strParam (name v : string) : Param := mkParam name v.

(** ** The platform *)

(** [findPlatform]: the first DisconnectedPlatform of the cluster, if any. *)
Definition findPlatform : prog (result (option DisconnectedPlatform)) :=
  r ← List_ KDisconnectedPlatform None [];
  mret (match r with
        | Err e => Err e
        | Ok [] => Ok None
        | Ok (p :: _) => Ok (Some p)
        end).

Definition connectedOf (platform : option DisconnectedPlatform) : option ConnectedConfig :=
  platform ≫= (fun p => dps_Connected (dp_Spec p)).

(** [platform.Spec.Connected.Quay.Managed], when it is there and enabled. *)
Definition managedQuay (platform : option DisconnectedPlatform) : option ManagedQuayConfig :=
  c ← connectedOf platform;
  q ← cc_Quay c;
  m ← qic_Managed q;
  if mqc_Enabled m then Some m else None.

Section Build.
Context {X : Externals}.

Definition defaultMirrorImage : string :=
  envOrDefault "RELATED_IMAGE_OC_MIRROR" "quay.io/mathianasj/oc-mirror:v2".

Definition getMirrorImage (r : CollectionPipelineReconciler) : string :=
  if cpr_MirrorImage r != "" then cpr_MirrorImage r else defaultMirrorImage.

Definition getClusterDomain : prog string :=
  r ← Get (KUnstructured gvkIngress) (clusterKey "cluster");
  match r with
  | Err _ => mret "cluster.example.com"
  | Ok ingress =>
      match NestedString (u_Object ingress) ["spec"; "domain"] with
      | (domain, true, None) => mret domain
      | _ => mret "cluster.example.com"
      end
  end.

Definition intermediateRegistryOf (namespace_ domain organization : string) : string :=
  "mirror-operator-quay-quay-" +:+ namespace_ +:+ "." +:+ domain +:+ "/" +:+ organization.

Definition getIntermediateRegistry (pipeline : CollectionPipeline) : prog string :=
  r ← findPlatform;
  match r with
  | Err _ | Ok None => mret ""
  | Ok platform =>
      match managedQuay platform with
      | None => mret ""
      | Some q =>
          domain ← getClusterDomain;
          mret (intermediateRegistryOf (cp_Namespace pipeline) domain (mqc_OrganizationName q))
      end
  end.

(** The host of the first rule of an Ingress. *)
Definition ingressHost (ingress : Unstructured) : option string :=
  match NestedSlice (u_Object ingress) ["spec"; "rules"] with
  | (rule0 :: _, true, _) => rule ← as_map rule0; as_string (jget rule "host")
  | _ => None
  end.

(** The loop over the owners of one Ingress: every owner with the UID sets the host
    until a rule yields one. *)
Fixpoint ownersHost (uid : string) (ingress : Unstructured) (owners : list OwnerReference)
  : string :=
  match owners with
  | [] => ""
  | owner :: rest =>
      if or_UID owner == uid then
        match ingressHost ingress with
        | Some host => host
        | None => ownersHost uid ingress rest
        end
      else ownersHost uid ingress rest
  end.

Fixpoint ingressesHost (uid : string) (ingresses : list Unstructured) : string :=
  match ingresses with
  | [] => ""
  | i :: rest =>
      let host := ownersHost uid i (om_OwnerReferences (u_Meta i)) in
      if host != "" then host else ingressesHost uid rest
  end.

Definition getTPAAndKeycloakHosts : prog (string * string * string) :=
  r ← List_ (KUnstructured gvkTPA) None [];
  match r with
  | Err _ | Ok [] => mret ("", "", "")
  | Ok (tpa :: _) =>
      ri ← List_ (KUnstructured gvkKubeIngress) (Some (om_Namespace (u_Meta tpa))) [];
      match ri with
      | Err _ => mret ("", "", "")
      | Ok ingresses =>
          let tpaHostname := ingressesHost (om_UID (u_Meta tpa)) ingresses in
          if tpaHostname == "" then mret ("", "", "")
          else
            match NestedString (u_Object tpa) ["spec"; "oidc"; "issuerUrl"] with
            | (oidcIssuer, true, None) =>
                if oidcIssuer == "" then mret (tpaHostname, "", "")
                else mret (tpaHostname, oidcIssuer, "cli")
            | _ => mret (tpaHostname, "", "")
            end
      end
  end.

(** ** The working volume's name *)

Definition storageName (name : string) : string := "collection-storage-" +:+ name.

(** The name derived from the specification alone. *)
Definition specPVCName (pipeline : CollectionPipeline) : string :=
  let s := cp_Spec pipeline in
  if cps_ParentPipeline s != "" then storageName (cps_ParentPipeline s)
  else if cps_Incremental s && (cps_BaseVersion s != "") then storageName (cps_BaseVersion s)
  else storageName (cp_Name pipeline).

(** The name used at run time: a parent's recorded name has precedence. *)
Definition derivePVCName (pipeline : CollectionPipeline) : prog (result string) :=
  let s := cp_Spec pipeline in
  if cps_ParentPipeline s != "" then
    r ← Get KCollectionPipeline (mkNN (cp_Namespace pipeline) (cps_ParentPipeline s));
    match r with
    | Err e => mret (Err (Wrapf "failed to get parent pipeline for PVC lookup" e))
    | Ok parent =>
        if cpst_WorkingPVCName (cp_Status parent) != ""
        then mret (Ok (cpst_WorkingPVCName (cp_Status parent)))
        else mret (Ok (storageName (cps_ParentPipeline s)))
    end
  else if cps_Incremental s && (cps_BaseVersion s != "") then
    mret (Ok (storageName (cps_BaseVersion s)))
  else mret (Ok (storageName (cp_Name pipeline))).

Definition workingPVCNameOf (pipeline : CollectionPipeline) : prog (result string) :=
  if cpst_WorkingPVCName (cp_Status pipeline) != ""
  then mret (Ok (cpst_WorkingPVCName (cp_Status pipeline)))
  else derivePVCName pipeline.

(** ** Parameters *)

Definition baseParams (r : CollectionPipelineReconciler) (pipeline : CollectionPipeline)
    (cm : ConfigMap) (workingPVCName : string) : list Param :=
  [ strParam "config-map-name" (om_Name (cm_Meta cm));
    strParam "mirror-image" (getMirrorImage r);
    strParam "working-pvc-name" workingPVCName;
    strParam "collection-name" (cp_Name pipeline);
    strParam "parent-pipeline" (cps_ParentPipeline (cp_Spec pipeline)) ].

Definition intermediateRegistryFor (platform : option DisconnectedPlatform)
    (pipeline : CollectionPipeline) : prog string :=
  match managedQuay platform with
  | None => mret ""
  | Some q =>
      domain ← getClusterDomain;
      mret (intermediateRegistryOf (cp_Namespace pipeline) domain (mqc_OrganizationName q))
  end.

Definition keylessOf (pipeline : CollectionPipeline) : option KeylessSigningConfig :=
  cps_Signing (cp_Spec pipeline) ≫= csc_Keyless.

Definition signingParams (pipeline : CollectionPipeline) : list Param :=
  let k := keylessOf pipeline in
  let field (f : KeylessSigningConfig -> string) := match k with Some k => f k | None => "" end in
  [ strParam "has-keyless-signing" (match k with Some _ => "true" | None => "false" end);
    strParam "fulcio-url" (field ksc_FulcioURL);
    strParam "rekor-url" (field ksc_RekorURL);
    strParam "tuf-url" (field ksc_TUFURL);
    strParam "oidc-issuer" (field ksc_OIDCIssuer);
    strParam "oidc-client-id" (field ksc_OIDCClientID) ].

(** [hasTPA] and the three TPA values. *)
Definition tpaLookup (platform : option DisconnectedPlatform)
  : prog (bool * (string * string * string)) :=
  match connectedOf platform ≫= cc_RHTPA with
  | None => mret (false, ("", "", ""))
  | Some _ =>
      hosts ← getTPAAndKeycloakHosts;
      let '(host, _, _) := hosts in
      mret (host != "", hosts)
  end.

Definition boolParam (b : bool) : string := if b then "true" else "false".

Definition tpaParams (tpa : bool * (string * string * string)) : list Param :=
  let '(hasTPA, (host, issuer, clientID)) := tpa in
  [ strParam "has-tpa" (boolParam hasTPA);
    strParam "tpa-host" host;
    strParam "tpa-oidc-issuer" issuer;
    strParam "tpa-oidc-client-id" clientID ].

(** The scheme the AWS client requires. *)
Definition withScheme (endpoint : string) : string :=
  if (endpoint != "") && negb (HasPrefix endpoint "http://") && negb (HasPrefix endpoint "https://")
  then "http://" +:+ endpoint else endpoint.

Definition s3Lookup (pipeline : CollectionPipeline) : prog (string * string * string * string) :=
  r ← Get KConfigMap (mkNN (cp_Namespace pipeline) "collection-artifacts");
  match r with
  | Err _ => mret ("", "", "", "")
  | Ok obc =>
      let region := map_get (cm_Data obc) "BUCKET_REGION" in
      mret (map_get (cm_Data obc) "BUCKET_NAME",
            withScheme (map_get (cm_Data obc) "BUCKET_HOST"),
            (if region == "" then "us-east-1" else region),
            "collection-artifacts")
  end.

Definition s3Params (s3 : string * string * string * string) : list Param :=
  let '(bucket, endpoint, region, secretName) := s3 in
  [ strParam "has-s3" (boolParam (bucket != ""));
    strParam "s3-bucket" bucket;
    strParam "s3-endpoint" endpoint;
    strParam "s3-region" region;
    strParam "s3-secret-name" secretName ].

Definition architectParamsOf (found : result (option DisconnectedPlatform)) : list Param :=
  let architect :=
    match found with
    | Ok (Some platform) => dps_Architect (dp_Spec platform)
    | _ => None
    end in
  match architect with
  | None =>
      [ strParam "architect-frontend-image" defaultFrontendImage;
        strParam "architect-backend-image" defaultBackendImage;
        strParam "architect-export-enabled" "true" ]
  | Some a =>
      [ strParam "architect-frontend-image"
          (if aac_FrontendImage a != "" then aac_FrontendImage a else defaultFrontendImage);
        strParam "architect-backend-image"
          (if aac_BackendImage a != "" then aac_BackendImage a else defaultBackendImage);
        strParam "architect-export-enabled" (if consolePluginOnly a then "false" else "true") ]
  end.

(** The version the CLI tools are downloaded for. *)
Definition ocVersionOf (configYAML : string) : string :=
  match yaml_Unmarshal_map configYAML with
  | Err _ => "latest"
  | Ok isc =>
      match firstChannel isc with
      | None => "latest"
      | Some channel =>
          match as_string (jget channel "minVersion") with
          | Some ((String _ _) as minVersion) => minVersion
          | _ => default "latest" (as_string (jget channel "name"))
          end
      end
  end.

Definition cliParams (pipeline : CollectionPipeline) : list Param :=
  [ strParam "oc-version" (ocVersionOf (cps_ImageSetConfig (cp_Spec pipeline)));
    strParam "mirror-registry-version" "latest";
    strParam "cli-tools-enabled" "true" ].

Definition proxyParams (proxy : string * string * string) : list Param :=
  let '(httpProxy, httpsProxy, noProxy) := proxy in
  [ strParam "http-proxy" httpProxy;
    strParam "https-proxy" httpsProxy;
    strParam "no-proxy" noProxy ].

Definition rhcosParams (platform : option DisconnectedPlatform) : list Param :=
  let rc := connectedOf platform ≫= cc_RHCOSCollection in
  [ strParam "rhcos-download-enabled"
      (match rc with Some rc => boolParam (rhc_Enabled rc) | None => "true" end);
    strParam "rhcos-server-base-image"
      (match rc with
       | Some rc => if rhc_ServerBaseImage rc != "" then rhc_ServerBaseImage rc
                    else "registry.access.redhat.com/ubi9/nginx-122:latest"
       | None => "registry.access.redhat.com/ubi9/nginx-122:latest"
       end) ].

Definition osusParams (platform : option DisconnectedPlatform) : list Param :=
  let osus := c ← connectedOf platform; o ← cc_Operators c; ocf_OSUS o in
  [ strParam "osus-enabled"
      (match osus with
       | Some o => boolParam (negb (olm_Disabled o))
       | None => "true"
       end) ].

(** ** Workspaces *)

Definition baseWorkspaces (cm : ConfigMap) (workingPVCName : string) : list WorkspaceBinding :=
  [ mkWorkspace "config" (WsConfigMap (om_Name (cm_Meta cm)) None);
    mkWorkspace "pull-secret" (WsSecret "pull-secret");
    mkWorkspace "output" (WsPVC workingPVCName) ].

Definition oidcWorkspace (pipeline : CollectionPipeline) : list WorkspaceBinding :=
  match keylessOf pipeline ≫= ksc_OIDCClientSecret with
  | Some ref => [mkWorkspace "oidc-secret" (WsSecret (lor_Name ref))]
  | None => []
  end.

Definition tpaWorkspace (hasTPA : bool) : list WorkspaceBinding :=
  if hasTPA then [mkWorkspace "tpa-oidc-secret" (WsSecret "rhtpa-oidc-cli-secret")] else [].

Definition cosignWorkspace (pipeline : CollectionPipeline) : list WorkspaceBinding :=
  match cps_Signing (cp_Spec pipeline) ≫= csc_KeySecretRef with
  | Some ref => [mkWorkspace "cosign-key" (WsSecret (lor_Name ref))]
  | None => []
  end.

Definition finalWorkspaces : list WorkspaceBinding :=
  [ mkWorkspace "architect-script" (WsConfigMap "airgap-architect-import-script" None);
    mkWorkspace "cluster-ca-bundle" (WsConfigMap clusterCABundleName (Some true)) ].

(** ** The PipelineRun *)

Definition collectionTimeout (pipeline : CollectionPipeline) : Duration :=
  default (12 * Hour)%Z (cps_Timeout (cp_Spec pipeline)).

Definition collectionPipelineRun (pipeline : CollectionPipeline) (params : list Param)
    (workspaces : list WorkspaceBinding) : PipelineRun :=
  mkPR
    (meta0 <| om_GenerateName := "collection-pipeline-" +:+ cp_Name pipeline +:+ "-" |>
           <| om_Namespace := cp_Namespace pipeline |>
           <| om_Annotations := {[ "results.tekton.dev/log" := "false";
                                   "results.tekton.dev/result" := "false" ]} |>
           <| om_OwnerReferences :=
                [NewControllerRef (cp_ObjectMeta pipeline) gvkCollectionPipeline] |>)
    (mkPRSpec (Some "collection-pipeline-template") None params workspaces
       (Some (collectionTimeout pipeline)) (Some (collectionTimeout pipeline)))
    (mkPRStatus None None [] []).

Definition buildPipelineRun (r : CollectionPipelineReconciler) (pipeline : CollectionPipeline)
    (cm : ConfigMap) : prog (result PipelineRun) :=
  name ← workingPVCNameOf pipeline;
  match name with
  | Err e => mret (Err e)
  | Ok workingPVCName =>
      found ← findPlatform;
      match found with
      | Err e => mret (Err (Wrapf "failed to find platform" e))
      | Ok platform =>
          intermediateRegistry ← intermediateRegistryFor platform pipeline;
          tpa ← tpaLookup platform;
          s3 ← s3Lookup pipeline;
          found2 ← findPlatform;
          proxy ← getClusterProxyFromClient;
          let params :=
            baseParams r pipeline cm workingPVCName ++
            [strParam "intermediate-registry" intermediateRegistry] ++
            signingParams pipeline ++ tpaParams tpa ++ s3Params s3 ++
            architectParamsOf found2 ++ cliParams pipeline ++ proxyParams proxy ++
            rhcosParams platform ++ osusParams platform in
          let workspaces :=
            baseWorkspaces cm workingPVCName ++ oidcWorkspace pipeline ++
            tpaWorkspace (fst tpa) ++ cosignWorkspace pipeline ++ finalWorkspaces in
          mret (Ok (collectionPipelineRun pipeline params workspaces))
      end
  end.
End Build.
