(* ===== verification/Collection.v ===== *)
(** The CollectionPipeline reconciler ([collectionpipeline_controller.go]): the
    reconcile loop, PipelineRun tracking, clean-up, and the ConfigMap and volume it
    keeps.  [Reconcile] is split where the Go function is: each part is a [step], and
    the variable [pipeline] is threaded through, since every write replaces it by
    the stored object. *)
From S2P Require Import Prelude GoStrings K8s GoTime Api Kube Externals Helpers ImageSet.
From S2P Require Import CollectionBuild.

(** ** Pure helpers *)

Fixpoint versionExists (history : list ImportInfo) (version : string) : bool :=
  match history with
  | [] => false
  | h :: rest => if ii_Version h == version then true else versionExists rest version
  end.

Definition succeededCondition (c : PRCondition) : bool :=
  (prc_Type c == "Succeeded") && (prc_Status c == "True").

Definition collectionPipelineRunPhase (pr : PipelineRun) : string :=
  match prst_CompletionTime (pr_Status pr) with
  | Some _ =>
      if existsb succeededCondition (prst_Conditions (pr_Status pr)) then "Complete" else "Failed"
  | None =>
      match prst_StartTime (pr_Status pr) with
      | Some _ => "Collecting"
      | None => "Pending"
      end
  end.

(** The loop over the results of a PipelineRun: bundle, signature and SBOM URLs, the
    last result of a name winning. *)
Fixpoint resultURLs (results : list PRResult) (acc : string * string * string)
  : string * string * string :=
  match results with
  | [] => acc
  | r :: rest =>
      let '(bundle, signature, sbom) := acc in
      resultURLs rest
        (if prr_Name r == "bundle-url" then (prr_StringVal r, signature, sbom)
         else if prr_Name r == "signature-url" then (bundle, prr_StringVal r, sbom)
         else if prr_Name r == "sbom-url" then (bundle, signature, prr_StringVal r)
         else acc)
  end.

(** Results that are not empty replace what the status has. *)
Definition withResultURLs (pr : PipelineRun) (s : CollectionPipelineStatus) : CollectionPipelineStatus :=
  let '(bundle, signature, sbom) := resultURLs (prst_Results (pr_Status pr)) ("", "", "") in
  let s := if bundle != "" then s <| cpst_BundleURL := bundle |> else s in
  let s := if signature != "" then s <| cpst_SignatureURL := signature |> else s in
  if sbom != "" then s <| cpst_SbomUrl := sbom |> else s.

Definition withRunTimes (pr : PipelineRun) (s : CollectionPipelineStatus) : CollectionPipelineStatus :=
  let s := match prst_CompletionTime (pr_Status pr) with
           | Some t => s <| cpst_CompletionTime := Some t |> | None => s end in
  match prst_StartTime (pr_Status pr) with
  | Some t => s <| cpst_StartTime := Some t |> | None => s end.

Definition setStatus (p : CollectionPipeline) (f : CollectionPipelineStatus -> CollectionPipelineStatus)
  : CollectionPipeline := p <| cp_Status ::= f |>.

Definition triggerAnnotation : string := "mirror.mathianasj.github.com/trigger".

(** The run is over, so a trigger starts a new one. *)
Definition retriggerable (s : CollectionPipelineStatus) : bool :=
  (cpst_PipelineRunRef s != "") &&
  ((cpst_Phase s == "Succeeded") || (cpst_Phase s == "Complete") ||
   (cpst_Phase s == "Failed") || (cpst_Phase s == "Stale")).

(** The fields a trigger clears. *)
Definition resetForTrigger (s : CollectionPipelineStatus) : CollectionPipelineStatus :=
  s <| cpst_PipelineRunRef := "" |> <| cpst_Version := "" |> <| cpst_Phase := "" |>
    <| cpst_StartTime := None |> <| cpst_CompletionTime := None |>.

(** A step environment names the Fulcio URL. *)
Definition hasFulcioURL (task : PipelineTask) : bool :=
  match pt_Steps task with
  | Some (env0 :: _) => existsb (fun e => ev_Name e == "FULCIO_URL") env0
  | _ => false
  end.

(** Keyless signing is configured and the embedded "cosign-sign" task lacks it. *)
Definition signingConfigChanged (pipeline : CollectionPipeline) (pr : PipelineRun) : bool :=
  match keylessOf pipeline, prs_PipelineSpec (pr_Spec pr) with
  | Some _, Some tasks =>
      match find_first (fun t => pt_Name t == "cosign-sign") tasks with
      | Some signTask => negb (hasFulcioURL signTask)
      | None => false
      end
  | _, _ => false
  end.

Section Reconciler.
Context {X : Externals} {Y : IscYaml}.

Definition generateVersion (triggerType : string) : prog string :=
  now ← Now;
  let tt := if triggerType == "" then "manual" else triggerType in
  mret ("v" +:+ Format2006 UTCOffset now +:+ "." +:+ Format01 UTCOffset now +:+ "." +:+
        Format02 UTCOffset now +:+ ".001-" +:+ tt).

(** [resource.MustParse("100Gi")] panics when the text is not a quantity. *)
Definition getStorageSize (pipeline : CollectionPipeline) : prog Quantity :=
  match cps_StorageSize (cp_Spec pipeline) with
  | Some q => mret q
  | None => match MustParse "100Gi" with Some q => mret q | None => Panic "cannot parse quantity" end
  end.

(** Setting the storage request of a claim: a write to a map that may be nil. *)
Definition setStorageRequest (pvc : PersistentVolumeClaim) (q : Quantity) : prog PersistentVolumeClaim :=
  match pvc_Requests pvc with
  | None => Panic "assignment to entry in nil map"
  | Some m => mret (pvc <| pvc_Requests := Some (<[ResourceStorage := q]> m) |>)
  end.

(** ** The platform's history *)

Definition completedCollection (version : string) (now : time) : CollectionInfo :=
  mkCollectionInfo version now "" "Complete".

Definition recordCollection (info : CollectionInfo) (s : DisconnectedPlatformStatus)
  : DisconnectedPlatformStatus :=
  s <| dpst_LastCollection := Some info |>
    <| dpst_CollectionHistory ::= fun h => snoc h info |>.

Definition updatePlatformCollectionHistory (pipeline : CollectionPipeline) : prog () :=
  r ← findPlatform;
  match r with
  | Err _ | Ok None => mret ()
  | Ok (Some platform) =>
      now ← Now;
      let info := completedCollection (cpst_Version (cp_Status pipeline)) now in
      _ ← StatusUpdate KDisconnectedPlatform (platform <| dp_Status ::= recordCollection info |>);
      mret ()
  end.

(** ** Tracking a PipelineRun *)

(** The download URLs built from the bucket's ConfigMap when the run reported none. *)
Definition bundleURLs (bucketHost bucketName name : string) : string * string :=
  let base := "https://" +:+ bucketHost +:+ "/" +:+ bucketName +:+ "/" +:+ name +:+ "/" +:+
              name +:+ ".tar.gz" in
  (base, base +:+ ".sig").

Definition externalS3Host (bucketHost : string) : prog string :=
  if bucketHost == "s3.openshift-storage.svc" then
    r ← Get (KUnstructured gvkRoute) (mkNN "openshift-storage" "s3");
    match r with
    | Err _ => mret bucketHost
    | Ok s3Route =>
        match NestedString (u_Object s3Route) ["spec"; "host"] with
        | (host, true, _) => mret (if host != "" then host else bucketHost)
        | _ => mret bucketHost
        end
    end
  else mret bucketHost.

Definition fallbackURLs (name namespace_ : string) (s : CollectionPipelineStatus)
  : prog CollectionPipelineStatus :=
  if cpst_BundleURL s != "" then mret s
  else
    r ← Get KConfigMap (mkNN namespace_ "collection-artifacts");
    match r with
    | Err _ => mret s
    | Ok obc =>
        let bucketName := map_get (cm_Data obc) "BUCKET_NAME" in
        bucketHost ← externalS3Host (map_get (cm_Data obc) "BUCKET_HOST");
        if (bucketName != "") && (bucketHost != "") then
          let '(bundle, signature) := bundleURLs bucketHost bucketName name in
          mret (s <| cpst_BundleURL := bundle |> <| cpst_SignatureURL := signature |>)
        else mret s
    end.

(** The status a fetched PipelineRun gives the pipeline. *)
Definition trackedStatus (pr : PipelineRun) (pipeline : CollectionPipeline)
  : prog CollectionPipelineStatus :=
  let phase := collectionPipelineRunPhase pr in
  let s := withRunTimes pr ((cp_Status pipeline) <| cpst_Phase := phase |>) in
  if (phase == "Complete") || (phase == "Succeeded")
  then fallbackURLs (cp_Name pipeline) (cp_Namespace pipeline) (withResultURLs pr s)
  else mret s.

Definition trackPipelineRun (pipeline : CollectionPipeline) (req : NamespacedName)
  : prog reconcile_out :=
  r ← Get KPipelineRun (mkNN (nn_Namespace req) (cpst_PipelineRunRef (cp_Status pipeline)));
  match r with
  | Err e =>
      if IsNotFound e then
        return_status_update KCollectionPipeline
          (setStatus pipeline (fun s => s <| cpst_PipelineRunRef := "" |> <| cpst_Phase := "Stale" |>))
      else fail_with e
  | Ok pr =>
      s ← trackedStatus pr pipeline;
      u ← StatusUpdate KCollectionPipeline (setStatus pipeline (fun _ => s));
      match u with
      | Err e => fail_with e
      | Ok pipeline =>
          _ ← (if collectionPipelineRunPhase pr == "Complete"
               then updatePlatformCollectionHistory pipeline else mret ());
          if negb (IsDone pr) then mret (RequeueAfter (30 * Second)%Z, None) else done
      end
  end.

(** ** Clean-up *)

Fixpoint childIn (pipelines : list CollectionPipeline) (name : string) : bool :=
  match pipelines with
  | [] => false
  | cp :: rest =>
      if (cps_ParentPipeline (cp_Spec cp) == name) && (cp_Name cp != name) then true
      else childIn rest name
  end.

Definition hasChildPipelines (pipeline : CollectionPipeline) : prog (result bool) :=
  r ← List_ KCollectionPipeline (Some (cp_Namespace pipeline)) [];
  mret (match r with
        | Err e => Err (Wrapf "failed to list CollectionPipelines" e)
        | Ok items => Ok (childIn items (cp_Name pipeline))
        end).

Definition recordedPVCName (pipeline : CollectionPipeline) : string :=
  let n := cpst_WorkingPVCName (cp_Status pipeline) in
  if n == "" then storageName (cp_Name pipeline) else n.

Definition deleteWorkingPVC (pipeline : CollectionPipeline) : prog () :=
  r ← Get KPersistentVolumeClaim (mkNN (cp_Namespace pipeline) (recordedPVCName pipeline));
  match r with
  | Err _ => mret ()
  | Ok pvc => _ ← Delete KPersistentVolumeClaim pvc; mret ()
  end.

(** [jobName[:63]] when the name is longer: the bound of a label value. *)
Definition s3CleanupJobName (pipeline : CollectionPipeline) : string :=
  let jobName := "s3-cleanup-" +:+ cp_Name pipeline in
  if (63 <? String.length jobName)%nat then take_str 63 jobName else jobName.

Definition quoted (s : string) : string := String "034"%char (s +:+ String "034"%char "").

Definition s3CleanupCommand (endpoint bucket name : string) : string :=
  "aws --endpoint-url " +:+ endpoint +:+ " s3 rm s3://" +:+ bucket +:+ "/" +:+ name +:+
  "/ --recursive && echo " +:+ quoted ("S3 cleanup complete for " +:+ name).

Definition s3CleanupJob (pipeline : CollectionPipeline) (bucket endpoint : string)
    (proxy : string * string * string) : Job :=
  let '(httpProxy, httpsProxy, noProxy) := proxy in
  mkJob
    (meta0 <| om_Name := s3CleanupJobName pipeline |> <| om_Namespace := cp_Namespace pipeline |>)
    (Some 120%Z) (Some 2%Z) "Never"
    [ mkContainer "s3-cleanup" "amazon/aws-cli:latest" ["/bin/sh"; "-c"]
        [s3CleanupCommand endpoint bucket (cp_Name pipeline)]
        ([ mkEnvVar "AWS_ACCESS_KEY_ID" "" (Some ("collection-artifacts", "AWS_ACCESS_KEY_ID"));
           mkEnvVar "AWS_SECRET_ACCESS_KEY" "" (Some ("collection-artifacts", "AWS_SECRET_ACCESS_KEY")) ]
         ++ proxyEnvVarsTyped httpProxy httpsProxy noProxy) ].

Definition deleteS3Objects (pipeline : CollectionPipeline) : prog () :=
  r ← Get KConfigMap (mkNN (cp_Namespace pipeline) "collection-artifacts");
  match r with
  | Err _ => mret ()
  | Ok obc =>
      let bucket := map_get (cm_Data obc) "BUCKET_NAME" in
      let endpoint := map_get (cm_Data obc) "BUCKET_HOST" in
      if (bucket == "") || (endpoint == "") then mret ()
      else
        proxy ← getClusterProxyFromClient;
        let job := s3CleanupJob pipeline bucket (withScheme endpoint) proxy in
        existing ← Get KJob (key_of (K := KJob) job);
        match existing with
        | Ok _ => mret ()
        | Err _ => _ ← Create KJob job; mret ()
        end
  end.

Definition withFinalizers (pipeline : CollectionPipeline) (f : list string -> list string)
  : CollectionPipeline :=
  pipeline <| cp_ObjectMeta ::= fun m => m <| om_Finalizers ::= f |> |>.

Definition cp_Finalizers (pipeline : CollectionPipeline) : list string :=
  om_Finalizers (cp_ObjectMeta pipeline).

Definition cleanup (pipeline : CollectionPipeline) : prog reconcile_out :=
  r ← hasChildPipelines pipeline;
  let hasChildren := match r with Ok b => b | Err _ => false end in
  _ ← (if (cps_ParentPipeline (cp_Spec pipeline) == "") && negb hasChildren
       then deleteWorkingPVC pipeline else mret ());
  _ ← deleteS3Objects pipeline;
  if containsString (cp_Finalizers pipeline) pipelineFinalizer then
    return_update KCollectionPipeline
      (withFinalizers pipeline (fun l => removeString l pipelineFinalizer))
  else done.

(** ** The ConfigMap oc-mirror reads *)

Definition injectArchitectImages (configYAML : string) : prog string :=
  r ← findPlatform;
  match r with
  | Err _ | Ok None => mret configYAML
  | Ok (Some platform) => mret (injectArchitectImagesFor platform configYAML)
  end.

Definition injectRHCOSServerImage (configYAML intermediateRegistry : string)
  : prog (string * option error) :=
  r ← findPlatform;
  match r with
  | Err _ | Ok None => mret (configYAML, None)
  | Ok (Some platform) => mret (injectRHCOSServerImageFor platform configYAML intermediateRegistry)
  end.

(** The chain of enrichments; the text that [injectRHCOSServerImage] returns is kept
    whether or not it also returned an error. *)
Definition enrichConfig (pipeline : CollectionPipeline) : prog string :=
  r ← findPlatform;
  let catalogOverride :=
    match r with
    | Ok platform => match connectedOf platform with Some c => cc_MirrorOperatorCatalog c | None => "" end
    | Err _ => ""
    end in
  config ← injectArchitectImages
             (injectMirrorOperator (cps_ImageSetConfig (cp_Spec pipeline)) catalogOverride);
  intReg ← getIntermediateRegistry pipeline;
  injected ← injectRHCOSServerImage config intReg;
  mret (injectDefaultArchitecture (fst injected)).

Definition collectionConfigMap (pipeline : CollectionPipeline) (name config : string) : ConfigMap :=
  mkConfigMap
    (meta0 <| om_Name := name |> <| om_Namespace := cp_Namespace pipeline |>
           <| om_OwnerReferences := [NewControllerRef (cp_ObjectMeta pipeline) gvkCollectionPipeline] |>)
    (Some {[ configMapKey := config ]}).

Definition ensureConfigMap (pipeline : CollectionPipeline) (name : string)
  : prog (result ConfigMap) :=
  enrichedConfig ← enrichConfig pipeline;
  r ← Get KConfigMap (mkNN (cp_Namespace pipeline) name);
  match r with
  | Ok existing =>
      if map_get (cm_Data existing) configMapKey != enrichedConfig then
        match cm_Data existing with
        | None => Panic "assignment to entry in nil map"
        | Some data =>
            Update KConfigMap (existing <| cm_Data := Some (<[configMapKey := enrichedConfig]> data) |>)
        end
      else mret (Ok existing)
  | Err e =>
      if negb (IsNotFound e) then mret (Err e)
      else Create KConfigMap (collectionConfigMap pipeline name enrichedConfig)
  end.

(** ** The working volume *)

Definition workingPVC (pipeline : CollectionPipeline) (name : string) (size : Quantity)
  : PersistentVolumeClaim :=
  mkPVC
    (meta0 <| om_Name := name |> <| om_Namespace := cp_Namespace pipeline |>
           <| om_Labels := {[ "app.kubernetes.io/managed-by" := "mirror-operator";
                              "app.kubernetes.io/component" := "collection-storage";
                              "mirror.mathianasj.github.com/collection" := cp_Name pipeline ]} |>
           <| om_OwnerReferences := [NewControllerRef (cp_ObjectMeta pipeline) gvkCollectionPipeline] |>)
    [ReadWriteOnce] (Some {[ ResourceStorage := size ]}) ∅ "".

(** Grows the claim when the desired size is larger; the error of the update. *)
Definition growPVC (pvc : PersistentVolumeClaim) (desiredSize : Quantity) : prog (option error) :=
  if (0 <? QuantityCmp desiredSize (quantity_at (pvc_Requests pvc) ResourceStorage))%Z then
    pvc' ← setStorageRequest pvc desiredSize;
    r ← Update KPersistentVolumeClaim pvc';
    mret (err_of r)
  else mret None.

(** The claim exists afterwards, large enough: it is created for a pipeline that owns its
    storage and grown otherwise. *)
Definition provisionPVC (pipeline : CollectionPipeline) (workingPVCName : string)
  : prog (result CollectionPipeline) :=
  r ← Get KPersistentVolumeClaim (mkNN (cp_Namespace pipeline) workingPVCName);
  match r with
  | Err e =>
      if negb (IsNotFound e) then mret (Err e)
      else if cps_Incremental (cp_Spec pipeline) then
        mret (Err (Errorf ("incremental collection requires base working PVC " +:+
                           workingPVCName +:+ " to exist")))
      else if cps_ParentPipeline (cp_Spec pipeline) != "" then
        mret (Err (Errorf ("parent pipeline collection requires parent working PVC " +:+
                           workingPVCName +:+ " to exist")))
      else
        size ← getStorageSize pipeline;
        c ← Create KPersistentVolumeClaim (workingPVC pipeline workingPVCName size);
        mret (match c with Err e => Err e | Ok _ => Ok pipeline end)
  | Ok existingWorking =>
      desiredSize ← getStorageSize pipeline;
      e ← growPVC existingWorking desiredSize;
      mret (match e with
            | Some e => Err (Wrapf ("failed to expand PVC " +:+ workingPVCName) e)
            | None => Ok pipeline
            end)
  end.

(** Returns the error, or the pipeline as the function leaves it. *)
Definition ensurePVC (pipeline : CollectionPipeline) : prog (result CollectionPipeline) :=
  name ← derivePVCName pipeline;
  match name with
  | Err e => mret (Err e)
  | Ok workingPVCName =>
      tracked ← (if cpst_WorkingPVCName (cp_Status pipeline) != workingPVCName
                 then StatusUpdate KCollectionPipeline
                        (setStatus pipeline (fun s => s <| cpst_WorkingPVCName := workingPVCName |>))
                 else mret (Ok pipeline));
      match tracked with
      | Err e => mret (Err e)
      | Ok pipeline => provisionPVC pipeline workingPVCName
      end
  end.

(** ** The reconcile loop, part by part *)

Definition configName (pipeline : CollectionPipeline) : string := "mirror-config-" +:+ cp_Name pipeline.

(** ConfigMap, and its name in the status. *)
Definition reconcileConfig (pipeline : CollectionPipeline)
  : prog (step (ConfigMap * CollectionPipeline)) :=
  r ← ensureConfigMap pipeline (configName pipeline);
  match r with
  | Err e => exit_err e
  | Ok cm =>
      if cpst_ConfigMapRef (cp_Status pipeline) != configName pipeline then
        u ← StatusUpdate KCollectionPipeline
              (setStatus pipeline (fun s => s <| cpst_ConfigMapRef := configName pipeline |>));
        match u with
        | Err e => exit_err e
        | Ok pipeline => mret (Next (cm, pipeline))
        end
      else mret (Next (cm, pipeline))
  end.

Definition annotation (pipeline : CollectionPipeline) (k : string) : option string :=
  om_Annotations (cp_ObjectMeta pipeline) !! k.

(** A trigger annotation on a finished run resets the status for a new one. *)
Definition reconcileTrigger (pipeline : CollectionPipeline) : prog (step CollectionPipeline) :=
  match annotation pipeline triggerAnnotation with
  | Some _ =>
      if retriggerable (cp_Status pipeline) then
        u ← Update KCollectionPipeline
              (pipeline <| cp_ObjectMeta ::= fun m => m <| om_Annotations ::= delete triggerAnnotation |> |>);
        match u with
        | Err e => exit_err e
        | Ok pipeline => exit_status_update KCollectionPipeline (setStatus pipeline resetForTrigger)
        end
      else mret (Next pipeline)
  | None => mret (Next pipeline)
  end.

Definition expansionPVCName (pipeline : CollectionPipeline) : string :=
  let n := cpst_WorkingPVCName (cp_Status pipeline) in
  if n == "" then specPVCName pipeline else n.

(** The volume grows with [storageSize], whatever the state of the pipeline. *)
Definition reconcileStorage (pipeline : CollectionPipeline) : prog (step ()) :=
  match cps_StorageSize (cp_Spec pipeline) with
  | None => mret (Next ())
  | Some desiredSize =>
      let pvcName := expansionPVCName pipeline in
      if pvcName != "" then
        r ← Get KPersistentVolumeClaim (mkNN (cp_Namespace pipeline) pvcName);
        match r with
        | Err _ => mret (Next ())
        | Ok existingPVC =>
            e ← growPVC existingPVC desiredSize;
            match e with
            | Some e => exit_err e
            | None => mret (Next ())
            end
        end
      else mret (Next ())
  end.

(** A pending run whose signing configuration is out of date is deleted. *)
Definition reconcileSigningChange (pipeline : CollectionPipeline) : prog (step ()) :=
  r ← Get KPipelineRun (mkNN (cp_Namespace pipeline) (cpst_PipelineRunRef (cp_Status pipeline)));
  match r with
  | Err _ => mret (Next ())
  | Ok pr =>
      match prst_StartTime (pr_Status pr) with
      | Some _ => mret (Next ())
      | None =>
          if signingConfigChanged pipeline pr then
            d ← Delete KPipelineRun pr;
            match d with
            | Some e => exit_err e
            | None =>
                exit_status_update KCollectionPipeline
                  (setStatus pipeline (fun s => s <| cpst_PipelineRunRef := "" |> <| cpst_Phase := "" |>))
            end
          else mret (Next ())
      end
  end.

Definition parentNotFoundCondition (parent : string) (now : time) : Condition :=
  mkCondition "ParentPipelineValid" ConditionFalse 0 now "ParentNotFound"
    ("parent pipeline " +:+ parent +:+ " not found").

(** The parent must exist and be complete; its version is recorded. *)
Definition reconcileParent (pipeline : CollectionPipeline) : prog (step CollectionPipeline) :=
  let parent := cps_ParentPipeline (cp_Spec pipeline) in
  if parent == "" then mret (Next pipeline)
  else
    r ← Get KCollectionPipeline (mkNN (cp_Namespace pipeline) parent);
    match r with
    | Err e =>
        if IsNotFound e then
          now ← Now;
          exit_status_update KCollectionPipeline
            (setStatus pipeline (fun s =>
               s <| cpst_Phase := "Failed" |> <| cpst_CompletionTime := Some now |>
                 <| cpst_Conditions := [parentNotFoundCondition parent now] |>))
        else exit_err e
    | Ok parentPipeline =>
        if cpst_Phase (cp_Status parentPipeline) != CollectionPhaseComplete then
          mret (Exit (RequeueAfter (30 * Second)%Z, None))
        else if cpst_ParentPipelineVersion (cp_Status pipeline) == "" then
          u ← StatusUpdate KCollectionPipeline
                (setStatus pipeline (fun s =>
                   s <| cpst_ParentPipelineVersion := cpst_Version (cp_Status parentPipeline) |>));
          mret (match u with Err e => Exit (Result0, Some e) | Ok p => Next p end)
        else mret (Next pipeline)
    end.

Definition baseVersionCondition (baseVersion : string) : Condition :=
  mkCondition "DependencyCheck" "False" 0 zero_time "BaseVersionNotImported"
    ("baseVersion " +:+ baseVersion +:+
     " has not been imported; import it before running incremental collection").

(** An incremental collection needs its base version in the platform's history. *)
Definition reconcileDependency (pipeline : CollectionPipeline) : prog (step CollectionPipeline) :=
  let s := cp_Spec pipeline in
  if cps_Incremental s && (cps_BaseVersion s != "") then
    r ← findPlatform;
    match r with
    | Err e => exit_err e
    | Ok None => mret (Next pipeline)
    | Ok (Some platform) =>
        if versionExists (dpst_ImportHistory (dp_Status platform)) (cps_BaseVersion s)
        then mret (Next pipeline)
        else
          now ← Now;
          exit_status_update KCollectionPipeline
            (setStatus pipeline (fun st =>
               st <| cpst_Phase := "Failed" |> <| cpst_CompletionTime := Some now |>
                  <| cpst_Conditions ::= fun cs => snoc cs (baseVersionCondition (cps_BaseVersion s)) |>))
    end
  else mret (Next pipeline).

Definition reconcileVersion (pipeline : CollectionPipeline) : prog (step CollectionPipeline) :=
  if cpst_Version (cp_Status pipeline) == "" then
    v ← generateVersion (cps_TriggerType (cp_Spec pipeline));
    u ← StatusUpdate KCollectionPipeline (setStatus pipeline (fun s => s <| cpst_Version := v |>));
    mret (match u with Err e => Exit (Result0, Some e) | Ok p => Next p end)
  else mret (Next pipeline).

(** [platform.Spec.Connected.RHTAS.OIDC.Managed != nil]. *)
Definition managedSigning (platform : option DisconnectedPlatform) : bool :=
  match (c ← connectedOf platform; t ← cc_RHTAS c; o ← ric_OIDC t; roc_Managed o) with
  | Some _ => true
  | None => false
  end.

(** With managed signing the run waits until keyless signing is configured. *)
Definition awaitSigning (pipeline : CollectionPipeline) : prog (step ()) :=
  r ← findPlatform;
  match r with
  | Err _ => mret (Next ())
  | Ok platform =>
      if managedSigning platform then
        match keylessOf pipeline with
        | None => mret (Exit (RequeueAfter (2 * Second)%Z, None))
        | Some _ => mret (Next ())
        end
      else mret (Next ())
  end.

(** Creates the run and records it, unless another reconcile recorded one. *)
Definition startRun (pipeline : CollectionPipeline) (pr : PipelineRun) : prog reconcile_out :=
  c ← Create KPipelineRun pr;
  match c with
  | Err e => if IsAlreadyExists e || IsConflict e then mret (Requeue, None) else fail_with e
  | Ok pr =>
      r ← Get KCollectionPipeline (mkNN (cp_Namespace pipeline) (cp_Name pipeline));
      match r with
      | Err e => fail_with e
      | Ok latest =>
          let theirs := cpst_PipelineRunRef (cp_Status latest) in
          if (theirs != "") && (theirs != om_Name (pr_Meta pr)) then
            _ ← Delete KPipelineRun pr;
            mret (Requeue, None)
          else
            now ← Now;
            return_status_update KCollectionPipeline
              (setStatus latest (fun s =>
                 s <| cpst_PipelineRunRef := om_Name (pr_Meta pr) |> <| cpst_Phase := "Pending" |>
                   <| cpst_StartTime := Some now |>))
      end
  end.

Definition launch (r : CollectionPipelineReconciler) (pipeline : CollectionPipeline) (cm : ConfigMap)
  : prog reconcile_out :=
  let! pipeline := reconcileParent pipeline in
  let! pipeline := reconcileDependency pipeline in
  let! pipeline := reconcileVersion pipeline in
  p ← ensurePVC pipeline;
  match p with
  | Err e => fail_with e
  | Ok pipeline =>
      let! _ := awaitSigning pipeline in
      b ← buildPipelineRun r pipeline cm;
      match b with
      | Err e => fail_with e
      | Ok pr => startRun pipeline pr
      end
  end.

(** The body for a pipeline that has its finalizer. *)
Definition reconcileActive (r : CollectionPipelineReconciler) (pipeline : CollectionPipeline)
    (req : NamespacedName) : prog reconcile_out :=
  let! cfg := reconcileConfig pipeline in
  let cm := fst cfg in
  let! pipeline := reconcileTrigger (snd cfg) in
  let! _ := reconcileStorage pipeline in
  if cpst_PipelineRunRef (cp_Status pipeline) != "" then
    let! _ := reconcileSigningChange pipeline in
    trackPipelineRun pipeline req
  else launch r pipeline cm.

Definition Reconcile (r : CollectionPipelineReconciler) (req : NamespacedName) : prog reconcile_out :=
  g ← Get KCollectionPipeline req;
  match g with
  | Err e => if IsNotFound e then done else fail_with e
  | Ok pipeline =>
      if negb (IsZero (om_DeletionTimestamp (cp_ObjectMeta pipeline))) then cleanup pipeline
      else if negb (containsString (cp_Finalizers pipeline) pipelineFinalizer) then
        return_update KCollectionPipeline (withFinalizers pipeline (fun l => snoc l pipelineFinalizer))
      else reconcileActive r pipeline req
  end.
End Reconciler.
