(* ===== verification/CollectionProps.v ===== *)
(** Properties of the CollectionPipeline reconciler.  They hold of every execution:
    whatever the API server replies, including errors and stale reads, unless a
    hypothesis on the replies is stated. *)
From S2P Require Import Prelude GoStrings K8s GoTime Api Kube Externals Helpers ImageSet Instances.
From S2P Require Import Samples CollectionBuild Collection.

(** Proves that a program only reads. *)
Ltac reads_go := always_go; by repeat constructor.

Section Reads.
Context {X : Externals} {Y : IscYaml}.

(** ** The parts that only read *)

Lemma reads_findPlatform : always (calls reads) findPlatform.
Proof. unfold findPlatform. reads_go. Qed.
#[local] Hint Resolve reads_findPlatform : always.

Lemma reads_getClusterDomain : always (calls reads) getClusterDomain.
Proof. unfold getClusterDomain. reads_go. Qed.
#[local] Hint Resolve reads_getClusterDomain : always.

Lemma reads_getIntermediateRegistry p : always (calls reads) (getIntermediateRegistry p).
Proof. unfold getIntermediateRegistry. reads_go. Qed.
#[local] Hint Resolve reads_getIntermediateRegistry : always.

Lemma reads_getTPAAndKeycloakHosts : always (calls reads) getTPAAndKeycloakHosts.
Proof. unfold getTPAAndKeycloakHosts. reads_go. Qed.
#[local] Hint Resolve reads_getTPAAndKeycloakHosts : always.

Lemma reads_getClusterProxyFromClient : always (calls reads) getClusterProxyFromClient.
Proof. unfold getClusterProxyFromClient. reads_go. Qed.
#[local] Hint Resolve reads_getClusterProxyFromClient : always.

Lemma reads_derivePVCName p : always (calls reads) (derivePVCName p).
Proof. unfold derivePVCName. reads_go. Qed.
#[local] Hint Resolve reads_derivePVCName : always.

Lemma reads_workingPVCNameOf p : always (calls reads) (workingPVCNameOf p).
Proof. unfold workingPVCNameOf. reads_go. Qed.
#[local] Hint Resolve reads_workingPVCNameOf : always.

Lemma reads_intermediateRegistryFor pl p : always (calls reads) (intermediateRegistryFor pl p).
Proof. unfold intermediateRegistryFor. reads_go. Qed.
#[local] Hint Resolve reads_intermediateRegistryFor : always.

Lemma reads_tpaLookup pl : always (calls reads) (tpaLookup pl).
Proof. unfold tpaLookup. reads_go. Qed.
#[local] Hint Resolve reads_tpaLookup : always.

Lemma reads_s3Lookup p : always (calls reads) (s3Lookup p).
Proof. unfold s3Lookup. reads_go. Qed.
#[local] Hint Resolve reads_s3Lookup : always.

Lemma reads_buildPipelineRun r p cm : always (calls reads) (buildPipelineRun r p cm).
Proof. unfold buildPipelineRun. reads_go. Qed.
#[local] Hint Resolve reads_buildPipelineRun : always.

Lemma reads_generateVersion t : always (calls reads) (generateVersion t).
Proof. unfold generateVersion. reads_go. Qed.
#[local] Hint Resolve reads_generateVersion : always.

Lemma reads_getStorageSize p : always (calls reads) (getStorageSize p).
Proof. unfold getStorageSize. reads_go. Qed.
#[local] Hint Resolve reads_getStorageSize : always.

Lemma reads_externalS3Host h : always (calls reads) (externalS3Host h).
Proof. unfold externalS3Host. reads_go. Qed.
#[local] Hint Resolve reads_externalS3Host : always.

Lemma reads_fallbackURLs n ns s : always (calls reads) (fallbackURLs n ns s).
Proof. unfold fallbackURLs. reads_go. Qed.
#[local] Hint Resolve reads_fallbackURLs : always.

Lemma reads_trackedStatus pr p : always (calls reads) (trackedStatus pr p).
Proof. unfold trackedStatus. reads_go. Qed.
#[local] Hint Resolve reads_trackedStatus : always.

Lemma reads_hasChildPipelines p : always (calls reads) (hasChildPipelines p).
Proof. unfold hasChildPipelines. reads_go. Qed.
#[local] Hint Resolve reads_hasChildPipelines : always.

Lemma reads_injectArchitectImages c : always (calls reads) (injectArchitectImages c).
Proof. unfold injectArchitectImages. reads_go. Qed.
#[local] Hint Resolve reads_injectArchitectImages : always.

Lemma reads_injectRHCOSServerImage c i : always (calls reads) (injectRHCOSServerImage c i).
Proof. unfold injectRHCOSServerImage. reads_go. Qed.
#[local] Hint Resolve reads_injectRHCOSServerImage : always.

Lemma reads_enrichConfig p : always (calls reads) (enrichConfig p).
Proof. unfold enrichConfig. reads_go. Qed.
#[local] Hint Resolve reads_enrichConfig : always.

Lemma reads_awaitSigning p : always (calls reads) (awaitSigning p).
Proof. unfold awaitSigning. reads_go. Qed.
#[local] Hint Resolve reads_awaitSigning : always.
End Reads.

#[export] Hint Resolve reads_findPlatform reads_getClusterDomain reads_getIntermediateRegistry reads_getTPAAndKeycloakHosts
  reads_getClusterProxyFromClient reads_derivePVCName reads_workingPVCNameOf reads_intermediateRegistryFor
  reads_tpaLookup reads_s3Lookup reads_buildPipelineRun reads_generateVersion
  reads_getStorageSize reads_externalS3Host reads_fallbackURLs reads_trackedStatus
  reads_hasChildPipelines reads_injectArchitectImages reads_injectRHCOSServerImage reads_enrichConfig
  reads_awaitSigning : always.

Section Props.
Context {X : Externals} {Y : IscYaml}.

(** ** Volumes never shrink *)

(** [pvc'] is [pvc] with a larger storage request. *)
Definition pvc_growth (pvc pvc' : PersistentVolumeClaim) : Prop :=
  exists q m, pvc_Requests pvc = Some m /\
    pvc' = pvc <| pvc_Requests := Some (<[ResourceStorage := q]> m) |> /\
    (QuantityCmp q (quantity_at (pvc_Requests pvc) ResourceStorage) > 0)%Z.

(** Every update of a claim grows the claim that was read just before it. *)
Inductive grows_only : trace -> Prop :=
| grows_nil : grows_only []
| grows_other e tr :
    updates KPersistentVolumeClaim (ev_call e) = false -> grows_only tr -> grows_only (e :: tr)
| grows_claim k pvc pvc' r tr :
    pvc_growth pvc pvc' -> grows_only tr ->
    grows_only (Ev (CGet KPersistentVolumeClaim k) (Ok pvc) ::
                Ev (CUpdate KPersistentVolumeClaim pvc') r :: tr).

#[local] Instance grows_only_prop : TraceProp grows_only.
Proof.
  split; [constructor|]. intros t1 t2 H1 H2. induction H1; simpl; [done|by constructor|by constructor].
Qed.

Lemma grows_event e : updates KPersistentVolumeClaim (ev_call e) = false -> grows_only [e].
Proof. intros H. apply grows_other; [done|constructor]. Qed.

Lemma grows_reads {A} (p : prog A) : always (calls reads) p -> always grows_only p.
Proof.
  apply always_reads; [exact _|]. intros e He. apply grows_event.
  unfold reads in He. by destruct (ev_call e).
Qed.
#[local] Hint Resolve grows_reads : always.
#[local] Hint Extern 3 (grows_only [_]) => apply grows_event; reflexivity : always.

(** Reading a claim and growing it to a size that is computed without a call. *)
Lemma grows_get_grow {B} k (f : result PersistentVolumeClaim -> prog B) (size : prog Quantity)
    (g : option error -> prog B) :
  (forall e, always grows_only (f (Err e))) ->
  (forall pvc, f (Ok pvc) = (q ← size; e ← growPVC pvc q; g e)) ->
  (exists m, size = Panic m) \/ (exists q, size = mret q) ->
  (forall e, always grows_only (g e)) ->
  always grows_only (r ← Get KPersistentVolumeClaim k; f r).
Proof.
  intros He Hok Hs Hg r. set (ev := Ev (CGet KPersistentVolumeClaim k) r).
  change (wp (f r) (fun tr _ => grows_only (ev :: tr))).
  assert (Hcons : forall tr, grows_only tr -> grows_only (ev :: tr)) by (intros tr; by apply grows_other).
  destruct r as [pvc|e]; [|eapply wp_mono; [|apply He]; auto].
  rewrite Hok. destruct Hs as [[m ->]|[q ->]]; [apply Hcons; constructor|].
  change (wp (e ← growPVC pvc q; g e) (fun tr _ => grows_only (ev :: tr))).
  unfold growPVC, setStorageRequest. destruct (0 <? _)%Z eqn:Eq.
  2:{ eapply wp_mono; [|apply (Hg None)]. auto. }
  destruct (pvc_Requests pvc) as [m|] eqn:Em; [|apply Hcons; constructor].
  intros r. eapply wp_mono; [|apply (Hg (err_of r))]. intros tr o Ht. apply grows_claim; [|done].
  exists q, m. rewrite Em. split_and!; [done|done|]. apply Z.ltb_lt in Eq. lia.
Qed.

Lemma getStorageSize_pure p :
  (exists m, getStorageSize p = Panic m) \/ (exists q, getStorageSize p = mret q).
Proof. unfold getStorageSize. repeat split_match; eauto. Qed.

Lemma grows_reconcileStorage p : always grows_only (reconcileStorage p).
Proof.
  unfold reconcileStorage. destruct (cps_StorageSize _) as [q|]; [|always_go].
  cbv zeta. destruct (_ != ""); [|always_go].
  eapply (grows_get_grow _ _ (mret q)); [intros; always_go|reflexivity|eauto|].
  intros e. always_go.
Qed.

Lemma grows_provisionPVC p name : always grows_only (provisionPVC p name).
Proof.
  eapply (grows_get_grow _ _ (getStorageSize p)); [|reflexivity|apply getStorageSize_pure|];
    intros e; always_go.
Qed.
#[local] Hint Resolve grows_reconcileStorage grows_provisionPVC : always.

Lemma grows_ensurePVC p : always grows_only (ensurePVC p).
Proof. unfold ensurePVC. always_go. Qed.
#[local] Hint Resolve grows_ensurePVC : always.

Lemma grows_trackPipelineRun p req : always grows_only (trackPipelineRun p req).
Proof. unfold trackPipelineRun, updatePlatformCollectionHistory. always_go. Qed.

Lemma grows_startRun p pr : always grows_only (startRun p pr).
Proof. unfold startRun. always_go. Qed.

Lemma grows_cleanup p : always grows_only (cleanup p).
Proof. unfold cleanup, deleteWorkingPVC, deleteS3Objects. always_go. Qed.
#[local] Hint Resolve grows_trackPipelineRun grows_startRun grows_cleanup : always.

Lemma grows_launch r p cm : always grows_only (launch r p cm).
Proof. unfold launch, reconcileParent, reconcileDependency, reconcileVersion. always_go. Qed.
#[local] Hint Resolve grows_launch : always.

Lemma grows_reconcileActive r p req : always grows_only (reconcileActive r p req).
Proof.
  unfold reconcileActive, reconcileConfig, ensureConfigMap, reconcileTrigger, reconcileSigningChange.
  always_go.
Qed.
#[local] Hint Resolve grows_reconcileActive : always.

(** C10: In every execution of the reconciler, whatever the server answers, each update of a
    PersistentVolumeClaim is the claim read immediately before with a strictly larger
    storage request and nothing else changed: storage never shrinks. *)
Theorem Reconcile_grows_only (r : CollectionPipelineReconciler) (req : NamespacedName) tr o :
  exec (Reconcile r req) tr o -> grows_only tr.
Proof. apply (always_exec grows_only). unfold Reconcile. always_go. Qed.

(** ** Finalizer and clean-up *)

Definition deleting (p : CollectionPipeline) : bool :=
  negb (IsZero (om_DeletionTimestamp (cp_ObjectMeta p))).
Definition finalized (p : CollectionPipeline) : bool :=
  containsString (cp_Finalizers p) pipelineFinalizer.

(** What clean-up may write before the finalizer: jobs are created, claims deleted. *)
Definition cleanup_call (c : call) : Prop :=
  is_write c = true -> creates KJob c = true \/ deletes KPersistentVolumeClaim c = true.

Lemma cleanup_call_reads c : reads c -> cleanup_call c.
Proof. unfold reads, cleanup_call. congruence. Qed.

Lemma calls_reads_mono {A} (P : call -> Prop) (p : prog A) :
  (forall c, reads c -> P c) -> always (calls reads) p -> always (calls P) p.
Proof. intros H. apply always_mono. intros tr. by apply calls_mono. Qed.

(** The part of clean-up before the finalizer, given whether there are children. *)
Definition releaseStorage (p : CollectionPipeline) (hasChildren : bool) : prog () :=
  if (cps_ParentPipeline (cp_Spec p) == "") && negb hasChildren then deleteWorkingPVC p else mret ().

Ltac call_go := constructor; [cbv; intuition congruence|constructor].

Lemma cleanup_calls_release p b : always (calls cleanup_call) (releaseStorage p b).
Proof. unfold releaseStorage, deleteWorkingPVC. always_go; call_go. Qed.

Lemma cleanup_calls_s3 p : always (calls cleanup_call) (deleteS3Objects p).
Proof.
  unfold deleteS3Objects. pose proof (calls_reads_mono _ _ cleanup_call_reads reads_getClusterProxyFromClient).
  always_go; call_go.
Qed.

Definition keeps_pvc (c : call) : Prop := deletes KPersistentVolumeClaim c = false.

Lemma keeps_pvc_reads c : reads c -> keeps_pvc c.
Proof. by destruct c. Qed.

Lemma keeps_pvc_s3 p : always (calls keeps_pvc) (deleteS3Objects p).
Proof.
  unfold deleteS3Objects. pose proof (calls_reads_mono _ _ keeps_pvc_reads reads_getClusterProxyFromClient).
  always_go; call_go.
Qed.

Lemma keeps_pvc_release p b :
  (cps_ParentPipeline (cp_Spec p) == "") && negb b = false -> always (calls keeps_pvc) (releaseStorage p b).
Proof. intros H. unfold releaseStorage. rewrite H. always_go. Qed.

Lemma returns_release p b : returns (releaseStorage p b).
Proof. unfold releaseStorage, deleteWorkingPVC. returns_go. Qed.

Lemma returns_s3 p : returns (deleteS3Objects p).
Proof. unfold deleteS3Objects, getClusterProxyFromClient. returns_go. Qed.

Lemma keeps_pvc_none tr :
  calls keeps_pvc tr -> ~ Exists (fun e => deletes KPersistentVolumeClaim (ev_call e) = true) tr.
Proof.
  intros H (e & He & Hd)%Exists_exists. unfold calls, keeps_pvc in H. rewrite Forall_forall in H.
  specialize (H e He). congruence.
Qed.

(** Clean-up: the listing of the children, the release of the storage, and the write
    that ends it. *)
Lemma cleanup_shape p tr o :
  exec (cleanup p) tr o ->
  exists l pre last,
    tr = Ev (CList KCollectionPipeline (Some (cp_Namespace p)) []) l :: pre ++ last /\
    calls cleanup_call pre /\
    (Exists (fun e => deletes KPersistentVolumeClaim (ev_call e) = true) pre ->
       cps_ParentPipeline (cp_Spec p) = "" /\
       (forall items, l = Ok items -> childIn items (cp_Name p) = false)) /\
    (if finalized p
     then exists u, last = [Ev (CUpdate KCollectionPipeline
                                 (withFinalizers p (fun l => removeString l pipelineFinalizer))) u] /\
                    o = Done (Result0, err_of u)
     else last = [] /\ o = Done (Result0, None)).
Proof.
  intros H. apply exec_inv in H as (l & tr' & -> & H).
  set (b := match l with Ok items => childIn items (cp_Name p) | Err _ => false end).
  change (exec (_ ← releaseStorage p (match (match l with Err e => Err (Wrapf "failed to list CollectionPipelines" e)
            | Ok items => Ok (childIn items (cp_Name p)) end) with Ok b => b | Err _ => false end);
     _ ← deleteS3Objects p;
     if finalized p
     then return_update KCollectionPipeline
            (withFinalizers p (fun l => removeString l pipelineFinalizer))
     else done) tr' o) in H.
  replace (match _ with Ok b => b | Err _ => false end) with b in H by (by destruct l).
  apply exec_bind_returns in H as ([] & t1 & t2 & -> & H1 & H); [|apply returns_release].
  apply exec_bind_returns in H as ([] & t3 & t4 & -> & H3 & H); [|apply returns_s3].
  exists l, (t1 ++ t3), t4. rewrite app_assoc. split_and!; [done| | |].
  - apply tp_app; [eapply always_exec, H1; apply cleanup_calls_release|
                   eapply always_exec, H3; apply cleanup_calls_s3].
  - intros [He|He]%Exists_app.
    2:{ exfalso. revert He. apply keeps_pvc_none. eapply always_exec, H3. apply keeps_pvc_s3. }
    destruct ((cps_ParentPipeline (cp_Spec p) == "") && negb b) eqn:E.
    + str_eq. split; [done|]. intros items ->. done.
    + exfalso. revert He. apply keeps_pvc_none. eapply always_exec, H1. by apply keeps_pvc_release.
  - destruct (finalized p).
    + apply exec_inv in H as (u & t & -> & H). apply exec_inv in H as [-> ->]. eauto.
    + by apply exec_inv in H.
Qed.

Lemma childIn_false items name :
  childIn items name = false <->
  forall cp, In cp items -> cps_ParentPipeline (cp_Spec cp) = name -> cp_Name cp = name.
Proof.
  induction items as [|cp items IH]; simpl; [naive_solver|].
  destruct (_ && _) eqn:E; str_eq; [naive_solver|]. rewrite IH.
  apply andb_false_iff in E as [E|E]; str_eq; naive_solver.
Qed.

(** What an execution of the reconciler does about the finalizer. *)
Definition finalizer_protocol (req : NamespacedName) (tr : trace) (o : outcome reconcile_out) : Prop :=
  (exists e, tr = [Ev (CGet KCollectionPipeline req) (Err e)] /\
     o = Done (Result0, if IsNotFound e then None else Some e)) \/
  (exists p rest, tr = Ev (CGet KCollectionPipeline req) (Ok p) :: rest /\
     (deleting p = false -> finalized p = false -> exists u,
        rest = [Ev (CUpdate KCollectionPipeline (withFinalizers p (fun l => snoc l pipelineFinalizer))) u] /\
        o = Done (Result0, err_of u)) /\
     (deleting p = true -> exists pre last,
        rest = pre ++ last /\ calls cleanup_call pre /\
        if finalized p
        then exists u, last = [Ev (CUpdate KCollectionPipeline
                 (withFinalizers p (fun l => removeString l pipelineFinalizer))) u] /\
               o = Done (Result0, err_of u)
        else last = [] /\ o = Done (Result0, None))).

(** C12: The finalizer protocol.  A pipeline that is not being deleted and lacks the
    finalizer is written once, with the finalizer appended, and nothing else is
    written.  A pipeline being deleted that has the finalizer ends, whatever failed
    before, with the write that removes it; before that write only claims are deleted
    and jobs created.  Without the finalizer the pipeline is not written at all. *)
Theorem Reconcile_finalizer_protocol (r : CollectionPipelineReconciler) (req : NamespacedName) tr o :
  exec (Reconcile r req) tr o -> finalizer_protocol req tr o.
Proof.
  intros H. apply exec_inv in H as ([p|e] & rest & -> & H).
  - right. exists p, rest. split; [done|].
    change (exec (if deleting p then cleanup p
                  else if negb (finalized p) then
                    return_update KCollectionPipeline (withFinalizers p (fun l => snoc l pipelineFinalizer))
                  else reconcileActive r p req) rest o) in H.
    destruct (deleting p); split; intros Hd; try done.
    + apply cleanup_shape in H as (l & pre & last & -> & Hp & _ & Hl).
      exists (Ev (CList KCollectionPipeline (Some (cp_Namespace p)) []) l :: pre), last.
      split_and!; [done|by constructor|done].
    + intros Hf. rewrite Hf in H. apply exec_inv in H as (u & t & -> & H).
      apply exec_inv in H as [-> ->]. eauto.
  - left. exists e. destruct (IsNotFound e) eqn:E; simpl in H; rewrite E in H;
      by apply exec_inv in H as [-> ->].
Qed.

Lemma keeps_pvc_active r p req : always (calls keeps_pvc) (reconcileActive r p req).
Proof.
  assert (Hr : forall A (q : prog A), always (calls reads) q -> always (calls keeps_pvc) q)
    by (intros A q; apply calls_reads_mono, keeps_pvc_reads).
  unfold reconcileActive, reconcileConfig, ensureConfigMap, reconcileTrigger, reconcileSigningChange,
    reconcileStorage, trackPipelineRun, updatePlatformCollectionHistory,
    launch, reconcileParent, reconcileDependency, reconcileVersion, ensurePVC, provisionPVC,
    startRun,     growPVC, setStorageRequest.
  always_go; try call_go.
Qed.

(** C11: A claim is deleted only for a pipeline that is being deleted, has no parent
    pipeline, and that no pipeline listed in its namespace names as its parent. *)
Theorem Reconcile_deletes_unshared_pvc (r : CollectionPipelineReconciler) (req : NamespacedName) tr o :
  exec (Reconcile r req) tr o ->
  Exists (fun e => deletes KPersistentVolumeClaim (ev_call e) = true) tr ->
  exists p l rest,
    tr = Ev (CGet KCollectionPipeline req) (Ok p) ::
         Ev (CList KCollectionPipeline (Some (cp_Namespace p)) []) l :: rest /\
    deleting p = true /\ cps_ParentPipeline (cp_Spec p) = "" /\
    (forall items cp, l = Ok items -> In cp items ->
       cps_ParentPipeline (cp_Spec cp) = cp_Name p -> cp_Name cp = cp_Name p).
Proof.
  intros H He. apply exec_inv in H as ([p|e] & rest & -> & H).
  2:{ exfalso. simpl in H. destruct (IsNotFound e); apply exec_inv in H as [-> _];
      apply Exists_cons in He as [He|He]; [done|by apply Exists_nil in He|done|by apply Exists_nil in He]. }
  apply Exists_cons in He as [He|He]; [done|].
  change (exec (if deleting p then cleanup p
                else if negb (finalized p) then
                  return_update KCollectionPipeline (withFinalizers p (fun l => snoc l pipelineFinalizer))
                else reconcileActive r p req) rest o) in H.
  destruct (deleting p) eqn:Ed.
  - apply cleanup_shape in H as (l & pre & last & -> & _ & Hd & Hl).
    exists p, l, (pre ++ last). apply Exists_cons in He as [He|He]; [done|].
    apply Exists_app in He as [He|He].
    + destruct (Hd He) as [Hp Hc]. split_and!; [done|done|done|].
      intros items cp Hl' Hin. by apply (proj1 (childIn_false items (cp_Name p)) (Hc _ Hl')).
    + exfalso. destruct (finalized p); destruct_and?; subst; [|by apply Exists_nil in He].
      destruct Hl as (u & -> & _). apply Exists_cons in He as [He|He]; [done|by apply Exists_nil in He].
  - exfalso. revert He. apply keeps_pvc_none. destruct (negb (finalized p)).
    + apply exec_inv in H as (u & t & -> & H). apply exec_inv in H as [-> _]. by repeat constructor.
    + eapply always_exec, H. apply keeps_pvc_active.
Qed.
End Props.

(** ** Worked examples *)

#[local] Existing Instance sampleX.
#[local] Existing Instance sampleYaml.

Definition exReconcile : prog reconcile_out := Reconcile (mkCollectionReconciler "") sampleReq.

(** A pipeline asking for more storage than its claim has. *)
Definition growStore : store :=
  with_objs
    (pipelinesStore
       [samplePipeline "weekly" (sampleSpec <| cps_StorageSize := Some 7%Z |>) status0 [sampleFinalizer]])
    KPersistentVolumeClaim [samplePVC "collection-storage-weekly" 5%Z].

Lemma Reconcile_grows_only_witness :
  existsb (fun e => updates KPersistentVolumeClaim (ev_call e)) (traceOf exReconcile growStore) = true /\
  grows_only (traceOf exReconcile growStore).
Proof.
  split; [vm_compute; reflexivity|].
  apply (Reconcile_grows_only (mkCollectionReconciler "") sampleReq _ (outcomeOf exReconcile growStore)).
  apply traceOf_exec.
Defined.

(** A pipeline being deleted, with its claim. *)
Definition dyingPipeline : CollectionPipeline :=
  (samplePipeline "weekly" sampleSpec status0 [sampleFinalizer; "other"])
    <| cp_ObjectMeta ::= fun m => m <| om_DeletionTimestamp := Some sampleClock |> |>.
Definition dyingStore : store :=
  with_objs (pipelinesStore [dyingPipeline]) KPersistentVolumeClaim
    [samplePVC "collection-storage-weekly" 5%Z].

Lemma Reconcile_finalizer_protocol_witness :
  existsb (fun e => updates KCollectionPipeline (ev_call e)) (traceOf exReconcile dyingStore) = true /\
  finalizer_protocol sampleReq (traceOf exReconcile dyingStore) (outcomeOf exReconcile dyingStore).
Proof.
  split; [vm_compute; reflexivity|].
  apply (Reconcile_finalizer_protocol (mkCollectionReconciler "")), traceOf_exec.
Defined.

Lemma Reconcile_deletes_unshared_pvc_witness :
  exists p l rest,
    traceOf exReconcile dyingStore = Ev (CGet KCollectionPipeline sampleReq) (Ok p) ::
         Ev (CList KCollectionPipeline (Some (cp_Namespace p)) []) l :: rest /\
    deleting p = true /\ cps_ParentPipeline (cp_Spec p) = "" /\
    (forall items cp, l = Ok items -> In cp items ->
       cps_ParentPipeline (cp_Spec cp) = cp_Name p -> cp_Name cp = cp_Name p).
Proof.
  apply (Reconcile_deletes_unshared_pvc (mkCollectionReconciler "") sampleReq _
           (outcomeOf exReconcile dyingStore)); [apply traceOf_exec|].
  assert (H : existsb (fun e => deletes KPersistentVolumeClaim (ev_call e)) (traceOf exReconcile dyingStore) = true)
    by (vm_compute; reflexivity).
  apply existsb_exists in H as (e & Hin & He). apply Exists_exists. exists e.
  split; [by apply list_elem_of_In|done].
Defined.

(** An incremental pipeline works on the claim of its base; deleting it deletes that
    claim, although the base pipeline is still there. *)
Definition basePipeline : CollectionPipeline :=
  samplePipeline "base" sampleSpec
    (status0 <| cpst_WorkingPVCName := "collection-storage-base" |>) [sampleFinalizer].
Definition incrementalPipeline : CollectionPipeline :=
  (samplePipeline "weekly"
     (sampleSpec <| cps_Incremental := true |> <| cps_BaseVersion := "base" |>)
     (status0 <| cpst_WorkingPVCName := "collection-storage-base" |>) [sampleFinalizer])
    <| cp_ObjectMeta ::= fun m => m <| om_DeletionTimestamp := Some sampleClock |> |>.
Definition sharedStore : store :=
  with_objs (pipelinesStore [basePipeline; incrementalPipeline]) KPersistentVolumeClaim
    [samplePVC "collection-storage-base" 5%Z].

Example cleanup_deletes_base_volume :
  st_objs (snd (run exReconcile sharedStore)) KPersistentVolumeClaim = [].
Proof. vm_compute. reflexivity. Qed.

(** When the children cannot be listed the claim is deleted as if there were none,
    here although "child" names the pipeline as its parent. *)
Definition parentStore : store :=
  with_objs
    (pipelinesStore
       [dyingPipeline; samplePipeline "child" (sampleSpec <| cps_ParentPipeline := "weekly" |>) status0 []])
    KPersistentVolumeClaim [samplePVC "collection-storage-weekly" 5%Z].
Definition listless : Type := store.
#[local] Instance listless_server : Server listless := fun c =>
  match c return listless -> reply c * listless with
  | CList KCollectionPipeline _ _ => fun s => (Err (Errorf "timeout"), s)
  | c => memory_server c
  end.

Example cleanup_ignores_list_error :
  existsb (fun e => deletes KPersistentVolumeClaim (ev_call e))
    (fst (fst (run (S := listless) exReconcile parentStore))) = true /\
  existsb (fun e => deletes KPersistentVolumeClaim (ev_call e)) (traceOf exReconcile parentStore) = false.
Proof. vm_compute. split; reflexivity. Qed.
