(* ===== verification/CollectionRuns.v ===== *)
(** The life of a collection run: at most one PipelineRun per reconcile, what holds it
    back, and the states the status goes through. *)
From S2P Require Import Prelude GoStrings K8s GoTime Api Kube Externals Helpers ImageSet Instances.
From S2P Require Import Samples CollectionBuild Collection CollectionProps.

(** ** The status as a state machine *)

(** The run-related fields of a status. *)
Definition status_inv (s : CollectionPipelineStatus) : Prop :=
  (cpst_PipelineRunRef s = "" -> In (cpst_Phase s) [""; "Stale"; "Failed"]) /\
  (cpst_PipelineRunRef s <> "" ->
     In (cpst_Phase s) ["Pending"; "Collecting"; "Complete"; "Failed"] /\ cpst_StartTime s <> None).

(** The statuses a program sends satisfy [Inv]. *)
Definition sends (Inv : CollectionPipelineStatus -> Prop) (c : call) : Prop :=
  match c with
  | CStatusUpdate KCollectionPipeline p => Inv (cp_Status p)
  | _ => True
  end.

Definition no_run (c : call) : Prop := creates KPipelineRun c = false.

(** A status update that succeeds returns the object that was sent. *)
Definition echoes (e : event) : Prop :=
  match e with
  | Ev (CStatusUpdate KCollectionPipeline p) (Ok p') =>
      cp_Status p' = cp_Status p /\ cp_Spec p' = cp_Spec p
  | _ => True
  end.

(** The same specification and the same run. *)
Definition same_life (p p' : CollectionPipeline) : Prop :=
  cp_Spec p' = cp_Spec p /\
  cpst_PipelineRunRef (cp_Status p') = cpst_PipelineRunRef (cp_Status p) /\
  cpst_Phase (cp_Status p') = cpst_Phase (cp_Status p) /\
  cpst_StartTime (cp_Status p') = cpst_StartTime (cp_Status p).

#[export] Instance same_life_preorder : PreOrder same_life.
Proof. split; [by intros p|]. unfold same_life. intros p q r. intuition congruence. Qed.

(** Properties of a status that depend on its run only and hold without one. *)
Class RunInv (Inv : CollectionPipelineStatus -> Prop) : Prop := {
  inv_same : forall p p', same_life p p' -> Inv (cp_Status p) -> Inv (cp_Status p');
  inv_idle : forall s, cpst_PipelineRunRef s = "" -> In (cpst_Phase s) [""; "Stale"; "Failed"] -> Inv s;
}.

#[export] Instance status_inv_run : RunInv status_inv.
Proof.
  split.
  - intros p p' (_ & E1 & E2 & E3). unfold status_inv. by rewrite E1, E2, E3.
  - intros s Hr Hp. split; [done|]. by rewrite Hr.
Qed.

#[export] Instance true_run : RunInv (fun _ => True).
Proof. done. Qed.

(** A status update that leaves the run alone, as sent and as stored. *)
Lemma same_life_set p f :
  (forall s, cpst_PipelineRunRef (f s) = cpst_PipelineRunRef s /\ cpst_Phase (f s) = cpst_Phase s /\
             cpst_StartTime (f s) = cpst_StartTime s) ->
  same_life p (setStatus p f).
Proof. intros H. destruct (H (cp_Status p)) as (E1 & E2 & E3). done. Qed.

Lemma same_life_echo p q p' :
  same_life p q -> echoes (Ev (CStatusUpdate KCollectionPipeline q) (Ok p')) -> same_life p p'.
Proof. unfold same_life. intros (E1 & E2 & E3 & E4) [-> ->]. done. Qed.

Section Parts.
Context {X : Externals} {Y : IscYaml} (Inv : CollectionPipelineStatus -> Prop) `{!RunInv Inv}.

(** What every part before the creation of the run guarantees. *)
Definition before_run (c : call) : Prop := no_run c /\ sends Inv c.

Lemma before_run_reads c : reads c -> before_run c.
Proof. by destruct c. Qed.

(** [rg] for the parts before the run. *)
Abbreviation pre p post := (rg echoes before_run p post).

Lemma pre_reads {A} (p : prog A) : always (calls reads) p -> pre p (fun _ => True).
Proof. intros H. apply rg_always; [|done]. eapply calls_reads_mono, H. apply before_run_reads. Qed.

Lemma pre_step {A} (post : A -> Prop) (p : prog (step A)) :
  rg echoes before_run p (on_next post) ->
  rg echoes before_run p (fun s => match s with Exit _ => True | Next a => post a end).
Proof. done. Qed.

(** Sequencing after a part that only reads. *)
Lemma pre_after_reads {A B} (p : prog A) (f : A -> prog B) post :
  always (calls reads) p -> (forall a, pre (f a) post) -> pre (p ≫= f) post.
Proof. intros Hp Hf. eapply rg_bind; [by apply pre_reads|auto]. Qed.

(** A status update that leaves the run alone, and what follows it. *)
Lemma pre_update_same {B} p q (f : result CollectionPipeline -> prog B) post :
  Inv (cp_Status p) -> same_life p q ->
  (forall e, pre (f (Err e)) post) ->
  (forall p', same_life p p' -> pre (f (Ok p')) post) ->
  pre (r ← StatusUpdate KCollectionPipeline q; f r) post.
Proof.
  intros Hi Hs He Hf. eapply (rg_bind _ _ (StatusUpdate KCollectionPipeline q) _
    (fun r => match r with Ok p' => same_life p p' | Err _ => True end)).
  - apply rg_call; [split; [done|]; by eapply inv_same|].
    intros [p'|e] Hr; [|done]. by eapply same_life_echo.
  - intros [p'|e] H; auto.
Qed.

(** A status update whose reply ends the reconcile. *)
Lemma pre_exit_update {A} q (post : A -> Prop) :
  Inv (cp_Status q) -> pre (exit_status_update (A := A) KCollectionPipeline q) (on_next post).
Proof.
  intros Hi. eapply (rg_bind _ _ _ _ (fun _ => True)); [by apply rg_call|].
  intros r _. by apply rg_ret.
Qed.

Lemma pre_ensureConfigMap p name : pre (ensureConfigMap p name) (fun _ => True).
Proof.
  apply rg_always; [|done]. unfold ensureConfigMap.
  pose proof (calls_reads_mono _ _ before_run_reads (reads_enrichConfig p)).
  always_go; by repeat constructor.
Qed.

Lemma pre_reconcileConfig p :
  Inv (cp_Status p) -> pre (reconcileConfig p) (on_next (fun r => same_life p (snd r))).
Proof.
  intros Hi. unfold reconcileConfig. eapply rg_bind; [apply pre_ensureConfigMap|].
  intros [cm|e] _; [|by apply rg_ret]. destruct (_ != _); [|by apply rg_ret].
  eapply pre_update_same; [exact Hi|by apply same_life_set|intros e; by apply rg_ret|].
  intros p' Hs. by apply rg_ret.
Qed.

Lemma inv_reset s : Inv (resetForTrigger s).
Proof. apply inv_idle; simpl; auto. Qed.

Lemma pre_reconcileTrigger p : pre (reconcileTrigger p) (on_next (fun p' => p' = p)).
Proof.
  unfold reconcileTrigger. repeat rg_leaf; try done.
  eapply (rg_bind _ _ _ _ (fun _ => True)); [by apply rg_call|].
  intros [p'|e] _; [|by apply rg_ret]. apply pre_exit_update, inv_reset.
Qed.

Lemma pre_growPVC pvc q : pre (growPVC pvc q) (fun _ => True).
Proof.
  apply rg_always; [|done]. unfold growPVC, setStorageRequest. always_go; by repeat constructor.
Qed.

Lemma pre_reconcileStorage p : pre (reconcileStorage p) (on_next (fun _ => True)).
Proof.
  unfold reconcileStorage. destruct (cps_StorageSize _); [|by apply rg_ret].
  cbv zeta. destruct (_ != ""); [|by apply rg_ret].
  apply pre_after_reads; [always_go; by repeat constructor|]. intros [pvc|e]; [|by apply rg_ret].
  eapply rg_bind; [apply pre_growPVC|]. intros [e|] _; by apply rg_ret.
Qed.

Lemma pre_reconcileSigningChange p : pre (reconcileSigningChange p) (on_next (fun _ => True)).
Proof.
  unfold reconcileSigningChange.
  apply pre_after_reads; [always_go; by repeat constructor|]. intros [pr|e]; [|by apply rg_ret].
  destruct (prst_StartTime _); [by apply rg_ret|]. destruct (signingConfigChanged p pr); [|by apply rg_ret].
  eapply (rg_bind _ _ _ _ (fun _ => True)); [by apply rg_call|].
  intros [e|] _; [by apply rg_ret|]. apply pre_exit_update, inv_idle; simpl; auto.
Qed.

Lemma pre_reconcileParent p :
  Inv (cp_Status p) -> cpst_PipelineRunRef (cp_Status p) = "" ->
  pre (reconcileParent p) (on_next (same_life p)).
Proof.
  intros Hi Href. unfold reconcileParent. cbv zeta.
  destruct (_ == ""); [by apply rg_ret|].
  apply pre_after_reads; [always_go; by repeat constructor|]. intros [parent|e].
  - destruct (_ != _); [by apply rg_ret|]. destruct (_ == ""); [|by apply rg_ret].
    eapply pre_update_same; [exact Hi|by apply same_life_set|intros e; by apply rg_ret|].
    intros p' Hs. by apply rg_ret.
  - destruct (IsNotFound e); [|by apply rg_ret].
    apply pre_after_reads; [always_go; by repeat constructor|]. intros now.
    apply pre_exit_update, inv_idle; simpl; auto.
Qed.

Lemma pre_reconcileDependency p :
  cpst_PipelineRunRef (cp_Status p) = "" ->
  pre (reconcileDependency p) (on_next (same_life p)).
Proof.
  intros Href. unfold reconcileDependency. cbv zeta. destruct (_ && _); [|by apply rg_ret].
  apply pre_after_reads; [auto with always|]. intros [[pl|]|e]; [|by apply rg_ret..].
  destruct (versionExists _ _); [by apply rg_ret|].
  apply pre_after_reads; [always_go; by repeat constructor|]. intros now.
  apply pre_exit_update, inv_idle; simpl; auto.
Qed.

Lemma pre_reconcileVersion p :
  Inv (cp_Status p) -> pre (reconcileVersion p) (on_next (same_life p)).
Proof.
  intros Hi. unfold reconcileVersion. destruct (_ == ""); [|by apply rg_ret].
  apply pre_after_reads; [auto with always|]. intros v.
  eapply pre_update_same; [exact Hi|by apply same_life_set|intros e; by apply rg_ret|].
  intros p' Hs. by apply rg_ret.
Qed.

Lemma pre_provisionPVC p name :
  pre (provisionPVC p name) (fun r => match r with Ok q => q = p | Err _ => True end).
Proof.
  apply pre_after_reads; [always_go; by repeat constructor|]. intros [pvc|e].
  - apply pre_after_reads; [auto with always|]. intros q.
    eapply rg_bind; [apply pre_growPVC|]. intros [e|] _; by apply rg_ret.
  - destruct (negb (IsNotFound e)); [by apply rg_ret|].
    destruct (cps_Incremental _); [by apply rg_ret|].
    destruct (_ != ""); [by apply rg_ret|].
    apply pre_after_reads; [auto with always|]. intros q.
    eapply (rg_bind _ _ _ _ (fun _ => True)); [by apply rg_call|]. intros [c|e'] _; by apply rg_ret.
Qed.

Lemma pre_ensurePVC p :
  Inv (cp_Status p) ->
  pre (ensurePVC p) (fun r => match r with Ok p' => same_life p p' | Err _ => True end).
Proof.
  intros Hi. unfold ensurePVC. apply pre_after_reads; [auto with always|].
  intros [name|e]; [|by apply rg_ret].
  assert (Hrest : forall p', same_life p p' -> pre (provisionPVC p' name)
            (fun r => match r with Ok q => same_life p q | Err _ => True end)).
  { intros p' Hs. eapply rg_conseq; [|apply pre_provisionPVC]. by intros [q|e]; [intros ->|]. }
  destruct (_ != name).
  - eapply pre_update_same; [exact Hi|by apply same_life_set|intros e; by apply rg_ret|apply Hrest].
  - by apply Hrest.
Qed.
End Parts.

Section Runs.
Context {X : Externals} {Y : IscYaml}.

(** ** Tracking *)

(** The fields tracking leaves alone. *)
Definition untracked (s s' : CollectionPipelineStatus) : Prop :=
  cpst_Conditions s' = cpst_Conditions s /\ cpst_Version s' = cpst_Version s /\
  cpst_PipelineRunRef s' = cpst_PipelineRunRef s /\ cpst_ConfigMapRef s' = cpst_ConfigMapRef s /\
  cpst_WorkingPVCName s' = cpst_WorkingPVCName s /\
  cpst_ParentPipelineVersion s' = cpst_ParentPipelineVersion s.

(** The value of a result of the run: the last one of that name. *)
Fixpoint lastResult (results : list PRResult) (name : string) (v : string) : string :=
  match results with
  | [] => v
  | r :: rest => lastResult rest name (if prr_Name r == name then prr_StringVal r else v)
  end.

Lemma resultURLs_last results b g m :
  resultURLs results (b, g, m) =
    (lastResult results "bundle-url" b, lastResult results "signature-url" g,
     lastResult results "sbom-url" m).
Proof.
  revert b g m; induction results as [|r results IH]; intros b g m; simpl; [done|].
  destruct (prr_Name r == "bundle-url") eqn:E1; [str_eq; rewrite E1; apply IH|].
  destruct (prr_Name r == "signature-url") eqn:E2; [str_eq; rewrite E2; apply IH|].
  destruct (prr_Name r == "sbom-url") eqn:E3; apply IH.
Qed.

(** What is known of a tracked status: times and phase of the run, and the URLs. *)
Record tracked (pr : PipelineRun) (s s' : CollectionPipelineStatus) : Prop := {
  tracked_phase : cpst_Phase s' = collectionPipelineRunPhase pr;
  tracked_start : cpst_StartTime s' =
    match prst_StartTime (pr_Status pr) with Some t => Some t | None => cpst_StartTime s end;
  tracked_completion : cpst_CompletionTime s' =
    match prst_CompletionTime (pr_Status pr) with Some t => Some t | None => cpst_CompletionTime s end;
  tracked_rest : untracked s s';
  tracked_incomplete : collectionPipelineRunPhase pr <> "Complete" ->
    cpst_BundleURL s' = cpst_BundleURL s /\ cpst_SignatureURL s' = cpst_SignatureURL s /\
    cpst_SbomUrl s' = cpst_SbomUrl s;
  tracked_sbom : collectionPipelineRunPhase pr = "Complete" ->
    let v := lastResult (prst_Results (pr_Status pr)) "sbom-url" "" in
    cpst_SbomUrl s' = if v == "" then cpst_SbomUrl s else v;
  tracked_bundle : collectionPipelineRunPhase pr = "Complete" ->
    let v := lastResult (prst_Results (pr_Status pr)) "bundle-url" "" in
    (v <> "" -> cpst_BundleURL s' = v) /\
    (v = "" -> cpst_BundleURL s <> "" -> cpst_BundleURL s' = cpst_BundleURL s);
}.

Definition withURLs (b g : string) (s : CollectionPipelineStatus) : CollectionPipelineStatus :=
  s <| cpst_BundleURL := b |> <| cpst_SignatureURL := g |>.

Lemma fallbackURLs_post R n ns s :
  rg R reads (fallbackURLs n ns s)
    (fun s' => exists b g, s' = withURLs b g s /\ (cpst_BundleURL s <> "" -> b = cpst_BundleURL s)).
Proof.
  assert (Hid : exists b g, s = withURLs b g s /\ (cpst_BundleURL s <> "" -> b = cpst_BundleURL s))
    by (exists (cpst_BundleURL s), (cpst_SignatureURL s); by destruct s).
  unfold fallbackURLs. destruct (cpst_BundleURL s != "") eqn:E; [by apply rg_ret|].
  eapply (rg_bind _ _ _ _ (fun _ => True)); [by apply rg_call|]. intros [obc|e] _; [|by apply rg_ret].
  eapply (rg_bind _ _ _ _ (fun _ => True)); [apply rg_always; [auto with always|done]|]. intros host _.
  destruct (_ && _); [|by apply rg_ret]. apply rg_ret. do 2 eexists. split; [done|].
  str_eq. done.
Qed.

Lemma trackedStatus_post R pr p :
  rg R reads (trackedStatus pr p) (tracked pr (cp_Status p)).
Proof.
  set (s0 := withRunTimes pr ((cp_Status p) <| cpst_Phase := collectionPipelineRunPhase pr |>)).
  assert (H0 : cpst_Phase s0 = collectionPipelineRunPhase pr /\
    cpst_StartTime s0 = match prst_StartTime (pr_Status pr) with
                        | Some t => Some t | None => cpst_StartTime (cp_Status p) end /\
    cpst_CompletionTime s0 = match prst_CompletionTime (pr_Status pr) with
                        | Some t => Some t | None => cpst_CompletionTime (cp_Status p) end /\
    untracked (cp_Status p) s0 /\ cpst_BundleURL s0 = cpst_BundleURL (cp_Status p) /\
    cpst_SignatureURL s0 = cpst_SignatureURL (cp_Status p) /\
    cpst_SbomUrl s0 = cpst_SbomUrl (cp_Status p)).
  { unfold s0, withRunTimes. destruct (prst_CompletionTime _), (prst_StartTime _); by split_and!. }
  unfold trackedStatus. fold s0. cbv zeta. destruct H0 as (E1 & E2 & E3 & E4 & E5 & E6 & E7).
  assert (Hns : collectionPipelineRunPhase pr <> "Succeeded").
  { unfold collectionPipelineRunPhase. repeat split_match; done. }
  rewrite (str_eqb_ne _ _ Hns), orb_false_r.
  destruct (collectionPipelineRunPhase pr == "Complete") eqn:Ec; str_eq.
  2:{ apply rg_ret. by split. }
  eapply rg_conseq; [|apply fallbackURLs_post]. intros s' (b & g & -> & Hkeep).
  unfold withResultURLs in *. rewrite resultURLs_last in *.
  set (vb := lastResult _ "bundle-url" _) in *. set (vg := lastResult _ "signature-url" _) in *.
  set (vm := lastResult _ "sbom-url" _) in *.
  destruct (vb == "") eqn:Eb, (vg == "") eqn:Eg, (vm == "") eqn:Em; simpl in Hkeep;
    (split; [exact E1|exact E2|exact E3|exact E4|by intros []|simpl|simpl; fold vb]);
    fold vm; rewrite ?Em; str_eq; try done; (intros _; rewrite ?E5 in Hkeep; split; intros; [first [by auto | exfalso; auto | congruence]|first [by auto | congruence]]).
Qed.

(** The writes that may follow the status update of a tracked pipeline. *)
Definition history_call (phase : string) (c : call) : Prop :=
  is_write c = true -> status_updates KDisconnectedPlatform c = true /\ phase = "Complete".

Lemma history_calls p pr :
  always (calls (history_call (collectionPipelineRunPhase pr)))
    (if collectionPipelineRunPhase pr == "Complete" then updatePlatformCollectionHistory p else mret ()).
Proof.
  unfold updatePlatformCollectionHistory.
  assert (Hr : always (calls (history_call (collectionPipelineRunPhase pr))) findPlatform).
  { eapply calls_reads_mono; [|apply reads_findPlatform]. intros c Hc. unfold reads, history_call in *. congruence. }
  destruct (_ == "Complete") eqn:E; [|always_go]. str_eq.
  always_go; (constructor; [unfold history_call; simpl; rewrite ?bool_decide_true by done; auto; done|constructor]).
Qed.

Lemma returns_history p (b : bool) :
  returns (if b then updatePlatformCollectionHistory p else mret ()).
Proof. unfold updatePlatformCollectionHistory, findPlatform. destruct b; returns_go. Qed.

Lemma returns_trackedStatus pr p : returns (trackedStatus pr p).
Proof. unfold trackedStatus, fallbackURLs, externalS3Host. returns_go. Qed.

(** An execution of [trackPipelineRun]. *)
Definition tracks (p : CollectionPipeline) (req : NamespacedName) (tr : trace)
    (o : outcome reconcile_out) : Prop :=
  exists g rest,
    tr = Ev (CGet KPipelineRun (mkNN (nn_Namespace req) (cpst_PipelineRunRef (cp_Status p)))) g :: rest /\
    match g with
    | Err e =>
        if IsNotFound e then exists u,
          rest = [Ev (CStatusUpdate KCollectionPipeline
                   (setStatus p (fun s => s <| cpst_PipelineRunRef := "" |> <| cpst_Phase := "Stale" |>))) u] /\
          o = Done (Result0, err_of u)
        else rest = [] /\ o = Done (Result0, Some e)
    | Ok pr => exists lookups s u after,
        rest = lookups ++ Ev (CStatusUpdate KCollectionPipeline (setStatus p (fun _ => s))) u :: after /\
        calls reads lookups /\ tracked pr (cp_Status p) s /\
        calls (history_call (collectionPipelineRunPhase pr)) after /\
        match u with
        | Err e => after = [] /\ o = Done (Result0, Some e)
        | Ok _ => o = Done (if IsDone pr then Result0 else RequeueAfter (30 * Second)%Z, None)
        end
    end.

(** Tracking mirrors the PipelineRun.  When the run is found, one status update of the
    pipeline is sent, after reads only: its phase, start and completion times are those
    of the run, the URLs of a completed run are the last results of their name (an
    empty result keeps what is there), and every other field is kept.  Only a run whose
    phase is Complete is entered in the platform's history, and a run that is not done is
    looked at again in thirty seconds.  When the run is gone the pipeline becomes Stale. *)
Theorem trackPipelineRun_mirrors (p : CollectionPipeline) (req : NamespacedName) tr o :
  exec (trackPipelineRun p req) tr o -> tracks p req tr o.
Proof.
  intros H. apply exec_inv in H as (g & rest & -> & H). exists g, rest. split; [done|].
  destruct g as [pr|e].
  2:{ simpl in H. destruct (IsNotFound e).
      - apply exec_inv in H as (u & t & -> & H). apply exec_inv in H as [-> ->]. eauto.
      - by apply exec_inv in H as [-> ->]. }
  change (exec (s ← trackedStatus pr p;
      u ← StatusUpdate KCollectionPipeline (setStatus p (fun _ => s));
      match u with
      | Err e => fail_with e
      | Ok pipeline =>
          _ ← (if collectionPipelineRunPhase pr == "Complete"
               then updatePlatformCollectionHistory pipeline else mret ());
          if negb (IsDone pr) then mret (RequeueAfter (30 * Second)%Z, None) else done
      end) rest o) in H.
  apply exec_bind_returns in H as (s & t1 & t2 & -> & H1 & H); [|apply returns_trackedStatus].
  apply exec_inv in H as (u & t3 & -> & H). exists t1, s, u, t3.
  destruct (rg_exec _ _ _ _ _ _ (trackedStatus_post (fun _ => True) pr p) H1) as [Hr Ht];
    [by apply Forall_true|].
  split_and!; [done|done|done| |]; destruct u as [p'|e]; simpl in H.
  - apply exec_bind_returns in H as (x & t4 & t5 & -> & H4 & H); [|apply returns_history].
    apply tp_app; [eapply always_exec, H4; apply history_calls|].
    destruct (IsDone pr); apply exec_inv in H as [-> _]; constructor.
  - apply exec_inv in H as [-> ->]. constructor.
  - apply exec_bind_returns in H as (x & t4 & t5 & -> & H4 & H); [|apply returns_history].
    by destruct (IsDone pr); apply exec_inv in H as [_ ->].
  - by apply exec_inv in H.
Qed.

(** ** Reachable statuses *)

(** Replies of a server whose stored statuses satisfy [P]: reads return them, a status
    update is stored as sent, and a created run gets a name. *)
Definition serves (P : CollectionPipelineStatus -> Prop) (e : event) : Prop :=
  match e with
  | Ev (CGet KCollectionPipeline _) (Ok p) => P (cp_Status p)
  | Ev (CStatusUpdate KCollectionPipeline p) (Ok p') =>
      cp_Status p' = cp_Status p /\ cp_Spec p' = cp_Spec p
  | Ev (CCreate KPipelineRun _) (Ok pr) => om_Name (pr_Meta pr) <> ""
  | _ => True
  end.

Lemma serves_echoes P e : serves P e -> echoes e.
Proof. destruct e as [c r]. by destruct c. Qed.

Abbreviation keeps_inv p post := (rg (serves status_inv) (sends status_inv) p post).

Lemma keeps_inv_pre {A} (p : prog A) post : rg echoes (before_run status_inv) p post -> keeps_inv p post.
Proof. apply rg_mono; [apply serves_echoes|by intros c []]. Qed.

Lemma keeps_inv_step {A} (p : prog (step A)) (f : A -> prog reconcile_out) mid :
  rg echoes (before_run status_inv) p (on_next mid) -> (forall a, mid a -> keeps_inv (f a) (fun _ => True)) ->
  keeps_inv (andThen p f) (fun _ => True).
Proof. intros Hp Hf. eapply rg_andThen; [apply keeps_inv_pre, Hp|exact Hf]. Qed.

Lemma keeps_inv_startRun p pr : keeps_inv (startRun p pr) (fun _ => True).
Proof.
  eapply (rg_bind _ _ _ _ (fun c => match c with Ok pr => om_Name (pr_Meta pr) <> "" | Err _ => True end)).
  { apply rg_call; [done|]. by intros [pr'|e]. }
  intros [pr'|e] Hn; [|by destruct (_ || _); apply rg_ret].
  eapply (rg_bind _ _ _ _ (fun _ => True)); [by apply rg_call|]. intros [latest|e] _; [|by apply rg_ret].
  cbv zeta. destruct (_ && _).
  - eapply (rg_bind _ _ _ _ (fun _ => True)); [by apply rg_call|]. intros d _. by apply rg_ret.
  - eapply (rg_bind _ _ _ _ (fun _ => True)); [by apply rg_call|]. intros now _.
    eapply (rg_bind _ _ _ _ (fun _ => True)); [|intros u _; by apply rg_ret].
    apply rg_call; [|done]. split; simpl; [done|]. intros _. auto.
Qed.

Lemma keeps_inv_track p req :
  status_inv (cp_Status p) -> cpst_PipelineRunRef (cp_Status p) <> "" ->
  keeps_inv (trackPipelineRun p req) (fun _ => True).
Proof.
  intros Hi Href. unfold trackPipelineRun.
  eapply (rg_bind _ _ _ _ (fun _ => True)); [by apply rg_call|]. intros [pr|e] _.
  2:{ destruct (IsNotFound e); [|by apply rg_ret].
      eapply (rg_bind _ _ _ _ (fun _ => True)); [|intros u _; by apply rg_ret].
      apply rg_call; [|done]. split; simpl; auto; done. }
  eapply rg_bind; [eapply rg_mono; [..|apply (trackedStatus_post (serves status_inv))]; [done|by intros []]|].
  intros s Ht. eapply (rg_bind _ _ _ _ (fun _ => True)).
  { apply rg_call; [|done]. destruct Ht as [E1 E2 _ (_ & _ & E3 & _) _ _ _].
    destruct Hi as [_ Hi]. destruct (Hi Href) as [_ Hst]. split; simpl; rewrite E3; [done|].
    rewrite E1, E2. split; [unfold collectionPipelineRunPhase; repeat split_match; simpl; auto|].
    by destruct (prst_StartTime _). }
  intros [p'|e] _; [|by apply rg_ret].
  eapply (rg_bind _ _ _ _ (fun _ => True)); [apply rg_always; [|done]|].
  2:{ intros x _. destruct (negb _); by apply rg_ret. }
  unfold updatePlatformCollectionHistory. destruct (_ == "Complete"); [|always_go].
  assert (always (calls (sends status_inv)) findPlatform).
  { eapply calls_reads_mono; [|apply reads_findPlatform]. by intros []. }
  always_go; by repeat constructor.
Qed.

Lemma same_life_ref p p' :
  same_life p p' -> cpst_PipelineRunRef (cp_Status p) = "" -> cpst_PipelineRunRef (cp_Status p') = "".
Proof. intros (_ & E & _). congruence. Qed.

Lemma keeps_inv_launch r p cm :
  status_inv (cp_Status p) -> cpst_PipelineRunRef (cp_Status p) = "" ->
  keeps_inv (launch r p cm) (fun _ => True).
Proof.
  intros Hi Href. unfold launch.
  eapply keeps_inv_step; [by apply (pre_reconcileParent status_inv)|]. intros p1 H1.
  eapply keeps_inv_step; [apply (pre_reconcileDependency status_inv); by eapply same_life_ref|]. intros p2 H2.
  assert (H02 : same_life p p2) by (by etrans).
  eapply keeps_inv_step; [apply (pre_reconcileVersion status_inv); by eapply inv_same|]. intros p3 H3.
  assert (H03 : same_life p p3) by (by etrans).
  eapply rg_bind; [apply keeps_inv_pre, (pre_ensurePVC status_inv); by eapply inv_same|].
  intros [p4|e] H4; [|by apply rg_ret].
  eapply keeps_inv_step; [eapply rg_conseq, (pre_reads status_inv); [|auto with always]|].
  { by instantiate (1 := fun _ => True); intros []. }
  intros _ _. eapply rg_bind; [apply keeps_inv_pre, (pre_reads status_inv); auto with always|].
  intros [pr|e] _; [apply keeps_inv_startRun|by apply rg_ret].
Qed.

Lemma keeps_inv_Reconcile r req : keeps_inv (Reconcile r req) (fun _ => True).
Proof.
  unfold Reconcile.
  eapply (rg_bind _ _ _ _ (fun g => match g with Ok p => status_inv (cp_Status p) | Err _ => True end)).
  { apply rg_call; [done|]. by intros [p|e]. }
  intros [p|e] Hi; [|by destruct (IsNotFound e); apply rg_ret].
  destruct (negb (IsZero _)).
  { apply rg_always; [|done]. unfold cleanup, deleteWorkingPVC, deleteS3Objects.
    assert (Hr : forall A (q : prog A), always (calls reads) q -> always (calls (sends status_inv)) q).
    { intros A q. apply calls_reads_mono. by intros []. }
    pose proof (Hr _ _ reads_getClusterProxyFromClient). pose proof (Hr _ _ (reads_hasChildPipelines p)).
    always_go; by repeat constructor. }
  destruct (negb (containsString _ _)).
  { eapply (rg_bind _ _ _ _ (fun _ => True)); [by apply rg_call|]. intros u _. by apply rg_ret. }
  unfold reconcileActive. eapply keeps_inv_step; [by apply (pre_reconcileConfig status_inv)|]. intros [cm p1] H1.
  simpl in H1. eapply keeps_inv_step; [apply (pre_reconcileTrigger status_inv)|]. simpl. intros p2 ->.
  eapply keeps_inv_step; [apply (pre_reconcileStorage status_inv)|]. intros _ _.
  assert (Hi1 : status_inv (cp_Status p1)) by (by eapply inv_same).
  destruct (_ != "") eqn:E; str_eq.
  - eapply keeps_inv_step; [apply (pre_reconcileSigningChange status_inv)|]. intros _ _. by apply keeps_inv_track.
  - by apply keeps_inv_launch.
Qed.

(** The statuses a pipeline can have when only this reconciler writes them: a new one,
    and whatever a reconcile sends when the statuses it reads are reachable. *)
Inductive reachable : CollectionPipelineStatus -> Prop :=
| reachable_new s : cpst_PipelineRunRef s = "" -> cpst_Phase s = "" -> reachable s
| reachable_reconcile r req tr o p u :
    exec (Reconcile r req) tr o ->
    (forall k q, In (Ev (CGet KCollectionPipeline k) (Ok q)) tr -> reachable (cp_Status q)) ->
    Forall (serves (fun _ => True)) tr ->
    In (Ev (CStatusUpdate KCollectionPipeline p) u) tr ->
    reachable (cp_Status p).

Lemma serves_reads P tr :
  (forall k q, In (Ev (CGet KCollectionPipeline k) (Ok q)) tr -> P (cp_Status q)) ->
  Forall (serves (fun _ => True)) tr -> Forall (serves P) tr.
Proof.
  intros Hr H. induction H as [|e tr He H IH]; constructor.
  - destruct e as [c rep]. destruct c; try done; destruct K; try done.
    destruct rep as [q|e]; [|done]. apply (Hr k q). by left.
  - apply IH. intros k q Hin. apply (Hr k q). by right.
Qed.

(** C8: Every reachable status is consistent: without a run the phase is empty, Stale or
    Failed; with a run it is Pending, Collecting, Complete or Failed, and the start time is
    set. *)
Theorem reachable_consistent (s : CollectionPipelineStatus) : reachable s -> status_inv s.
Proof.
  induction 1 as [s Hr Hp|r req tr o p u He _ IH Hs Hin].
  - split; [rewrite Hp; simpl; auto|done].
  - apply (serves_reads status_inv) in Hs; [|exact IH].
    destruct (rg_exec _ _ _ _ _ _ (keeps_inv_Reconcile r req) He Hs) as [HG _].
    unfold calls in HG. rewrite List.Forall_forall in HG. apply (HG _ Hin).
Qed.

(** ** One run per reconcile *)

Definition ownedByOther (latest : CollectionPipeline) (pr : PipelineRun) : bool :=
  (cpst_PipelineRunRef (cp_Status latest) != "") &&
  (cpst_PipelineRunRef (cp_Status latest) != om_Name (pr_Meta pr)).

(** The status a created run is recorded with. *)
Definition recordsRun (latest : CollectionPipeline) (pr : PipelineRun) (now : time) : CollectionPipeline :=
  setStatus latest (fun s =>
    s <| cpst_PipelineRunRef := om_Name (pr_Meta pr) |> <| cpst_Phase := "Pending" |>
      <| cpst_StartTime := Some now |>).

(** What happens to a run once it is created for a pipeline: the pipeline is read again, and the
    run is recorded, or deleted when another one is recorded.  It is left behind, running and
    unrecorded, when one of these calls fails. *)
Definition keyOf (p : CollectionPipeline) : NamespacedName := mkNN (cp_Namespace p) (cp_Name p).
Inductive run_fate (p : CollectionPipeline) (pr : PipelineRun) : trace -> outcome reconcile_out -> Prop :=
| run_recorded latest now p' :
    ownedByOther latest pr = false ->
    run_fate p pr
      [Ev (CGet KCollectionPipeline (keyOf p)) (Ok latest); Ev CNow now;
       Ev (CStatusUpdate KCollectionPipeline (recordsRun latest pr now)) (Ok p')] (Done (Result0, None))
| run_removed latest :
    ownedByOther latest pr = true ->
    run_fate p pr
      [Ev (CGet KCollectionPipeline (keyOf p)) (Ok latest); Ev (CDelete KPipelineRun pr) None] (Done (Requeue, None))
| run_unread e :
    run_fate p pr [Ev (CGet KCollectionPipeline (keyOf p)) (Err e)] (Done (Result0, Some e))
| run_unremoved latest e :
    ownedByOther latest pr = true ->
    run_fate p pr
      [Ev (CGet KCollectionPipeline (keyOf p)) (Ok latest); Ev (CDelete KPipelineRun pr) (Some e)] (Done (Requeue, None))
| run_unrecorded latest now e :
    ownedByOther latest pr = false ->
    run_fate p pr
      [Ev (CGet KCollectionPipeline (keyOf p)) (Ok latest); Ev CNow now;
       Ev (CStatusUpdate KCollectionPipeline (recordsRun latest pr now)) (Err e)] (Done (Result0, Some e)).

(** A run that [buildPipelineRun] returned for a pipeline. *)
Definition built (r : CollectionPipelineReconciler) (p : CollectionPipeline) (pr : PipelineRun) : Prop :=
  exists cm tr, exec (buildPipelineRun r p cm) tr (Done (Ok pr)).

Inductive one_run (r : CollectionPipelineReconciler) : trace -> outcome reconcile_out -> Prop :=
| run_none tr o : calls no_run tr -> one_run r tr o
| run_refused t1 p pr e :
    calls no_run t1 -> built r p pr ->
    one_run r (t1 ++ [Ev (CCreate KPipelineRun pr) (Err e)])
      (Done (if IsAlreadyExists e || IsConflict e then (Requeue, None) else (Result0, Some e)))
| run_created t1 p pr pr' rest o :
    calls no_run t1 -> built r p pr -> run_fate p pr' rest o ->
    one_run r (t1 ++ Ev (CCreate KPipelineRun pr) (Ok pr') :: rest) o.

Lemma one_run_after r t1 t2 o : calls no_run t1 -> one_run r t2 o -> one_run r (t1 ++ t2) o.
Proof.
  intros H1 [tr o' H|t p pr e H Hb|t p pr pr' rest o' H Hb Hf].
  - apply run_none. by apply tp_app.
  - rewrite app_assoc. apply (run_refused r _ p); [by apply tp_app|done].
  - rewrite app_assoc. apply (run_created r (t1 ++ t) p pr pr' rest); [by apply tp_app|done|done].
Qed.

(** Execution of a part that creates no run. *)
Lemma one_run_bind {A} r (p : prog A) (f : A -> prog reconcile_out) tr o :
  always (calls no_run) p -> (forall a t o', exec (f a) t o' -> one_run r t o') ->
  exec (p ≫= f) tr o -> one_run r tr o.
Proof.
  intros Hp Hf [(m & H & ->)|(a & t1 & t2 & H1 & H2 & ->)]%exec_bind.
  - apply run_none. by eapply always_exec.
  - apply one_run_after; [by eapply always_exec|by eapply Hf].
Qed.

Lemma one_run_andThen {A} r (p : prog (step A)) (f : A -> prog reconcile_out) tr o :
  always (calls no_run) p -> (forall a t o', exec (f a) t o' -> one_run r t o') ->
  exec (andThen p f) tr o -> one_run r tr o.
Proof.
  intros Hp Hf. apply one_run_bind; [done|]. intros [x|a] t o' H; [|by eapply Hf].
  apply exec_inv in H as [-> _]. apply run_none. constructor.
Qed.

Lemma one_run_always r (p : prog reconcile_out) tr o :
  always (calls no_run) p -> exec p tr o -> one_run r tr o.
Proof. intros Hp H. apply run_none. by eapply always_exec. Qed.

Lemma one_run_startRun r p pr tr o : built r p pr -> exec (startRun p pr) tr o -> one_run r tr o.
Proof.
  intros Hb H. apply exec_inv in H as ([pr'|e] & rest & -> & H).
  - apply (run_created r [] p pr pr' rest); [constructor|done|].
    apply exec_inv in H as ([latest|e] & t & -> & H); [|apply exec_inv in H as [-> ->]; by apply run_unread].
    change (exec (if ownedByOther latest pr'
                  then _ ← Delete KPipelineRun pr'; mret (Requeue, None)
                  else now ← Now;
                       return_status_update KCollectionPipeline (recordsRun latest pr' now)) t o) in H.
    destruct (ownedByOther latest pr') eqn:Eo.
    + apply exec_inv in H as (d & t2 & -> & H). apply exec_inv in H as [-> ->].
      destruct d; [by apply run_unremoved|by apply run_removed].
    + apply exec_inv in H as (now & t2 & -> & H). apply exec_inv in H as (u & t3 & -> & H).
      apply exec_inv in H as [-> ->]. destruct u; [by eapply run_recorded|by apply run_unrecorded].
  - change (exec (if IsAlreadyExists e || IsConflict e then mret (Requeue, None) else fail_with e) rest o) in H.
    assert (rest = [] /\ o = Done (if IsAlreadyExists e || IsConflict e then (Requeue, None)
                                   else (Result0, Some e))) as [-> ->].
    { destruct (_ || _); by apply exec_inv in H. }
    apply (run_refused r [] p); [constructor|done].
Qed.

Lemma no_run_reads {A} (p : prog A) : always (calls reads) p -> always (calls no_run) p.
Proof. apply calls_reads_mono. by intros []. Qed.
#[local] Hint Resolve no_run_reads : always.

Lemma no_run_growPVC pvc q : always (calls no_run) (growPVC pvc q).
Proof. unfold growPVC, setStorageRequest. always_go; by repeat constructor. Qed.
#[local] Hint Resolve no_run_growPVC : always.

Ltac no_run_go := always_go; by repeat constructor.
Lemma no_run_config p : always (calls no_run) (reconcileConfig p).
Proof. unfold reconcileConfig, ensureConfigMap. no_run_go. Qed.
Lemma no_run_trigger p : always (calls no_run) (reconcileTrigger p).
Proof. unfold reconcileTrigger. no_run_go. Qed.
Lemma no_run_storage p : always (calls no_run) (reconcileStorage p).
Proof. unfold reconcileStorage. no_run_go. Qed.
Lemma no_run_parent p : always (calls no_run) (reconcileParent p).
Proof. unfold reconcileParent. no_run_go. Qed.
Lemma no_run_dependency p : always (calls no_run) (reconcileDependency p).
Proof. unfold reconcileDependency. no_run_go. Qed.
Lemma no_run_version p : always (calls no_run) (reconcileVersion p).
Proof. unfold reconcileVersion. no_run_go. Qed.
Lemma no_run_PVC p : always (calls no_run) (ensurePVC p).
Proof. unfold ensurePVC, provisionPVC. no_run_go. Qed.
Lemma no_run_cleanup p : always (calls no_run) (cleanup p).
Proof. unfold cleanup, deleteWorkingPVC, deleteS3Objects. no_run_go. Qed.
Lemma no_run_existing p req :
  always (calls no_run) (let! _ := reconcileSigningChange p in trackPipelineRun p req).
Proof. unfold reconcileSigningChange, trackPipelineRun, updatePlatformCollectionHistory. no_run_go. Qed.
#[local] Hint Resolve no_run_config no_run_trigger no_run_storage no_run_parent no_run_dependency no_run_version
  no_run_PVC no_run_cleanup no_run_existing : always.

Lemma one_run_launch r p cm tr o : exec (launch r p cm) tr o -> one_run r tr o.
Proof.
  unfold launch.
  apply one_run_andThen; [auto with always|]. intros p1 t1 o1.
  apply one_run_andThen; [auto with always|]. intros p2 t2 o2.
  apply one_run_andThen; [auto with always|]. intros p3 t3 o3.
  apply one_run_bind; [auto with always|].
  intros [p4|e] t4 o4; [|apply one_run_always; always_go].
  apply one_run_andThen; [auto with always|]. intros _ t5 o5 H.
  apply exec_bind in H as [(m & H & ->)|(b & s1 & s2 & H1 & H2 & ->)].
  - apply run_none. eapply always_exec, H. auto with always.
  - apply one_run_after; [eapply always_exec, H1; auto with always|].
    destruct b as [pr|e]; [eapply one_run_startRun, H2; by repeat eexists|].
    revert H2. apply one_run_always. always_go.
Qed.

(** C7: In every execution at most one PipelineRun is created, and it is one that
    [buildPipelineRun] returned.  A refused creation ends the reconcile (with a requeue when
    the run exists or conflicts).  After a creation the pipeline the run was built for is read
    again, and nothing else happens but this: when it records another run the one just created
    is deleted and the reconcile is requeued; otherwise exactly this run is recorded, as
    Pending, with the time as its start.  When one of these calls fails the run is neither
    recorded nor deleted: the reconcile ends with the error, or, when the deletion failed, as if
    it had succeeded. *)
Theorem Reconcile_one_run (r : CollectionPipelineReconciler) (req : NamespacedName) tr o :
  exec (Reconcile r req) tr o -> one_run r tr o.
Proof.
  unfold Reconcile. apply one_run_bind; [always_go; by repeat constructor|].
  intros [p|e] t1 o1; [|apply one_run_always; always_go].
  destruct (negb (IsZero _)); [apply one_run_always; auto with always|].
  destruct (negb (containsString _ _)); [apply one_run_always; no_run_go|].
  unfold reconcileActive. apply one_run_andThen; [auto with always|]. intros [cm p1] t2 o2. cbv zeta.
  apply one_run_andThen; [auto with always|]. intros p2 t3 o3.
  apply one_run_andThen; [auto with always|]. intros _ t4 o4.
  destruct (_ != ""); [|apply one_run_launch]. apply one_run_always. auto with always.
Qed.

(** ** What holds a run back *)

(** What has been read when a run is created for a specification [s]: its parent, complete; and
    for an incremental one the platforms, with its base version imported by the first if there
    is one. *)
Definition parentRead (s : CollectionPipelineSpec) (tr : trace) : Prop :=
  cps_ParentPipeline s <> "" ->
  exists k q, In (Ev (CGet KCollectionPipeline k) (Ok q)) tr /\ nn_Name k = cps_ParentPipeline s /\
    cpst_Phase (cp_Status q) = "Complete".
Definition baseRead (s : CollectionPipelineSpec) (tr : trace) : Prop :=
  cps_Incremental s = true -> cps_BaseVersion s <> "" ->
  exists l, In (Ev (CList KDisconnectedPlatform None []) (Ok l)) tr /\
    forall pl rest, l = pl :: rest ->
      versionExists (dpst_ImportHistory (dp_Status pl)) (cps_BaseVersion s) = true.
(** The answer to the look for managed signing that lets a run pass: without keyless signing, no
    platform, one that does not manage signing, or an error. *)
Definition signingPasses (s : CollectionPipelineSpec) (g : result (list DisconnectedPlatform)) : Prop :=
  forall pl rest, g = Ok (pl :: rest) -> managedSigning (Some pl) = true -> cps_Signing s ≫= csc_Keyless <> None.

(** The look comes last: what follows is the making of the run. *)
Inductive letThrough (r : CollectionPipelineReconciler) (s : CollectionPipelineSpec) (pr : PipelineRun) : trace -> Prop :=
| letThrough_after t g build p cm :
    parentRead s t -> baseRead s t -> signingPasses s g ->
    exec (buildPipelineRun r p cm) build (Done (Ok pr)) -> cp_Spec p = s ->
    letThrough r s pr (t ++ Ev (CList KDisconnectedPlatform None []) g :: build).

Lemma letThrough_app r s pr t1 t2 : letThrough r s pr t2 -> letThrough r s pr (t1 ++ t2).
Proof.
  intros [t g build p cm Hp Hb Hs Hx E]. rewrite app_assoc. apply (letThrough_after r s pr (t1 ++ t) g build p cm); try done.
  - intros Hn. destruct (Hp Hn) as (k & q & Hin & Hq). exists k, q. rewrite in_app_iff. tauto.
  - intros Hi Hn. destruct (Hb Hi Hn) as (l & Hin & Hl). exists l. rewrite in_app_iff. tauto.
Qed.

Definition beingDeleted (p : CollectionPipeline) : bool := negb (IsZero (om_DeletionTimestamp (cp_ObjectMeta p))).

Abbreviation Creation pr c := (Ev (CCreate KPipelineRun pr) c).

(** A creation comes after the parts that create nothing. *)
Lemma split_creation t1 t2 before pr c after :
  calls no_run t1 -> t1 ++ t2 = before ++ Creation pr c :: after ->
  exists b, before = t1 ++ b /\ t2 = b ++ Creation pr c :: after.
Proof.
  intros H. revert before. induction H as [|e t1 He _ IH]; intros before E; [by exists before|].
  destruct before as [|e' before]; injection E as E1 E.
  - subst e. unfold no_run, creates in He. cbn in He. discriminate He.
  - subst e'. destruct (IH _ E) as (b & -> & ->). by exists b.
Qed.

Section Creation.
Context (pr : PipelineRun) (c : result PipelineRun) (after : trace) (o : outcome reconcile_out).

(** The program creates the run after the calls [b]. *)
Abbreviation starts p b := (exec p (b ++ Creation pr c :: after) o).

Lemma starts_always p b : always (calls no_run) p -> ~ starts p b.
Proof.
  intros Hp H. apply (always_exec _ _ _ _ Hp) in H.
  apply (split_creation _ []) with (before := b) (pr := pr) (c := c) (after := after) in H as (x & _ & E);
    [|by rewrite app_nil_r]. by destruct x.
Qed.

Lemma starts_bind {A} (p : prog A) (f : A -> prog reconcile_out) b :
  always (calls no_run) p -> starts (p ≫= f) b ->
  exists a t b', b = t ++ b' /\ exec p t (Done a) /\ starts (f a) b'.
Proof.
  intros Hp [(m & H & ->)|(a & t1 & t2 & H1 & H2 & E)]%exec_bind.
  - exfalso. apply (always_exec _ _ _ _ Hp) in H.
    apply (split_creation _ []) with (before := b) (pr := pr) (c := c) (after := after) in H as (x & _ & E);
      [|by rewrite app_nil_r]. by destruct x.
  - symmetry in E. apply split_creation in E as (b' & -> & ->); [|exact (always_exec _ _ _ _ Hp H1)].
    exists a, t1, b'. done.
Qed.
Lemma starts_andThen {A} (p : prog (step A)) (f : A -> prog reconcile_out) b :
  always (calls no_run) p -> starts (andThen p f) b ->
  exists a t b', b = t ++ b' /\ exec p t (Done (Next a)) /\ starts (f a) b'.
Proof.
  intros Hp ([x|a] & t & b' & -> & H1 & H2)%starts_bind; [|eauto 10|done].
  exfalso. apply exec_inv in H2 as [E _]. by destruct b'.
Qed.

(** What each part has read when it lets the next one begin. *)
Lemma parent_cleared p t p' :
  exec (reconcileParent p) t (Done (Next p')) -> parentRead (cp_Spec p) t.
Proof.
  intros H Hp. unfold reconcileParent in H. cbv zeta in H. rewrite (str_eqb_ne _ _ Hp) in H.
  apply exec_call_bind in H as ([q|e] & t' & -> & H).
  - do 2 eexists. split; [by left|]. split; [done|]. destruct (_ != CollectionPhaseComplete) eqn:E in H; [|by str_eq].
    apply exec_inv in H as [_ [=]].
  - exfalso. destruct (IsNotFound e); [|apply exec_inv in H as [_ [=]]].
    apply exec_call_bind in H as (now & t2 & -> & H). apply exec_call_bind in H as (u & t3 & -> & H).
    apply exec_inv in H as [_ [=]].
Qed.
Lemma dependency_cleared p t p' :
  exec (reconcileDependency p) t (Done (Next p')) -> baseRead (cp_Spec p) t.
Proof.
  intros H Hi Hb. unfold reconcileDependency in H. cbv zeta in H. rewrite Hi, (str_eqb_ne _ _ Hb) in H.
  apply exec_assoc in H. apply exec_call_bind in H as (g & t' & -> & H).
  destruct g as [[|pl l]|e]; cbn in H; [exists []; split; [by left|done]| |apply exec_inv in H as [_ [=]]].
  exists (pl :: l). split; [by left|]. intros pl' rest [= <- <-]. destruct (versionExists _ _); [done|].
  apply exec_call_bind in H as (now & t2 & -> & H). apply exec_call_bind in H as (u & t3 & -> & H).
  apply exec_inv in H as [_ [=]].
Qed.
Lemma signing_letThrough p t :
  exec (awaitSigning p) t (Done (Next ())) ->
  exists g, t = [Ev (CList KDisconnectedPlatform None []) g] /\ signingPasses (cp_Spec p) g.
Proof.
  intros H. unfold awaitSigning in H. apply exec_assoc in H. apply exec_call_bind in H as (g & t' & -> & H).
  exists g. unfold signingPasses. destruct g as [[|pl l]|e]; [by apply exec_inv in H as [-> _]| |by apply exec_inv in H as [-> _]].
  change (exec (if managedSigning (Some pl) then
                  match keylessOf p with
                  | None => mret (Exit (RequeueAfter (2 * Second)%Z, None))
                  | Some _ => mret (Next ())
                  end
                else mret (Next ())) t' (Done (Next ()))) in H.
  destruct (managedSigning (Some pl)) eqn:Em.
  - destruct (keylessOf p) as [k|] eqn:Ek; apply exec_inv in H as [-> H]; [|done].
    split; [done|]. intros _ _ _ _. change (keylessOf p <> None). by rewrite Ek.
  - apply exec_inv in H as [-> _]. split; [done|]. intros pl' rest [= <- <-] Hm. discriminate (eq_trans (eq_sym Hm) Em).
Qed.

Lemma starts_startRun p pr' b : starts (startRun p pr') b -> b = [] /\ pr' = pr.
Proof.
  unfold startRun. intros (g & t & E & H)%exec_call_bind. destruct b as [|e b].
  - split; [done|].
    exact (eq_sym (f_equal (fun tr => match tr with Ev (CCreate KPipelineRun o) _ :: _ => o | _ => pr end) E)).
  - exfalso. injection E as _ E. subst t. revert H. apply starts_always. destruct g; no_run_go.
Qed.

Lemma launch_cleared r p cm b :
  cpst_PipelineRunRef (cp_Status p) = "" -> Forall echoes b -> starts (launch r p cm) b -> letThrough r (cp_Spec p) pr b.
Proof.
  intros Href HR H. unfold launch in H.
  apply starts_andThen in H as (p1 & t1 & b1 & -> & H1 & H); [|auto with always].
  apply starts_andThen in H as (p2 & t2 & b2 & -> & H2 & H); [|auto with always].
  apply starts_andThen in H as (p3 & t3 & b3 & -> & H3 & H); [|auto with always].
  apply starts_bind in H as ([p4|e] & t4 & b4 & -> & H4 & H); [|by apply starts_always in H; [|always_go]|auto with always].
  apply starts_andThen in H as ([] & t5 & b5 & -> & H5 & H); [|auto with always].
  apply starts_bind in H as (built_ & t6 & b6 & -> & H6 & H); [|auto with always].
  destruct built_ as [pr'|e]; [|by apply starts_always in H; [|always_go]].
  apply starts_startRun in H as [-> ->]. rewrite app_nil_r.
  rewrite !Forall_app in HR. destruct HR as (R1 & R2 & R3 & R4 & _).
  destruct (rg_exec _ _ _ _ _ _ (pre_reconcileParent (fun _ => True) p I Href) H1 R1) as [_ L1].
  destruct (rg_exec _ _ _ _ _ _ (pre_reconcileDependency (fun _ => True) p1 (same_life_ref _ _ L1 Href)) H2 R2) as [_ L2].
  destruct (rg_exec _ _ _ _ _ _ (pre_reconcileVersion (fun _ => True) p2 I) H3 R3) as [_ L3].
  destruct (rg_exec _ _ _ _ _ _ (pre_ensurePVC (fun _ => True) p3 I) H4 R4) as [_ L4]. cbn in L1, L2, L3, L4.
  destruct L1 as [L1 _], L2 as [L2 _], L3 as [L3 _], L4 as [L4 _].
  assert (E : cp_Spec p4 = cp_Spec p) by congruence.
  apply signing_letThrough in H5 as (g & -> & Hg). apply parent_cleared in H1. apply dependency_cleared in H2.
  rewrite L1 in H2. rewrite E in Hg. cbn [app]. rewrite !app_assoc.
  apply (letThrough_after r (cp_Spec p) pr _ g t6 p4 cm); [..|exact Hg|exact H6|exact E].
  - intros Hn. destruct (H1 Hn) as (k & q & Hin & Hq). exists k, q. rewrite !in_app_iff. tauto.
  - intros Hi Hn. destruct (H2 Hi Hn) as (l & Hin & Hl). exists l. rewrite !in_app_iff. tauto.
Qed.

Lemma starts_cleared r req b :
  Forall echoes b -> starts (Reconcile r req) b ->
  exists p t, b = Ev (CGet KCollectionPipeline req) (Ok p) :: t /\
    beingDeleted p = false /\ cpst_PipelineRunRef (cp_Status p) = "" /\ letThrough r (cp_Spec p) pr t.
Proof.
  intros HR H. unfold Reconcile in H. apply starts_bind in H as (g & t0 & b0 & -> & H0 & H); [|no_run_go].
  apply exec_inv in H0 as (g' & x & -> & H0). apply exec_inv in H0 as [-> [= ->]]. cbn [app] in *.
  apply Forall_inv_tail in HR. destruct g' as [p|e]; [|by apply starts_always in H; [|always_go]].
  exists p, b0. split; [done|]. fold (beingDeleted p) in H.
  destruct (beingDeleted p); [by apply starts_always in H; [|auto with always]|]. split; [done|].
  destruct (negb (containsString _ _)); [by apply starts_always in H; [|no_run_go]|].
  unfold reconcileActive in H. apply starts_andThen in H as ([cm p1] & t1 & b1 & -> & H1 & H); [|auto with always].
  cbv zeta in H. cbn [fst snd] in H.
  apply starts_andThen in H as (p2 & t2 & b2 & -> & H2 & H); [|auto with always].
  apply starts_andThen in H as ([] & t3 & b3 & -> & H3 & H); [|auto with always].
  rewrite !Forall_app in HR. destruct HR as (R1 & R2 & R3 & R4).
  destruct (rg_exec _ _ _ _ _ _ (pre_reconcileConfig (fun _ => True) p I) H1 R1) as [_ L1]. cbn in L1.
  destruct (rg_exec _ _ _ _ _ _ (pre_reconcileTrigger (fun _ => True) p1) H2 R2) as [_ L2]. cbn in L2. subst p2.
  destruct (_ != "") eqn:Er in H; [by apply starts_always in H; [|auto with always]|]. str_eq.
  destruct L1 as (L1 & Lr & _). split; [congruence|]. apply launch_cleared in H; [|done|done].
  rewrite L1 in H. by do 3 apply letThrough_app.
Qed.
End Creation.

(** C9: A run waits for what it depends on.  A PipelineRun is only created by a reconcile that
    read, first, a pipeline that is not being deleted and records no run, and before the
    creation: its parent, if it names one, in the phase Complete; the platforms, if it is
    incremental on a base version, the first of which, if there is one, has imported that
    version; and the platforms to see whether signing is managed, in which case keyless signing
    is configured.  That last look fails open: when it is answered with an error the run is
    created all the same, while an error in reading the parent or the base holds it back. *)
Theorem Reconcile_held (r : CollectionPipelineReconciler) (req : NamespacedName) before pr c after o
    (H : exec (Reconcile r req) (before ++ Ev (CCreate KPipelineRun pr) c :: after) o)
    (HR : Forall echoes before) :
  exists p t, before = Ev (CGet KCollectionPipeline req) (Ok p) :: t /\
    beingDeleted p = false /\ cpst_PipelineRunRef (cp_Status p) = "" /\ letThrough r (cp_Spec p) pr t.
Proof. exact (starts_cleared pr c after o r req before HR H). Qed.
End Runs.

(** ** Worked examples *)

#[local] Existing Instance sampleX.
#[local] Existing Instance sampleYaml.

Definition runReconcile : prog reconcile_out := Reconcile (mkCollectionReconciler "") sampleReq.

(** A new pipeline that has its finalizer. *)
Definition freshStore : store := pipelinesStore [samplePipeline "weekly" sampleSpec status0 [sampleFinalizer]].

(** A finished run, and the pipeline that waits for it. *)
Definition finishedRun : PipelineRun :=
  mkPR (sampleMeta "mirror" "run-1") (mkPRSpec None None [] [] None None)
    (mkPRStatus (Some sampleClock) (Some (sampleClock + Hour)%Z) [mkPRCondition "Succeeded" "True"]
       [mkPRResult "bundle-url" "https://s3/bundle"; mkPRResult "sbom-url" "https://s3/sbom"]).
Definition trackedPipeline : CollectionPipeline :=
  samplePipeline "weekly" sampleSpec
    (status0 <| cpst_PipelineRunRef := "run-1" |> <| cpst_Phase := "Collecting" |>
             <| cpst_StartTime := Some sampleClock |>) [sampleFinalizer].
Definition trackStore : store := with_objs (pipelinesStore [trackedPipeline]) KPipelineRun [finishedRun].

Lemma trackPipelineRun_mirrors_witness :
  tracks trackedPipeline sampleReq (traceOf (trackPipelineRun trackedPipeline sampleReq) trackStore)
    (outcomeOf (trackPipelineRun trackedPipeline sampleReq) trackStore) /\
  map (fun p => (cpst_Phase (cp_Status p), cpst_BundleURL (cp_Status p)))
    (st_objs (snd (run (trackPipelineRun trackedPipeline sampleReq) trackStore)) KCollectionPipeline) =
    [("Complete", "https://s3/bundle")].
Proof. split; [apply trackPipelineRun_mirrors, traceOf_exec|vm_compute; reflexivity]. Defined.

Lemma Reconcile_one_run_witness :
  existsb (fun e => creates KPipelineRun (ev_call e)) (traceOf runReconcile freshStore) = true /\
  one_run (mkCollectionReconciler "") (traceOf runReconcile freshStore) (outcomeOf runReconcile freshStore).
Proof.
  split; [vm_compute; reflexivity|]. apply (Reconcile_one_run _ sampleReq), traceOf_exec.
Defined.

(** The statuses a trace sends, and the pipelines it reads. *)
Definition sentStatuses (tr : trace) : list CollectionPipelineStatus :=
  flat_map (fun e => match e with
    | Ev (CStatusUpdate KCollectionPipeline p) _ => [cp_Status p] | _ => [] end) tr.
Definition readStatuses (tr : trace) : list CollectionPipelineStatus :=
  flat_map (fun e => match e with
    | Ev (CGet KCollectionPipeline _) (Ok p) => [cp_Status p] | _ => [] end) tr.

Lemma sentStatuses_In tr s :
  In s (sentStatuses tr) ->
  exists p u, In (Ev (CStatusUpdate KCollectionPipeline p) u) tr /\ cp_Status p = s.
Proof.
  intros ([c r] & Hin & Hs)%in_flat_map. destruct c; try done; destruct K; try done.
  destruct Hs as [<-|[]]. eauto.
Qed.

Lemma readStatuses_In tr k p :
  In (Ev (CGet KCollectionPipeline k) (Ok p)) tr -> In (cp_Status p) (readStatuses tr).
Proof. intros H. apply in_flat_map. eexists. split; [exact H|by left]. Qed.

(** The in-memory server stores statuses as sent and names the runs it creates. *)
Lemma memory_handle_serves c (s : store) : serves (fun _ => True) (Ev c (fst (handle c s))).
Proof.
  destruct c as [K k| |K o| |K o| | | | | | | | | |]; try done; destruct K; try done;
    unfold handle, memory_server; cbn [fst named serves].
  - by destruct (find_first _ _).
  - destruct (existsb _ _); simpl; [done|]. unfold generateName.
    destruct (om_Name (pr_Meta o) == "") eqn:E; simpl; str_eq; [|done].
    by destruct (om_GenerateName (pr_Meta o)).
  - by destruct (update_first _ _ _).
Qed.

Lemma memory_serves {A} (p : prog A) (s : store) : Forall (serves (fun _ => True)) (traceOf p s).
Proof.
  unfold traceOf. revert s; induction p as [a|m|c k IH]; intros s; simpl; [constructor..|].
  pose proof (memory_handle_serves c s) as Hc. destruct (handle c s) as [r s1]. specialize (IH r s1).
  destruct (run (k r) s1) as [[tr o] s2]. by constructor.
Qed.

Definition launchedStatus : CollectionPipelineStatus :=
  List.last (sentStatuses (traceOf runReconcile freshStore)) status0.

Lemma reachable_consistent_witness :
  cpst_Phase launchedStatus = "Pending" /\ status_inv launchedStatus.
Proof.
  split; [vm_compute; reflexivity|]. apply reachable_consistent.
  assert (Hin : In launchedStatus (sentStatuses (traceOf runReconcile freshStore)))
    by (vm_compute; tauto).
  apply sentStatuses_In in Hin as (p & u & Hin & <-).
  apply (reachable_reconcile (mkCollectionReconciler "") sampleReq _ (outcomeOf runReconcile freshStore) p u
           (traceOf_exec _ _)); [| |exact Hin].
  - intros k q Hq%readStatuses_In. apply reachable_new.
    + assert (E : map cpst_PipelineRunRef (readStatuses (traceOf runReconcile freshStore)) = [""; ""])
        by (vm_compute; reflexivity).
      assert (H : In (cpst_PipelineRunRef (cp_Status q)) [""; ""]) by (rewrite <- E; by apply in_map).
      destruct H as [H|[H|[]]]; by rewrite <- H.
    + assert (E : map cpst_Phase (readStatuses (traceOf runReconcile freshStore)) = [""; ""])
        by (vm_compute; reflexivity).
      assert (H : In (cpst_Phase (cp_Status q)) [""; ""]) by (rewrite <- E; by apply in_map).
      destruct H as [H|[H|[]]]; by rewrite <- H.
  - apply memory_serves.
Defined.

Lemma forallb_Forall {A} (f : A -> bool) (P : A -> Prop) l :
  (forall x, f x = true -> P x) -> forallb f l = true -> Forall P l.
Proof. intros H Hl. rewrite List.Forall_forall. rewrite forallb_forall in Hl. auto. Qed.

(** The specifications read at a key. *)
Definition readSpecs (req : NamespacedName) (tr : trace) : list CollectionPipelineSpec :=
  flat_map (fun e => match e with
    | Ev (CGet KCollectionPipeline k) (Ok p) => if bool_decide (k = req) then [cp_Spec p] else []
    | _ => [] end) tr.

Lemma readSpecs_In tr k p :
  In (Ev (CGet KCollectionPipeline k) (Ok p)) tr -> In (cp_Spec p) (readSpecs k tr).
Proof.
  intros H. apply in_flat_map. eexists. split; [exact H|]. simpl. rewrite bool_decide_true by done. by left.
Qed.

(** A pipeline whose parent is complete. *)
Definition childSpec : CollectionPipelineSpec := sampleSpec <| cps_ParentPipeline := "parent" |>.
Definition childStore : store :=
  with_objs
    (pipelinesStore
       [samplePipeline "weekly" childSpec status0 [sampleFinalizer];
        samplePipeline "parent" sampleSpec (status0 <| cpst_Phase := "Complete" |>) [sampleFinalizer]])
    KPersistentVolumeClaim [samplePVC "collection-storage-parent" 5%Z].
Definition creation (e : event) : bool := creates KPipelineRun (ev_call e).

Lemma creation_in tr :
  existsb creation tr = true ->
  exists before pr c after, tr = before ++ Ev (CCreate KPipelineRun pr) c :: after.
Proof.
  intros (e & (before & after & ->)%in_split & He)%existsb_exists. destruct e as [c r].
  destruct c; try discriminate He. destruct K; try discriminate He. eauto.
Qed.

Lemma Reconcile_held_witness :
  existsb creation (traceOf runReconcile childStore) = true /\
  exists before pr p t, Ev (CGet KCollectionPipeline sampleReq) (Ok p) :: t = before /\
    letThrough (mkCollectionReconciler "") (cp_Spec p) pr t /\ cps_ParentPipeline (cp_Spec p) = "parent".
Proof.
  assert (E : existsb creation (traceOf runReconcile childStore) = true) by (vm_compute; reflexivity).
  split; [exact E|]. apply creation_in in E as (before & pr & c & after & E).
  pose proof (traceOf_exec runReconcile childStore) as H. rewrite E in H.
  pose proof (memory_serves runReconcile childStore) as HR. rewrite E in HR. apply Forall_app in HR as [HR _].
  destruct (Reconcile_held (mkCollectionReconciler "") sampleReq before pr c after _ H) as (p & t & -> & _ & _ & Hc).
  { eapply Forall_impl; [exact HR|]. apply serves_echoes. }
  exists (Ev (CGet KCollectionPipeline sampleReq) (Ok p) :: t), pr, p, t. split; [done|]. split; [exact Hc|].
  assert (Ep : forallb (fun s => cps_ParentPipeline s == "parent") (readSpecs sampleReq (traceOf runReconcile childStore)) = true)
    by (vm_compute; reflexivity).
  apply String.eqb_eq. rewrite forallb_forall in Ep. apply Ep, readSpecs_In. rewrite E. by left.
Defined.

(** A platform that manages signing, and a pipeline that has no keyless signing yet.  It waits
    when the platforms can be listed, and is run when one listing, the fifth, fails. *)
Definition managingPlatform : DisconnectedPlatform :=
  mkDisconnectedPlatform (mkTypeMeta "" "") (sampleMeta "" "platform")
    (mkDisconnectedPlatformSpec "connected"
       (Some (mkConnectedConfig "" "" (mkArtifactStorageConfig "" "") [] None
                (Some (mkRHTASInstallerConfig
                         (Some (mkRHTASOIDCConfig "" "" "" "" (Some (mkManagedKeycloakConfig true "" "" "" None)))) None None))
                None None None None ""))
       None None None)
    (mkDisconnectedPlatformStatus "" [] None [] None [] [] None).
Definition unsignedStore : store := with_objs freshStore KDisconnectedPlatform [managingPlatform].
Definition listsPlatforms (c : call) : bool :=
  match c with CList KDisconnectedPlatform _ _ => true | _ => false end.
Example signing_look_fails_open :
  existsb creation (traceOf runReconcile unsignedStore) = false /\
  existsb creation (fst (fst (run (H := refusing listsPlatforms) runReconcile (5, unsignedStore)))) = true.
Proof. vm_compute. split; reflexivity. Qed.

(** When a created run cannot be recorded it stays, and the next reconcile creates another. *)
Definition recordsPending (c : call) : bool :=
  match c with CStatusUpdate KCollectionPipeline p => cpst_Phase (cp_Status p) == "Pending" | _ => false end.
Example unrecorded_run_is_left :
  let first := run (H := refusing recordsPending) runReconcile (1, freshStore) in
  snd (fst first) = Done (Result0, Some refused) /\
  map (fun pr => om_Name (pr_Meta pr)) (st_objs (snd (snd first)) KPipelineRun) = ["collection-pipeline-weekly-x7k2p"] /\
  map (fun p => cpst_PipelineRunRef (cp_Status p)) (st_objs (snd (snd first)) KCollectionPipeline) = [""] /\
  existsb creation (traceOf runReconcile (snd (snd first))) = true.
Proof. vm_compute. repeat split; reflexivity. Qed.

(** ** Repeated runs *)

Definition twice {A} (p : prog A) (s : store) : store := snd (run p (snd (run p s))).

Definition collectingPlatform : DisconnectedPlatform :=
  mkDisconnectedPlatform (mkTypeMeta "" "") (sampleMeta "" "platform")
    (mkDisconnectedPlatformSpec "connected" None None None None)
    (mkDisconnectedPlatformStatus "" [] None [] None [] [] None).

(** Each reconcile of a collection whose run is complete records it once more. *)
Example completed_run_recorded_again :
  map (fun pl => length (dpst_CollectionHistory (dp_Status pl)))
    (st_objs (twice (trackPipelineRun trackedPipeline sampleReq)
                (with_objs trackStore KDisconnectedPlatform [collectingPlatform])) KDisconnectedPlatform) = [2].
Proof. vm_compute. reflexivity. Qed.

(** Each reconcile of an incremental collection whose base is not imported appends a
    condition. *)
Example unimported_base_conditions_grow :
  map (fun p => length (cpst_Conditions (cp_Status p)))
    (st_objs (twice runReconcile
       (with_objs
          (pipelinesStore
             [samplePipeline "weekly"
                (sampleSpec <| cps_Incremental := true |> <| cps_BaseVersion := "v2024.01.01.001-manual" |>)
                status0 [sampleFinalizer]])
          KDisconnectedPlatform [collectingPlatform])) KCollectionPipeline) = [2].
Proof. vm_compute. reflexivity. Qed.
