(* ===== verification/CollectionBuildProps.v ===== *)
(** Properties of the PipelineRun a collection is given, and of the ConfigMap it reads. *)
From S2P Require Import Prelude GoStrings K8s GoTime Api Kube Externals Helpers ImageSet Instances.
From S2P Require Import Samples CollectionBuild Collection CollectionProps.

(** ** Specification vocabulary *)

(** The parameters of the collection pipeline template. *)
Definition collectionParamNames : list string :=
  ["config-map-name"; "mirror-image"; "working-pvc-name"; "collection-name"; "parent-pipeline";
   "intermediate-registry"; "has-keyless-signing"; "fulcio-url"; "rekor-url"; "tuf-url";
   "oidc-issuer"; "oidc-client-id"; "has-tpa"; "tpa-host"; "tpa-oidc-issuer"; "tpa-oidc-client-id";
   "has-s3"; "s3-bucket"; "s3-endpoint"; "s3-region"; "s3-secret-name";
   "architect-frontend-image"; "architect-backend-image"; "architect-export-enabled";
   "oc-version"; "mirror-registry-version"; "cli-tools-enabled";
   "http-proxy"; "https-proxy"; "no-proxy"; "rhcos-download-enabled"; "rhcos-server-base-image";
   "osus-enabled"].

(** The value of a parameter, by name. *)
Definition paramValue (pr : PipelineRun) (name : string) : string :=
  match find_first (fun p => p_Name p == name) (prs_Params (pr_Spec pr)) with
  | Some p => p_StringVal p
  | None => ""
  end.

Definition hasWorkspace (pr : PipelineRun) (name : string) : Prop :=
  In name (map ws_Name (prs_Workspaces (pr_Spec pr))).

Definition has_scheme (endpoint : string) : Prop :=
  HasPrefix endpoint "http://" = true \/ HasPrefix endpoint "https://" = true.

(** What a run of pipeline [p] with configuration [cm] looks like. *)
Record run_spec (p : CollectionPipeline) (cm : ConfigMap) (pr : PipelineRun) : Prop := {
  rs_params : map p_Name (prs_Params (pr_Spec pr)) = collectionParamNames;
  rs_config : paramValue pr "config-map-name" = om_Name (cm_Meta cm) /\
    In (mkWorkspace "config" (WsConfigMap (om_Name (cm_Meta cm)) None)) (prs_Workspaces (pr_Spec pr));
  rs_output : In (mkWorkspace "output" (WsPVC (paramValue pr "working-pvc-name")))
    (prs_Workspaces (pr_Spec pr));
  rs_recorded : cpst_WorkingPVCName (cp_Status p) <> "" ->
    paramValue pr "working-pvc-name" = cpst_WorkingPVCName (cp_Status p);
  rs_workspaces : NoDup (map ws_Name (prs_Workspaces (pr_Spec pr)));
  rs_keyless : paramValue pr "has-keyless-signing" = "true" <-> keylessOf p <> None;
  rs_oidc : hasWorkspace pr "oidc-secret" <-> keylessOf p ≫= ksc_OIDCClientSecret <> None;
  rs_cosign : hasWorkspace pr "cosign-key" <-> cps_Signing (cp_Spec p) ≫= csc_KeySecretRef <> None;
  rs_tpa : (paramValue pr "has-tpa" = "true" <-> paramValue pr "tpa-host" <> "") /\
    (hasWorkspace pr "tpa-oidc-secret" <-> paramValue pr "has-tpa" = "true");
  rs_s3 : (paramValue pr "has-s3" = "true" <-> paramValue pr "s3-bucket" <> "") /\
    (paramValue pr "s3-endpoint" <> "" -> has_scheme (paramValue pr "s3-endpoint"));
  rs_template : prs_PipelineRef (pr_Spec pr) = Some "collection-pipeline-template" /\
    prs_PipelineSpec (pr_Spec pr) = None;
  rs_namespace : om_Namespace (pr_Meta pr) = cp_Namespace p;
}.

Section BuildProps.
Context {X : Externals} {Y : IscYaml}.

Abbreviation reading p post := (rg (fun _ => True) reads p post).

Lemma reading_any {A} (p : prog A) : always (calls reads) p -> reading p (fun _ => True).
Proof. intros H. by apply rg_always. Qed.

Lemma tpaLookup_post pl : reading (tpaLookup pl) (fun t => fst t = (fst (fst (snd t)) != "")).
Proof.
  unfold tpaLookup. destruct (_ ≫= _); [|by apply rg_ret].
  eapply rg_bind; [apply reading_any; auto with always|]. intros [[h i] c] _. by apply rg_ret.
Qed.

Lemma withScheme_scheme e : withScheme e <> "" -> has_scheme (withScheme e).
Proof.
  unfold withScheme, has_scheme.
  destruct (e == "") eqn:E0; simpl; str_eq; [by subst|].
  destruct (HasPrefix e "http://") eqn:E1; simpl; [auto|].
  destruct (HasPrefix e "https://") eqn:E2; simpl; [auto|]. intros _. left. apply HasPrefix_app.
Qed.

Lemma s3Lookup_post p :
  reading (s3Lookup p) (fun '(bucket, endpoint, region, secret) => endpoint <> "" -> has_scheme endpoint).
Proof.
  unfold s3Lookup. eapply (rg_bind _ _ _ _ (fun _ => True)); [by apply rg_call|].
  intros [obc|e] _; [|by apply rg_ret]. apply rg_ret. apply withScheme_scheme.
Qed.

Lemma workingPVCNameOf_post p :
  reading (workingPVCNameOf p) (fun r => cpst_WorkingPVCName (cp_Status p) <> "" ->
    r = Ok (cpst_WorkingPVCName (cp_Status p))).
Proof.
  unfold workingPVCNameOf. destruct (_ == "") eqn:E; simpl; [|by apply rg_ret].
  str_eq. eapply rg_conseq; [|apply reading_any; auto with always]. done.
Qed.

Lemma boolParam_true b : boolParam b = "true" <-> b = true.
Proof. by destruct b. Qed.

Lemma neq_true a b : (a != b) = true <-> a <> b.
Proof. rewrite negb_true_iff. apply String.eqb_neq. Qed.

Lemma run_spec_intro r p cm wpvc reg (tpa : bool * (string * string * string)) s3 found2 proxy platform :
  (cpst_WorkingPVCName (cp_Status p) <> "" -> wpvc = cpst_WorkingPVCName (cp_Status p)) ->
  fst tpa = (fst (fst (snd tpa)) != "") ->
  (let '(bucket, endpoint, region, secret) := s3 in endpoint <> "" -> has_scheme endpoint) ->
  run_spec p cm (collectionPipelineRun p
    (baseParams r p cm wpvc ++ [strParam "intermediate-registry" reg] ++
     signingParams p ++ tpaParams tpa ++ s3Params s3 ++ architectParamsOf found2 ++
     cliParams p ++ proxyParams proxy ++ rhcosParams platform ++ osusParams platform)
    (baseWorkspaces cm wpvc ++ oidcWorkspace p ++ tpaWorkspace (fst tpa) ++ cosignWorkspace p ++
     finalWorkspaces)).
Proof.
  intros Hw Ht Hs. destruct tpa as [hasTPA [[th ti] tc]], s3 as [[[bu en] re] se].
  destruct proxy as [[h1 h2] h3]. simpl in Ht.
  assert (Ha : exists f b x, architectParamsOf found2 =
            [strParam "architect-frontend-image" f; strParam "architect-backend-image" b;
             strParam "architect-export-enabled" x]).
  { unfold architectParamsOf. destruct (match found2 with Ok (Some _) => _ | _ => _ end); eauto. }
  destruct Ha as (f & b & x & ->).
  assert (Hws : map ws_Name (baseWorkspaces cm wpvc ++ oidcWorkspace p ++ tpaWorkspace hasTPA ++
                  cosignWorkspace p ++ finalWorkspaces) =
                ["config"; "pull-secret"; "output"] ++
                (match keylessOf p ≫= ksc_OIDCClientSecret with Some _ => ["oidc-secret"] | None => [] end) ++
                (if hasTPA then ["tpa-oidc-secret"] else []) ++
                (match cps_Signing (cp_Spec p) ≫= csc_KeySecretRef with
                 | Some _ => ["cosign-key"] | None => [] end) ++
                ["architect-script"; "cluster-ca-bundle"]).
  { rewrite !map_app. unfold oidcWorkspace, tpaWorkspace, cosignWorkspace.
    by destruct (keylessOf p ≫= ksc_OIDCClientSecret), hasTPA,
      (cps_Signing (cp_Spec p) ≫= csc_KeySecretRef). }
  split; unfold hasWorkspace, paramValue; cbn [pr_Spec prs_Workspaces collectionPipelineRun fst];
    rewrite ?Hws.
  - done.
  - split; [done|by left].
  - right. right. by left.
  - done.
  - apply (bool_decide_unpack _). by destruct (keylessOf p ≫= ksc_OIDCClientSecret), hasTPA,
      (cps_Signing (cp_Spec p) ≫= csc_KeySecretRef).
  - simpl. by destruct (keylessOf p).
  - rewrite !in_app_iff. destruct (keylessOf p ≫= ksc_OIDCClientSecret), hasTPA,
      (cps_Signing (cp_Spec p) ≫= csc_KeySecretRef); simpl; naive_solver.
  - rewrite !in_app_iff. destruct (keylessOf p ≫= ksc_OIDCClientSecret), hasTPA,
      (cps_Signing (cp_Spec p) ≫= csc_KeySecretRef); simpl; naive_solver.
  - simpl. rewrite boolParam_true. split; [by rewrite Ht, neq_true|].
    destruct (keylessOf p ≫= ksc_OIDCClientSecret), hasTPA,
      (cps_Signing (cp_Spec p) ≫= csc_KeySecretRef); simpl; naive_solver.
  - simpl. split; [by rewrite boolParam_true, neq_true|done].
  - done.
  - done.
Qed.

(** A run that was built: its parts, and what is known of the look-ups they come from. *)
Lemma buildPipelineRun_shape r p cm :
  reading (buildPipelineRun r p cm) (fun b => match b with
    | Err _ => True
    | Ok pr => exists wpvc reg (tpa : bool * (string * string * string)) s3 found2 proxy platform,
        (cpst_WorkingPVCName (cp_Status p) <> "" -> wpvc = cpst_WorkingPVCName (cp_Status p)) /\
        fst tpa = (fst (fst (snd tpa)) != "") /\
        (let '(bucket, endpoint, region, secret) := s3 in endpoint <> "" -> has_scheme endpoint) /\
        pr = collectionPipelineRun p
          (baseParams r p cm wpvc ++ [strParam "intermediate-registry" reg] ++
           signingParams p ++ tpaParams tpa ++ s3Params s3 ++ architectParamsOf found2 ++
           cliParams p ++ proxyParams proxy ++ rhcosParams platform ++ osusParams platform)
          (baseWorkspaces cm wpvc ++ oidcWorkspace p ++ tpaWorkspace (fst tpa) ++ cosignWorkspace p ++
           finalWorkspaces)
    end).
Proof.
  unfold buildPipelineRun. eapply rg_bind; [apply workingPVCNameOf_post|].
  intros [w|e] Hw; [|by apply rg_ret].
  eapply rg_bind; [apply reading_any; auto with always|]. intros [pl|e] _; [|by apply rg_ret].
  eapply rg_bind; [apply reading_any; auto with always|]. intros reg _.
  eapply rg_bind; [apply tpaLookup_post|]. intros tpa Ht.
  eapply rg_bind; [apply s3Lookup_post|]. intros s3 Hs.
  eapply rg_bind; [apply reading_any; auto with always|]. intros found2 _.
  eapply rg_bind; [apply reading_any; auto with always|]. intros proxy _.
  apply rg_ret. exists w, reg, tpa, s3, found2, proxy, pl.
  split_and!; [|done|by destruct s3 as [[[? ?] ?] ?]|done]. intros Hne. specialize (Hw Hne). congruence.
Qed.

Lemma buildPipelineRun_post r p cm :
  reading (buildPipelineRun r p cm) (fun b => match b with Ok pr => run_spec p cm pr | Err _ => True end).
Proof.
  eapply rg_conseq; [|apply buildPipelineRun_shape].
  intros [pr|e]; [|done]. intros (? & ? & ? & ? & ? & ? & ? & ? & ? & ? & ->). by apply run_spec_intro.
Qed.

(** C35: The run a collection is given.  Building it writes nothing; when it succeeds the run
    has exactly the parameters of the template, in order, and no workspace twice; the
    output volume is the one of the [working-pvc-name] parameter, which is the recorded
    volume when there is one; each [has-...] flag agrees with what it announces and with
    the optional workspace it stands for; and the S3 endpoint has a scheme. *)
Theorem buildPipelineRun_spec (r : CollectionPipelineReconciler) (p : CollectionPipeline)
    (cm : ConfigMap) tr o :
  exec (buildPipelineRun r p cm) tr o ->
  calls reads tr /\ match o with Done (Ok pr) => run_spec p cm pr | _ => True end.
Proof.
  intros H. destruct (rg_exec _ _ _ _ _ _ (buildPipelineRun_post r p cm) H) as [Hr Hp];
    [by apply Forall_true|]. split; [done|]. by destruct o as [[pr|e]|m].
Qed.

(** A change of the signing configuration is never noticed on a run this reconciler
    built: the check reads the embedded pipeline, and every run it builds refers to the
    template instead. *)
Theorem signing_change_undetected (r : CollectionPipelineReconciler) (p q : CollectionPipeline)
    (cm : ConfigMap) tr (pr stored : PipelineRun) :
  exec (buildPipelineRun r p cm) tr (Done (Ok pr)) -> pr_Spec stored = pr_Spec pr ->
  signingConfigChanged q stored = false.
Proof.
  intros H E. destruct (rg_exec _ _ _ _ _ _ (buildPipelineRun_post r p cm) H) as [_ Hp];
    [by apply Forall_true|]. unfold signingConfigChanged. rewrite E.
  destruct (rs_template _ _ _ Hp) as [_ ->]. by destruct (keylessOf q).
Qed.

(** ** Versions *)

(** The instant a clock reading returned. *)
Definition clock_reading (e : event) : option time :=
  match e with Ev CNow n => Some n | _ => None end.

Lemma generateVersion_exec t tr v :
  exec (generateVersion t) tr (Done v) ->
  exists n, map clock_reading tr = [Some n] /\
    v = "v" +:+ Format2006 UTCOffset n +:+ "." +:+ Format01 UTCOffset n +:+ "." +:+
        Format02 UTCOffset n +:+ ".001-" +:+ (if t == "" then "manual" else t).
Proof.
  intros H. apply exec_inv in H as (n & t' & -> & H). apply exec_inv in H as [-> [= ->]]. eauto.
Qed.

(** A version is the local date and the trigger type: two versions generated for the same
    trigger on the same day are equal, so a second collection of a day reuses the
    version of the first. *)
Theorem generateVersion_same_day (t : string) tr1 tr2 v1 v2 n1 n2 :
  exec (generateVersion t) tr1 (Done v1) -> exec (generateVersion t) tr2 (Done v2) ->
  map clock_reading tr1 = [Some n1] -> map clock_reading tr2 = [Some n2] ->
  local_date UTCOffset n1 = local_date UTCOffset n2 ->
  v1 = v2.
Proof.
  intros (m1 & E1 & ->)%generateVersion_exec (m2 & E2 & ->)%generateVersion_exec E3 E4 Hd.
  assert (m1 = n1) as -> by congruence. assert (m2 = n2) as -> by congruence.
  unfold Format2006, Format01, Format02. by rewrite Hd.
Qed.
End BuildProps.

(** ** Worked examples *)

#[local] Existing Instance sampleX.
#[local] Existing Instance sampleYaml.

Definition sampleReconciler : CollectionPipelineReconciler := mkCollectionReconciler "".
Definition sampleCM : ConfigMap := mkConfigMap (sampleMeta "mirror" "mirror-config-weekly") (Some ∅).
Definition sampleP : CollectionPipeline := samplePipeline "weekly" sampleSpec status0 [].
Definition buildTrace : trace := traceOf (buildPipelineRun sampleReconciler sampleP sampleCM) emptyStore.
Definition buildOutcome : outcome (result PipelineRun) :=
  outcomeOf (buildPipelineRun sampleReconciler sampleP sampleCM) emptyStore.

Lemma buildPipelineRun_spec_witness :
  calls reads buildTrace /\
  match buildOutcome with Done (Ok pr) => run_spec sampleP sampleCM pr | _ => True end.
Proof. apply (buildPipelineRun_spec sampleReconciler), traceOf_exec. Defined.

Definition builtRun : PipelineRun :=
  match buildOutcome with
  | Done (Ok pr) => pr
  | _ => mkPR meta0 (mkPRSpec None None [] [] None None) (mkPRStatus None None [] [])
  end.

Lemma signing_change_undetected_witness : signingConfigChanged sampleP builtRun = false.
Proof.
  apply (signing_change_undetected sampleReconciler sampleP sampleP sampleCM buildTrace builtRun); [|done].
  assert (E : buildOutcome = Done (Ok builtRun)) by (vm_compute; reflexivity).
  rewrite <- E. apply traceOf_exec.
Defined.

Definition laterStore : store := mkStore objs0 (sampleClock + Hour)%Z noHttp noWeb.
Definition versionAt (s : store) : string :=
  match outcomeOf (generateVersion "manual") s with Done v => v | Panicked _ => "" end.

Lemma generateVersion_same_day_witness : versionAt emptyStore = versionAt laterStore.
Proof.
  apply (generateVersion_same_day "manual" (traceOf (generateVersion "manual") emptyStore)
           (traceOf (generateVersion "manual") laterStore) _ _ sampleClock (sampleClock + Hour)%Z);
    [exact (traceOf_exec _ _)|exact (traceOf_exec _ _)|vm_compute; reflexivity..].
Defined.
