(* ===== verification/ImportController.v ===== *)
(** The MirrorImport reconciler ([mirrorimport_controller.go]): an import goes from the
    empty phase through Importing and Publishing to Complete or Failed. *)
From S2P Require Import Prelude GoStrings K8s GoTime Api Kube Externals Helpers.
From S2P Require CollectionBuild Collection.

Definition importFinalizer : string := "mirror.mathianasj.github.com/import-finalizer".

Record MirrorImportReconciler := mkImportReconciler { mir_MirrorImage : string }.

Definition gvkMirrorImport := mkGVK (fst GroupVersion) (snd GroupVersion) "MirrorImport".

Definition mi_Name (m : MirrorImport) : string := om_Name (mi_ObjectMeta m).
Definition mi_Namespace (m : MirrorImport) : string := om_Namespace (mi_ObjectMeta m).
Definition mi_Finalizers (m : MirrorImport) : list string := om_Finalizers (mi_ObjectMeta m).

Definition setImportStatus (m : MirrorImport) (f : MirrorImportStatus -> MirrorImportStatus)
  : MirrorImport := m <| mi_Status ::= f |>.

Definition withImportFinalizers (m : MirrorImport) (f : list string -> list string) : MirrorImport :=
  m <| mi_ObjectMeta ::= fun om => om <| om_Finalizers ::= f |> |>.

Definition findPlatform : prog (result (option DisconnectedPlatform)) :=
  r ← List_ KDisconnectedPlatform None [];
  mret (match r with
        | Err e => Err e
        | Ok [] => Ok None
        | Ok (p :: _) => Ok (Some p)
        end).

Definition importPipelineRunPhase (pr : PipelineRun) : string :=
  match prst_CompletionTime (pr_Status pr) with
  | Some _ =>
      if existsb (fun c => (prc_Type c == "Succeeded") && (prc_Status c == "True"))
           (prst_Conditions (pr_Status pr))
      then "Complete" else "Failed"
  | None =>
      match prst_StartTime (pr_Status pr) with
      | Some _ => "Running"
      | None => "Pending"
      end
  end.

(** The first internal address of a node. *)
Definition internalIP (node : Node) : option string :=
  option_map na_Address (find_first (fun a => na_Type a == NodeInternalIP) (node_Addresses node)).

Fixpoint nodeTargets (nodes : list Node) (port : Z) : list string :=
  match nodes with
  | [] => []
  | node :: rest =>
      match internalIP node with
      | Some ip => (ip +:+ ":" +:+ itoa port) :: nodeTargets rest port
      | None => nodeTargets rest port
      end
  end.

(** [platform.Spec.Airgapped] is dereferenced without a test. *)
Definition resolveNodeRegistries : prog string :=
  r ← findPlatform;
  match r with
  | Err _ | Ok None => mret ""
  | Ok (Some platform) =>
      match dps_Airgapped (dp_Spec platform) with
      | None => Panic "invalid memory address or nil pointer dereference"
      | Some airgapped =>
          match ac_MirrorRegistryConfig airgapped with
          | None => mret ""
          | Some cfg =>
              let port := (if mrc_Port cfg =? 0 then 8443 else mrc_Port cfg)%Z in
              nodes ← List_ KNode None [("node-role.kubernetes.io/master", "")];
              match nodes with
              | Err _ => mret ""
              | Ok nodeList => mret (Join (nodeTargets nodeList port) " ")
              end
          end
      end
  end.

(** The secret of the verification key, when verification is configured. *)
Definition verifyKey (m : MirrorImport) : option LocalObjectReference :=
  mis_Verify (mi_Spec m) ≫= cvc_PublicKeySecretRef.

Definition cosignPubWorkspace (m : MirrorImport) : WorkspaceBinding :=
  mkWorkspace "cosign-pub"
    (match verifyKey m with Some ref => WsSecret (lor_Name ref) | None => WsEmptyDir end).

Definition importWorkspaces (m : MirrorImport) (configName : string) : list WorkspaceBinding :=
  [ mkWorkspace "bundle-data" (WsPVC (bs_PVC (mis_Bundle (mi_Spec m))));
    mkWorkspace "config" (WsConfigMap configName None);
    mkWorkspace "pull-secret" (WsSecret "pull-secret");
    cosignPubWorkspace m;
    mkWorkspace "cluster-ca-bundle" (WsConfigMap clusterCABundleName (Some true)) ].

Section Reconciler.
Context {X : Externals}.

Definition importParams (r : MirrorImportReconciler) (m : MirrorImport) (nodeRegistries : string)
  : list Param :=
  let mirrorImage := if mir_MirrorImage r == "" then CollectionBuild.defaultMirrorImage
                     else mir_MirrorImage r in
  [ mkParam "bundle-filename" (bs_Filename (mis_Bundle (mi_Spec m)));
    mkParam "target-registry" (rgc_URL (mis_TargetRegistry (mi_Spec m)));
    mkParam "mirror-image" mirrorImage;
    mkParam "verify-enabled" (match verifyKey m with Some _ => "true" | None => "false" end);
    mkParam "cosign-pub-secret" (match verifyKey m with Some ref => lor_Name ref | None => "" end);
    mkParam "node-registries" nodeRegistries ].

Definition importPipelineRun (m : MirrorImport) (params : list Param)
    (workspaces : list WorkspaceBinding) : PipelineRun :=
  mkPR
    (meta0 <| om_GenerateName := "import-" +:+ mi_Name m +:+ "-" |>
           <| om_Namespace := mi_Namespace m |>
           <| om_Annotations := {[ "results.tekton.dev/log" := "false";
                                   "results.tekton.dev/result" := "false" ]} |>
           <| om_OwnerReferences := [NewControllerRef (mi_ObjectMeta m) gvkMirrorImport] |>)
    (mkPRSpec (Some "import-pipeline-template") None params workspaces
       (Some (6 * Hour)%Z) (Some (4 * Hour)%Z))
    (mkPRStatus None None [] []).

Definition buildImportPipelineRun (r : MirrorImportReconciler) (m : MirrorImport) (configName : string)
  : prog PipelineRun :=
  nodeRegistries ← resolveNodeRegistries;
  mret (importPipelineRun m (importParams r m nodeRegistries) (importWorkspaces m configName)).

(** An existing ConfigMap is returned as it is. *)
Definition ensureImportConfigMap (m : MirrorImport) (name : string) : prog (result ConfigMap) :=
  r ← Get KConfigMap (mkNN (mi_Namespace m) name);
  match r with
  | Ok existing => mret (Ok existing)
  | Err e =>
      if negb (IsNotFound e) then mret (Err e)
      else
        Create KConfigMap
          (mkConfigMap
             (meta0 <| om_Name := name |> <| om_Namespace := mi_Namespace m |>
                    <| om_OwnerReferences := [NewControllerRef (mi_ObjectMeta m) gvkMirrorImport] |>)
             (Some {[ CollectionBuild.configMapKey := mis_ImageSetConfig (mi_Spec m) ]}))
  end.

(** ** The phases *)

Definition alreadyImportedCondition (version : string) (now : time) : Condition :=
  mkCondition "DependencyCheck" "False" 0 now "VersionAlreadyImported"
    ("version " +:+ version +:+ " has already been imported").

Definition beginImport (m : MirrorImport) : prog reconcile_out :=
  return_status_update KMirrorImport (setImportStatus m (fun s => s <| mist_Phase := "Importing" |>)).

Definition startImport (m : MirrorImport) : prog reconcile_out :=
  let version := mis_CollectionVersion (mi_Spec m) in
  if version != "" then
    r ← findPlatform;
    match r with
    | Err e => fail_with e
    | Ok None => beginImport m
    | Ok (Some platform) =>
        if Collection.versionExists (dpst_ImportHistory (dp_Status platform)) version then
          now ← Now;
          return_status_update KMirrorImport
            (setImportStatus m (fun s =>
               s <| mist_Phase := "Failed" |>
                 <| mist_Conditions ::= fun cs => snoc cs (alreadyImportedCondition version now) |>))
        else beginImport m
    end
  else beginImport m.

(** Creates the run of an import that has none, and records it. *)
Definition startImportRun (r : MirrorImportReconciler) (m : MirrorImport) (configName : string)
  : prog reconcile_out :=
  pr ← buildImportPipelineRun r m configName;
  c ← Create KPipelineRun pr;
  match c with
  | Err e => if IsAlreadyExists e || IsConflict e then mret (Requeue, None) else fail_with e
  | Ok pr =>
      g ← Get KMirrorImport (mkNN (mi_Namespace m) (mi_Name m));
      match g with
      | Err e => fail_with e
      | Ok latest =>
          let theirs := mist_PipelineRunRef (mi_Status latest) in
          if (theirs != "") && (theirs != om_Name (pr_Meta pr)) then
            _ ← Delete KPipelineRun pr;
            mret (Requeue, None)
          else
            return_status_update KMirrorImport
              (setImportStatus latest (fun s => s <| mist_PipelineRunRef := om_Name (pr_Meta pr) |>))
      end
  end.

(** Follows the run of an import that has one. *)
Definition followImportRun (m : MirrorImport) (req : NamespacedName) : prog reconcile_out :=
  g ← Get KPipelineRun (mkNN (nn_Namespace req) (mist_PipelineRunRef (mi_Status m)));
  match g with
  | Err e =>
      if IsNotFound e then
        return_status_update KMirrorImport
          (setImportStatus m (fun s => s <| mist_PipelineRunRef := "" |>))
      else fail_with e
  | Ok pr =>
      let phase := importPipelineRunPhase pr in
      if phase == "Complete" then
        return_status_update KMirrorImport
          (setImportStatus m (fun s => s <| mist_Phase := "Publishing" |>))
      else if phase == "Failed" then
        return_status_update KMirrorImport
          (setImportStatus m (fun s => s <| mist_Phase := "Failed" |>))
      else done
  end.

Definition trackImportPipelineRun (r : MirrorImportReconciler) (m : MirrorImport)
    (req : NamespacedName) : prog reconcile_out :=
  let configName := "mirror-import-config-" +:+ mi_Name m in
  cm ← ensureImportConfigMap m configName;
  match cm with
  | Err e => fail_with e
  | Ok _ =>
      if mist_PipelineRunRef (mi_Status m) != "" then followImportRun m req
      else startImportRun r m configName
  end.

(** The version an import is recorded under. *)
Definition importVersion (m : MirrorImport) : string :=
  let version := mis_CollectionVersion (mi_Spec m) in
  if version == "" then
    "import-" +:+ mi_Name m +:+ "-" +:+
      Format20060102 UTCOffset (om_CreationTimestamp (mi_ObjectMeta m))
  else version.

Definition recordImport (info : ImportInfo) (s : DisconnectedPlatformStatus) : DisconnectedPlatformStatus :=
  s <| dpst_LastImport := Some info |> <| dpst_ImportHistory ::= fun h => snoc h info |>.

Definition updatePlatformImportHistory (m : MirrorImport) : prog () :=
  r ← findPlatform;
  match r with
  | Err _ | Ok None => mret ()
  | Ok (Some platform) =>
      now ← Now;
      let info := mkImportInfo (importVersion m) now "Complete" in
      _ ← StatusUpdate KDisconnectedPlatform (platform <| dp_Status ::= recordImport info |>);
      mret ()
  end.

Definition finalizeImport (m : MirrorImport) : prog reconcile_out :=
  u ← StatusUpdate KMirrorImport (setImportStatus m (fun s => s <| mist_Phase := "Complete" |>));
  match u with
  | Err e => fail_with e
  | Ok m => _ ← updatePlatformImportHistory m; done
  end.

Definition importPhase (m : MirrorImport) : string := mist_Phase (mi_Status m).

(** The switch on the phase. *)
Definition advanceImport (r : MirrorImportReconciler) (m : MirrorImport) (req : NamespacedName)
  : prog reconcile_out :=
  if importPhase m == "" then startImport m
  else if importPhase m == "Importing" then trackImportPipelineRun r m req
  else if importPhase m == "Publishing" then finalizeImport m
  else done.

Definition Reconcile (r : MirrorImportReconciler) (req : NamespacedName) : prog reconcile_out :=
  g ← Get KMirrorImport req;
  match g with
  | Err e => if IsNotFound e then done else fail_with e
  | Ok m =>
      let has := containsString (mi_Finalizers m) importFinalizer in
      if IsZero (om_DeletionTimestamp (mi_ObjectMeta m)) then
        if negb has then
          return_update KMirrorImport (withImportFinalizers m (fun l => snoc l importFinalizer))
        else advanceImport r m req
      else if has then
        return_update KMirrorImport (withImportFinalizers m (fun l => removeString l importFinalizer))
      else done
  end.
End Reconciler.
