(* ===== verification/ImportProps.v ===== *)
(** Properties of the MirrorImport reconciler, over every execution. *)
From S2P Require Import Prelude GoStrings K8s GoTime Api Kube Externals Helpers ImageSet Instances.
From S2P Require Import Samples CollectionBuild Collection ImportController.

(** ** The phases of an import *)

(** What a status update does to the phase. *)
Inductive import_step : string -> string -> Prop :=
| import_stay p : import_step p p
| import_begin : import_step "" "Importing"
| import_duplicate : import_step "" "Failed"
| import_published : import_step "Importing" "Publishing"
| import_failed : import_step "Importing" "Failed"
| import_complete : import_step "Publishing" "Complete".

(** How far an import is. *)
Definition phase_rank (p : string) : nat :=
  if p == "" then 0 else if p == "Importing" then 1 else if p == "Publishing" then 2 else 3.

Lemma import_step_rank p q : import_step p q -> p = q \/ (phase_rank p < phase_rank q)%nat.
Proof. destruct 1; [by left|right; vm_compute; lia..]. Qed.

(** A status update of an import takes a step from a phase in [P]. *)
Definition steps_from (P : string -> Prop) (c : call) : Prop :=
  match c with
  | CStatusUpdate KMirrorImport m => exists p, P p /\ import_step p (importPhase m)
  | _ => True
  end.

(** The phases of the imports read are in [P]. *)
Definition reads_phase (P : string -> Prop) (e : event) : Prop :=
  match e with
  | Ev (CGet KMirrorImport _) (Ok m) => P (importPhase m)
  | _ => True
  end.

Definition active (p : string) : Prop := In p [""; "Importing"; "Publishing"].

Section Props.
Context {X : Externals}.

Lemma reads_importPlatform : always (calls reads) findPlatform.
Proof. unfold findPlatform. always_go; by repeat constructor. Qed.

Lemma reads_resolve : always (calls reads) resolveNodeRegistries.
Proof. unfold resolveNodeRegistries, findPlatform. always_go; by repeat constructor. Qed.

Lemma reads_build r m n : always (calls reads) (buildImportPipelineRun r m n).
Proof. unfold buildImportPipelineRun. pose proof reads_resolve. always_go. Qed.

Lemma steps_reads P {A} (p : prog A) : always (calls reads) p -> always (calls (steps_from P)) p.
Proof. apply always_mono. intros tr. apply calls_mono. by intros []. Qed.

Section Steps.
Context (P : string -> Prop).
Abbreviation stepping p := (rg (reads_phase P) (steps_from P) p (fun _ => True)).

Lemma stepping_always {A} (p : prog A) : always (calls (steps_from P)) p -> stepping p.
Proof. intros H. by apply rg_always. Qed.

Lemma stepping_update m f :
  P (importPhase m) -> import_step (importPhase m) (importPhase (setImportStatus m f)) ->
  stepping (return_status_update KMirrorImport (setImportStatus m f)).
Proof.
  intros HP Hs. eapply (rg_bind _ _ _ _ (fun _ => True)); [apply rg_call; [|done]|].
  - by eexists.
  - intros u _. by apply rg_ret.
Qed.

Lemma stepping_begin m : P (importPhase m) -> importPhase m = "" -> stepping (beginImport m).
Proof. intros HP E. apply stepping_update; [done|]. rewrite E. constructor. Qed.

Lemma stepping_startImport m : P (importPhase m) -> importPhase m = "" -> stepping (startImport m).
Proof.
  intros HP E. unfold startImport. cbv zeta. destruct (_ != ""); [|by apply stepping_begin].
  eapply rg_bind; [apply stepping_always, steps_reads, reads_importPlatform|].
  intros [[pl|]|e] _; [|by apply stepping_begin|by apply rg_ret].
  destruct (versionExists _ _); [|by apply stepping_begin].
  eapply (rg_bind _ _ _ _ (fun _ => True)); [by apply rg_call|]. intros now _.
  apply stepping_update; [done|]. rewrite E. constructor.
Qed.

Lemma stepping_follow m req : P (importPhase m) -> importPhase m = "Importing" -> stepping (followImportRun m req).
Proof.
  intros HP E. unfold followImportRun. eapply (rg_bind _ _ _ _ (fun _ => True)); [by apply rg_call|].
  intros [pr|e] _.
  - cbv zeta. destruct (_ == "Complete"); [apply stepping_update; [done|rewrite E; constructor]|].
    destruct (_ == "Failed"); [apply stepping_update; [done|rewrite E; constructor]|by apply rg_ret].
  - destruct (IsNotFound e); [apply stepping_update; [done|constructor]|by apply rg_ret].
Qed.

Lemma stepping_startRun r m n : stepping (startImportRun r m n).
Proof.
  unfold startImportRun. eapply rg_bind; [apply stepping_always, steps_reads, reads_build|].
  intros pr _. eapply (rg_bind _ _ _ _ (fun _ => True)); [by apply rg_call|].
  intros [pr'|e] _; [|by destruct (_ || _); apply rg_ret].
  eapply (rg_bind _ _ _ _ (fun g => match g with Ok m => P (importPhase m) | Err _ => True end)).
  { apply rg_call; [done|]. by intros [latest|e]. }
  intros [latest|e] HP; [|by apply rg_ret]. cbv zeta. destruct (_ && _).
  - eapply (rg_bind _ _ _ _ (fun _ => True)); [by apply rg_call|]. intros d _. by apply rg_ret.
  - apply stepping_update; [done|constructor].
Qed.

Lemma stepping_history m : stepping (updatePlatformImportHistory m).
Proof.
  apply stepping_always. unfold updatePlatformImportHistory.
  pose proof (steps_reads P _ reads_importPlatform). always_go; by repeat constructor.
Qed.

Lemma stepping_Reconcile r req : stepping (Reconcile r req).
Proof.
  unfold Reconcile.
  eapply (rg_bind _ _ _ _ (fun g => match g with Ok m => P (importPhase m) | Err _ => True end)).
  { apply rg_call; [done|]. by intros [m|e]. }
  intros [m|e] HP; [|by destruct (IsNotFound e); apply rg_ret]. cbv zeta.
  destruct (IsZero _); destruct (containsString _ _); simpl negb; cbv iota;
    try (apply stepping_always; always_go; by repeat constructor).
  unfold advanceImport.
  destruct (importPhase m == "") eqn:E1; [str_eq; by apply stepping_startImport|].
  destruct (importPhase m == "Importing") eqn:E2; str_eq.
  { unfold trackImportPipelineRun. cbv zeta. eapply rg_bind.
    - apply stepping_always. unfold ensureImportConfigMap. always_go; by repeat constructor.
    - intros [cm|e] _; [|by apply rg_ret]. destruct (_ != ""); [by apply stepping_follow|apply stepping_startRun]. }
  destruct (importPhase m == "Publishing") eqn:E3; str_eq; [|by apply rg_ret].
  unfold finalizeImport. eapply (rg_bind _ _ _ _ (fun _ => True)).
  { apply rg_call; [|done]. exists (importPhase m). split; [done|]. rewrite E3. constructor. }
  intros [m'|e] _; [|by apply rg_ret]. eapply rg_bind; [apply stepping_history|].
  intros [] _. by apply rg_ret.
Qed.
End Steps.

(** C18: The phase machine of an import.  Every status update a reconcile sends takes a step
    of the machine from the phase of an import it has read, and a step that changes the
    phase brings the import closer to its end: there are at most three of them. *)
Theorem Import_phase_steps (r : MirrorImportReconciler) (req : NamespacedName) tr o m' u :
  exec (Reconcile r req) tr o ->
  In (Ev (CStatusUpdate KMirrorImport m') u) tr ->
  exists k m, In (Ev (CGet KMirrorImport k) (Ok m)) tr /\
    import_step (importPhase m) (importPhase m') /\
    (importPhase m <> importPhase m' -> (phase_rank (importPhase m) < phase_rank (importPhase m') <= 3)%nat).
Proof.
  intros He Hin.
  set (P := fun p => exists k m, In (Ev (CGet KMirrorImport k) (Ok m)) tr /\ importPhase m = p).
  assert (HR : Forall (reads_phase P) tr).
  { apply List.Forall_forall. intros [c rep] Hc. destruct c; try done. destruct K; try done.
    destruct rep as [m|e]; [|done]. by exists k, m. }
  destruct (rg_exec _ _ _ _ _ _ (stepping_Reconcile P r req) He HR) as [HG _].
  unfold calls in HG. rewrite List.Forall_forall in HG.
  destruct (HG _ Hin) as (p & (k & m & Hk & <-) & Hs). exists k, m. split_and!; [done|done|].
  intros Hne. destruct (import_step_rank _ _ Hs) as [|Hlt]; [done|]. split; [done|].
  unfold phase_rank. repeat case_match; lia.
Qed.

Definition import_deleting (m : MirrorImport) : bool :=
  negb (IsZero (om_DeletionTimestamp (mi_ObjectMeta m))).
Definition import_finalized (m : MirrorImport) : bool :=
  containsString (mi_Finalizers m) importFinalizer.

(** An execution of the reconciler on the import it finds. *)
Definition dispatches (r : MirrorImportReconciler) (req : NamespacedName) (tr : trace)
    (o : outcome reconcile_out) : Prop :=
  exists g rest, tr = Ev (CGet KMirrorImport req) g :: rest /\
    match g with
    | Err e => rest = [] /\ o = Done (Result0, if IsNotFound e then None else Some e)
    | Ok m =>
        if import_deleting m then
          if import_finalized m then exists u,
            rest = [Ev (CUpdate KMirrorImport
                      (withImportFinalizers m (fun l => removeString l importFinalizer))) u] /\
            o = Done (Result0, err_of u)
          else rest = [] /\ o = Done (Result0, None)
        else if import_finalized m then
          (~ active (importPhase m) -> rest = [] /\ o = Done (Result0, None)) /\
          (importPhase m = "" -> exec (startImport m) rest o) /\
          (importPhase m = "Importing" -> exec (trackImportPipelineRun r m req) rest o) /\
          (importPhase m = "Publishing" -> exec (finalizeImport m) rest o)
        else exists u,
          rest = [Ev (CUpdate KMirrorImport (withImportFinalizers m (fun l => snoc l importFinalizer))) u] /\
          o = Done (Result0, err_of u)
    end.

(** What a reconcile of an import may do, by the state in which it finds it: nothing when
    it is finished; only the finalizer when it is missing or the import is being deleted;
    otherwise the handler of its phase. *)
Theorem Import_dispatch (r : MirrorImportReconciler) (req : NamespacedName) tr o :
  exec (Reconcile r req) tr o -> dispatches r req tr o.
Proof.
  intros H. apply exec_inv in H as (g & rest & -> & H). exists g, rest. split; [done|].
  destruct g as [m|e].
  2:{ simpl in H. destruct (IsNotFound e); by apply exec_inv in H as [-> ->]. }
  change (exec (if IsZero (om_DeletionTimestamp (mi_ObjectMeta m)) then
                  if negb (import_finalized m) then
                    return_update KMirrorImport (withImportFinalizers m (fun l => snoc l importFinalizer))
                  else advanceImport r m req
                else if import_finalized m then
                  return_update KMirrorImport
                    (withImportFinalizers m (fun l => removeString l importFinalizer))
                else done) rest o) in H.
  unfold import_deleting.
  assert (Hu : forall q, exec (return_update KMirrorImport q) rest o ->
            exists u, rest = [Ev (CUpdate KMirrorImport q) u] /\ o = Done (Result0, err_of u)).
  { intros q Hq. apply exec_inv in Hq as (u & t & -> & Hq). apply exec_inv in Hq as [-> ->]. eauto. }
  destruct (IsZero _), (import_finalized m); simpl negb in *; cbv iota in *; auto;
    [|by apply exec_inv in H].
  unfold advanceImport in H. split_and!.
  - intros Ha. assert (Hn : importPhase m <> "" /\ importPhase m <> "Importing" /\ importPhase m <> "Publishing").
    { unfold active in Ha. simpl in Ha. naive_solver. }
    destruct Hn as (N1 & N2 & N3). rewrite !str_eqb_ne in H by done. by apply exec_inv in H.
  - intros E. rewrite E in H. exact H.
  - intros E. rewrite E in H. exact H.
  - intros E. rewrite E in H. exact H.
Qed.

(** ** Recording an import *)

(** A platform update that appends one entry under the import's version. *)
Definition records_import (m : MirrorImport) (c : call) : Prop :=
  match c with
  | CStatusUpdate KDisconnectedPlatform pl' => exists pl now,
      pl' = pl <| dp_Status ::= recordImport (mkImportInfo (importVersion m) now "Complete") |>
  | c => reads c
  end.

(** An import is recorded once it is complete: the first write of [finalizeImport] is the
    status with phase Complete; when it fails nothing else is written and the error is
    returned, so the history is retried; when it succeeds at most one platform update
    follows, which appends one entry with the import's version to the history. *)
Theorem finalizeImport_records (m : MirrorImport) tr o :
  exec (finalizeImport m) tr o ->
  exists u rest,
    tr = Ev (CStatusUpdate KMirrorImport
               (setImportStatus m (fun s => s <| mist_Phase := "Complete" |>))) u :: rest /\
    match u with
    | Err e => rest = [] /\ o = Done (Result0, Some e)
    | Ok m' => o = Done (Result0, None) /\ calls (records_import m') rest /\
               (length (writes rest) <= 1)%nat
    end.
Proof.
  intros H. apply exec_inv in H as (u & rest & -> & H). exists u, rest. split; [done|].
  destruct u as [m'|e]; simpl in H; [|by apply exec_inv in H].
  change (exec (_ ← updatePlatformImportHistory m'; done) rest o) in H.
  apply exec_bind_returns in H as ([] & t1 & t2 & -> & H1 & H).
  2:{ unfold updatePlatformImportHistory, findPlatform. returns_go. }
  apply exec_inv in H as [-> ->]. rewrite app_nil_r. split; [done|].
  apply exec_inv in H1 as (l & t & -> & H1).
  destruct l as [[|pl l]|e]; simpl in H1;
    [apply exec_inv in H1 as [-> _]; split; [by repeat constructor|simpl; lia]| |
     apply exec_inv in H1 as [-> _]; split; [by repeat constructor|simpl; lia]].
  apply exec_inv in H1 as (now & t3 & -> & H1). apply exec_inv in H1 as (w & t4 & -> & H1).
  apply exec_inv in H1 as [-> _]. split; [|simpl; lia].
  constructor; [done|]. constructor; [done|]. constructor; [by exists pl, now|constructor].
Qed.

(** ** Panics *)

(** The platform that is found has an [airgapped] section. *)
Definition airgapped_platform (e : event) : Prop :=
  match e with
  | Ev (CList KDisconnectedPlatform _ _) (Ok (pl :: _)) => dps_Airgapped (dp_Spec pl) <> None
  | _ => True
  end.

(** The condition under which a program does not panic. *)
Definition safe_if (R : event -> Prop) {A} (p : prog A) : Prop :=
  wp p (fun tr o => Forall R tr -> exists a, o = Done a).

Lemma safe_bind R {A B} (p : prog A) (f : A -> prog B) :
  safe_if R p -> (forall a, safe_if R (f a)) -> safe_if R (p ≫= f).
Proof.
  unfold safe_if. intros Hp Hf. apply wp_bind. eapply wp_mono; [|exact Hp].
  intros tr [a|m] H.
  - eapply wp_mono; [|apply Hf]. intros tr' o' H' HR. apply H'. by apply Forall_app in HR as [_ ?].
  - intros HR. by destruct (H HR).
Qed.

Lemma safe_returns R {A} (p : prog A) : returns p -> safe_if R p.
Proof. apply wp_mono. auto. Qed.

Lemma safe_resolve : safe_if airgapped_platform resolveNodeRegistries.
Proof.
  intros l. unfold resolveNodeRegistries, findPlatform.
  destruct l as [[|pl l]|e]; simpl; [eauto| |eauto].
  destruct (dps_Airgapped (dp_Spec pl)) as [a|] eqn:E; simpl.
  - destruct (ac_MirrorRegistryConfig a); simpl; [|eauto]. intros [nodes|e]; simpl; eauto.
  - intros H. apply Forall_cons in H as [H _]. by destruct (H E).
Qed.

Lemma safe_startRun r m n : safe_if airgapped_platform (startImportRun r m n).
Proof.
  unfold startImportRun, buildImportPipelineRun.
  apply safe_bind; [apply safe_bind; [apply safe_resolve|intros; by apply safe_returns; eexists]|].
  intros pr. apply safe_returns. returns_go.
Qed.

(** The only thing that makes a reconcile of an import panic is a platform without an
    [airgapped] section, found while the run of an import is being built. *)
Theorem Import_panics_only_connected (r : MirrorImportReconciler) (req : NamespacedName) tr msg :
  exec (Reconcile r req) tr (Panicked msg) ->
  exists ns labels pl rest, In (Ev (CList KDisconnectedPlatform ns labels) (Ok (pl :: rest))) tr /\
    dps_Airgapped (dp_Spec pl) = None.
Proof.
  intros He.
  assert (Hs : safe_if airgapped_platform (Reconcile r req)).
  { unfold Reconcile, advanceImport, trackImportPipelineRun.
    apply safe_bind; [apply safe_returns; returns_go|]. intros [m|e]; [|apply safe_returns; returns_go].
    cbv zeta. destruct (IsZero _); destruct (containsString _ _); simpl negb; cbv iota;
      try solve [apply safe_returns; returns_go].
    destruct (importPhase m == ""); [apply safe_returns; unfold startImport, beginImport, findPlatform; returns_go|].
    destruct (importPhase m == "Importing").
    - apply safe_bind; [apply safe_returns; unfold ensureImportConfigMap; returns_go|].
      intros [cm|e]; [|apply safe_returns; returns_go].
      destruct (_ != ""); [apply safe_returns; unfold followImportRun; returns_go|apply safe_startRun].
    - apply safe_returns. unfold finalizeImport, updatePlatformImportHistory, findPlatform. returns_go. }
  unfold safe_if in Hs. rewrite wp_exec in Hs. specialize (Hs _ _ He).
  assert (Hx : Exists (fun e => ~ airgapped_platform e) tr).
  { apply not_Forall_Exists; [|intros HR; by destruct (Hs HR)].
    intros [c rep]. unfold Decision. destruct c; try (left; exact I). destruct K; try (left; exact I).
    destruct rep as [[|pl l]|e]; [left; exact I| |left; exact I]. simpl.
    destruct (dps_Airgapped (dp_Spec pl)); [left; done|right; auto]. }
  apply Exists_exists in Hx as ([c rep] & Hin & Hn). destruct c; try (by destruct Hn).
  destruct K; try (by destruct Hn). destruct rep as [[|pl l]|e]; try (by destruct Hn).
  exists ns, labels, pl, l. split; [by apply list_elem_of_In|]. simpl in Hn.
  destruct (dps_Airgapped (dp_Spec pl)); [|done]. by destruct Hn.
Qed.

(** ** The run of an import *)

Definition importParamNames : list string :=
  ["bundle-filename"; "target-registry"; "mirror-image"; "verify-enabled"; "cosign-pub-secret";
   "node-registries"].

Definition importParam (pr : PipelineRun) (name : string) : string :=
  match find_first (fun p => p_Name p == name) (prs_Params (pr_Spec pr)) with
  | Some p => p_StringVal p
  | None => ""
  end.

(** What the run of import [m] looks like. *)
Record import_run_spec (m : MirrorImport) (configName : string) (pr : PipelineRun) : Prop := {
  irs_params : map p_Name (prs_Params (pr_Spec pr)) = importParamNames;
  irs_workspaces : map ws_Name (prs_Workspaces (pr_Spec pr)) =
    ["bundle-data"; "config"; "pull-secret"; "cosign-pub"; "cluster-ca-bundle"];
  irs_verify : importParam pr "verify-enabled" = "true" <-> verifyKey m <> None;
  irs_key : forall ref, verifyKey m = Some ref ->
    In (mkWorkspace "cosign-pub" (WsSecret (lor_Name ref))) (prs_Workspaces (pr_Spec pr)) /\
    importParam pr "cosign-pub-secret" = lor_Name ref;
  irs_nokey : verifyKey m = None ->
    In (mkWorkspace "cosign-pub" WsEmptyDir) (prs_Workspaces (pr_Spec pr));
  irs_bundle : In (mkWorkspace "bundle-data" (WsPVC (bs_PVC (mis_Bundle (mi_Spec m)))))
    (prs_Workspaces (pr_Spec pr));
  irs_timeouts : prs_TimeoutPipeline (pr_Spec pr) = Some (6 * Hour)%Z /\
    prs_TimeoutTasks (pr_Spec pr) = Some (4 * Hour)%Z;
}.

Lemma import_run_spec_intro r m n nodes :
  import_run_spec m n (importPipelineRun m (importParams r m nodes) (importWorkspaces m n)).
Proof.
  split; try done.
  - unfold importParam. simpl. by destruct (verifyKey m).
  - intros ref E. unfold importParam, importWorkspaces, cosignPubWorkspace. simpl. rewrite E. auto 6.
  - intros E. unfold importWorkspaces, cosignPubWorkspace. simpl. rewrite E. auto 6.
  - by left.
Qed.

(** The targets of the nodes: one per node that has an internal address, in order. *)
Lemma nodeTargets_spec nodes port :
  nodeTargets nodes port =
    map (fun ip => ip +:+ ":" +:+ itoa port) (omap internalIP nodes).
Proof.
  induction nodes as [|n nodes IH]; simpl; [done|]. destruct (internalIP n); simpl; by rewrite IH.
Qed.

Definition import_no_run (c : call) : Prop := creates KPipelineRun c = false.

(** What becomes of the run an import creates. *)
Definition import_run_fate (pr : PipelineRun) (tr : trace) (o : outcome reconcile_out) : Prop :=
  exists k g rest, tr = Ev (CGet KMirrorImport k) g :: rest /\
    match g with
    | Err e => rest = [] /\ o = Done (Result0, Some e)
    | Ok latest =>
        if (mist_PipelineRunRef (mi_Status latest) != "") &&
           (mist_PipelineRunRef (mi_Status latest) != om_Name (pr_Meta pr))
        then exists d, rest = [Ev (CDelete KPipelineRun pr) d] /\ o = Done (Requeue, None)
        else exists u,
               rest = [Ev (CStatusUpdate KMirrorImport
                 (setImportStatus latest (fun s => s <| mist_PipelineRunRef := om_Name (pr_Meta pr) |>))) u] /\
               o = Done (Result0, err_of u)
    end.

Inductive one_import_run (m : MirrorImport) (n : string) : trace -> outcome reconcile_out -> Prop :=
| import_run_none tr msg : calls import_no_run tr -> one_import_run m n tr (Panicked msg)
| import_run_refused t1 pr e :
    calls reads t1 -> import_run_spec m n pr ->
    one_import_run m n (t1 ++ [Ev (CCreate KPipelineRun pr) (Err e)])
      (Done (if IsAlreadyExists e || IsConflict e then (Requeue, None) else (Result0, Some e)))
| import_run_created t1 pr pr' rest o :
    calls reads t1 -> import_run_spec m n pr -> import_run_fate pr' rest o ->
    one_import_run m n (t1 ++ Ev (CCreate KPipelineRun pr) (Ok pr') :: rest) o.

(** Starting the run of an import.  After reads only, exactly one PipelineRun is sent,
    which mounts the verification key exactly when verification is configured (an empty
    volume otherwise) and has the parameters of the template; when it is created it is
    either recorded as the import's run or, when the import already has another, deleted.
    Otherwise the look-up of the node registries panicked and nothing was created. *)
Theorem startImportRun_spec (r : MirrorImportReconciler) (m : MirrorImport) (n : string) tr o :
  exec (startImportRun r m n) tr o -> one_import_run m n tr o.
Proof.
  unfold startImportRun. intros [(msg & H & ->)|(pr & t1 & t2 & H1 & H & ->)]%exec_bind.
  - apply import_run_none. eapply always_exec, H. eapply always_mono, reads_build.
    intros t. apply calls_mono. by intros [].
  - assert (Hr : calls reads t1) by (eapply always_exec, H1; apply reads_build).
    assert (Hs : import_run_spec m n pr).
    { apply exec_bind in H1 as [(msg & _ & E)|(nodes & s1 & s2 & _ & H1 & _)]; [done|].
      apply exec_inv in H1 as [_ [= ->]]. apply import_run_spec_intro. }
    apply exec_inv in H as ([pr'|e] & rest & -> & H).
    + apply import_run_created; [done|done|].
      apply exec_inv in H as (g & t & -> & H). eexists _, g, t. split; [done|].
      destruct g as [latest|e]; [|by apply exec_inv in H].
      lazymatch goal with |- if ?b then _ else _ =>
        change (exec (if b then _ ← Delete KPipelineRun pr'; mret (Requeue, None)
                      else return_status_update KMirrorImport
                             (setImportStatus latest (fun s =>
                                s <| mist_PipelineRunRef := om_Name (pr_Meta pr') |>))) t o) in H;
        destruct b
      end.
      * apply exec_inv in H as (d & t3 & -> & H). apply exec_inv in H as [-> ->]. eauto.
      * apply exec_inv in H as (u & t3 & -> & H). apply exec_inv in H as [-> ->]. eauto.
    + assert (rest = [] /\ o = Done (if IsAlreadyExists e || IsConflict e then (Requeue, None)
                                     else (Result0, Some e))) as [-> ->].
      { simpl in H. destruct (_ || _); by apply exec_inv in H. }
      by apply import_run_refused.
Qed.
End Props.

(** ** Worked examples *)

#[local] Existing Instance sampleX.

Definition sampleImport (phase ref : string) : MirrorImport :=
  mkMirrorImport (mkTypeMeta "" "")
    ((sampleMeta "mirror" "import-a") <| om_Finalizers := [importFinalizer] |>)
    (mkMirrorImportSpec "text" (mkBundleSource "bundle-pvc" "bundle.tar.gz")
       (mkRegistryConfig "registry.local:8443" "") (mkPublishConfig true true) "v2024.05.17.001-manual" None)
    (mkMirrorImportStatus [] phase ref).

Definition importReq : NamespacedName := mkNN "mirror" "import-a".
Definition importReconciler : MirrorImportReconciler := mkImportReconciler "".
Definition importReconcile : prog reconcile_out := Reconcile importReconciler importReq.
Definition importStore (m : MirrorImport) : store := with_objs emptyStore KMirrorImport [m].

Definition connectedPlatform : DisconnectedPlatform :=
  mkDisconnectedPlatform (mkTypeMeta "" "") (sampleMeta "" "platform")
    (mkDisconnectedPlatformSpec "connected" None None None None)
    (mkDisconnectedPlatformStatus "" [] None [] None [] [] None).
Definition connectedStore : store :=
  with_objs (importStore (sampleImport "Importing" "")) KDisconnectedPlatform [connectedPlatform].

(** An import on a connected platform panics. *)
Example connected_import_panics :
  outcomeOf importReconcile connectedStore =
    Panicked "invalid memory address or nil pointer dereference".
Proof. vm_compute. reflexivity. Qed.

Lemma Import_panics_only_connected_witness :
  exists ns labels pl rest,
    In (Ev (CList KDisconnectedPlatform ns labels) (Ok (pl :: rest))) (traceOf importReconcile connectedStore) /\
    dps_Airgapped (dp_Spec pl) = None.
Proof.
  apply (Import_panics_only_connected importReconciler importReq _
           "invalid memory address or nil pointer dereference").
  rewrite <- connected_import_panics. apply traceOf_exec.
Defined.

Definition newImportTrace : trace := traceOf importReconcile (importStore (sampleImport "" "")).
Definition begunImport : MirrorImport := sampleImport "Importing" "".

Lemma Import_phase_steps_witness :
  exists k m, In (Ev (CGet KMirrorImport k) (Ok m)) newImportTrace /\
    import_step (importPhase m) (importPhase begunImport) /\
    (importPhase m <> importPhase begunImport ->
     (phase_rank (importPhase m) < phase_rank (importPhase begunImport) <= 3)%nat).
Proof.
  apply (Import_phase_steps importReconciler importReq newImportTrace
           (outcomeOf importReconcile (importStore (sampleImport "" ""))) begunImport (Ok begunImport)).
  - apply traceOf_exec.
  - vm_compute. tauto.
Defined.

Lemma Import_dispatch_witness :
  dispatches importReconciler importReq newImportTrace
    (outcomeOf importReconcile (importStore (sampleImport "" ""))).
Proof. apply Import_dispatch, traceOf_exec. Defined.

Definition publishing : MirrorImport := sampleImport "Publishing" "run-1".
Definition publishStore : store :=
  with_objs (importStore publishing) KDisconnectedPlatform [connectedPlatform].

Lemma finalizeImport_records_witness :
  map (fun pl => map ii_Version (dpst_ImportHistory (dp_Status pl)))
    (st_objs (snd (run (finalizeImport publishing) publishStore)) KDisconnectedPlatform) =
    [["v2024.05.17.001-manual"]] /\
  exists u rest,
    traceOf (finalizeImport publishing) publishStore =
      Ev (CStatusUpdate KMirrorImport
            (setImportStatus publishing (fun s => s <| mist_Phase := "Complete" |>))) u :: rest /\
    match u with
    | Err e => rest = [] /\ outcomeOf (finalizeImport publishing) publishStore = Done (Result0, Some e)
    | Ok m' => outcomeOf (finalizeImport publishing) publishStore = Done (Result0, None) /\
               calls (records_import m') rest /\ (length (writes rest) <= 1)%nat
    end.
Proof.
  split; [vm_compute; reflexivity|]. apply finalizeImport_records, traceOf_exec.
Defined.

Definition exampleRun : prog reconcile_out := startImportRun importReconciler begunImport "cfg".

Lemma startImportRun_spec_witness :
  one_import_run begunImport "cfg" (traceOf exampleRun (importStore begunImport))
    (outcomeOf exampleRun (importStore begunImport)) /\
  map (fun m => mist_PipelineRunRef (mi_Status m))
    (st_objs (snd (run exampleRun (importStore begunImport))) KMirrorImport) = ["import-import-a-x7k2p"].
Proof. split; [apply (startImportRun_spec importReconciler), traceOf_exec|vm_compute; reflexivity]. Defined.
