(* ===== verification/Health.v ===== *)
(** The periodic health check of Red Hat Trusted Artifact Signer
    ([rhtashealthcheck_controller.go]): four checks whose outcome is written as a
    condition of the Securesign object. *)
From S2P Require Import Prelude GoStrings K8s GoTime Base64 Api Kube Externals Helpers.

Definition securesignGVK := mkGVK "rhtas.redhat.com" "v1alpha1" "Securesign".
Definition keycloakGVK := mkGVK "k8s.keycloak.org" "v2alpha1" "Keycloak".
Abbreviation KSecuresign := (KUnstructured securesignGVK).
Abbreviation KKeycloak := (KUnstructured keycloakGVK).

Definition withObject (u : Unstructured) (m : fields) : Unstructured := u <| u_Object := m |>.

(** ** The keys of the TUF repository *)

(** [n, _ := km["name"].(string)]. *)
Definition nameOf (m : fields) : string := default "" (as_string (jget m "name")).

Definition problematicKey (key : json) : bool :=
  match as_map key with
  | Some keyMap => nameOf keyMap == "tsa.certchain.pem"
  | None => false
  end.

(** An entry that is not a map is not copied either. *)
Definition keptKey (key : json) : bool :=
  match as_map key with
  | Some km => nameOf km != "tsa.certchain.pem"
  | None => false
  end.

(** ** The condition of the health check *)

Definition healthCondition (healthy : bool) (message lastTransitionTime : string) : json :=
  JMap [ ("type", JStr "HealthCheckPassed");
         ("status", JStr (if healthy then "True" else "False"));
         ("reason", JStr (if healthy then "AllHealthChecksPassed" else "HealthCheckFailed"));
         ("message", JStr message);
         ("lastTransitionTime", JStr lastTransitionTime) ].

Definition isConditionOf (type_ : string) (cond : json) : bool :=
  match as_map cond with
  | Some condMap => iface_is (jget condMap "type") type_
  | None => false
  end.

(** The condition is replaced where it is, or appended. *)
Definition upsertCondition (healthCond : json) (conditions : list json) : list json :=
  match update_first (isConditionOf "HealthCheckPassed") (fun _ => healthCond) conditions with
  | Some l => l
  | None => snoc conditions healthCond
  end.

(** ** The token of the OIDC client *)

Definition clientSecretKey : NamespacedName :=
  mkNN architectNamespace "mirror-operator-keycloak-client-secret".

(** The managed Keycloak of a platform, if any. *)
Definition managedKeycloak (platform : DisconnectedPlatform) : option ManagedKeycloakConfig :=
  connected ← dps_Connected (dp_Spec platform);
  rhtas ← cc_RHTAS connected;
  oidc ← ric_OIDC rhtas;
  roc_Managed oidc.

Definition realmName (m : ManagedKeycloakConfig) : string :=
  if mkc_Realm m == "" then "trusted-artifact-signer" else mkc_Realm m.

Definition tokenURL (domain realm : string) : string :=
  "https://keycloak." +:+ domain +:+ "/realms/" +:+ realm +:+ "/protocol/openid-connect/token".

Definition tokenRequest (clientSecret : string) : list (string * string) :=
  [("grant_type", "client_credentials"); ("client_id", "trusted-artifact-signer");
   ("client_secret", clientSecret)].

Section Health.
Context {X : Externals}.

(** What the claims of a token say. *)
Definition checkClaims (claims : fields) : option error :=
  if negb (jhas claims "email_verified") then
    Some (Errorf "email_verified claim is missing from OIDC token")
  else
    let emailVerified := jget claims "email_verified" in
    match as_bool emailVerified with
    | Some true => None
    | _ => Some (Errorf ("email_verified claim is false (value: " +:+ FormatValue emailVerified +:+ ")"))
    end.

(** The payload of a JWT is its second part, in unpadded URL base64. *)
Definition checkToken (accessToken : string) : option error :=
  match Split accessToken "." with
  | [_; part; _] =>
      match RawURLDecodeString part with
      | None => Some (Errorf "failed to decode JWT payload")
      | Some payload =>
          match json_Unmarshal_map payload with
          | Err e => Some (Wrapf "failed to unmarshal JWT claims" e)
          | Ok claims => checkClaims claims
          end
      end
  | _ => Some (Errorf "invalid JWT format")
  end.

Definition checkTokenResponse (resp : HttpResponse) : option error :=
  if negb (http_StatusCode resp =? 200)%Z then
    Some (Errorf ("token request failed with status " +:+ itoa (http_StatusCode resp)))
  else
    match http_Body resp with
    | Err e => Some (Wrapf "failed to decode token response" e)
    | Ok tokenResp =>
        match as_string (jget tokenResp "access_token") with
        | Some accessToken =>
            if accessToken == "" then Some (Errorf "no access token in response")
            else checkToken accessToken
        | None => Some (Errorf "no access token in response")
        end
    end.

(** Asks the managed Keycloak for a token and checks it. *)
Definition requestToken (m : ManagedKeycloakConfig) (clientSecret : string) : prog (option error) :=
  g ← Get (KUnstructured gvkIngress) (clusterKey "cluster");
  match g with
  | Err e => mret (Some e)
  | Ok ingress =>
      let domain := nested_string (u_Object ingress) ["spec"; "domain"] in
      resp ← PostForm (tokenURL domain (realmName m)) (tokenRequest clientSecret);
      match resp with
      | Err e => mret (Some (Wrapf "failed to get access token" e))
      | Ok resp => mret (checkTokenResponse resp)
      end
  end.

Definition validateEmailVerifiedClaim : prog (option error) :=
  s ← Get KSecret clientSecretKey;
  match s with
  | Err e => mret (if IsNotFound e then None else Some e)
  | Ok secret =>
      let clientSecret := map_get (sec_Data secret) "clientSecret" in
      if clientSecret == "" then mret None
      else
        l ← List_ KDisconnectedPlatform None [];
        match l with
        | Err e => mret (Some e)
        | Ok [] => mret None
        | Ok (platform :: _) =>
            match managedKeycloak platform with
            | None => mret None
            | Some m => requestToken m clientSecret
            end
        end
  end.

(** ** The other checks *)

(** Removes the bad key; the object as it is afterwards, and the error. *)
Definition validateTUFKeys (securesign : Unstructured) : prog (Unstructured * option error) :=
  let '(keys, found, err) := NestedSlice (u_Object securesign) ["spec"; "tuf"; "keys"] in
  match (err : option error) with
  | Some _ => mret (securesign, None)
  | None =>
      if negb (found : bool) then mret (securesign, None)
      else if existsb problematicKey keys then
        let newKeys := List.filter keptKey keys in
        let '(m, err) := SetNestedSlice (u_Object securesign) newKeys ["spec"; "tuf"; "keys"] in
        let securesign := withObject securesign m in
        match (err : option error) with
        | Some e => mret (securesign, Some e)
        | None =>
            u ← Update KSecuresign securesign;
            mret (match u with
                  | Err e => (securesign, Some e)
                  | Ok stored => (stored, None)
                  end)
        end
      else mret (securesign, None)
  end.

(** A condition of the Keycloak object; [None]: the type assertion panics. *)
Definition keycloakReady (cond : json) : option bool :=
  condMap ← as_map cond;
  Some (iface_is (jget condMap "type") "Ready" && iface_is (jget condMap "status") "True").

Fixpoint anyReady (conditions : list json) : option bool :=
  match conditions with
  | [] => Some false
  | cond :: rest =>
      match keycloakReady cond with
      | None => None
      | Some true => Some true
      | Some false => anyReady rest
      end
  end.

(** The loop over the containers of the first Fulcio pod. *)
Fixpoint checkContainers (pod : Pod) (statuses : list ContainerStatus) : prog (option error) :=
  match statuses with
  | [] => mret None
  | containerStatus :: rest =>
      if (cs_RestartCount containerStatus >? 3)%Z then
        g ← Get KKeycloak (mkNN architectNamespace "mirror-operator-keycloak");
        match g with
        | Err _ => checkContainers pod rest
        | Ok kc =>
            match anyReady (nested_slice (u_Object kc) ["status"; "conditions"]) with
            | None => Panic "interface conversion: interface {} is not map[string]interface {}"
            | Some true => Delete KPod pod
            | Some false => checkContainers pod rest
            end
        end
      else checkContainers pod rest
  end.

Definition validateFulcioKeycloakConnection : prog (option error) :=
  l ← List_ KPod (Some architectNamespace) [("app", "fulcio-server")];
  match l with
  | Err e => mret (Some e)
  | Ok [] => mret None
  | Ok (pod :: _) => checkContainers pod (pod_ContainerStatuses pod)
  end.

(** What the check finds is only logged: every branch returns nil. *)
Definition validateComponentReadiness (securesign : Unstructured) : option error :=
  let '(conditions, found, err) := NestedSlice (u_Object securesign) ["status"; "conditions"] in
  match (err : option error), (found : bool) with
  | None, true =>
      match find_first (isConditionOf "Ready") conditions with
      | Some _ => None
      | None => None
      end
  | _, _ => None
  end.

Definition updateSecuresignHealthStatus (securesign : Unstructured) (healthy : bool) (message : string)
  : prog () :=
  let '(conditions, found, err) := NestedSlice (u_Object securesign) ["status"; "conditions"] in
  let conditions :=
    match (err : option error), (found : bool) with
    | None, true => conditions
    | _, _ => []
    end in
  now ← Now;
  let cond := healthCondition healthy message (FormatRFC3339 UTCOffset now) in
  let '(m, err) := SetNestedSlice (u_Object securesign) (upsertCondition cond conditions)
                     ["status"; "conditions"] in
  match (err : option error) with
  | Some _ => mret ()
  | None => _ ← StatusUpdate KSecuresign (withObject securesign m); mret ()
  end.

(** ** The reconciler *)

(** [healthIssues = append(healthIssues, msg)] when a check failed. *)
Definition issue (err : option error) (msg : string) : list string :=
  match err with Some _ => [msg] | None => [] end.

Definition healthIssues (tuf fulcio ready email : option error) : list string :=
  issue tuf "TUF keys contain problematic entries" ++
  issue fulcio "Fulcio cannot reach Keycloak OIDC endpoint" ++
  issue ready "RHTAS components not all ready" ++
  issue email "OIDC token missing email_verified claim or claim is false".

Definition reportHealth (securesign : Unstructured) (issues : list string) : prog () :=
  match issues with
  | [] => updateSecuresignHealthStatus securesign true "All RHTAS components healthy"
  | _ => updateSecuresignHealthStatus securesign false (Join issues "; ")
  end.

Definition Reconcile (req : NamespacedName) : prog reconcile_out :=
  g ← Get KSecuresign req;
  match g with
  | Err e => if IsNotFound e then done else fail_with e
  | Ok securesign =>
      t ← validateTUFKeys securesign;
      let '(securesign, tuf) := t in
      fulcio ← validateFulcioKeycloakConnection;
      let ready := validateComponentReadiness securesign in
      email ← validateEmailVerifiedClaim;
      _ ← reportHealth securesign (healthIssues tuf fulcio ready email);
      mret (RequeueAfter (10 * Minute)%Z, None)
  end.
End Health.
