(* ===== verification/Bootstrap.v ===== *)
(** The ClusterBootstrap reconciler ([clusterbootstrap_controller.go]), a stub: it keeps
    the finalizer and the initial phase. *)
From S2P Require Import Prelude GoStrings K8s Api Kube Helpers.

Definition bootstrapFinalizer : string := "mirror.mathianasj.github.com/bootstrap-finalizer".

Definition cb_Finalizers (b : ClusterBootstrap) : list string := om_Finalizers (cb_ObjectMeta b).

Definition withBootstrapFinalizers (b : ClusterBootstrap) (f : list string -> list string)
  : ClusterBootstrap :=
  b <| cb_ObjectMeta ::= fun om => om <| om_Finalizers ::= f |> |>.

Definition cleanup (bootstrap : ClusterBootstrap) : prog reconcile_out :=
  if containsString (cb_Finalizers bootstrap) bootstrapFinalizer then
    return_update KClusterBootstrap
      (withBootstrapFinalizers bootstrap (fun l => removeString l bootstrapFinalizer))
  else done.

Definition Reconcile (req : NamespacedName) : prog reconcile_out :=
  g ← Get KClusterBootstrap req;
  match g with
  | Err e => if IsNotFound e then done else fail_with e
  | Ok bootstrap =>
      if negb (IsZero (om_DeletionTimestamp (cb_ObjectMeta bootstrap))) then cleanup bootstrap
      else if negb (containsString (cb_Finalizers bootstrap) bootstrapFinalizer) then
        return_update KClusterBootstrap
          (withBootstrapFinalizers bootstrap (fun l => snoc l bootstrapFinalizer))
      else if cbst_Phase (cb_Status bootstrap) == "" then
        return_status_update KClusterBootstrap
          (bootstrap <| cb_Status ::= fun s => s <| cbst_Phase := BootstrapPhasePending |> |>)
      else done
  end.
