(* ===== verification/HealthProps.v ===== *)
(** Properties of the RHTAS health check and of the ClusterBootstrap reconciler. *)
From S2P Require Import Prelude GoStrings K8s GoTime Base64 Api Kube Externals Helpers ImageSet.
From S2P Require Import Instances Samples Health.
From S2P Require Bootstrap.

Definition tufKeysPath : list string := ["spec"; "tuf"; "keys"].
Definition conditionsPath : list string := ["status"; "conditions"].

(** ** Replacing a condition in place *)

Definition isHealth (cond : json) : bool := isConditionOf "HealthCheckPassed" cond.

Lemma healthCondition_isHealth b msg t : isHealth (healthCondition b msg t) = true.
Proof. reflexivity. Qed.

Lemma filter_app_list {A} (p : A -> bool) l1 l2 :
  List.filter p (l1 ++ l2) = List.filter p l1 ++ List.filter p l2.
Proof. apply List.filter_app. Qed.

Lemma filter_none {A} (p : A -> bool) l :
  (forall x, In x l -> p x = false) -> List.filter p l = [].
Proof.
  induction l as [|x l IH]; simpl; intros H; [done|].
  rewrite H by by left. apply IH. intros y Hy. apply H. by right.
Qed.

(** What the conditions become: those of other types are kept in order, and there is
    one health condition, unless there were several before. *)
Definition upserted (c : json) (old new : list json) : Prop :=
  In c new /\
  List.filter (fun x => negb (isHealth x)) new = List.filter (fun x => negb (isHealth x)) old /\
  length (List.filter isHealth new) = Nat.max 1 (length (List.filter isHealth old)) /\
  (forall l1 x l2, old = l1 ++ x :: l2 -> List.filter isHealth l1 = [] -> isHealth x = true ->
     new = l1 ++ c :: l2).

Lemma filter_nil_In {A} (p : A -> bool) l x : List.filter p l = [] -> In x l -> p x = false.
Proof.
  intros H Hin. destruct (p x) eqn:E; [|done]. exfalso.
  assert (Hf : In x (List.filter p l)) by (by apply filter_In). by rewrite H in Hf.
Qed.

Lemma update_first_at {A} (p : A -> bool) f l1 x l2 :
  List.filter p l1 = [] -> p x = true -> update_first p f (l1 ++ x :: l2) = Some (l1 ++ f x :: l2).
Proof.
  intros H Hx. induction l1 as [|y l1 IH]; simpl; [by rewrite Hx|].
  simpl in H. destruct (p y); [done|]. by rewrite IH.
Qed.

Lemma upsertCondition_upserted c old : isHealth c = true -> upserted c old (upsertCondition c old).
Proof.
  intros Hc. unfold upsertCondition.
  destruct (update_first _ _ old) as [new|] eqn:E.
  - pose proof E as E'. apply update_first_split in E as (a & x & b & -> & -> & Hx & Ha).
    change (isHealth x = true) in Hx. assert (Hf : List.filter isHealth a = []) by by apply filter_none.
    split_and!.
    + apply in_or_app. right. by left.
    + rewrite !filter_app_list. simpl. by rewrite Hc, Hx.
    + rewrite !filter_app_list. simpl. rewrite Hc, Hx, Hf. simpl. lia.
    + intros l1 y l2 Heq H1 Hy. rewrite Heq in E'.
      rewrite (update_first_at (isConditionOf _)) in E' by done. by injection E'.
  - pose proof (proj1 (update_first_None _ _ _) E) as Hn.
    assert (Hf : List.filter isHealth old = []) by by apply filter_none. split_and!.
    + apply in_or_app. right. by left.
    + rewrite filter_app_list. simpl. rewrite Hc. simpl. by rewrite app_nil_r.
    + rewrite filter_app_list. simpl. by rewrite Hc, Hf.
    + intros l1 y l2 -> H1 Hy.
      assert (Hf' : isConditionOf "HealthCheckPassed" y = false)
        by (apply Hn, in_or_app; right; by left). unfold isHealth in Hy. congruence.
Qed.

Lemma keptKey_sound k : keptKey k = true -> problematicKey k = false.
Proof. unfold keptKey, problematicKey. destruct (as_map k); [|done]. by intros ->%negb_true_iff. Qed.

Lemma kept_none keys : existsb problematicKey (List.filter keptKey keys) = false.
Proof. apply existsb_false. intros k [_ H]%filter_In. by apply keptKey_sound. Qed.

Section Props.
Context {X : Externals} {XL : ExternalsLaws X}.

Lemma validateTUFKeys_clean s keys :
  NestedSlice (u_Object s) tufKeysPath = (keys, true, None) -> existsb problematicKey keys = false ->
  validateTUFKeys s = Ret (s, None).
Proof. intros H1 H2. unfold validateTUFKeys. unfold tufKeysPath in H1. by rewrite H1, H2. Qed.

(** The TUF keys.  Nothing is written when no key is named tsa.certchain.pem.
    Otherwise the object is written once, with those keys removed and every other named
    key kept in order, and a check of the object written finds nothing to do. *)
Theorem validateTUFKeys_spec (s : Unstructured) tr o :
  exec (validateTUFKeys s) tr o ->
  match NestedSlice (u_Object s) tufKeysPath with
  | (keys, true, None) =>
      if existsb problematicKey keys then
        (exists m e, SetNestedSlice (u_Object s) (List.filter keptKey keys) tufKeysPath = (m, Some e) /\
           tr = [] /\ o = Done (withObject s m, Some e)) \/
        (exists s' u, tr = [Ev (CUpdate KSecuresign s') u] /\ u_Meta s' = u_Meta s /\
           o = Done (match u with Ok stored => (stored, None) | Err e => (s', Some e) end) /\
           NestedSlice (u_Object s') tufKeysPath = (List.filter keptKey keys, true, None) /\
           validateTUFKeys s' = Ret (s', None))
      else tr = [] /\ o = Done (s, None)
  | _ => tr = [] /\ o = Done (s, None)
  end.
Proof.
  unfold validateTUFKeys at 1. fold tufKeysPath.
  destruct (NestedSlice _ _) as [[keys found] [e|]].
  { intros [-> ->]%exec_inv. by destruct found. }
  destruct found; simpl negb; cbv iota; [|by intros [-> ->]%exec_inv].
  destruct (existsb problematicKey keys) eqn:E; [|by intros [-> ->]%exec_inv].
  destruct (SetNestedSlice _ _ _) as [m [e|]] eqn:Es; cbv zeta.
  - intros [-> ->]%exec_inv. left. eauto.
  - intros (u & t & -> & H)%exec_inv. right. exists (withObject s m), u.
    assert (Hk : NestedSlice (u_Object (withObject s m)) tufKeysPath = (List.filter keptKey keys, true, None))
      by (by apply (NestedSlice_set _ _ _ _ Es)).
    apply exec_inv in H as [-> ->]. split_and!; [done|done| |done|].
    + by destruct u.
    + apply (validateTUFKeys_clean _ _ Hk), kept_none.
Qed.


(** ** The token *)

(** Nothing but a token whose claim is the boolean true is accepted. *)
Lemma checkClaims_None claims : checkClaims claims = None <-> jget claims "email_verified" = JBool true.
Proof.
  unfold checkClaims. destruct (jhas claims "email_verified") eqn:E; simpl.
  - split; [|by intros ->]. destruct (jget claims _) as [|[]| | | | | | |]; done.
  - split; [done|]. intros H. exfalso. revert E H. clear.
    induction claims as [|[k v] l IH]; simpl; [done|]. by destruct (k == _).
Qed.

(** Reading a JWT.  A token made of a header, the unpadded URL base64 of a payload and
    a signature is accepted exactly when the payload is a JSON object whose
    email_verified claim is the boolean true; a claim of another type is refused like a
    missing one. *)
Theorem checkToken_accepts (header payload signature : string) :
  index_opt header "." = None -> index_opt signature "." = None ->
  checkToken (header +:+ "." +:+ RawURLEncodeToString payload +:+ "." +:+ signature) = None <->
  exists claims, json_Unmarshal_map payload = Ok claims /\ jget claims "email_verified" = JBool true.
Proof.
  intros Hh Hs. unfold checkToken.
  change "." with (sep1 "."). rewrite Split_three by (done || by apply RawURLEncode_avoids).
  rewrite RawURLDecode_encode. destruct (json_Unmarshal_map payload) as [claims|e].
  - rewrite checkClaims_None. naive_solver.
  - naive_solver.
Qed.

(** ** The shape of a run *)

Lemma returns_tuf s : returns (validateTUFKeys s).
Proof. unfold validateTUFKeys. returns_go. Qed.

Lemma reads_email : always (calls reads) validateEmailVerifiedClaim.
Proof. unfold validateEmailVerifiedClaim, requestToken. always_go; by repeat constructor. Qed.

Lemma returns_email : returns validateEmailVerifiedClaim.
Proof. unfold validateEmailVerifiedClaim, requestToken. returns_go. Qed.

Lemma returns_report s l : returns (reportHealth s l).
Proof. unfold reportHealth, updateSecuresignHealthStatus. returns_go. Qed.

(** The checks of a run on [s], and what became of them. *)
Inductive health_run (s : Unstructured) : trace -> outcome reconcile_out -> Prop :=
| health_panic s1 tuf t1 t2 m :
    exec (validateTUFKeys s) t1 (Done (s1, tuf)) ->
    exec validateFulcioKeycloakConnection t2 (Panicked m) ->
    health_run s (t1 ++ t2) (Panicked m)
| health_reported s1 tuf fulcio email t1 t2 t3 t4 :
    exec (validateTUFKeys s) t1 (Done (s1, tuf)) ->
    exec validateFulcioKeycloakConnection t2 (Done fulcio) ->
    exec validateEmailVerifiedClaim t3 (Done email) ->
    exec (reportHealth s1 (healthIssues tuf fulcio (validateComponentReadiness s1) email)) t4 (Done tt) ->
    health_run s (t1 ++ t2 ++ t3 ++ t4) (Done (RequeueAfter (10 * Minute)%Z, None)).

Lemma Reconcile_shape req tr o :
  exec (Reconcile req) tr o ->
  exists g rest, tr = Ev (CGet KSecuresign req) g :: rest /\
    match g with
    | Err e => rest = [] /\ o = Done (Result0, if IsNotFound e then None else Some e)
    | Ok s => health_run s rest o
    end.
Proof.
  unfold Reconcile. intros (g & rest & -> & H)%exec_call_bind. exists g, rest. split; [done|].
  destruct g as [s|e]; [|by destruct (IsNotFound e); apply exec_inv in H as [-> ->]].
  apply exec_bind_returns in H as ([s1 tuf] & t1 & tr1 & -> & H1 & H); [|apply returns_tuf].
  apply exec_bind in H as [(m & H2 & ->)|(fulcio & t2 & tr2 & H2 & H & ->)].
  { by econstructor. }
  apply exec_bind_returns in H as (email & t3 & tr3 & -> & H3 & H); [|apply returns_email].
  apply exec_bind_returns in H as ([] & t4 & tr4 & -> & H4 & H); [|apply returns_report].
  apply exec_inv in H as [-> ->]. rewrite app_nil_r. by econstructor.
Qed.

(** ** The restart of Fulcio *)

Definition crashing (pod : Pod) : Prop :=
  exists cs, In cs (pod_ContainerStatuses pod) /\ (cs_RestartCount cs > 3)%Z.

Definition ready_keycloak (kc : Unstructured) : Prop :=
  exists cond, In cond (nested_slice (u_Object kc) ["status"; "conditions"]) /\
    keycloakReady cond = Some true.

Lemma anyReady_true l : anyReady l = Some true -> exists cond, In cond l /\ keycloakReady cond = Some true.
Proof.
  induction l as [|c l IH]; simpl; [done|]. destruct (keycloakReady c) as [[]|] eqn:E; [eauto| |done].
  intros H. destruct (IH H) as (c' & ? & ?). eauto.
Qed.

Definition readyKeycloakKey : NamespacedName := mkNN architectNamespace "mirror-operator-keycloak".

(** The containers are checked without writing, up to the deletion of the pod. *)
Lemma checkContainers_shape pod l tr o :
  exec (checkContainers pod l) tr o ->
  calls reads tr \/
  exists pre kc d, tr = pre ++ [Ev (CGet KKeycloak readyKeycloakKey) (Ok kc); Ev (CDelete KPod pod) d] /\
    calls reads pre /\ ready_keycloak kc /\ exists cs, In cs l /\ (cs_RestartCount cs > 3)%Z.
Proof.
  revert tr; induction l as [|cs l IH]; intros tr H; [apply exec_inv in H as [-> _]; left; constructor|].
  assert (IH' : forall tr, exec (checkContainers pod l) tr o ->
    forall pre0, calls reads pre0 ->
    calls reads (pre0 ++ tr) \/
    exists pre kc d, pre0 ++ tr = pre ++ [Ev (CGet KKeycloak readyKeycloakKey) (Ok kc); Ev (CDelete KPod pod) d] /\
      calls reads pre /\ ready_keycloak kc /\ exists cs', In cs' (cs :: l) /\ (cs_RestartCount cs' > 3)%Z).
  { intros tr' H' pre0 Hp. destruct (IH _ H') as [Hr|(pre & kc & d & -> & Hr & Hk & cs' & Hin & Hc)].
    - left. by apply Forall_app.
    - right. exists (pre0 ++ pre), kc, d. rewrite <- app_assoc. split_and!; [done|by apply Forall_app|done|].
      exists cs'. split; [by right|done]. }
  cbn [checkContainers] in H. destruct (_ >? 3)%Z eqn:Ec; [|apply (IH' _ H []); constructor].
  apply exec_call_bind in H as (g & t & -> & H).
  change (Ev (CGet KKeycloak readyKeycloakKey) g :: t) with ([Ev (CGet KKeycloak readyKeycloakKey) g] ++ t).
  destruct g as [kc|e]; [|apply (IH' _ H [_]); by repeat constructor].
  destruct (anyReady _) as [[]|] eqn:Ea.
  - apply exec_inv in H as (d & t' & -> & H). apply exec_inv in H as [-> _].
    right. exists [], kc, d. split_and!; [done|constructor|by apply anyReady_true|].
    exists cs. split; [by left|]. apply Z.gtb_lt in Ec. lia.
  - apply (IH' _ H [_]). by repeat constructor.
  - apply exec_inv in H as [-> _]. left. by repeat constructor.
Qed.

Lemma no_deletes_tuf s : always (calls (fun c => deletes KPod c = false)) (validateTUFKeys s).
Proof. unfold validateTUFKeys. always_go; by repeat constructor. Qed.

Lemma no_deletes_report s l : always (calls (fun c => deletes KPod c = false)) (reportHealth s l).
Proof. unfold reportHealth, updateSecuresignHealthStatus. always_go; by repeat constructor. Qed.

Definition fulcioList : call := CList KPod (Some architectNamespace) [("app", "fulcio-server")].

Definition no_pod_delete (c : call) : Prop := deletes KPod c = false.

(** The deletion of the first Fulcio pod, after its containers and Keycloak were read. *)
Definition restart_of (pod : Pod) (t : trace) : Prop :=
  crashing pod /\
  exists rest pre kc d,
    t = Ev (CList KPod (Some architectNamespace) [("app", "fulcio-server")]) (Ok (pod :: rest)) ::
        pre ++ [Ev (CGet KKeycloak readyKeycloakKey) (Ok kc); Ev (CDelete KPod pod) d] /\
    ready_keycloak kc /\ calls reads pre.

Lemma reads_no_delete tr : calls reads tr -> calls no_pod_delete tr.
Proof. apply calls_mono. by intros []. Qed.

Lemma fulcio_shape tr o :
  exec validateFulcioKeycloakConnection tr o -> calls no_pod_delete tr \/ exists pod, restart_of pod tr.
Proof.
  unfold validateFulcioKeycloakConnection. intros (l & t & -> & H)%exec_call_bind.
  destruct l as [[|pod rest]|e]; [apply exec_inv in H as [-> _]; left; by repeat constructor| |
    apply exec_inv in H as [-> _]; left; by repeat constructor].
  destruct (checkContainers_shape _ _ _ _ H) as [Hr|(pre & kc & d & -> & Hr & Hk & cs & Hin & Hc)].
  - left. constructor; [done|]. by apply reads_no_delete.
  - right. exists pod. split; [by exists cs|]. eauto 10.
Qed.

Lemma health_run_parts s tr o :
  health_run s tr o ->
  exists t1 t2 t3 o2, tr = t1 ++ t2 ++ t3 /\ exec validateFulcioKeycloakConnection t2 o2 /\
    calls no_pod_delete (t1 ++ t3).
Proof.
  intros [s1 tuf t1 t2 m H1 H2|s1 tuf fulcio email t1 t2 t3 t4 H1 H2 H3 H4].
  - exists t1, t2, [], (Panicked m). rewrite !app_nil_r. split_and!; [done|done|].
    eapply always_exec; [|exact H1]. apply no_deletes_tuf.
  - exists t1, t2, (t3 ++ t4), (Done fulcio). split_and!; [done|done|].
    repeat apply Forall_app_2.
    + eapply always_exec; [|exact H1]. apply no_deletes_tuf.
    + apply reads_no_delete. eapply always_exec; [|exact H3]. apply reads_email.
    + eapply always_exec; [|exact H4]. apply no_deletes_report.
Qed.

(** The restart of Fulcio.  A run deletes a pod only when it is the first pod listed
    with the label of the Fulcio server, one of its containers was restarted more than
    three times, and Keycloak was read as ready just before; it deletes no other pod. *)
Theorem Health_restarts_fulcio (req : NamespacedName) tr o :
  exec (Reconcile req) tr o ->
  Exists (fun e => deletes KPod (ev_call e) = true) tr ->
  exists t1 t2 t3 pod, tr = t1 ++ t2 ++ t3 /\ restart_of pod t2 /\ calls no_pod_delete (t1 ++ t3).
Proof.
  intros (g & rest & -> & H)%Reconcile_shape He. apply Exists_cons in He as [He|He]; [done|].
  destruct g as [s|e]; [|destruct H as [-> _]; by apply Exists_nil in He].
  apply health_run_parts in H as (t1 & t2 & t3 & o2 & -> & H & Hn).
  exists (Ev (CGet KSecuresign req) (Ok s) :: t1), t2, t3.
  destruct (fulcio_shape _ _ H) as [H2|[pod H2]].
  - exfalso. assert (Ha : calls no_pod_delete (t1 ++ t2 ++ t3)).
    { apply Forall_app in Hn as [? ?]. by repeat apply Forall_app_2. }
    apply Exists_exists in He as (e & Hin & He).
    pose proof (proj1 (Forall_forall _ _) Ha e Hin) as Hf. unfold no_pod_delete in Hf. congruence.
  - exists pod. split_and!; [done|done|]. by constructor.
Qed.

(** ** The report *)

Definition platformConditions (s : Unstructured) : list json :=
  match NestedSlice (u_Object s) conditionsPath with (cs, true, None) => cs | _ => [] end.

(** The report of a verdict on [s]: the time is read and the condition is set in the
    status, unless the object cannot hold it. *)
Definition report_of (s : Unstructured) (healthy : bool) (message : string) (tr : trace) : Prop :=
  exists now last, tr = Ev CNow now :: last /\
    let cond := healthCondition healthy message (FormatRFC3339 UTCOffset now) in
    ((exists m e, SetNestedSlice (u_Object s) (upsertCondition cond (platformConditions s)) conditionsPath = (m, Some e) /\
        last = []) \/
     (exists s' u new, last = [Ev (CStatusUpdate KSecuresign s') u] /\ u_Meta s' = u_Meta s /\
        NestedSlice (u_Object s') conditionsPath = (new, true, None) /\
        upserted cond (platformConditions s) new)).

Lemma update_report s healthy message tr o :
  exec (updateSecuresignHealthStatus s healthy message) tr o -> report_of s healthy message tr.
Proof.
  unfold updateSecuresignHealthStatus, report_of, platformConditions. fold conditionsPath.
  destruct (NestedSlice (u_Object s) conditionsPath) as [[cs found] err]. cbv zeta.
  intros (now & t & -> & H)%exec_call_bind. exists now, t. split; [done|]. revert H.
  replace (match err with Some _ => [] | None => if found then cs else [] end)
    with (if found then match err with Some _ => [] | None => cs end else [])
    by (by destruct err, found).
  set (cond := healthCondition _ _ _). set (old := if found then _ else _).
  destruct (SetNestedSlice _ _ _) as [m [e|]] eqn:Es.
  - intros [-> _]%exec_inv. left. eauto.
  - intros (u & t' & -> & H)%exec_call_bind. apply exec_inv in H as [-> _]. right.
    exists (withObject s m), u, (upsertCondition cond old). split_and!; [done|done| |].
    + by apply (NestedSlice_set _ _ _ _ Es).
    + by apply upsertCondition_upserted.
Qed.

Definition all_passed (tuf fulcio email : option error) : bool :=
  match tuf, fulcio, email with None, None, None => true | _, _, _ => false end.

Lemma readiness_passes s : validateComponentReadiness s = None.
Proof. unfold validateComponentReadiness. repeat split_match; done. Qed.

(** C37: The health report.  A run that returns has not found the Securesign object, or has
    made the checks in order, asks to be called again in ten minutes, and has ended with a
    report: the condition HealthCheckPassed is true exactly when the checks of the TUF
    keys, of Fulcio and of the token passed, it carries their failures as its message, and
    it replaces the former one in place while every other condition is kept. *)
Theorem Health_reports (req : NamespacedName) tr out :
  exec (Reconcile req) tr (Done out) ->
  (exists e, tr = [Ev (CGet KSecuresign req) (Err e)] /\
     out = (Result0, if IsNotFound e then None else Some e)) \/
  out = (RequeueAfter (10 * Minute)%Z, None) /\
  exists s0 s1 tuf fulcio email t1 t2 t3 t4,
    tr = Ev (CGet KSecuresign req) (Ok s0) :: t1 ++ t2 ++ t3 ++ t4 /\
    exec (validateTUFKeys s0) t1 (Done (s1, tuf)) /\
    exec validateFulcioKeycloakConnection t2 (Done fulcio) /\
    exec validateEmailVerifiedClaim t3 (Done email) /\
    report_of s1 (all_passed tuf fulcio email)
      (if all_passed tuf fulcio email then "All RHTAS components healthy"
       else Join (healthIssues tuf fulcio None email) "; ") t4.
Proof.
  intros (g & rest & -> & H)%Reconcile_shape.
  destruct g as [s0|e]; [right|left; destruct H as [-> [= ->]]; eauto].
  inversion H as [|s1 tuf fulcio email t1 t2 t3 t4 H1 H2 H3 H4]; subst. split; [done|].
  exists s0, s1, tuf, fulcio, email, t1, t2, t3, t4. split_and!; [done..|].
  rewrite readiness_passes in H4. apply update_report with (o := Done tt).
  by destruct tuf, fulcio, email.
Qed.
End Props.

(** ** ClusterBootstrap *)

Definition dying (b : ClusterBootstrap) : bool := negb (IsZero (om_DeletionTimestamp (cb_ObjectMeta b))).
Definition finalized (b : ClusterBootstrap) : bool :=
  containsString (Bootstrap.cb_Finalizers b) Bootstrap.bootstrapFinalizer.
Definition phaseless (b : ClusterBootstrap) : bool := cbst_Phase (cb_Status b) == "".

(** The writes an object still needs. *)
Definition work (b : ClusterBootstrap) : nat :=
  if dying b then (if finalized b then 1 else 0)
  else (if finalized b then 0 else 1) + (if phaseless b then 1 else 0).

(** What a write leaves alone. *)
Definition same_but_finalizer (b b' : ClusterBootstrap) : Prop :=
  cb_Spec b' = cb_Spec b /\
  key_of (K := KClusterBootstrap) b' = key_of (K := KClusterBootstrap) b /\ dying b' = dying b /\
  (cbst_Phase (cb_Status b') = cbst_Phase (cb_Status b) \/
   phaseless b = true /\ cbst_Phase (cb_Status b') = BootstrapPhasePending) /\
  forall f, f <> Bootstrap.bootstrapFinalizer ->
    (In f (Bootstrap.cb_Finalizers b') <-> In f (Bootstrap.cb_Finalizers b)).

Lemma finalizers_with b f :
  Bootstrap.cb_Finalizers (Bootstrap.withBootstrapFinalizers b f) = f (Bootstrap.cb_Finalizers b).
Proof. reflexivity. Qed.

(** The bootstrap reconciler converges.  A run on an object that needs no write does
    nothing; otherwise it makes one write, whose outcome is the result, and the object
    written needs one write less: the finalizer is added before the phase is set, and
    removed when the object is being deleted.  Other finalizers and the spec are kept. *)
Theorem Bootstrap_converges (req : NamespacedName) tr o :
  exec (Bootstrap.Reconcile req) tr o ->
  (exists e, tr = [Ev (CGet KClusterBootstrap req) (Err e)] /\
     o = Done (Result0, if IsNotFound e then None else Some e)) \/
  exists b rest, tr = Ev (CGet KClusterBootstrap req) (Ok b) :: rest /\
    match work b with
    | O => rest = [] /\ o = Done (Result0, None)
    | S n => exists b', work b' = n /\ same_but_finalizer b b' /\
        exists u, o = Done (Result0, err_of u) /\
          (rest = [Ev (CUpdate KClusterBootstrap b') u] \/
           finalized b = true /\ rest = [Ev (CStatusUpdate KClusterBootstrap b') u])
    end.
Proof.
  unfold Bootstrap.Reconcile. intros (g & rest & -> & H)%exec_call_bind.
  destruct g as [b|e]; [right|left; exists e; by destruct (IsNotFound e); apply exec_inv in H as [-> ->]].
  exists b, rest. split; [done|]. unfold work. fold (dying b) (finalized b) (phaseless b) in H.
  unfold Bootstrap.cleanup in H. fold (finalized b) in H.
  assert (Hd : forall f, dying (Bootstrap.withBootstrapFinalizers b f) = dying b) by done.
  assert (Hp : forall f, phaseless (Bootstrap.withBootstrapFinalizers b f) = phaseless b) by done.
  destruct (dying b) eqn:Ed, (finalized b) eqn:Ef; cbn [negb] in H.
  - apply exec_call_bind in H as (u & t & -> & H). apply exec_inv in H as [-> ->].
    eexists. split; [|split; [|eauto]].
    + unfold work. rewrite Hd. unfold finalized. by rewrite finalizers_with, containsString_removeString.
    + split_and!; [done|done|by rewrite Hd, Ed|by left|].
      intros f Hf. rewrite finalizers_with, In_removeString. naive_solver.
  - by apply exec_inv in H.
  - destruct (phaseless b) eqn:Eh; [|by apply exec_inv in H].
    apply exec_call_bind in H as (u & t & -> & H). apply exec_inv in H as [-> ->].
    eexists. split; [|split; [|eauto]].
    + unfold work. change (dying (b <| cb_Status ::= _ |>)) with (dying b).
      change (finalized (b <| cb_Status ::= _ |>)) with (finalized b). by rewrite Ed, Ef.
    + split_and!; [done|done|done|by right|done].
  - apply exec_call_bind in H as (u & t & -> & H). apply exec_inv in H as [-> ->].
    eexists. split; [|split; [|eauto]].
    + unfold work. rewrite Hd, Hp. unfold finalized. by rewrite finalizers_with, containsString_snoc.
    + split_and!; [done|done|by rewrite Hd, Ed|by left|].
      intros f Hf. rewrite finalizers_with, in_app_iff. simpl. naive_solver.
Qed.

(** ** Worked examples *)

Section Witnesses.
#[local] Existing Instance sampleX.

Definition sampleKey (name : string) : json := JMap [("name", JStr name); ("secret", JStr "s")].
Definition sampleOther : json := JMap [("type", JStr "Ready"); ("status", JStr "True")].
Definition sampleFailure : json :=
  JMap [("type", JStr "HealthCheckPassed"); ("status", JStr "False")].

Definition sampleSecuresign : Unstructured :=
  mkUnstructured securesignGVK (sampleMeta "mirror" "weekly")
    [("spec", JMap [("tuf", JMap [("keys", JList [sampleKey "rekor.pub"; sampleKey "tsa.certchain.pem"])])]);
     ("status", JMap [("conditions", JList [sampleFailure; sampleOther])])].

Definition sampleKeycloak : Unstructured :=
  mkUnstructured keycloakGVK (sampleMeta architectNamespace "mirror-operator-keycloak")
    [("status", JMap [("conditions", JList [sampleOther])])].

Definition samplePod : Pod :=
  mkPod (sampleMeta architectNamespace "fulcio-0") "Running" [mkContainerStatus 2 None; mkContainerStatus 7 None] [] [].

Definition healthStore : store :=
  with_objs (with_objs (with_objs emptyStore KSecuresign [sampleSecuresign])
    KKeycloak [sampleKeycloak]) KPod [samplePod].

Definition tufRun : prog (Unstructured * option error) := validateTUFKeys sampleSecuresign.

Lemma validateTUFKeys_spec_witness :
  length (traceOf tufRun healthStore) = 1 /\
  match NestedSlice (u_Object sampleSecuresign) tufKeysPath with
  | (keys, true, None) =>
      if existsb problematicKey keys then
        (exists m e, SetNestedSlice (u_Object sampleSecuresign) (List.filter keptKey keys) tufKeysPath = (m, Some e) /\
           traceOf tufRun healthStore = [] /\
           outcomeOf tufRun healthStore = Done (withObject sampleSecuresign m, Some e)) \/
        (exists s' u, traceOf tufRun healthStore = [Ev (CUpdate KSecuresign s') u] /\
           u_Meta s' = u_Meta sampleSecuresign /\
           outcomeOf tufRun healthStore =
             Done (match u with Ok stored => (stored, None) | Err e => (s', Some e) end) /\
           NestedSlice (u_Object s') tufKeysPath = (List.filter keptKey keys, true, None) /\
           validateTUFKeys s' = Ret (s', None))
      else traceOf tufRun healthStore = [] /\ outcomeOf tufRun healthStore = Done (sampleSecuresign, None)
  | _ => traceOf tufRun healthStore = [] /\ outcomeOf tufRun healthStore = Done (sampleSecuresign, None)
  end.
Proof.
  split; [vm_compute; reflexivity|]. apply validateTUFKeys_spec, traceOf_exec.
Defined.

Lemma checkToken_accepts_witness :
  index_opt "eyJhbGciOiJSUzI1NiJ9" "." = None /\ index_opt "c2ln" "." = None /\
  (checkToken ("eyJhbGciOiJSUzI1NiJ9" +:+ "." +:+ RawURLEncodeToString "{}" +:+ "." +:+ "c2ln") = None <->
   exists claims, json_Unmarshal_map "{}" = Ok claims /\ jget claims "email_verified" = JBool true).
Proof.
  split; [reflexivity|]. split; [reflexivity|]. apply checkToken_accepts; reflexivity.
Defined.

Lemma Health_restarts_fulcio_witness :
  exists t1 t2 t3 pod, traceOf (Reconcile sampleReq) healthStore = t1 ++ t2 ++ t3 /\ restart_of pod t2 /\
    calls no_pod_delete (t1 ++ t3).
Proof.
  apply (Health_restarts_fulcio sampleReq _ (outcomeOf (Reconcile sampleReq) healthStore)); [apply traceOf_exec|].
  assert (H : existsb (fun e => deletes KPod (ev_call e)) (traceOf (Reconcile sampleReq) healthStore) = true)
    by (vm_compute; reflexivity).
  apply existsb_exists in H as (e & Hin & He). apply Exists_exists. exists e.
  split; [by apply list_elem_of_In|done].
Defined.

Lemma Health_reports_witness :
  outcomeOf (Reconcile sampleReq) healthStore = Done (RequeueAfter (10 * Minute)%Z, None) /\
  ((exists e, traceOf (Reconcile sampleReq) healthStore = [Ev (CGet KSecuresign sampleReq) (Err e)] /\
     (RequeueAfter (10 * Minute)%Z, None) = (Result0, if IsNotFound e then None else Some e)) \/
   (RequeueAfter (10 * Minute)%Z, @None error) = (RequeueAfter (10 * Minute)%Z, None) /\
   exists s0 s1 tuf fulcio email t1 t2 t3 t4,
    traceOf (Reconcile sampleReq) healthStore =
      Ev (CGet KSecuresign sampleReq) (Ok s0) :: t1 ++ t2 ++ t3 ++ t4 /\
    exec (validateTUFKeys s0) t1 (Done (s1, tuf)) /\
    exec validateFulcioKeycloakConnection t2 (Done fulcio) /\
    exec validateEmailVerifiedClaim t3 (Done email) /\
    report_of s1 (all_passed tuf fulcio email)
      (if all_passed tuf fulcio email then "All RHTAS components healthy"
       else Join (healthIssues tuf fulcio None email) "; ") t4).
Proof.
  assert (E : outcomeOf (Reconcile sampleReq) healthStore = Done (RequeueAfter (10 * Minute)%Z, None))
    by (vm_compute; reflexivity).
  split; [exact E|]. pose proof (traceOf_exec (Reconcile sampleReq) healthStore) as H. rewrite E in H.
  exact (Health_reports sampleReq _ _ H).
Defined.

Definition sampleBootstrap : ClusterBootstrap :=
  mkClusterBootstrap (mkTypeMeta "" "") (sampleMeta "mirror" "weekly")
    (mkClusterBootstrapSpec "4.18.3" "none" (mkLocalRef "ic") "" (mkLocalRef "ps") None None None None None)
    (mkClusterBootstrapStatus "" [] None "" None None).

Definition bootstrapStore : store := with_objs emptyStore KClusterBootstrap [sampleBootstrap].

Lemma Bootstrap_converges_witness :
  work sampleBootstrap = 2 /\
  ((exists e, traceOf (Bootstrap.Reconcile sampleReq) bootstrapStore = [Ev (CGet KClusterBootstrap sampleReq) (Err e)] /\
     outcomeOf (Bootstrap.Reconcile sampleReq) bootstrapStore = Done (Result0, if IsNotFound e then None else Some e)) \/
   exists b rest, traceOf (Bootstrap.Reconcile sampleReq) bootstrapStore =
       Ev (CGet KClusterBootstrap sampleReq) (Ok b) :: rest /\
    match work b with
    | O => rest = [] /\ outcomeOf (Bootstrap.Reconcile sampleReq) bootstrapStore = Done (Result0, None)
    | S n => exists b', work b' = n /\ same_but_finalizer b b' /\
        exists u, outcomeOf (Bootstrap.Reconcile sampleReq) bootstrapStore = Done (Result0, err_of u) /\
          (rest = [Ev (CUpdate KClusterBootstrap b') u] \/
           finalized b = true /\ rest = [Ev (CStatusUpdate KClusterBootstrap b') u])
    end).
Proof.
  split; [reflexivity|]. apply (Bootstrap_converges sampleReq), traceOf_exec.
Defined.

(** Two runs on the same world, a second apart, write different objects: the transition
    time of an unchanged verdict is renewed. *)
Definition statusesWritten (tr : trace) : list fields :=
  omap (fun e => match ev_call e with
                 | CStatusUpdate (KUnstructured _) s => Some (u_Object s)
                 | _ => None
                 end) tr.

Definition laterStore : store :=
  mkStore (st_objs healthStore) (sampleClock + Second)%Z noHttp noWeb.

Example health_status_never_settles :
  length (statusesWritten (traceOf (Reconcile sampleReq) healthStore)) = 1 /\
  statusesWritten (traceOf (Reconcile sampleReq) healthStore) <>
  statusesWritten (traceOf (Reconcile sampleReq) laterStore).
Proof. vm_compute. split; [reflexivity|discriminate]. Qed.
End Witnesses.
