(* ===== verification/Registry.v ===== *)
(** The mirror registry of the master nodes
    ([internal/controller/mirrorregistry/manager.go]): a CA kept in a secret, a
    MachineConfig that runs the registry, the trust in the CA and the mirror set. *)
From S2P Require Import Prelude GoStrings Base64 K8s Api Kube Externals Ignition.

Definition MachineConfigName : string := "99-master-mirror-registry".
Definition IDMSName : string := "mirror-registry".
Definition CASecretName : string := "mirror-registry-ca".
Definition TrustConfigMapName : string := "mirror-registry-ca-bundle".
Definition masterPoolLabel : string := "node-role.kubernetes.io/master".
Definition operatorNamespace : string := "mirror-operator-system".

Definition defaultQuayImage : string := "quay.io/mathianasj/mirror-registry/quay-rhel8:latest".
Definition defaultRedisImage : string := "quay.io/mathianasj/mirror-registry/redis-6:latest".
Definition defaultPauseImage : string := "registry.access.redhat.com/ubi9/pause:latest".
Definition defaultDataPath : string := "/opt/quay".
Definition defaultPort : Z := 8443.

Definition gvkImage := mkGVK "config.openshift.io" "v1" "Image".
Definition gvkMachineConfig := mkGVK "machineconfiguration.openshift.io" "v1" "MachineConfig".
Definition gvkIDMS := mkGVK "config.openshift.io" "v1" "ImageDigestMirrorSet".
Abbreviation KImage := (KUnstructured gvkImage).
Abbreviation KMachineConfig := (KUnstructured gvkMachineConfig).
Abbreviation KIDMS := (KUnstructured gvkIDMS).

(** A cluster-scoped object. *)
Definition clusterMeta (name : string) : ObjectMeta := meta0 <| om_Name := name |>.

(** ** Nodes *)

Fixpoint firstAddress (type_ : string) (addrs : list NodeAddress) : option string :=
  match addrs with
  | [] => None
  | a :: rest => if na_Type a == type_ then Some (na_Address a) else firstAddress type_ rest
  end.

Definition getNodeInternalAddress (node : Node) : string :=
  match firstAddress NodeInternalIP (node_Addresses node) with
  | Some a => a
  | None => default "" (firstAddress NodeInternalDNS (node_Addresses node))
  end.

Definition isNodeReady (node : Node) : bool :=
  match find_first (fun c => nc_Type c == NodeReady) (node_Conditions node) with
  | Some c => nc_Status c == ConditionTrue
  | None => false
  end.

Definition registryAddress (addr : string) (port : Z) : string := addr +:+ ":" +:+ itoa port.

(** The mirrors: the registries of the ready nodes that have an address. *)
Fixpoint readyMirrors (nodes : list Node) (port : Z) : list string :=
  match nodes with
  | [] => []
  | node :: rest =>
      let addr := getNodeInternalAddress node in
      if addr == "" then readyMirrors rest port
      else if negb (isNodeReady node) then readyMirrors rest port
      else registryAddress addr port :: readyMirrors rest port
  end.

(** The key of a registry in the trust ConfigMap: colons are not allowed there. *)
Definition trustKey (addr : string) (port : Z) : string :=
  ReplaceAll (addr +:+ ".." +:+ itoa port) ":" "..".

Definition trustData (nodes : list Node) (cfg : Config) : gmap string string :=
  fold_left (fun data node =>
      let addr := getNodeInternalAddress node in
      if addr == "" then data
      else <[ trustKey addr (cfg_Port cfg) := cfg_CACertPEM cfg ]> data)
    nodes ∅.

(** ** The certificate authority *)

Definition newline : string := String "010" "".

(** The lines of 64 characters of a PEM body. *)
Fixpoint pem_lines (fuel : nat) (s : string) : string :=
  match fuel with
  | O => ""
  | S fuel => if s == "" then "" else take_str 64 s +:+ newline +:+ pem_lines fuel (drop_str 64 s)
  end.

(** [pem.EncodeToMemory]: a line takes at least one character of the body. *)
Definition pem_EncodeToMemory (type_ bytes : string) : string :=
  let body := StdEncodeToString bytes in
  "-----BEGIN " +:+ type_ +:+ "-----" +:+ newline +:+
  pem_lines (String.length body) body +:+
  "-----END " +:+ type_ +:+ "-----" +:+ newline.

Definition caTemplate (serialNumber : Z) (now1 now2 : time) : CertTemplate :=
  mkCertTemplate serialNumber "Mirror Registry CA" ["mirror-operator"]
    (now1 - Hour)%Z (now2 + 10 * 365 * 24 * Hour)%Z true true true true 0 true.

Definition generateCA : prog (result (string * string)) :=
  k ← Call CGenerateKey Ret;
  match k with
  | Err e => mret (Err e)
  | Ok key =>
      n ← Call (CRandInt (2 ^ 128)) Ret;
      match n with
      | Err e => mret (Err e)
      | Ok serialNumber =>
          now1 ← Now;
          now2 ← Now;
          d ← Call (CCreateCertificate (caTemplate serialNumber now1 now2) key) Ret;
          match d with
          | Err e => mret (Err e)
          | Ok certDER =>
              kd ← Call (CMarshalECPrivateKey key) Ret;
              mret (match kd with
                    | Err e => Err e
                    | Ok keyDER => Ok (pem_EncodeToMemory "CERTIFICATE" certDER,
                                       pem_EncodeToMemory "EC PRIVATE KEY" keyDER)
                    end)
          end
      end
  end.

Definition caSecretKey : NamespacedName := mkNN operatorNamespace CASecretName.

Definition caSecret (certPEM keyPEM : string) : Secret :=
  mkSecret (meta0 <| om_Name := CASecretName |> <| om_Namespace := operatorNamespace |>)
    (Some {[ "ca.crt" := certPEM; "ca.key" := keyPEM ]}).

Definition withCA (cfg : Config) (certPEM keyPEM : string) : Config :=
  cfg <| cfg_CACertPEM := certPEM |> <| cfg_CAKeyPEM := keyPEM |>.

(** The CA of the secret, created when there is none. *)
Definition ensureCA (cfg : Config) : prog (result Config) :=
  s ← Get KSecret caSecretKey;
  match s with
  | Ok secret =>
      mret (Ok (withCA cfg (map_get (sec_Data secret) "ca.crt") (map_get (sec_Data secret) "ca.key")))
  | Err e =>
      if negb (IsNotFound e) then mret (Err e)
      else
        g ← generateCA;
        match g with
        | Err e => mret (Err (Wrapf "generating CA" e))
        | Ok (certPEM, keyPEM) =>
            c ← Create KSecret (caSecret certPEM keyPEM);
            mret (match c with
                  | Err e => Err e
                  | Ok _ => Ok (withCA cfg certPEM keyPEM)
                  end)
        end
  end.

(** ** The configuration *)

Definition orDefault (v d : string) : string := if v != "" then v else d.

Definition clusterPullSecretKey : NamespacedName := mkNN "openshift-config" "pull-secret".

Definition clusterPullSecret : prog string :=
  s ← Get KSecret clusterPullSecretKey;
  mret (match s with
        | Err _ => ""
        | Ok secret => default "" (map_get_ok (sec_Data secret) ".dockerconfigjson")
        end).

(** The pull secret a secret holds. *)
Definition pullSecretOf (secret : Secret) : option string :=
  match map_get_ok (sec_Data secret) ".dockerconfigjson" with
  | Some data => Some data
  | None => map_get_ok (sec_Data secret) "auth.json"
  end.

Definition resolvePullSecret (platform : DisconnectedPlatform) (spec : MirrorRegistryConfig) : prog string :=
  match mrc_ImagePullSecret spec with
  | Some ref =>
      s ← Get KSecret (mkNN (om_Namespace (dp_ObjectMeta platform)) (lor_Name ref));
      match to_option s ≫= pullSecretOf with
      | Some data => mret data
      | None => clusterPullSecret
      end
  | None => clusterPullSecret
  end.

Definition emptyRegistryConfig : MirrorRegistryConfig := mkMirrorRegistryConfig "" 0 "" "" "" None.

(** [platform.Spec.Airgapped] is dereferenced without a test; the error is always nil. *)
Definition resolveConfig (platform : DisconnectedPlatform) : prog Config :=
  match dps_Airgapped (dp_Spec platform) with
  | None => Panic "invalid memory address or nil pointer dereference"
  | Some airgapped =>
      let spec := default emptyRegistryConfig (ac_MirrorRegistryConfig airgapped) in
      pullSecret ← resolvePullSecret platform spec;
      mret (mkConfig
              (orDefault (mrc_DataPath spec) defaultDataPath)
              (if (mrc_Port spec =? 0)%Z then defaultPort else mrc_Port spec)
              (orDefault (mrc_QuayImage spec) defaultQuayImage)
              (orDefault (mrc_RedisImage spec) defaultRedisImage)
              (orDefault (mrc_PauseImage spec) defaultPauseImage)
              pullSecret "" "")
  end.

Definition getMasterNodes : prog (result (list Node)) := List_ KNode None [(masterPoolLabel, "")].

(** ** The objects *)

Definition trustMapKey : NamespacedName := mkNN "openshift-config" TrustConfigMapName.

Definition ensureTrustConfigMap (masterNodes : list Node) (cfg : Config) : prog (option error) :=
  let data := trustData masterNodes cfg in
  g ← Get KConfigMap trustMapKey;
  match g with
  | Err e =>
      if IsNotFound e then
        c ← Create KConfigMap
              (mkConfigMap
                 (meta0 <| om_Name := TrustConfigMapName |> <| om_Namespace := "openshift-config" |>)
                 (Some data));
        mret (err_of c)
      else mret (Some e)
  | Ok cm => u ← Update KConfigMap (cm <| cm_Data := Some data |>); mret (err_of u)
  end.

Section Objects.
Context {X : Externals}.

Definition trustedCAPath : list string := ["spec"; "additionalTrustedCA"; "name"].

Definition ensureImageConfig : prog (option error) :=
  g ← Get KImage (mkNN "" "cluster");
  match g with
  | Err e => mret (Some (Wrapf "getting image.config.openshift.io/cluster" e))
  | Ok imageConfig =>
      if nested_string (u_Object imageConfig) trustedCAPath == TrustConfigMapName then mret None
      else
        let '(m, err) := SetNestedField (u_Object imageConfig) (JStr TrustConfigMapName) trustedCAPath in
        match (err : option error) with
        | Some e => mret (Some e)
        | None => u ← Update KImage (imageConfig <| u_Object := m |>); mret (err_of u)
        end
  end.

(** [unstructured.SetNestedField(obj, v, "spec")], its error ignored. *)
Definition setSpec (u : Unstructured) (spec : fields) : Unstructured :=
  u <| u_Object ::= fun m => fst (SetNestedField m (JMap spec) ["spec"]) |>.

(** The MachineConfig: the Ignition files and units of a master. *)
Definition machineConfigSpec (cfg : Config) : fields :=
  [ ("config",
      JMap [ ("ignition", JMap [("version", JStr "3.2.0")]);
             ("storage", JMap [("files", JList (map JMap (buildIgnitionFiles cfg)))]);
             ("systemd", JMap [("units", JList (map JMap (buildSystemdUnits cfg)))]) ]) ].

Definition machineConfigLabels : gmap string string :=
  {[ "machineconfiguration.openshift.io/role" := "master" ]}.

Definition ensureMachineConfig (cfg : Config) : prog (option error) :=
  g ← Get KMachineConfig (mkNN "" MachineConfigName);
  match g with
  | Err e =>
      if IsNotFound e then
        let mc := mkUnstructured gvkMachineConfig
                    ((clusterMeta MachineConfigName) <| om_Labels := machineConfigLabels |>) [] in
        c ← Create KMachineConfig (setSpec mc (machineConfigSpec cfg));
        mret (err_of c)
      else mret (Some e)
  | Ok existing =>
      let labelled := existing <| u_Meta ::= fun om => om <| om_Labels := machineConfigLabels |> |> in
      u ← Update KMachineConfig (setSpec labelled (machineConfigSpec cfg));
      mret (err_of u)
  end.

Definition idmsSpec (sourceRegistry : string) (mirrors : list string) : fields :=
  [ ("imageDigestMirrors",
      JList [JMap [("source", JStr sourceRegistry); ("mirrors", JList (map JStr mirrors))]]) ].

(** [masterNodes[0]] of an empty list panics. *)
Definition ensureIDMS (masterNodes : list Node) (cfg : Config) : prog (option error) :=
  match masterNodes with
  | [] => Panic "index out of range [0] with length 0"
  | first :: _ =>
      let firstAddr := getNodeInternalAddress first in
      if firstAddr == "" then
        mret (Some (Errorf "no master nodes with internal addresses found"))
      else
        let spec := idmsSpec (registryAddress firstAddr (cfg_Port cfg))
                      (readyMirrors masterNodes (cfg_Port cfg)) in
        g ← Get KIDMS (mkNN "" IDMSName);
        match g with
        | Err e =>
            if IsNotFound e then
              c ← Create KIDMS (setSpec (mkUnstructured gvkIDMS (clusterMeta IDMSName) []) spec);
              mret (err_of c)
            else mret (Some e)
        | Ok existing => u ← Update KIDMS (setSpec existing spec); mret (err_of u)
        end
  end.

(** ** The manager *)

Definition Reconcile (platform : DisconnectedPlatform) : prog (option error) :=
  cfg ← resolveConfig platform;
  ca ← ensureCA cfg;
  match ca with
  | Err e => mret (Some (Wrapf "ensuring CA secret" e))
  | Ok cfg =>
      nodes ← getMasterNodes;
      match nodes with
      | Err e => mret (Some (Wrapf "listing master nodes" e))
      | Ok [] => mret (Some (Errorf "no master nodes found"))
      | Ok masterNodes =>
          orFail "ensuring MachineConfig" (ensureMachineConfig cfg)
          (orFail "ensuring trust ConfigMap" (ensureTrustConfigMap masterNodes cfg)
          (orFail "ensuring image config trust" ensureImageConfig
          (orFail "ensuring ImageDigestMirrorSet" (ensureIDMS masterNodes cfg)
          (mret None))))
      end
  end.

Definition GetRegistryAddress (platform : DisconnectedPlatform) : prog (result string) :=
  cfg ← resolveConfig platform;
  nodes ← getMasterNodes;
  mret (match nodes with
        | Err e => Err (Wrapf "listing master nodes" e)
        | Ok [] => Err (Errorf "no master nodes found")
        | Ok (first :: _) =>
            let addr := getNodeInternalAddress first in
            if addr == "" then Err (Errorf "no internal address on first master node")
            else Ok (registryAddress addr (cfg_Port cfg))
        end).
End Objects.
