(* ===== verification/RegistryProps.v ===== *)
(** Properties of the mirror registry: what a node is given, the certificate authority,
    and the order in which the cluster is pointed at the registries. *)
From S2P Require Import Prelude GoStrings Base64 K8s GoTime Api Kube Externals Helpers ImageSet.
From S2P Require Import Instances Samples Ignition Registry.

(** ** The files of a node *)

(** The file an Ignition entry describes: its path, its mode and its content. *)
Definition written (f : fields) : option (string * Z * string) :=
  path ← as_string (jget f "path");
  contents ← as_map (jget f "contents");
  source ← as_string (jget contents "source");
  content ← (if HasPrefix source dataURLPrefix then StdDecodeString (TrimPrefix source dataURLPrefix) else None);
  match jget f "mode" with JInt mode => Some (path, mode, content) | _ => None end.

Lemma written_ignitionFile path mode content :
  written (ignitionFile path mode content) = Some (path, mode, content).
Proof.
  unfold written. cbn -[HasPrefix TrimPrefix StdDecodeString StdEncodeToString dataURLPrefix append].
  by rewrite HasPrefix_app, TrimPrefix_app, StdDecode_encode.
Qed.

(** The files a configuration describes. *)
Definition nodeFiles (cfg : Config) : list (string * Z * string) := omap written (buildIgnitionFiles cfg).

Definition filePath (f : string * Z * string) : string := f.1.1.
Definition fileMode (f : string * Z * string) : Z := f.1.2.

Lemma nodeFiles_eq cfg :
  nodeFiles cfg =
    [ (cfg_DataPath cfg +:+ "/quay-config/config.yaml", mode_0644, buildQuayConfig cfg);
      ("/usr/local/bin/mirror-registry-init.sh", mode_0755, buildInitScript cfg);
      ("/usr/local/bin/mirror-registry-admin-init.sh", mode_0755, buildAdminInitScript cfg) ] ++
    (if cfg_CACertPEM cfg != "" then
       [ (cfg_DataPath cfg +:+ "/ca/ca.crt", mode_0644, cfg_CACertPEM cfg);
         (cfg_DataPath cfg +:+ "/ca/ca.key", mode_0600, cfg_CAKeyPEM cfg) ] else []) ++
    (if cfg_PullSecretJSON cfg != "" then
       [ (cfg_DataPath cfg +:+ "/auth.json", mode_0600, cfg_PullSecretJSON cfg) ] else []).
Proof.
  unfold nodeFiles, buildIgnitionFiles. rewrite !omap_app.
  destruct (cfg_CACertPEM cfg != ""), (cfg_PullSecretJSON cfg != "");
    cbn [omap list_omap]; by rewrite !written_ignitionFile.
Qed.

(** The last characters of a path tell the files apart. *)
Definition last4 (s : string) : string := drop_str (String.length s - 4) s.

Lemma drop_str_app_ge n s t : drop_str (String.length s + n) (s +:+ t) = drop_str n t.
Proof. induction s as [|c s IH]; [done|exact IH]. Qed.

Lemma last4_app s t : (4 <= String.length t)%nat -> last4 (s +:+ t) = last4 t.
Proof.
  intros H. unfold last4. rewrite length_app_str.
  replace (String.length s + String.length t - 4)%nat
    with (String.length s + (String.length t - 4))%nat by lia.
  apply drop_str_app_ge.
Qed.

Ltac paths_differ :=
  let E := fresh "E" in
  intros E; apply (f_equal last4) in E; rewrite ?last4_app in E by (vm_compute; lia);
  vm_compute in E; discriminate.

Lemma paths_distinct (cfg : Config) : NoDup (map filePath (nodeFiles cfg)).
Proof.
  rewrite nodeFiles_eq. unfold filePath.
  destruct (cfg_CACertPEM cfg != ""), (cfg_PullSecretJSON cfg != ""); cbn [app map fst];
    repeat (apply NoDup_cons; split; [|]);
    try apply NoDup_nil_2; rewrite <- ?list_elem_of_In; repeat rewrite elem_of_cons;
    repeat (intros [H|H]; revert H); try (by intros ?%elem_of_nil); try paths_differ; try discriminate.
Qed.

Lemma pair3_eq {A B C} (a a' : A) (b b' : B) (c c' : C) :
  (a, b, c) = (a', b', c') <-> a = a' /\ b = b' /\ c = c'.
Proof. split; [by intros [= -> -> ->]|by intros (-> & -> & ->)]. Qed.

(** C38: What a node is given.  Decoded, the Ignition files are at distinct paths; the CA
    is written exactly when there is one and the registry credentials exactly when there
    is a pull secret; the CA key and the credentials are readable by their owner only,
    and are the only such files. *)
Theorem nodeFiles_spec (cfg : Config) :
  length (nodeFiles cfg) = length (buildIgnitionFiles cfg) /\
  NoDup (map filePath (nodeFiles cfg)) /\
  (forall path content, In (path, mode_0600, content) (nodeFiles cfg) <->
     (cfg_CACertPEM cfg <> "" /\ path = cfg_DataPath cfg +:+ "/ca/ca.key" /\ content = cfg_CAKeyPEM cfg) \/
     (cfg_PullSecretJSON cfg <> "" /\ path = cfg_DataPath cfg +:+ "/auth.json" /\
      content = cfg_PullSecretJSON cfg)) /\
  (forall path content, In (path, mode_0644, content) (nodeFiles cfg) <->
     (path = cfg_DataPath cfg +:+ "/quay-config/config.yaml" /\ content = buildQuayConfig cfg) \/
     (cfg_CACertPEM cfg <> "" /\ path = cfg_DataPath cfg +:+ "/ca/ca.crt" /\ content = cfg_CACertPEM cfg)).
Proof.
  split; [|split; [apply paths_distinct|]]; rewrite nodeFiles_eq; unfold buildIgnitionFiles.
  { by destruct (cfg_CACertPEM cfg != ""), (cfg_PullSecretJSON cfg != ""). }
  destruct (cfg_CACertPEM cfg != "") eqn:E1, (cfg_PullSecretJSON cfg != "") eqn:E2; str_eq;
    cbn [app In]; split; intros path content; rewrite !pair3_eq;
    (split; [intros H; repeat destruct H as [H|H]|intros [H|H]]); try done;
    destruct_and?; try discriminate; subst; tauto.
Qed.

(** ** Nodes and addresses *)

(** The nodes whose registry can be reached. *)
Definition addressed (node : Node) : bool := getNodeInternalAddress node != "".
Definition addressOf (port : Z) (node : Node) : string := registryAddress (getNodeInternalAddress node) port.

Lemma readyMirrors_filter nodes port :
  readyMirrors nodes port =
    map (addressOf port) (List.filter (fun n => addressed n && isNodeReady n) nodes).
Proof.
  unfold addressed. induction nodes as [|n nodes IH]; simpl; [done|].
  destruct (getNodeInternalAddress n == "") eqn:E; simpl; [done|].
  destruct (isNodeReady n); simpl; by rewrite IH.
Qed.

Lemma trustData_fold nodes cfg (m : gmap string string) k :
  (forall v, m !! k = Some v -> v = cfg_CACertPEM cfg) ->
  (is_Some (m !! k) \/ exists n, In n nodes /\ addressed n = true /\
     trustKey (getNodeInternalAddress n) (cfg_Port cfg) = k) ->
  fold_left (fun data node =>
      let addr := getNodeInternalAddress node in
      if addr == "" then data
      else <[ trustKey addr (cfg_Port cfg) := cfg_CACertPEM cfg ]> data) nodes m !! k
    = Some (cfg_CACertPEM cfg).
Proof.
  revert m; induction nodes as [|n nodes IH]; intros m Hm H; cbn [fold_left].
  - destruct H as [[v H]|(n & [] & _)]. rewrite H. f_equal. by apply Hm.
  - apply IH.
    + cbv zeta. intros v. destruct (_ == ""); [apply Hm|].
      rewrite lookup_insert_Some. intros [[_ <-]|[_ Hv]]; [done|by apply Hm].
    + cbv zeta. unfold addressed in H.
      destruct H as [[v H]|(n' & [->|Hin] & Ha & Hk)].
      * left. destruct (_ == ""); [by eexists|]. apply lookup_insert_is_Some'. right. by eexists.
      * apply negb_true_iff in Ha. rewrite Ha. left. rewrite Hk, lookup_insert_eq. by eexists.
      * right. by exists n'.
Qed.

Lemma trustData_trusts nodes cfg n :
  In n nodes -> addressed n = true ->
  trustData nodes cfg !! trustKey (getNodeInternalAddress n) (cfg_Port cfg) = Some (cfg_CACertPEM cfg).
Proof. intros Hin Ha. apply trustData_fold; [done|]. right. by exists n. Qed.

(** ** The certificate authority *)

(** An event after which a certificate and a key are those of the CA secret. *)
Definition stored (certPEM keyPEM : string) (e : event) : Prop :=
  match e with
  | Ev (CGet KSecret k) (Ok s) =>
      k = caSecretKey /\ map_get (sec_Data s) "ca.crt" = certPEM /\ map_get (sec_Data s) "ca.key" = keyPEM
  | Ev (CCreate KSecret s) (Ok _) => s = caSecret certPEM keyPEM
  | _ => False
  end.

Definition is_key_generation (c : call) : bool := match c with CGenerateKey => true | _ => false end.

Definition no_CA_calls (c : call) : Prop := reads c /\ is_key_generation c = false.

Lemma returns_generateCA : returns generateCA.
Proof. unfold generateCA. returns_go. Qed.

Lemma reads_generateCA : always (calls reads) generateCA.
Proof. unfold generateCA. always_go; by repeat constructor. Qed.

(** A write of a CA secret at most. *)
Definition ca_call (c : call) : Prop :=
  match c with
  | CCreate KSecret _ => True
  | _ => reads c
  end.

Lemma ca_call_reads t : calls reads t -> calls ca_call t.
Proof. apply calls_mono. by intros []. Qed.

(** The configuration that results has the CA of an event of the run. *)
Lemma ensureCA_stored cfg tr o :
  exec (ensureCA cfg) tr o ->
  calls ca_call tr /\
  forall cfg', o = Done (Ok cfg') ->
    exists cert key, cfg' = withCA cfg cert key /\ Exists (stored cert key) tr.
Proof.
  unfold ensureCA. intros (g & t & -> & H)%exec_call_bind. destruct g as [s|e].
  - apply exec_inv in H as [-> ->]. split; [by repeat constructor|]. intros cfg' [= <-].
    do 2 eexists. split; [done|]. by left.
  - destruct (IsNotFound e); cbn [negb] in H; [|apply exec_inv in H as [-> ->]; by repeat constructor].
    apply exec_bind_returns in H as (r & t1 & t2 & -> & H1 & H); [|apply returns_generateCA].
    assert (C1 : calls ca_call t1) by (eapply ca_call_reads, always_exec, H1; apply reads_generateCA).
    destruct r as [[cert key]|e']; [|apply exec_inv in H as [-> ->]; rewrite app_nil_r; by repeat constructor].
    apply exec_call_bind in H as (c & t' & -> & H). apply exec_inv in H as [-> ->]. split.
    + constructor; [done|]. apply Forall_app_2; [done|by repeat constructor].
    + destruct c as [s'|e']; [|done]. intros cfg' [= <-]. exists cert, key. split; [done|].
      right. apply Exists_app. right. by left.
Qed.

(** The life of the CA.  The secret is read first.  When it is there its certificate
    and key are used, and nothing else is done; when it cannot be read the error is
    returned.  A key is generated only when the secret does not exist, and the generated
    CA is used only when the secret that holds it could be created. *)
Theorem ensureCA_spec (cfg : Config) tr o :
  exec (ensureCA cfg) tr o ->
  (exists s, tr = [Ev (CGet KSecret caSecretKey) (Ok s)] /\
     o = Done (Ok (withCA cfg (map_get (sec_Data s) "ca.crt") (map_get (sec_Data s) "ca.key")))) \/
  (exists e, IsNotFound e = false /\ tr = [Ev (CGet KSecret caSecretKey) (Err e)] /\ o = Done (Err e)) \/
  (exists e t last, IsNotFound e = true /\ tr = Ev (CGet KSecret caSecretKey) (Err e) :: t ++ last /\
     calls reads t /\
     ((exists e', exec generateCA t (Done (Err e')) /\ last = [] /\ o = Done (Err (Wrapf "generating CA" e'))) \/
      (exists cert key r, exec generateCA t (Done (Ok (cert, key))) /\
         last = [Ev (CCreate KSecret (caSecret cert key)) r] /\
         o = Done (match r with Ok _ => Ok (withCA cfg cert key) | Err e' => Err e' end)))).
Proof.
  unfold ensureCA. intros (g & t & -> & H)%exec_call_bind. destruct g as [s|e].
  - apply exec_inv in H as [-> ->]. left. eauto.
  - right. destruct (IsNotFound e) eqn:En; cbn [negb] in H.
    2:{ apply exec_inv in H as [-> ->]. left. eauto. }
    right. apply exec_bind_returns in H as (r & t1 & t2 & -> & H1 & H); [|apply returns_generateCA].
    exists e, t1, t2. split_and!; [done|done|exact (always_exec _ _ _ _ reads_generateCA H1)|].
    destruct r as [[cert key]|e'].
    + right. apply exec_call_bind in H as (c & t' & -> & H). apply exec_inv in H as [-> ->]. eauto 10.
    + left. apply exec_inv in H as [-> ->]. eauto.
Qed.

(** Creations and updates of objects of one kind. *)
Definition writes_of (K : kind) (c : call) : bool := creates K c || updates K c.

Abbreviation no_mc := (calls (fun c => writes_of KMachineConfig c = false)).
Abbreviation no_idms := (calls (fun c => writes_of KIDMS c = false)).
Abbreviation neither := (calls (fun c => writes_of KMachineConfig c = false /\ writes_of KIDMS c = false)).

Section Manager.
Context {X : Externals} {XL : ExternalsLaws X}.

(** ** The stages of a run *)

Lemma reads_resolveConfig p : always (calls reads) (resolveConfig p).
Proof.
  unfold resolveConfig, resolvePullSecret, clusterPullSecret. cbv zeta. always_go; by repeat constructor.
Qed.

Lemma returns_ensureCA cfg : returns (ensureCA cfg).
Proof. unfold ensureCA. pose proof returns_generateCA. returns_go. Qed.

Lemma returns_MachineConfig cfg : returns (ensureMachineConfig cfg).
Proof. unfold ensureMachineConfig. returns_go. Qed.

Lemma returns_TrustConfigMap nodes cfg : returns (ensureTrustConfigMap nodes cfg).
Proof. unfold ensureTrustConfigMap. returns_go. Qed.

Lemma returns_ImageConfig : returns ensureImageConfig.
Proof. unfold ensureImageConfig. returns_go. Qed.

(** What the manager does once it has the CA and the masters. *)
Definition install (masterNodes : list Node) (cfg : Config) : prog (option error) :=
  orFail "ensuring MachineConfig" (ensureMachineConfig cfg)
  (orFail "ensuring trust ConfigMap" (ensureTrustConfigMap masterNodes cfg)
  (orFail "ensuring image config trust" ensureImageConfig
  (orFail "ensuring ImageDigestMirrorSet" (ensureIDMS masterNodes cfg) (mret None)))).

(** The list of the masters. *)
Definition masters_listed (nodes : list Node) : event :=
  Ev (CList KNode None [(masterPoolLabel, "")]) (Ok nodes).

Lemma Reconcile_stages p tr o :
  exec (Reconcile p) tr o ->
  exists t0 rest, tr = t0 ++ rest /\ calls ca_call t0 /\
    (rest = [] \/
     exists cfg cert key n nodes, Exists (stored cert key) t0 /\ In (masters_listed (n :: nodes)) t0 /\
       exec (install (n :: nodes) (withCA cfg cert key)) rest o).
Proof.
  intros [(m & H & ->)|(cfg & t1 & t2 & H1 & H & ->)]%exec_bind.
  { exists tr, []. rewrite app_nil_r. split_and!; [done| |by left].
    apply ca_call_reads. eapply always_exec, H. apply reads_resolveConfig. }
  assert (C1 : calls ca_call t1) by (eapply ca_call_reads, always_exec, H1; apply reads_resolveConfig).
  apply exec_bind_returns in H as (ca & t3 & t4 & -> & H2 & H); [|apply returns_ensureCA].
  destruct (ensureCA_stored _ _ _ H2) as [C2 C3]. destruct ca as [cfg'|e].
  2:{ apply exec_inv in H as [-> ->]. exists (t1 ++ t3), []. rewrite !app_nil_r.
      split_and!; [done|by apply Forall_app|by left]. }
  destruct (C3 _ eq_refl) as (cert & key & -> & Hs).
  apply exec_call_bind in H as (l & t5 & -> & H).
  destruct l as [[|n nodes]|e].
  - apply exec_inv in H as [-> ->]. exists (t1 ++ t3 ++ [Ev (CList KNode None [(masterPoolLabel, "")]) (Ok [])]), [].
    rewrite !app_nil_r. split_and!; [done|repeat apply Forall_app_2; [done..|by repeat constructor]|by left].
  - exists (t1 ++ t3 ++ [Ev (CList KNode None [(masterPoolLabel, "")]) (Ok (n :: nodes))]), t5.
    rewrite <- !app_assoc. split_and!; [done|repeat apply Forall_app_2; [done..|by repeat constructor]|].
    right. exists cfg, cert, key, n, nodes. split_and!; [| |done].
    + apply Exists_app. right. apply Exists_app. by left.
    + rewrite !in_app_iff. right. right. by left.
  - apply exec_inv in H as [-> ->]. exists (t1 ++ t3 ++ [Ev (CList KNode None [(masterPoolLabel, "")]) (Err e)]), [].
    rewrite !app_nil_r. split_and!; [done|repeat apply Forall_app_2; [done..|by repeat constructor]|by left].
Qed.

(** ** What each stage writes *)


(** The write of a MachineConfig made from a configuration. *)
Definition mc_write (cfg : Config) (e : event) : Prop :=
  match e with
  | Ev (CCreate (KUnstructured g) u) _ | Ev (CUpdate (KUnstructured g) u) _ =>
      g = gvkMachineConfig /\ exists u0, u = setSpec u0 (machineConfigSpec cfg)
  | _ => False
  end.

(** The write of the trust ConfigMap that succeeded. *)
Definition trust_write (data : gmap string string) (e : event) : Prop :=
  match e with
  | Ev (CCreate KConfigMap cm) (Ok _) | Ev (CUpdate KConfigMap cm) (Ok _) => cm_Data cm = Some data
  | _ => False
  end.

(** The cluster is known to trust the ConfigMap: it was read, or set, so. *)
Definition image_trusts (e : event) : Prop :=
  match e with
  | Ev (CGet (KUnstructured g) _) (Ok img) | Ev (CUpdate (KUnstructured g) img) (Ok _) =>
      g = gvkImage /\ nested_string (u_Object img) trustedCAPath = TrustConfigMapName
  | _ => False
  end.

(** The write of a mirror set. *)
Definition idms_write (source : string) (mirrors : list string) (e : event) : Prop :=
  match e with
  | Ev (CCreate (KUnstructured g) u) _ | Ev (CUpdate (KUnstructured g) u) _ =>
      g = gvkIDMS /\ exists u0, u = setSpec u0 (idmsSpec source mirrors)
  | _ => False
  end.

(** A trace with no write of the kind, then at most one, of the given shape. *)
Definition one_write (K : kind) (P : event -> Prop) (tr : trace) : Prop :=
  calls (fun c => writes_of K c = false) tr \/
  exists t e, tr = t ++ [e] /\ P e /\ calls (fun c => writes_of K c = false) t.

Lemma mc_shape cfg tr o :
  exec (ensureMachineConfig cfg) tr o ->
  one_write KMachineConfig (mc_write cfg) tr /\
  calls (fun c => writes_of KIDMS c = false) tr /\
  (o = Done None -> Exists (mc_write cfg) tr).
Proof.
  unfold ensureMachineConfig, one_write. intros (g & t & -> & H)%exec_call_bind. destruct g as [u|e].
  - apply exec_call_bind in H as (r & t' & -> & H). apply exec_inv in H as [-> ->].
    split_and!; [right|by repeat constructor|intros _].
    + eexists [_], _. split_and!; [done|by split; [|eexists]|by repeat constructor].
    + right. left. by split; [|eexists].
  - destruct (IsNotFound e); cbv zeta in H.
    + apply exec_call_bind in H as (r & t' & -> & H). apply exec_inv in H as [-> ->].
      split_and!; [right|by repeat constructor|intros _].
      * eexists [_], _. split_and!; [done|by split; [|eexists]|by repeat constructor].
      * right. left. by split; [|eexists].
    + apply exec_inv in H as [-> ->]. split_and!; [left; by repeat constructor|by repeat constructor|done].
Qed.

Lemma trust_shape nodes cfg tr o :
  exec (ensureTrustConfigMap nodes cfg) tr o ->
  calls (fun c => writes_of KMachineConfig c = false /\ writes_of KIDMS c = false) tr /\
  (o = Done None -> Exists (trust_write (trustData nodes cfg)) tr).
Proof.
  unfold ensureTrustConfigMap. cbv zeta. intros (g & t & -> & H)%exec_call_bind. destruct g as [u|e].
  - apply exec_call_bind in H as (r & t' & -> & H). apply exec_inv in H as [-> ->].
    split; [by repeat constructor|]. intros Ho. right. left. by destruct r.
  - destruct (IsNotFound e).
    + apply exec_call_bind in H as (r & t' & -> & H). apply exec_inv in H as [-> ->].
      split; [by repeat constructor|]. intros Ho. right. left. by destruct r.
    + apply exec_inv in H as [-> ->]. by repeat constructor.
Qed.

Lemma image_shape tr o :
  exec ensureImageConfig tr o ->
  calls (fun c => writes_of KMachineConfig c = false /\ writes_of KIDMS c = false) tr /\
  (o = Done None -> Exists image_trusts tr).
Proof.
  unfold ensureImageConfig. intros (g & t & -> & H)%exec_call_bind.
  destruct g as [img|e]; [|apply exec_inv in H as [-> ->]; by repeat constructor].
  destruct (nested_string _ _ == _) eqn:E.
  - apply exec_inv in H as [-> ->]. split; [by repeat constructor|]. intros _. left. str_eq. done.
  - destruct (SetNestedField _ _ _) as [m [e|]] eqn:Es;
      [apply exec_inv in H as [-> ->]; by repeat constructor|].
    apply exec_call_bind in H as (r & t' & -> & H). apply exec_inv in H as [-> ->].
    split; [by repeat constructor|]. intros Ho. right. left. destruct r; [|done]. split; [done|].
    unfold nested_string. simpl. by rewrite (NestedString_set _ _ _ _ Es).
Qed.

Lemma idms_shape nodes cfg tr o :
  exec (ensureIDMS nodes cfg) tr o ->
  calls (fun c => writes_of KMachineConfig c = false) tr /\
  (calls (fun c => writes_of KIDMS c = false) tr \/
   exists n rest t e, nodes = n :: rest /\ addressed n = true /\ tr = t ++ [e] /\
     idms_write (addressOf (cfg_Port cfg) n) (readyMirrors nodes (cfg_Port cfg)) e /\
     calls (fun c => writes_of KIDMS c = false) t).
Proof.
  unfold ensureIDMS. destruct nodes as [|n rest]; [intros [-> ->]%exec_inv; split; [constructor|left; constructor]|].
  cbv zeta. destruct (getNodeInternalAddress n == "") eqn:Ea.
  { intros [-> ->]%exec_inv. split; [constructor|left; constructor]. }
  intros (g & t & -> & H)%exec_call_bind. destruct g as [u|e].
  - apply exec_call_bind in H as (r & t' & -> & H). apply exec_inv in H as [-> ->].
    split; [by repeat constructor|right]. eexists n, rest, [_], _.
    split_and!; [done|unfold addressed; by rewrite Ea|done|by split; [|eexists]|by repeat constructor].
  - destruct (IsNotFound e).
    + apply exec_call_bind in H as (r & t' & -> & H). apply exec_inv in H as [-> ->].
      split; [by repeat constructor|right]. eexists n, rest, [_], _.
      split_and!; [done|unfold addressed; by rewrite Ea|done|by split; [|eexists]|by repeat constructor].
    + apply exec_inv in H as [-> ->]. split; [by repeat constructor|left; by repeat constructor].
Qed.

(** ** The order of the stages *)

Lemma neither_mc tr : neither tr -> no_mc tr.
Proof. apply calls_mono. by intros c []. Qed.
Lemma neither_idms tr : neither tr -> no_idms tr.
Proof. apply calls_mono. by intros c []. Qed.

(** The stages: each but the last must succeed for the next to run. *)
Lemma install_shape n nodes cfg tr o :
  exec (install (n :: nodes) cfg) tr o ->
  exists t1 t2, tr = t1 ++ t2 /\ one_write KMachineConfig (mc_write cfg) t1 /\ no_idms t1 /\ no_mc t2 /\
    (no_idms t2 \/
     exists t3 e, t2 = t3 ++ [e] /\ no_idms t3 /\ addressed n = true /\
       idms_write (addressOf (cfg_Port cfg) n) (readyMirrors (n :: nodes) (cfg_Port cfg)) e /\
       Exists (mc_write cfg) t1 /\
       Exists (trust_write (trustData (n :: nodes) cfg)) t3 /\ Exists image_trusts t3).
Proof.
  unfold install. intros (r1 & t1 & t2 & -> & H1 & H)%exec_orFail; [|apply returns_MachineConfig].
  destruct (mc_shape _ _ _ H1) as (M1 & I1 & W1). exists t1, t2. split_and!; [done|done|done| |].
  - destruct r1; [destruct H as [-> _]; constructor|].
    apply exec_orFail in H as (r2 & t3 & t4 & -> & H2 & H); [|apply returns_TrustConfigMap].
    apply Forall_app_2; [by apply neither_mc, (trust_shape _ _ _ _ H2)|].
    destruct r2; [destruct H as [-> _]; constructor|].
    apply exec_orFail in H as (r3 & t5 & t6 & -> & H3 & H); [|apply returns_ImageConfig].
    apply Forall_app_2; [by apply neither_mc, (image_shape _ _ H3)|].
    destruct r3; [destruct H as [-> _]; constructor|].
    apply exec_bind in H as [(m & H4 & ->)|(r4 & t7 & t8 & H4 & H & ->)].
    + apply (idms_shape _ _ _ _ H4).
    + apply Forall_app_2; [apply (idms_shape _ _ _ _ H4)|].
      destruct r4; apply exec_inv in H as [-> _]; constructor.
  - destruct r1; [destruct H as [-> _]; left; constructor|].
    apply exec_orFail in H as (r2 & t3 & t4 & -> & H2 & H); [|apply returns_TrustConfigMap].
    destruct (trust_shape _ _ _ _ H2) as (T1 & T2). apply neither_idms in T1.
    destruct r2; [destruct H as [-> _]; left; by rewrite app_nil_r|].
    apply exec_orFail in H as (r3 & t5 & t6 & -> & H3 & H); [|apply returns_ImageConfig].
    destruct (image_shape _ _ H3) as (G1 & G2). apply neither_idms in G1.
    destruct r3; [destruct H as [-> _]; left; rewrite app_nil_r; by apply Forall_app_2|].
    assert (Hi : exists t o', exec (ensureIDMS (n :: nodes) cfg) t o' /\ t6 = t).
    { apply exec_bind in H as [(m & H4 & ->)|(r4 & t7 & t8 & H4 & H & ->)]; [by eauto|].
      destruct r4; apply exec_inv in H as [-> _]; rewrite app_nil_r; eauto. }
    destruct Hi as (t & o' & H4 & ->).
    destruct (idms_shape _ _ _ _ H4) as (_ & [N|(n' & rest & t0 & e & [= <- <-] & Ha & -> & Hw & N)]).
    + left. by repeat apply Forall_app_2.
    + right. exists (t3 ++ t5 ++ t0), e. rewrite <- !app_assoc. split_and!; try done.
      * by repeat apply Forall_app_2.
      * by apply W1.
      * apply Exists_app. left. by apply T2.
      * apply Exists_app. right. apply Exists_app. left. by apply G2.
Qed.

Lemma ca_call_no_mc t : calls ca_call t -> no_mc t.
Proof. apply calls_mono. by intros [] H; try done; destruct K. Qed.
Lemma ca_call_no_idms t : calls ca_call t -> no_idms t.
Proof. apply calls_mono. by intros [] H; try done; destruct K. Qed.

Lemma no_write_none K t : calls (fun c => writes_of K c = false) t ->
  Exists (fun e => writes_of K (ev_call e) = true) t -> False.
Proof.
  intros H (e & Hin & He)%Exists_exists. pose proof (proj1 (Forall_forall _ _) H e Hin). simpl in *. congruence.
Qed.

(** C17: Nodes run with the stored CA.  A run writes the MachineConfig at most once, and the
    certificate and key its files are made from are those the CA secret was read with, or
    was successfully created with, before. *)
Theorem Registry_uses_stored_CA (p : DisconnectedPlatform) tr o :
  exec (Reconcile p) tr o ->
  Exists (fun e => writes_of KMachineConfig (ev_call e) = true) tr ->
  exists t1 e t2 cfg cert key, tr = t1 ++ e :: t2 /\ mc_write (withCA cfg cert key) e /\
    Exists (stored cert key) t1 /\ no_mc (t1 ++ t2).
Proof.
  intros (t0 & rest & -> & C & H)%Reconcile_stages He.
  destruct H as [->|(cfg & cert & key & n & nodes & Hs & _ & H)].
  { rewrite app_nil_r in He. exfalso. by eapply no_write_none; [apply ca_call_no_mc|]. }
  apply install_shape in H as (t1 & t2 & -> & [N|(t & e & -> & Hw & N)] & _ & N2 & _).
  { exfalso. eapply no_write_none; [|exact He]. repeat apply Forall_app_2; [by apply ca_call_no_mc|done..]. }
  exists (t0 ++ t), e, t2, cfg, cert, key. rewrite <- !app_assoc. split_and!; [done|done| |].
  - apply Exists_app. by left.
  - repeat apply Forall_app_2; [by apply ca_call_no_mc|done..].
Qed.

(** C16: Nodes are pointed at trusted registries only.  When a run writes the mirror set,
    its mirrors are the registries of the ready masters that have an address, in the order
    listed, and its source is the registry of the first master.  Before that, in the same
    run, the MachineConfig of the registries was written, the ConfigMap that trusts the CA
    under the name of every registry was written, and the cluster was set or found to use
    that ConfigMap. *)
Theorem Registry_mirrors_trusted (p : DisconnectedPlatform) tr o :
  exec (Reconcile p) tr o ->
  Exists (fun e => writes_of KIDMS (ev_call e) = true) tr ->
  exists t1 e cfg n nodes, tr = t1 ++ [e] /\
    In (masters_listed (n :: nodes)) t1 /\
    idms_write (addressOf (cfg_Port cfg) n)
      (map (addressOf (cfg_Port cfg)) (List.filter (fun n => addressed n && isNodeReady n) (n :: nodes))) e /\
    Exists (mc_write cfg) t1 /\ Exists (trust_write (trustData (n :: nodes) cfg)) t1 /\
    Exists image_trusts t1 /\
    (forall node, In node (n :: nodes) -> addressed node = true ->
       trustData (n :: nodes) cfg !! trustKey (getNodeInternalAddress node) (cfg_Port cfg)
         = Some (cfg_CACertPEM cfg)) /\
    no_idms t1.
Proof.
  intros (t0 & rest & -> & C & H)%Reconcile_stages He.
  destruct H as [->|(cfg & cert & key & n & nodes & Hs & Hl & H)].
  { rewrite app_nil_r in He. exfalso. by eapply no_write_none; [apply ca_call_no_idms|]. }
  apply install_shape in H as (t1 & t2 & -> & _ & N1 & _ & [N|(t3 & e & -> & N3 & Ha & Hw & W1 & W2 & W3)]).
  { exfalso. eapply no_write_none; [|exact He]. repeat apply Forall_app_2; [by apply ca_call_no_idms|done..]. }
  exists (t0 ++ t1 ++ t3), e, (withCA cfg cert key), n, nodes.
  rewrite <- readyMirrors_filter, <- !app_assoc. split_and!; try done.
  - apply in_or_app. by left.
  - apply Exists_app. right. apply Exists_app. by left.
  - apply Exists_app. right. apply Exists_app. by right.
  - apply Exists_app. right. apply Exists_app. by right.
  - intros node. apply trustData_trusts.
  - repeat apply Forall_app_2; [by apply ca_call_no_idms|done..].
Qed.

End Manager.

(** ** Worked examples *)

Section Witnesses.
#[local] Existing Instance sampleX.

Definition sampleNode (name : string) (addrs : list NodeAddress) (ready : string) : Node :=
  mkNode (clusterMeta name) addrs [mkNodeCondition "Ready" ready].

Definition master0 : Node := sampleNode "master-0" [mkNodeAddress "InternalIP" "10.0.0.1"] "True".
Definition master1 : Node := sampleNode "master-1" [mkNodeAddress "InternalIP" "fd00::2"] "False".
Definition master2 : Node := sampleNode "master-2" [mkNodeAddress "InternalDNS" "m2.local"] "True".
Definition addressless : Node := sampleNode "master-3" [] "True".

Definition sampleAirgapped : AirgappedConfig :=
  mkAirgappedConfig false "" false "" "" None None None None
    (Some (mkMirrorRegistryConfig "" 0 "" "" "" None)) "" None.

Definition registryPlatform : DisconnectedPlatform :=
  mkDisconnectedPlatform (mkTypeMeta "" "") (sampleMeta "" "platform")
    (mkDisconnectedPlatformSpec "airgapped" None (Some sampleAirgapped) None None)
    (mkDisconnectedPlatformStatus "" [] None [] None [] [] None).

Definition registryStore (nodes : list Node) : store :=
  with_objs (with_objs emptyStore KNode nodes) KImage
    [mkUnstructured gvkImage (clusterMeta "cluster") []].

Definition registryRun : prog (option error) := Reconcile registryPlatform.
Definition masters : list Node := [master0; master1; master2].

Example ready_masters_are_mirrors :
  readyMirrors masters 8443 = ["10.0.0.1:8443"; "m2.local:8443"].
Proof. reflexivity. Qed.

Example trust_key_has_no_colon : trustKey "fd00::2" 8443 = "fd00....2..8443".
Proof. vm_compute. reflexivity. Qed.

(** A first master without an address keeps the mirror set from being written, although
    the others have one. *)
Example first_master_decides :
  outcomeOf registryRun (registryStore (addressless :: masters)) =
    Done (Some (Errorf "ensuring ImageDigestMirrorSet: no master nodes with internal addresses found")).
Proof. vm_compute. reflexivity. Qed.

Lemma existsb_Exists {A} (f : A -> bool) l : existsb f l = true -> Exists (fun x => f x = true) l.
Proof.
  intros (x & Hin & Hx)%existsb_exists. apply Exists_exists. exists x.
  split; [by apply list_elem_of_In|done].
Qed.

Lemma ensureCA_spec_witness :
  let cfg := mkConfig "/opt/quay" 8443 "q" "r" "p" "" "" "" in
  let run := ensureCA cfg in let tr := traceOf run emptyStore in let o := outcomeOf run emptyStore in
  existsb (fun e => creates KSecret (ev_call e)) tr = true /\
  ((exists s, tr = [Ev (CGet KSecret caSecretKey) (Ok s)] /\
     o = Done (Ok (withCA cfg (map_get (sec_Data s) "ca.crt") (map_get (sec_Data s) "ca.key")))) \/
  (exists e, IsNotFound e = false /\ tr = [Ev (CGet KSecret caSecretKey) (Err e)] /\ o = Done (Err e)) \/
  (exists e t last, IsNotFound e = true /\ tr = Ev (CGet KSecret caSecretKey) (Err e) :: t ++ last /\
     calls reads t /\
     ((exists e', exec generateCA t (Done (Err e')) /\ last = [] /\ o = Done (Err (Wrapf "generating CA" e'))) \/
      (exists cert key r, exec generateCA t (Done (Ok (cert, key))) /\
         last = [Ev (CCreate KSecret (caSecret cert key)) r] /\
         o = Done (match r with Ok _ => Ok (withCA cfg cert key) | Err e' => Err e' end))))).
Proof.
  intros cfg run tr o. split; [vm_compute; reflexivity|]. apply (ensureCA_spec cfg), traceOf_exec.
Defined.

Lemma Registry_uses_stored_CA_witness :
  exists t1 e t2 cfg cert key, traceOf registryRun (registryStore masters) = t1 ++ e :: t2 /\
    mc_write (withCA cfg cert key) e /\ Exists (stored cert key) t1 /\ no_mc (t1 ++ t2).
Proof.
  apply (Registry_uses_stored_CA registryPlatform _ (outcomeOf registryRun (registryStore masters)));
    [apply traceOf_exec|]. apply existsb_Exists. vm_compute. reflexivity.
Defined.

Lemma Registry_mirrors_trusted_witness :
  exists t1 e cfg n nodes, traceOf registryRun (registryStore masters) = t1 ++ [e] /\
    In (masters_listed (n :: nodes)) t1 /\
    idms_write (addressOf (cfg_Port cfg) n)
      (map (addressOf (cfg_Port cfg)) (List.filter (fun n => addressed n && isNodeReady n) (n :: nodes))) e /\
    Exists (mc_write cfg) t1 /\ Exists (trust_write (trustData (n :: nodes) cfg)) t1 /\
    Exists image_trusts t1 /\
    (forall node, In node (n :: nodes) -> addressed node = true ->
       trustData (n :: nodes) cfg !! trustKey (getNodeInternalAddress node) (cfg_Port cfg)
         = Some (cfg_CACertPEM cfg)) /\
    no_idms t1.
Proof.
  apply (Registry_mirrors_trusted registryPlatform _ (outcomeOf registryRun (registryStore masters)));
    [apply traceOf_exec|]. apply existsb_Exists. vm_compute. reflexivity.
Defined.
End Witnesses.
