(* ===== verification/Operators.v ===== *)
(** The operators a platform subscribes to ([disconnectedplatform_controller.go]): the
    tables, their overrides, and the namespaces, operator groups and subscriptions that
    install them on a connected and on an airgapped cluster. *)
From S2P Require Import Prelude GoStrings K8s Api Kube Externals Helpers.

Definition subscriptionGVK := mkGVK "operators.coreos.com" "v1alpha1" "Subscription".
Definition operatorGroupGVK := mkGVK "operators.coreos.com" "v1" "OperatorGroup".
Definition csvGVK := mkGVK "operators.coreos.com" "v1alpha1" "ClusterServiceVersion".
Definition packageManifestGVK := mkGVK "packages.operators.coreos.com" "v1" "PackageManifest".
Definition consoleGVK := mkGVK "operator.openshift.io" "v1" "Console".
Abbreviation KSubscription := (KUnstructured subscriptionGVK).
Abbreviation KOperatorGroup := (KUnstructured operatorGroupGVK).

Definition clusterCAMountPath : string := "/etc/pki/ca-trust/custom".
Definition clusterCAFilePath : string := clusterCAMountPath +:+ "/" +:+ clusterCABundleKey.
Definition clusterCAVolumeName : string := "cluster-ca-bundle".

(** ** The tables *)

Record operatorDef := mkOperatorDef {
  od_name : string;
  od_pkg : string;
  od_channel : string;
  od_catalog : string;
  od_catalogNS : string;
  od_ns : string;
}.
#[export] Instance eta_operatorDef : Eta operatorDef := fun r =>
  mkOperatorDef (od_name r) (od_pkg r) (od_channel r) (od_catalog r) (od_catalogNS r) (od_ns r).

Definition redhat (name pkg channel ns : string) : operatorDef :=
  mkOperatorDef name pkg channel "redhat-operators" "openshift-marketplace" ns.

Definition defaultOperators : list operatorDef :=
  [ redhat "openshift-pipelines" "openshift-pipelines-operator-rh" "latest" "openshift-operators";
    redhat "rhbk-operator" "rhbk-operator" "stable-v24" architectNamespace;
    redhat "trusted-artifact-signer" "rhtas-operator" "stable" "openshift-operators";
    redhat "trusted-profile-analyzer" "rhtpa-operator" "stable-v1.1" architectNamespace;
    redhat "quay-operator" "quay-operator" "stable-3.13" "openshift-operators";
    redhat "cincinnati-operator" "cincinnati-operator" "v1" "openshift-update-service" ].

Definition airgappedOperators : list operatorDef :=
  [ mkOperatorDef "quay-operator" "quay-operator" "" "" "" "openshift-operators";
    mkOperatorDef "cincinnati-operator" "cincinnati-operator" "" "" "" "openshift-update-service";
    mkOperatorDef "openshift-pipelines" "openshift-pipelines-operator-rh" "" "" "" "openshift-operators" ].

(** [if p != nil { overrides[name] = p }]. *)
Definition override (name : string) (p : option OLMSubscriptionConfig)
    (m : gmap string OLMSubscriptionConfig) : gmap string OLMSubscriptionConfig :=
  match p with Some cfg => <[ name := cfg ]> m | None => m end.

Definition getOperatorOverrides (platform : DisconnectedPlatform) : gmap string OLMSubscriptionConfig :=
  match dps_Connected (dp_Spec platform) ≫= cc_Operators with
  | None => ∅
  | Some op =>
      override "cincinnati-operator" (ocf_OSUS op)
        (override "quay-operator" (ocf_QuayOperator op)
          (override "trusted-profile-analyzer" (ocf_RHTPA op)
            (override "trusted-artifact-signer" (ocf_RHTAS op)
              (override "rhbk-operator" (ocf_Keycloak op)
                (override "openshift-pipelines" (ocf_OpenShiftPipelines op) ∅)))))
  end.

(** [cfg != nil && cfg.Disabled]. *)
Definition isDisabled (cfg : option OLMSubscriptionConfig) : bool :=
  match cfg with Some c => olm_Disabled c | None => false end.

Definition subscriptionComponent (op : operatorDef) (status : string) : ComponentStatus :=
  mkComponentStatus (od_name op) status "Subscription" "operators.coreos.com" (od_ns op) "" None.

Definition subscriptionMeta (op : operatorDef) : ObjectMeta :=
  meta0 <| om_Name := "mirror-operator-" +:+ od_name op |> <| om_Namespace := od_ns op |>.

(** [cfg != nil && cfg.Field != ""]: the override, or the default. *)
Definition cfgOr (cfg : option OLMSubscriptionConfig) (f : OLMSubscriptionConfig -> string) (d : string)
  : string :=
  match cfg with
  | Some c => if f c != "" then f c else d
  | None => d
  end.

(** ** Namespaces and bundles *)

Definition ensureNamespace (ns : string) : prog (option error) :=
  if ns == "openshift-operators" then mret None
  else
    let n := mkNamespace (meta0 <| om_Name := ns |>) in
    g ← Get KNamespace (mkNN "" ns);
    match g with
    | Ok _ => mret None
    | Err e => if negb (IsNotFound e) then mret (Some e) else c ← Create KNamespace n; mret (err_of c)
    end.

Definition injectLabel : string := "config.openshift.io/inject-trusted-cabundle".

Definition ensureClusterCABundleInNamespace (namespace : string) : prog (option error) :=
  let cm := mkConfigMap (meta0 <| om_Name := clusterCABundleName |> <| om_Namespace := namespace |>
                               <| om_Labels := {[ injectLabel := "true" ]} |>) None in
  g ← Get KConfigMap (mkNN namespace clusterCABundleName);
  match g with
  | Ok existing =>
      if default "" (om_Labels (cm_Meta existing) !! injectLabel) == "true" then mret None
      else
        u ← Update KConfigMap
              (existing <| cm_Meta ::= fun om => om <| om_Labels ::= <[ injectLabel := "true" ]> |> |>);
        mret (err_of u)
  | Err e => if negb (IsNotFound e) then mret (Some e) else c ← Create KConfigMap cm; mret (err_of c)
  end.

Definition getClusterCABundleData : prog (result string) :=
  g ← Get KConfigMap (mkNN architectNamespace clusterCABundleName);
  mret (match g with
        | Err e => Err e
        | Ok cm =>
            let caData := map_get (cm_Data cm) clusterCABundleKey in
            if caData == "" then
              Err (Errorf ("cluster CA bundle ConfigMap has no " +:+ clusterCABundleKey +:+ " key"))
            else Ok caData
        end).

(** ** Subscriptions *)

Definition caEnv : json := JMap [("name", JStr "SSL_CERT_FILE"); ("value", JStr clusterCAFilePath)].
Definition caVolume : json :=
  JMap [("name", JStr clusterCAVolumeName); ("configMap", JMap [("name", JStr clusterCABundleName)])].
Definition caMount : json :=
  JMap [("name", JStr clusterCAVolumeName); ("mountPath", JStr clusterCAMountPath); ("readOnly", JBool true)].

Definition isCAVolume (v : json) : bool :=
  match as_map v with
  | Some vm => iface_is (jget vm "name") clusterCAVolumeName
  | None => false
  end.

Definition envPath : list string := ["spec"; "config"; "env"].
Definition volumesPath : list string := ["spec"; "config"; "volumes"].
Definition mountsPath : list string := ["spec"; "config"; "volumeMounts"].

Section Operators.
Context {X : Externals}.

(** [unstructured.SetNested...], the error ignored. *)
Definition setString (path : list string) (v : string) (m : fields) : fields :=
  fst (SetNestedField m (JStr v) path).
Definition setSlice (path : list string) (l : list json) (m : fields) : fields :=
  fst (SetNestedSlice m l path).

Definition ensureOperatorGroup (op : operatorDef) : prog (option error) :=
  if od_ns op == "openshift-operators" then mret None
  else
    l ← List_ KOperatorGroup (Some (od_ns op)) [];
    match l with
    | Ok (_ :: _) => mret None
    | _ =>
        let spec := fst (SetNestedStringSlice [] [od_ns op] ["spec"; "targetNamespaces"]) in
        c ← Create KOperatorGroup (mkUnstructured operatorGroupGVK (subscriptionMeta op) spec);
        mret (err_of c)
    end.

(** A subscription that exists gets the CA bundle, and nothing else.  The caller's object is
    changed too, so it is part of the result. *)
Definition withCABundle (sub : Unstructured) : Unstructured :=
  let volumes := nested_slice (u_Object sub) volumesPath in
  let envs := nested_slice (u_Object sub) envPath in
  let m := setSlice volumesPath (snoc volumes caVolume) (setSlice envPath (snoc envs caEnv) (u_Object sub)) in
  sub <| u_Object := setSlice mountsPath (snoc (nested_slice m mountsPath) caMount) m |>.

Definition ensureSubscriptionCABundle (sub : Unstructured) : prog (Unstructured * option error) :=
  ca ← getClusterCABundleData;
  match ca with
  | Err _ => mret (sub, None)
  | Ok _ =>
      if existsb isCAVolume (nested_slice (u_Object sub) volumesPath) then mret (sub, None)
      else
        let ns := om_Namespace (u_Meta sub) in
        b ← ensureClusterCABundleInNamespace ns;
        match b with
        | Some e => mret (sub, Some (Wrapf ("ensuring cluster CA bundle in " +:+ ns) e))
        | None =>
            u ← Update KSubscription (withCABundle sub);
            mret (match u with Ok stored => (stored, None) | Err e => (withCABundle sub, Some e) end)
        end
  end.

Definition subscriptionSpec (op : operatorDef) (cfg : option OLMSubscriptionConfig) : fields :=
  let m := setString ["spec"; "installPlanApproval"] (cfgOr cfg olm_ApprovalStrategy "Automatic")
            (setString ["spec"; "sourceNamespace"] (cfgOr cfg olm_CatalogSourceNS (od_catalogNS op))
              (setString ["spec"; "source"] (cfgOr cfg olm_CatalogSource (od_catalog op))
                (setString ["spec"; "channel"] (cfgOr cfg olm_Channel (od_channel op))
                  (setString ["spec"; "name"] (od_pkg op) [])))) in
  let csv := match cfg with Some c => olm_StartingCSV c | None => "" end in
  if csv != "" then setString ["spec"; "startingCSV"] csv m else m.

Definition createSubscription (op : operatorDef) (spec : fields) : prog (option error) :=
  c ← Create KSubscription (mkUnstructured subscriptionGVK (subscriptionMeta op) spec);
  mret (err_of c).

Definition withEnv (env : list json) (spec : fields) : fields :=
  match env with [] => spec | _ => setSlice envPath env spec end.

Definition ensureSubscription (op : operatorDef) (cfg : option OLMSubscriptionConfig) : prog (option error) :=
  g ← Get KSubscription (key_of_meta (subscriptionMeta op));
  match g with
  | Ok sub => r ← ensureSubscriptionCABundle sub; mret (snd r)
  | Err e =>
      if negb (IsNotFound e) then mret (Some e)
      else
        let spec := subscriptionSpec op cfg in
        p ← getClusterProxy;
        let '(httpProxy, httpsProxy, noProxy) := p in
        let env := map JMap (proxyEnvForSubscription httpProxy httpsProxy noProxy) in
        ca ← getClusterCABundleData;
        match ca with
        | Err _ => createSubscription op (withEnv env spec)
        | Ok _ =>
            orFail ("ensuring cluster CA bundle in " +:+ od_ns op) (ensureClusterCABundleInNamespace (od_ns op))
              (createSubscription op
                 (withEnv (snoc env caEnv)
                    (setSlice mountsPath [caMount] (setSlice volumesPath [caVolume] spec))))
        end
  end.

(** The phase of the installed version; empty when it is not known. *)
Definition csvStatus (op : operatorDef) : prog string :=
  g ← Get KSubscription (key_of_meta (subscriptionMeta op));
  match g with
  | Err _ => mret ""
  | Ok sub =>
      let csvName := nested_string (u_Object sub) ["status"; "currentCSV"] in
      if csvName == "" then mret ""
      else
        c ← Get (KUnstructured csvGVK) (mkNN (od_ns op) csvName);
        mret (match c with
              | Err _ => ""
              | Ok csv => nested_string (u_Object csv) ["status"; "phase"]
              end)
  end.

Definition pluginsPath : list string := ["spec"; "plugins"].

Definition enableConsolePluginInOperator (pluginName : string) : prog (option error) :=
  g ← Get (KUnstructured consoleGVK) (clusterKey "cluster");
  match g with
  | Err e => mret (Some (Wrapf "failed to get console operator" e))
  | Ok console =>
      let '(plugins, found, err) := NestedStringSlice (u_Object console) pluginsPath in
      match (err : option error) with
      | Some e => mret (Some (Wrapf "failed to get plugins list" e))
      | None =>
          let plugins := if (found : bool) then plugins else [] in
          if containsString plugins pluginName then mret None
          else
            let '(m, err) := SetNestedStringSlice (u_Object console) (snoc plugins pluginName) pluginsPath in
            match (err : option error) with
            | Some e => mret (Some (Wrapf "failed to set plugins list" e))
            | None => u ← Update (KUnstructured consoleGVK) (console <| u_Object := m |>); mret (err_of u)
            end
      end
  end.

(** ** The connected cluster *)

(** Namespace, group and subscription of one operator. *)
Definition ensureOperator (op : operatorDef) (cfg : option OLMSubscriptionConfig) : prog (option error) :=
  orFail ("namespace for " +:+ od_name op) (ensureNamespace (od_ns op))
    (orFail ("operatorgroup for " +:+ od_name op) (ensureOperatorGroup op)
      (orFail ("subscription for " +:+ od_name op) (ensureSubscription op cfg) (mret None))).

Definition orInstalling (status : string) : string := if status == "" then "Installing" else status.

(** The console plugin of the pipelines operator; a failure is only logged. *)
Definition enablePlugins (op : operatorDef) (compStatus : string) : prog () :=
  if (compStatus == "Succeeded") && (od_name op == "openshift-pipelines") then
    _ ← enableConsolePluginInOperator "pipelines-console-plugin"; mret ()
  else mret ().

(** The loop of [reconcileSubscriptions]: the components found so far, and the error. *)
Fixpoint subscribeAll (overrides : gmap string OLMSubscriptionConfig) (ops : list operatorDef)
    (components : list ComponentStatus) : prog (list ComponentStatus * option error) :=
  match ops with
  | [] => mret (components, None)
  | op :: rest =>
      let cfg := overrides !! od_name op in
      if isDisabled cfg then
        subscribeAll overrides rest (snoc components (subscriptionComponent op "Disabled"))
      else
        err ← ensureOperator op cfg;
        match err with
        | Some e => mret (snoc components (subscriptionComponent op "Error"), Some e)
        | None =>
            s ← csvStatus op;
            let compStatus := orInstalling s in
            _ ← enablePlugins op compStatus;
            subscribeAll overrides rest (snoc components (subscriptionComponent op compStatus))
        end
  end.

Definition reconcileSubscriptions (platform : DisconnectedPlatform)
  : prog (DisconnectedPlatform * option error) :=
  r ← subscribeAll (getOperatorOverrides platform) defaultOperators [];
  let '(components, err) := r in
  mret (platform <| dp_Status ::= fun s => s <| dpst_Components := components |> |>, err).

(** ** The airgapped cluster *)

(** [%q] of a plain name. *)
Definition quoted (s : string) : string := dq "^" +:+ s +:+ dq "^".

(** The catalog, its namespace and the default channel of a package. *)
Definition discoverPackageInfo (pkg : string) : prog (result (string * string * string)) :=
  g ← Get (KUnstructured packageManifestGVK) (mkNN "openshift-marketplace" pkg);
  mret (match g with
        | Err e => Err (Wrapf ("PackageManifest " +:+ quoted pkg +:+ " not found") e)
        | Ok pm =>
            let catalog := nested_string (u_Object pm) ["status"; "catalogSource"] in
            if catalog == "" then
              Err (Errorf ("PackageManifest " +:+ quoted pkg +:+ " has no catalogSource in status"))
            else Ok (catalog, nested_string (u_Object pm) ["status"; "catalogSourceNamespace"],
                     nested_string (u_Object pm) ["status"; "defaultChannel"])
        end).

Fixpoint subscribeAirgapped (ops : list operatorDef) (components : list ComponentStatus)
    (needsRequeue : bool) : prog (list ComponentStatus * (bool * option error)) :=
  match ops with
  | [] => mret (components, (needsRequeue, None))
  | op :: rest =>
      i ← discoverPackageInfo (od_pkg op);
      match i with
      | Err _ => subscribeAirgapped rest components true
      | Ok (catalog, catalogNS, channel) =>
          let op := op <| od_catalog := catalog |> <| od_catalogNS := catalogNS |>
                       <| od_channel := channel |> in
          err ← ensureOperator op None;
          match err with
          | Some e => mret (components, (true, Some e))
          | None =>
              s ← csvStatus op;
              let compStatus := orInstalling s in
              let components := snoc components (subscriptionComponent op compStatus) in
              _ ← enablePlugins op compStatus;
              subscribeAirgapped rest components (needsRequeue || (compStatus != "Succeeded"))
          end
      end
  end.

Definition reconcileAirgappedSubscriptions (platform : DisconnectedPlatform)
  : prog (DisconnectedPlatform * (bool * option error)) :=
  r ← subscribeAirgapped airgappedOperators (dpst_Components (dp_Status platform)) false;
  let '(components, out) := r in
  mret (platform <| dp_Status ::= fun s => s <| dpst_Components := components |> |>, out).
End Operators.
