(* ===== verification/OperatorProps.v ===== *)
(** Properties of the operator subscriptions, over every execution. *)
From S2P Require Import Prelude GoStrings K8s GoTime Api Kube Externals Helpers ImageSet Instances.
From S2P Require Import Samples Operators.

(** ** The subscriptions that are created *)

(** The metadata of the subscriptions a trace creates, in order. *)
Definition created_meta (e : event) : option ObjectMeta :=
  match ev_call e with
  | CCreate (KUnstructured g) u => if bool_decide (g = subscriptionGVK) then Some (u_Meta u) else None
  | _ => None
  end.
Definition created (tr : trace) : list ObjectMeta := omap created_meta tr.

Lemma created_app t1 t2 : created (t1 ++ t2) = created t1 ++ created t2.
Proof. apply omap_app. Qed.

(** A call that creates no subscription. *)
Definition creates_none (c : call) : Prop :=
  match c with
  | CCreate (KUnstructured g) _ => g <> subscriptionGVK
  | _ => True
  end.

Lemma created_none tr : calls creates_none tr -> created tr = [].
Proof.
  induction 1 as [|e tr H _ IH]; [done|].
  change (match created_meta e with Some m => m :: created tr | None => created tr end = []).
  rewrite IH. unfold created_meta. destruct (ev_call e); try done. destruct K; try done.
  by rewrite bool_decide_false.
Qed.

Lemma creates_none_reads tr : calls reads tr -> calls creates_none tr.
Proof. apply calls_mono. by intros []. Qed.

(** At most the subscription of an operator. *)
Definition creates_at_most (op : operatorDef) (tr : trace) : Prop :=
  created tr = [] \/ created tr = [subscriptionMeta op].

Section Props.
Context {X : Externals}.

Lemma none_namespace ns : always (calls creates_none) (ensureNamespace ns).
Proof. unfold ensureNamespace. always_go; by repeat constructor. Qed.
Lemma none_bundle ns : always (calls creates_none) (ensureClusterCABundleInNamespace ns).
Proof. unfold ensureClusterCABundleInNamespace. cbv zeta. always_go; by repeat constructor. Qed.
Lemma none_group op : always (calls creates_none) (ensureOperatorGroup op).
Proof. unfold ensureOperatorGroup. always_go; by repeat constructor. Qed.
Lemma none_bundleData : always (calls creates_none) getClusterCABundleData.
Proof. unfold getClusterCABundleData. always_go; by repeat constructor. Qed.
Lemma none_proxy : always (calls creates_none) getClusterProxy.
Proof. unfold getClusterProxy. always_go; by repeat constructor. Qed.
Lemma none_csv op : always (calls creates_none) (csvStatus op).
Proof. unfold csvStatus. always_go; by repeat constructor. Qed.
Lemma none_plugins op s : always (calls creates_none) (enablePlugins op s).
Proof. unfold enablePlugins, enableConsolePluginInOperator. always_go; by repeat constructor. Qed.
Lemma none_discover pkg : always (calls creates_none) (discoverPackageInfo pkg).
Proof. unfold discoverPackageInfo. always_go; by repeat constructor. Qed.
Lemma none_cabundle sub : always (calls creates_none) (ensureSubscriptionCABundle sub).
Proof.
  pose proof none_bundle. pose proof none_bundleData.
  unfold ensureSubscriptionCABundle. cbv zeta. always_go; by repeat constructor.
Qed.

Lemma returns_namespace ns : returns (ensureNamespace ns).
Proof. unfold ensureNamespace. returns_go. Qed.
Lemma returns_bundle ns : returns (ensureClusterCABundleInNamespace ns).
Proof. unfold ensureClusterCABundleInNamespace. cbv zeta. returns_go. Qed.
Lemma returns_group op : returns (ensureOperatorGroup op).
Proof. unfold ensureOperatorGroup. returns_go. Qed.
Lemma returns_bundleData : returns getClusterCABundleData.
Proof. unfold getClusterCABundleData. returns_go. Qed.
Lemma returns_proxy : returns getClusterProxy.
Proof. unfold getClusterProxy. returns_go. Qed.
Lemma returns_csv op : returns (csvStatus op).
Proof. unfold csvStatus. returns_go. Qed.
Lemma returns_plugins op s : returns (enablePlugins op s).
Proof. unfold enablePlugins, enableConsolePluginInOperator. returns_go. Qed.
Lemma returns_discover pkg : returns (discoverPackageInfo pkg).
Proof. unfold discoverPackageInfo. returns_go. Qed.
Lemma exec_none {A} (p : prog A) tr o : always (calls creates_none) p -> exec p tr o -> created tr = [].
Proof. intros Hp H. eapply created_none, always_exec; [exact Hp|exact H]. Qed.

Lemma creation_shape op spec tr o : exec (createSubscription op spec) tr o -> created tr = [subscriptionMeta op].
Proof. intros (c & t & -> & H)%exec_call_bind. by apply exec_inv in H as [-> _]. Qed.

Lemma subscription_created op cfg tr o : exec (ensureSubscription op cfg) tr o -> creates_at_most op tr.
Proof.
  unfold ensureSubscription, creates_at_most. intros (g & t & -> & H)%exec_call_bind.
  change (created (?e :: t)) with (created t).
  destruct g as [sub|e].
  { left. eapply exec_none, H. apply always_bind; [exact _|apply none_cabundle|intros r]. apply always_ret. exact _. }
  destruct (IsNotFound e); cbn [negb] in H; [|apply exec_inv in H as [-> _]; by left]. cbv zeta in H.
  apply exec_bind_returns in H as ([[hp hs] np] & t1 & t2 & -> & H1 & H); [|apply returns_proxy].
  apply exec_bind_returns in H as (ca & t3 & t4 & -> & H3 & H); [|apply returns_bundleData].
  rewrite !created_app, (exec_none _ _ _ none_proxy H1), (exec_none _ _ _ none_bundleData H3). simpl.
  destruct ca as [data|e']; [|right; by eapply creation_shape].
  apply exec_orFail in H as (r & t5 & t6 & -> & H5 & H); [|apply returns_bundle].
  rewrite created_app, (exec_none _ _ _ (none_bundle _) H5). simpl.
  destruct r; [destruct H as [-> _]; by left|right; by eapply creation_shape].
Qed.

Lemma returns_cabundle sub : returns (ensureSubscriptionCABundle sub).
Proof.
  pose proof returns_bundleData. pose proof returns_bundle.
  unfold ensureSubscriptionCABundle. cbv zeta. returns_go.
Qed.

Lemma returns_subscription op cfg : returns (ensureSubscription op cfg).
Proof.
  pose proof returns_bundleData. pose proof returns_bundle. pose proof returns_proxy.
  pose proof returns_cabundle.
  unfold ensureSubscription, orFail, createSubscription. cbv zeta. returns_go.
Qed.

Lemma returns_operator op cfg : returns (ensureOperator op cfg).
Proof.
  pose proof (returns_namespace (od_ns op)). pose proof (returns_group op).
  pose proof (returns_subscription op cfg). unfold ensureOperator, orFail. returns_go.
Qed.

Lemma operator_created op cfg tr o : exec (ensureOperator op cfg) tr o -> creates_at_most op tr.
Proof.
  unfold ensureOperator, creates_at_most. intros (r1 & t1 & t2 & -> & H1 & H)%exec_orFail; [|apply returns_namespace].
  rewrite created_app, (exec_none _ _ _ (none_namespace _) H1). simpl.
  destruct r1; [destruct H as [-> _]; by left|].
  apply exec_orFail in H as (r2 & t3 & t4 & -> & H3 & H); [|apply returns_group].
  rewrite created_app, (exec_none _ _ _ (none_group _) H3). simpl.
  destruct r2; [destruct H as [-> _]; by left|].
  apply exec_orFail in H as (r3 & t5 & t6 & -> & H5 & H); [|apply returns_subscription].
  assert (Ht : t6 = []) by (destruct r3; [by destruct H|by apply exec_inv in H as [-> _]]).
  rewrite Ht, app_nil_r. by eapply subscription_created.
Qed.

(** ** The status of an operator *)

(** The version of the subscription was read as installed. *)
Definition csv_succeeded (op : operatorDef) (e : event) : Prop :=
  match e with
  | Ev (CGet (KUnstructured g) k) (Ok csv) =>
      g = csvGVK /\ nn_Namespace k = od_ns op /\
      nested_string (u_Object csv) ["status"; "phase"] = "Succeeded"
  | _ => False
  end.

Lemma csvStatus_succeeded op tr s :
  exec (csvStatus op) tr (Done s) -> s = "Succeeded" -> Exists (csv_succeeded op) tr.
Proof.
  unfold csvStatus. intros (g & t & -> & H)%exec_call_bind ->.
  destruct g as [sub|e]; [|by apply exec_inv in H as [_ H]]. cbv zeta in H.
  destruct (_ == ""); [by apply exec_inv in H as [_ H]|].
  apply exec_call_bind in H as (c & t' & -> & H). apply exec_inv in H as [-> [= H]].
  destruct c as [csv|e]; [|done]. right. left. by split_and!.
Qed.

(** What a component that was found says: an operator that is disabled is reported so,
    and one that is reported as installed was read as installed. *)
Definition reports (overrides : gmap string OLMSubscriptionConfig) (tr : trace)
    (op : operatorDef) (c : ComponentStatus) : Prop :=
  cst_Name c = od_name op /\ cst_Namespace c = od_ns op /\
  (isDisabled (overrides !! od_name op) = true -> cst_Status c = "Disabled") /\
  (isDisabled (overrides !! od_name op) = false -> cst_Status c = "Succeeded" -> Exists (csv_succeeded op) tr).

Lemma reports_app ov tr tr' op c : reports ov tr op c -> reports ov (tr ++ tr') op c.
Proof.
  intros (H1 & H2 & H3 & H4). split_and!; try done. intros Hd Hs. apply Exists_app. left. auto.
Qed.
Lemma reports_later ov tr tr' op c : reports ov tr op c -> reports ov (tr' ++ tr) op c.
Proof.
  intros (H1 & H2 & H3 & H4). split_and!; try done. intros Hd Hs. apply Exists_app. right. auto.
Qed.

Definition enabled (ov : gmap string OLMSubscriptionConfig) (op : operatorDef) : bool :=
  negb (isDisabled (ov !! od_name op)).

(** The loop: the components it adds, and the subscriptions it creates. *)
Definition subscribed (ov : gmap string OLMSubscriptionConfig) (ops : list operatorDef)
    (components components' : list ComponentStatus) (err : option error) (tr : trace) : Prop :=
  sublist (created tr) (map subscriptionMeta (List.filter (enabled ov) ops)) /\
  match err with
  | None => exists new, components' = components ++ new /\ Forall2 (reports ov tr) ops new
  | Some _ => exists ops1 op ops2 new, ops = ops1 ++ op :: ops2 /\
      components' = components ++ new ++ [subscriptionComponent op "Error"] /\
      enabled ov op = true /\ Forall2 (reports ov tr) ops1 new
  end.

Lemma orInstalling_succeeded s : orInstalling s = "Succeeded" -> s = "Succeeded".
Proof. unfold orInstalling. by destruct (s == ""). Qed.

Lemma subscribeAll_spec ov ops components tr o :
  exec (subscribeAll ov ops components) tr o ->
  exists components' err, o = Done (components', err) /\ subscribed ov ops components components' err tr.
Proof.
  revert components tr; induction ops as [|op ops IH]; intros components tr H; cbn [subscribeAll] in H.
  { apply exec_inv in H as [-> ->]. exists components, None. split; [done|]. split; [constructor|].
    exists []. by rewrite app_nil_r. }
  cbv zeta in H. unfold subscribed. cbn [List.filter]. destruct (isDisabled _) eqn:Ed.
  - apply IH in H as (cs & err & -> & Hs & H). exists cs, err. split; [done|].
    assert (Hen : enabled ov op = false) by (unfold enabled; by rewrite Ed). rewrite Hen.
    split; [done|]. destruct err as [e|].
    + destruct H as (ops1 & op' & ops2 & new & -> & -> & He & Hf).
      exists (op :: ops1), op', ops2, (subscriptionComponent op "Disabled" :: new).
      rewrite <- app_assoc. split_and!; [done|done|done|constructor; [|done]].
      split_and!; try done; congruence.
    + destruct H as (new & -> & Hf). exists (subscriptionComponent op "Disabled" :: new).
      rewrite <- app_assoc. split; [done|]. constructor; [|done]. split_and!; try done; congruence.
  - assert (Hen : enabled ov op = true) by (unfold enabled; by rewrite Ed). rewrite Hen.
    apply exec_bind_returns in H as (err & t1 & t2 & -> & H1 & H); [|apply returns_operator].
    pose proof (operator_created _ _ _ _ H1) as Hc.
    destruct err as [e|].
    + apply exec_inv in H as [-> ->]. rewrite app_nil_r. eexists _, _. split; [done|]. split.
      * destruct Hc as [-> | ->]; [apply sublist_nil_l|]. apply sublist_skip, sublist_nil_l.
      * exists [], op, ops, []. by split_and!.
    + apply exec_bind_returns in H as (s & t3 & t4 & -> & H3 & H); [|apply returns_csv].
      apply exec_bind_returns in H as ([] & t5 & t6 & -> & H5 & H); [|apply returns_plugins].
      apply IH in H as (cs & err & -> & Hs & H). exists cs, err. split; [done|].
      assert (Hr : reports ov (t1 ++ t3 ++ t5 ++ t6) op (subscriptionComponent op (orInstalling s))).
      { split_and!; [done|done|congruence|]. intros _ Ho%orInstalling_succeeded.
        apply Exists_app. right. apply Exists_app. left. by eapply csvStatus_succeeded. }
      assert (Hl : forall l1 l2, Forall2 (reports ov t6) l1 l2 -> Forall2 (reports ov (t1 ++ t3 ++ t5 ++ t6)) l1 l2).
      { intros l1 l2 Hf. eapply Forall2_impl; [exact Hf|]. intros x y Hxy. by do 3 apply reports_later. }
      split.
      * rewrite !created_app, (exec_none _ _ _ (none_csv _) H3), (exec_none _ _ _ (none_plugins _ _) H5). simpl.
        destruct Hc as [-> | ->]; [by apply sublist_cons|by apply sublist_skip].
      * destruct err as [e|].
        -- destruct H as (ops1 & op' & ops2 & new & -> & -> & He & Hf).
           exists (op :: ops1), op', ops2, (subscriptionComponent op (orInstalling s) :: new).
           rewrite <- app_assoc. split_and!; [done|done|done|]. constructor; [done|by apply Hl].
        -- destruct H as (new & -> & Hf). exists (subscriptionComponent op (orInstalling s) :: new).
           rewrite <- app_assoc. split; [done|]. constructor; [done|by apply Hl].
Qed.

(** The operators of a connected platform.  A reconcile of the subscriptions returns the
    components of the operators in the order of the table: of all of them, or, when an
    operator fails, of those before it and then of that one, with the status Error.  A
    disabled operator is reported so, and one is reported as installed only when its
    version was read as such.  Subscriptions are created for enabled operators only, at
    most one for each. *)
Theorem reconcileSubscriptions_spec (platform : DisconnectedPlatform) tr o :
  exec (reconcileSubscriptions platform) tr o ->
  let ov := getOperatorOverrides platform in
  sublist (created tr) (map subscriptionMeta (List.filter (enabled ov) defaultOperators)) /\
  exists components err,
    o = Done (platform <| dp_Status ::= fun s => s <| dpst_Components := components |> |>, err) /\
    match err with
    | None => Forall2 (reports ov tr) defaultOperators components
    | Some _ => exists ops1 op ops2 new, defaultOperators = ops1 ++ op :: ops2 /\
        components = new ++ [subscriptionComponent op "Error"] /\ enabled ov op = true /\
        Forall2 (reports ov tr) ops1 new
    end.
Proof.
  intros H ov. unfold reconcileSubscriptions in H. fold ov in H.
  apply exec_bind in H as [(m & H & _)|([cs err] & t1 & t2 & H1 & H & ->)].
  { by apply subscribeAll_spec in H as (? & ? & ? & _). }
  apply exec_inv in H as [-> ->]. rewrite app_nil_r.
  apply subscribeAll_spec in H1 as (cs' & err' & [= <- <-] & Hs & H).
  split; [exact Hs|]. exists cs, err. split; [done|].
  destruct err as [e|]; [exact H|]. by destruct H as (new & -> & H).
Qed.

(** ** The airgapped cluster *)

(** Component by component: the operator is installed, from the catalog that was found. *)
Definition installed (tr : trace) (op : operatorDef) (c : ComponentStatus) : Prop :=
  c = subscriptionComponent op "Succeeded" /\ Exists (csv_succeeded op) tr.

Lemma installed_later tr tr' op c : installed tr op c -> installed (tr' ++ tr) op c.
Proof. intros [-> H]. split; [done|]. apply Exists_app. by right. Qed.

Lemma subscribeAirgapped_spec ops components b tr o :
  exec (subscribeAirgapped ops components b) tr o ->
  exists components' b' err, o = Done (components', (b', err)) /\ (b = true -> b' = true) /\
    (err <> None -> b' = true) /\
    (b' = false -> exists new, components' = components ++ new /\ Forall2 (installed tr) ops new).
Proof.
  revert components b tr; induction ops as [|op ops IH]; intros components b tr H; cbn [subscribeAirgapped] in H.
  { apply exec_inv in H as [-> ->]. exists components, b, None. split_and!; try done.
    intros _. exists []. by rewrite app_nil_r. }
  apply exec_bind_returns in H as (i & t1 & t2 & -> & H1 & H); [|apply returns_discover].
  destruct i as [[[catalog catalogNS] channel]|e].
  2:{ apply IH in H as (cs & b' & err & -> & Hb & He & H). exists cs, b', err. split_and!; try done.
      - intros _. by apply Hb.
      - intros Hf. by rewrite (Hb eq_refl) in Hf. }
  cbv zeta in H. apply exec_bind_returns in H as (err & t3 & t4 & -> & H3 & H); [|apply returns_operator].
  destruct err as [e|].
  { apply exec_inv in H as [-> ->]. by eexists _, true, (Some e). }
  apply exec_bind_returns in H as (s & t5 & t6 & -> & H5 & H); [|apply returns_csv].
  apply exec_bind_returns in H as ([] & t7 & t8 & -> & H7 & H); [|apply returns_plugins].
  apply IH in H as (cs & b' & err & -> & Hb & He & H). exists cs, b', err. split_and!; try done.
  - intros ->. by apply Hb.
  - intros Hf. destruct (H Hf) as (new & -> & Hn). clear H.
    assert (Hs : orInstalling s = "Succeeded").
    { destruct (orInstalling s == "Succeeded") eqn:E; [by str_eq|]. exfalso.
      rewrite Hb in Hf; [done|]. by rewrite orb_true_r. }
    exists (subscriptionComponent op "Succeeded" :: new). rewrite Hs, <- app_assoc. split; [done|].
    constructor.
    + split; [done|]. do 2 (apply Exists_app; right). apply Exists_app. left.
      apply orInstalling_succeeded in Hs. exact (csvStatus_succeeded _ _ _ H5 Hs).
    + eapply Forall2_impl; [exact Hn|]. intros x y Hxy. by do 4 apply installed_later.
Qed.

(** The operators of an airgapped platform.  When a reconcile of the subscriptions does
    not ask to be run again it has succeeded, and every operator of the table was found
    installed and is reported so: while a package is missing or an operator is
    installing, the platform is reconciled again. *)
Theorem airgapped_settles (platform platform' : DisconnectedPlatform) tr err :
  exec (reconcileAirgappedSubscriptions platform) tr (Done (platform', (false, err))) ->
  err = None /\ exists new,
    dpst_Components (dp_Status platform') = dpst_Components (dp_Status platform) ++ new /\
    Forall2 (installed tr) airgappedOperators new.
Proof.
  unfold reconcileAirgappedSubscriptions. intros H.
  apply exec_bind in H as [(m & H & [=])|([cs out] & t1 & t2 & H1 & H & ->)].
  apply exec_inv in H as [-> [= -> <-]]. rewrite app_nil_r.
  apply subscribeAirgapped_spec in H1 as (cs' & b' & err' & [= <- <- <-] & _ & He & H).
  split.
  - destruct err as [e|]; [|done]. by discriminate He.
  - destruct (H eq_refl) as (new & -> & Hn). by exists new.
Qed.

End Props.

(** ** Worked examples *)

Section Witnesses.
#[local] Existing Instance sampleX.

Definition operatorConfig : OperatorConfig :=
  mkOperatorConfig None (Some (mkOLMSubscriptionConfig true "" "" "" "" "")) None None
    (Some (mkOLMSubscriptionConfig false "stable-3.12" "Manual" "" "" "")) None.

Definition operatorPlatform : DisconnectedPlatform :=
  mkDisconnectedPlatform (mkTypeMeta "" "") (sampleMeta "" "platform")
    (mkDisconnectedPlatformSpec "connected"
       (Some (mkConnectedConfig "" "" (mkArtifactStorageConfig "" "") [] (Some operatorConfig)
                None None None None None ""))
       None None None)
    (mkDisconnectedPlatformStatus "" [] None [] None [] [] None).

(** The override of an operator is what its subscription asks for. *)
Example override_in_subscription :
  map (fun u => nested_string (u_Object u) ["spec"; "channel"])
    (List.filter (fun u => om_Name (u_Meta u) == "mirror-operator-quay-operator")
       (st_objs (snd (run (reconcileSubscriptions operatorPlatform) emptyStore)) KSubscription))
  = ["stable-3.12"].
Proof. vm_compute. reflexivity. Qed.

Definition connectedRun : prog (DisconnectedPlatform * option error) := reconcileSubscriptions operatorPlatform.

Lemma reconcileSubscriptions_spec_witness :
  let tr := traceOf connectedRun emptyStore in
  let ov := getOperatorOverrides operatorPlatform in
  length (created tr) = 5 /\
  sublist (created tr) (map subscriptionMeta (List.filter (enabled ov) defaultOperators)) /\
  exists components err,
    outcomeOf connectedRun emptyStore =
      Done (operatorPlatform <| dp_Status ::= fun s => s <| dpst_Components := components |> |>, err) /\
    match err with
    | None => Forall2 (reports ov tr) defaultOperators components
    | Some _ => exists ops1 op ops2 new, defaultOperators = ops1 ++ op :: ops2 /\
        components = new ++ [subscriptionComponent op "Error"] /\ enabled ov op = true /\
        Forall2 (reports ov tr) ops1 new
    end.
Proof.
  intros tr ov. split; [vm_compute; reflexivity|].
  apply (reconcileSubscriptions_spec operatorPlatform), traceOf_exec.
Defined.

(** An airgapped cluster on which the operators are installed. *)
Definition samplePackage (name : string) : Unstructured :=
  mkUnstructured packageManifestGVK (sampleMeta "openshift-marketplace" name)
    [("status", JMap [("catalogSource", JStr "mirror-catalog");
                      ("catalogSourceNamespace", JStr "openshift-marketplace");
                      ("defaultChannel", JStr "stable")])].
Definition sampleSubscription (op : operatorDef) : Unstructured :=
  mkUnstructured subscriptionGVK (subscriptionMeta op) [("status", JMap [("currentCSV", JStr (od_name op))])].
Definition sampleCSV (op : operatorDef) : Unstructured :=
  mkUnstructured csvGVK (sampleMeta (od_ns op) (od_name op)) [("status", JMap [("phase", JStr "Succeeded")])].

Definition installedStore : store :=
  with_objs
    (with_objs
       (with_objs emptyStore (KUnstructured packageManifestGVK)
          (map (fun op => samplePackage (od_pkg op)) airgappedOperators))
       KSubscription (map sampleSubscription airgappedOperators))
    (KUnstructured csvGVK) (map sampleCSV airgappedOperators).

Definition airgappedRun : prog (DisconnectedPlatform * (bool * option error)) :=
  reconcileAirgappedSubscriptions operatorPlatform.

Definition airgappedResult : DisconnectedPlatform :=
  match outcomeOf airgappedRun installedStore with Done (p, _) => p | Panicked _ => operatorPlatform end.

Lemma airgapped_settles_witness :
  outcomeOf airgappedRun installedStore = Done (airgappedResult, (false, None)) /\
  @None error = None /\ exists new,
    dpst_Components (dp_Status airgappedResult) = dpst_Components (dp_Status operatorPlatform) ++ new /\
    Forall2 (installed (traceOf airgappedRun installedStore)) airgappedOperators new.
Proof.
  assert (E : outcomeOf airgappedRun installedStore = Done (airgappedResult, (false, None)))
    by (vm_compute; reflexivity).
  split; [exact E|]. pose proof (traceOf_exec airgappedRun installedStore) as H. rewrite E in H.
  exact (airgapped_settles operatorPlatform airgappedResult _ None H).
Defined.
End Witnesses.
