(* ===== verification/PlatformStatus.v ===== *)
(** The status of a platform ([disconnectedplatform_controller.go]): its conditions and its
    phase, the histories gathered from collections and imports, and the inline RHTAS
    checks with their repairs. *)
From S2P Require Import Prelude GoStrings K8s Api Kube Externals Helpers Health.

Definition securesignMeta : NamespacedName := mkNN architectNamespace "mirror-operator-securesign".

Definition withStatus (platform : DisconnectedPlatform)
    (f : DisconnectedPlatformStatus -> DisconnectedPlatformStatus) : DisconnectedPlatform :=
  platform <| dp_Status ::= f |>.

Definition platformConditions (platform : DisconnectedPlatform) : list Condition :=
  dpst_Conditions (dp_Status platform).
Definition platformPhase (platform : DisconnectedPlatform) : string := dpst_Phase (dp_Status platform).

Definition isType (t : string) (c : Condition) : bool := c_Type c == t.

(** ** The condition Ready *)

Definition readyCondition (platform : DisconnectedPlatform) (status reason message : string)
    (lastTransition : time) : Condition :=
  mkCondition "Ready" status (om_Generation (dp_ObjectMeta platform)) lastTransition reason message.

Definition putReady (platform : DisconnectedPlatform) (c : Condition) : DisconnectedPlatform :=
  withStatus platform (fun s => s <| dpst_Conditions ::= fun cs =>
    match update_first (isType "Ready") (fun _ => c) cs with
    | Some l => l
    | None => snoc cs c
    end |>).

(** The transition time is kept when the status of the condition stays the same. *)
Definition transitionTime (c : Condition) (status : string) : prog time :=
  if c_Status c != status then Now else mret (c_LastTransitionTime c).

Definition setErrorCondition (platform : DisconnectedPlatform) (reason message : string)
  : prog DisconnectedPlatform :=
  match find_first (isType "Ready") (platformConditions platform) with
  | Some c =>
      if (c_Status c == ConditionFalse) && (c_Reason c == reason) && (c_Message c == message) then
        mret platform
      else
        t ← transitionTime c ConditionFalse;
        mret (putReady platform (readyCondition platform ConditionFalse reason message t))
  | None =>
      now ← Now;
      mret (putReady platform (readyCondition platform ConditionFalse reason message now))
  end.

Definition setReadyCondition (platform : DisconnectedPlatform) (reason message : string)
  : prog DisconnectedPlatform :=
  match find_first (isType "Ready") (platformConditions platform) with
  | Some c =>
      if (c_Status c == ConditionTrue) && (c_Reason c == reason) && (c_Message c == message) &&
         (c_ObservedGeneration c =? om_Generation (dp_ObjectMeta platform))%Z then
        mret platform
      else
        t ← transitionTime c ConditionTrue;
        mret (putReady platform (readyCondition platform ConditionTrue reason message t))
  | None =>
      now ← Now;
      mret (putReady platform (readyCondition platform ConditionTrue reason message now))
  end.

(** ** The condition Degraded *)

Definition degradedCondition (reason message : string) (now : time) : Condition :=
  mkCondition "Degraded" ConditionTrue 0 now reason message.

(** A condition that already has the status and the reason is left as it is. *)
Definition degrade (reason message : string) (now : time) (conditions : list Condition) : list Condition :=
  match update_first (isType "Degraded")
          (fun c => if (c_Status c != ConditionTrue) || (c_Reason c != reason)
                    then degradedCondition reason message now else c) conditions with
  | Some l => l
  | None => snoc conditions (degradedCondition reason message now)
  end.

Definition updateDegradedCondition (platform : DisconnectedPlatform) (reason message : string)
  : prog DisconnectedPlatform :=
  now ← Now;
  mret (withStatus platform (fun s =>
    s <| dpst_Conditions ::= degrade reason message now |>
      <| dpst_Phase ::= fun p => if p != PlatformPhaseError then "Degraded" else p |>)).

Definition isDegraded (reason : string) (c : Condition) : bool :=
  isType "Degraded" c && (c_Reason c == reason).

Definition cleared (now : time) (c : Condition) : Condition :=
  c <| c_Status := ConditionFalse |> <| c_LastTransitionTime := now |>
    <| c_Message := "Health check passed" |>.

(** The first condition with the reason is cleared, unless it is already. *)
Definition clearConditions (reason : string) (conditions : list Condition) : prog (list Condition) :=
  match find_first (isDegraded reason) conditions with
  | Some c =>
      if (c_Status c == ConditionFalse) && (c_Message c == "Health check passed") then mret conditions
      else
        now ← Now;
        mret (default conditions (update_first (isDegraded reason) (cleared now) conditions))
  | None => mret conditions
  end.

Definition isActive (c : Condition) : bool := isType "Degraded" c && (c_Status c == ConditionTrue).

Definition clearDegradedCondition (platform : DisconnectedPlatform) (reason : string)
  : prog DisconnectedPlatform :=
  conditions ← clearConditions reason (platformConditions platform);
  let allCleared := negb (existsb isActive conditions) in
  mret (withStatus platform (fun s =>
    s <| dpst_Conditions := conditions |>
      <| dpst_Phase ::= fun p => if allCleared && (p == "Degraded") then PlatformPhaseReady else p |>)).

(** ** The histories *)

Definition collectionVersionComplete (phase : string) : bool :=
  (phase == "Complete") || (phase == "Succeeded").

Definition isRecorded (p : CollectionPipeline) : bool :=
  (cpst_Version (cp_Status p) != "") && collectionVersionComplete (cpst_Phase (cp_Status p)).

(** The clock is read for every entry. *)
Fixpoint collectionHistory (items : list CollectionPipeline) : prog (list CollectionInfo) :=
  match items with
  | [] => mret []
  | p :: rest =>
      if isRecorded p then
        now ← Now;
        history ← collectionHistory rest;
        mret (mkCollectionInfo (cpst_Version (cp_Status p)) now "" (cpst_Phase (cp_Status p)) :: history)
      else collectionHistory rest
  end.

Definition importInfoOf (imp : MirrorImport) : ImportInfo :=
  mkImportInfo
    (if mis_CollectionVersion (mi_Spec imp) == "" then om_Name (mi_ObjectMeta imp)
     else mis_CollectionVersion (mi_Spec imp))
    (om_CreationTimestamp (mi_ObjectMeta imp)) (mist_Phase (mi_Status imp)).

Definition importHistory (items : list MirrorImport) : list ImportInfo :=
  map importInfoOf (List.filter (fun imp => mist_Phase (mi_Status imp) == "Complete") items).

(** An empty history is not written, and a list that fails is skipped. *)
Definition aggregateCollections (platform : DisconnectedPlatform) : prog DisconnectedPlatform :=
  l ← List_ KCollectionPipeline None [];
  match l with
  | Err _ => mret platform
  | Ok items =>
      history ← collectionHistory items;
      mret (match history with
            | [] => platform
            | _ => withStatus platform (fun s => s <| dpst_CollectionHistory := history |>
                                                   <| dpst_LastCollection := list.last history |>)
            end)
  end.

Definition aggregateImports (platform : DisconnectedPlatform) : prog DisconnectedPlatform :=
  l ← List_ KMirrorImport None [];
  mret (match l with
        | Err _ => platform
        | Ok items =>
            match importHistory items with
            | [] => platform
            | history => withStatus platform (fun s => s <| dpst_ImportHistory := history |>
                                                         <| dpst_LastImport := list.last history |>)
            end
        end).

(** ** The inline checks of RHTAS *)

Section Checks.
Context {X : Externals}.

Definition updateStatusFromSecuresignHealth (platform : DisconnectedPlatform)
  : prog (DisconnectedPlatform * option error) :=
  g ← Get KSecuresign securesignMeta;
  match g with
  | Err e => mret (platform, if IsNotFound e then None else Some e)
  | Ok securesign =>
      let '(conditions, found, err) := NestedSlice (u_Object securesign) ["status"; "conditions"] in
      match (err : option error), (found : bool) with
      | None, true =>
          match find_first (isConditionOf "HealthCheckPassed") conditions ≫= as_map with
          | Some condMap =>
              let text k := default "" (as_string (jget condMap k)) in
              if text "status" == "False" then
                p ← updateDegradedCondition platform (text "reason") (text "message");
                mret (p, None)
              else
                p ← clearDegradedCondition platform "HealthCheckFailed";
                p ← clearDegradedCondition p "AllHealthChecksPassed";
                mret (p, None)
          | None => mret (platform, None)
          end
      | _, _ => mret (platform, None)
      end
  end.

(** The keys without the first that is named so; [None] when there is none. *)
Fixpoint dropFirst (keys : list json) : option (list json) :=
  match keys with
  | [] => None
  | key :: rest =>
      if problematicKey key then Some rest else option_map (cons key) (dropFirst rest)
  end.

Definition checkAndFixTUFKeys : prog (option error) :=
  g ← Get KSecuresign securesignMeta;
  match g with
  | Err e => mret (if IsNotFound e then None else Some e)
  | Ok securesign =>
      let '(keys, found, err) := NestedSlice (u_Object securesign) ["spec"; "tuf"; "keys"] in
      match (err : option error), (found : bool) with
      | None, true =>
          match dropFirst keys with
          | None => mret None
          | Some newKeys =>
              let '(m, err) := SetNestedSlice (u_Object securesign) newKeys ["spec"; "tuf"; "keys"] in
              match (err : option error) with
              | Some e => mret (Some (Wrapf "failed to update TUF keys" e))
              | None =>
                  u ← Update KSecuresign (withObject securesign m);
                  mret (option_map (Wrapf "failed to patch Securesign to remove tsa.certchain.pem") (err_of u))
              end
          end
      | _, _ => mret None
      end
  end.

(** The loop over the containers: unlike that of the health check it goes on after the
    pod was deleted. *)
Fixpoint restartFulcio (pod : Pod) (statuses : list ContainerStatus) : prog (option error) :=
  match statuses with
  | [] => mret None
  | containerStatus :: rest =>
      if (cs_RestartCount containerStatus >? 3)%Z then
        g ← Get KKeycloak (mkNN architectNamespace "mirror-operator-keycloak");
        match g with
        | Err _ => restartFulcio pod rest
        | Ok kc =>
            match anyReady (nested_slice (u_Object kc) ["status"; "conditions"]) with
            | None => Panic "interface conversion: interface {} is not map[string]interface {}"
            | Some true =>
                d ← Delete KPod pod;
                match d with
                | Some e => mret (Some (Wrapf "failed to restart Fulcio pod" e))
                | None => restartFulcio pod rest
                end
            | Some false => restartFulcio pod rest
            end
        end
      else restartFulcio pod rest
  end.

Definition checkFulcioKeycloakConnectivity : prog (option error) :=
  g ← Get KSecuresign securesignMeta;
  match g with
  | Err e => mret (if IsNotFound e then None else Some e)
  | Ok _ =>
      l ← List_ KPod (Some architectNamespace) [("app", "fulcio-server")];
      match l with
      | Err e => mret (Some e)
      | Ok [] => mret None
      | Ok (pod :: _) => restartFulcio pod (pod_ContainerStatuses pod)
      end
  end.

(** [platform.Spec.Connected] is dereferenced without a test; errors are only logged. *)
Definition performRHTASHealthChecks (platform : DisconnectedPlatform) : prog (option error) :=
  match dps_Connected (dp_Spec platform) with
  | None => Panic "invalid memory address or nil pointer dereference"
  | Some _ =>
      match managedKeycloak platform with
      | Some m =>
          if mkc_Enabled m then
            _ ← checkAndFixTUFKeys;
            _ ← checkFulcioKeycloakConnectivity;
            mret None
          else mret None
      | None => mret None
      end
  end.
End Checks.
