(* ===== verification/PlatformStatusProps.v ===== *)
(** Properties of the status of a platform. *)
From S2P Require Import Prelude GoStrings K8s Json GoTime Api Kube Externals Helpers ImageSet Instances.
From S2P Require Import Nested Samples Health HealthProps PlatformStatus.
From S2P Require ImportController.

(** ** Conditions by type *)

Definition types (cs : list Condition) : list string := map c_Type cs.

Lemma update_first_types (p : Condition -> bool) f cs l :
  (forall c, p c = true -> c_Type (f c) = c_Type c) -> update_first p f cs = Some l -> types l = types cs.
Proof.
  intros Hf (a & x & b & -> & -> & Hx & _)%update_first_split. unfold types.
  rewrite !map_app. simpl. by rewrite Hf.
Qed.

Lemma update_first_find {A} (p : A -> bool) f l x :
  find_first p l = Some x -> exists l', update_first p f l = Some l'.
Proof.
  induction l as [|y l IH]; simpl; [done|]. destruct (p y); [eauto|].
  intros H. destruct (IH H) as [l' ->]. eauto.
Qed.

Lemma find_update_first {A} (p : A -> bool) f l l' :
  update_first p f l = Some l' -> (forall x, p x = true -> p (f x) = true) ->
  exists x, find_first p l = Some x /\ find_first p l' = Some (f x).
Proof.
  intros H Hf. revert l' H; induction l as [|y l IH]; simpl; intros l' H; [done|].
  destruct (p y) eqn:E.
  - injection H as <-. exists y. simpl. by rewrite Hf.
  - destruct (update_first p f l) as [l2|]; [|done]. injection H as <-. simpl. rewrite E. by apply IH.
Qed.

Lemma existsb_update_first {A} (p q : A -> bool) f l l' :
  update_first p f l = Some l' -> (forall x, p x = true -> q (f x) = q x) -> existsb q l' = existsb q l.
Proof.
  intros (a & x & b & -> & -> & Hx & _)%update_first_split Hq.
  rewrite !existsb_app. simpl. by rewrite Hq.
Qed.

Lemma not_in_types t cs : find_first (isType t) cs = None -> ~ t ∈ types cs.
Proof.
  intros H Hin. unfold types in Hin. apply list_elem_of_In, in_map_iff in Hin as (c & <- & Hc).
  pose proof (proj1 (find_first_None _ _) H c Hc) as E. unfold isType in E. by rewrite str_eqb_refl in E.
Qed.

Lemma update_first_find_None {A} (p : A -> bool) f l :
  update_first p f l = None <-> find_first p l = None.
Proof. by rewrite update_first_None, find_first_None. Qed.

(** ** The operations on the status *)

(** The updates of conditions and phase a reconcile of the platform makes. *)
Inductive status_op (p : DisconnectedPlatform) : prog DisconnectedPlatform -> Prop :=
| op_error reason message : status_op p (setErrorCondition p reason message)
| op_ready reason message : status_op p (setReadyCondition p reason message)
| op_degrade reason message : status_op p (updateDegradedCondition p reason message)
| op_clear reason : status_op p (clearDegradedCondition p reason).

(** At most one condition of each type, and the phase Degraded only with an active
    condition that says why. *)
Definition status_wf (p : DisconnectedPlatform) : Prop :=
  NoDup (types (platformConditions p)) /\
  (platformPhase p = "Degraded" -> existsb isActive (platformConditions p) = true).

Lemma putReady_conditions p c :
  platformConditions (putReady p c) =
    match update_first (isType "Ready") (fun _ => c) (platformConditions p) with
    | Some l => l
    | None => snoc (platformConditions p) c
    end.
Proof. reflexivity. Qed.

Lemma NoDup_snoc_type t cs c :
  NoDup (types cs) -> ~ t ∈ types cs -> c_Type c = t -> NoDup (types (snoc cs c)).
Proof.
  intros H Hn <-. unfold types. rewrite map_app. apply NoDup_app. split; [done|]. split.
  - intros x Hx [->|[]%elem_of_nil]%elem_of_cons. by apply Hn.
  - apply NoDup_singleton.
Qed.

Lemma putReady_wf p c : c_Type c = "Ready" -> status_wf p -> status_wf (putReady p c).
Proof.
  intros Hc [Hd Ha]. unfold status_wf. rewrite putReady_conditions.
  change (platformPhase (putReady p c)) with (platformPhase p).
  assert (Hact : isActive c = false) by (unfold isActive, isType; by rewrite Hc).
  destruct (update_first _ _ _) as [l|] eqn:E; split.
  - erewrite update_first_types; [exact Hd| |exact E]. intros x Hx. unfold isType in Hx. str_eq. cbv beta. by rewrite Hc, Hx.
  - intros Hp. erewrite existsb_update_first; [by apply Ha|exact E|].
    intros x Hx. unfold isActive, isType in *. str_eq. by rewrite Hx, Hc.
  - apply NoDup_snoc_type with "Ready"; [done| |done]. by apply update_first_find_None, not_in_types in E.
  - intros Hp. rewrite existsb_app. by rewrite Ha.
Qed.

Lemma degrade_types reason message now cs : NoDup (types cs) -> NoDup (types (degrade reason message now cs)).
Proof.
  intros Hd. unfold degrade. destruct (update_first _ _ _) as [l|] eqn:E.
  - erewrite update_first_types; [exact Hd| |exact E]. intros x Hx. unfold isType in Hx. str_eq.
    cbv beta. by split_match.
  - apply NoDup_snoc_type with "Degraded"; [done| |done]. by apply update_first_find_None, not_in_types in E.
Qed.

Lemma degrade_active reason message now cs : existsb isActive (degrade reason message now cs) = true.
Proof.
  unfold degrade. destruct (update_first _ _ _) as [l|] eqn:E.
  - apply update_first_split in E as (a & x & b & -> & -> & Hx & _). rewrite existsb_app. simpl.
    destruct ((c_Status x != ConditionTrue) || (c_Reason x != reason)) eqn:Eo; [by rewrite orb_true_r|]. apply orb_false_iff in Eo as [Es _].
    apply negb_false_iff in Es. unfold isActive at 2. rewrite Hx, Es. by rewrite orb_true_r.
  - rewrite existsb_app. by rewrite orb_true_r.
Qed.

Lemma clearConditions_types reason cs tr cs' :
  exec (clearConditions reason cs) tr (Done cs') -> types cs' = types cs.
Proof.
  unfold clearConditions. destruct (find_first _ _) as [c|] eqn:E; [|by intros [_ [= ->]]%exec_inv].
  match goal with |- exec (if ?b then _ else _) _ _ -> _ => destruct b; [by intros [_ [= ->]]%exec_inv|] end.
  intros (now & t & _ & H)%exec_call_bind. apply exec_inv in H as [_ [= ->]].
  destruct (update_first _ _ _) as [l|] eqn:Eu; [|done]. by eapply update_first_types; [|exact Eu].
Qed.

(** C36: The well-formedness of a platform's status.  Setting the condition Ready to either
    value, raising a degradation and clearing one keep at most one condition of each
    type, and leave the phase Degraded only while a degradation is active. *)
Theorem status_ops_wf (p p' : DisconnectedPlatform) (op : prog DisconnectedPlatform) tr :
  status_wf p -> status_op p op -> exec op tr (Done p') -> status_wf p'.
Proof.
  intros Hwf Hop. destruct Hop as [reason message|reason message|reason message|reason].
  - unfold setErrorCondition, transitionTime. destruct (find_first _ _) as [c|].
    + match goal with |- exec (if ?b then _ else _) _ _ -> _ => destruct b; [by intros [_ [= ->]]%exec_inv|] end.
      destruct (_ != _); [intros (now & t & _ & H)%exec_call_bind|intros H];
        apply exec_inv in H as [_ [= ->]]; by apply putReady_wf.
    + intros (now & t & _ & H)%exec_call_bind. apply exec_inv in H as [_ [= ->]]. by apply putReady_wf.
  - unfold setReadyCondition, transitionTime. destruct (find_first _ _) as [c|].
    + match goal with |- exec (if ?b then _ else _) _ _ -> _ => destruct b; [by intros [_ [= ->]]%exec_inv|] end.
      destruct (_ != _); [intros (now & t & _ & H)%exec_call_bind|intros H];
        apply exec_inv in H as [_ [= ->]]; by apply putReady_wf.
    + intros (now & t & _ & H)%exec_call_bind. apply exec_inv in H as [_ [= ->]]. by apply putReady_wf.
  - intros (now & t & _ & H)%exec_call_bind. apply exec_inv in H as [_ [= ->]].
    destruct Hwf as [Hd _]. split; [by apply degrade_types|]. intros _. apply degrade_active.
  - unfold clearDegradedCondition.
    intros [(m & _ & [=])|(cs & t1 & t2 & H1 & H & _)]%exec_bind. apply exec_inv in H as [_ [= ->]].
    apply clearConditions_types in H1. destruct Hwf as [Hd _]. split.
    + change (NoDup (types cs)). by rewrite H1.
    + change (platformPhase (withStatus _ _)) with
        (if negb (existsb isActive cs) && (platformPhase p == "Degraded") then PlatformPhaseReady else platformPhase p).
      change (platformConditions (withStatus _ _)) with cs.
      destruct (existsb isActive cs); [done|]. simpl. destruct (_ == "Degraded") eqn:E; [done|].
      intros Hp. by rewrite Hp in E.
Qed.

(** ** The condition Ready *)

Definition ready (p : DisconnectedPlatform) : option Condition := find_first (isType "Ready") (platformConditions p).

Lemma ready_putReady p c : c_Type c = "Ready" -> ready (putReady p c) = Some c.
Proof.
  intros Hc. unfold ready. rewrite putReady_conditions.
  assert (Hp : isType "Ready" c = true) by (unfold isType; by rewrite Hc).
  destruct (update_first _ _ _) as [l|] eqn:E.
  - by destruct (find_update_first _ _ _ _ E (fun _ _ => Hp)) as (x & _ & ->).
  - apply find_first_snoc; [|done]. by apply update_first_find_None in E.
Qed.

(** Reporting success.  Afterwards the condition Ready is true with the given reason
    and message at the current generation; its transition time is the one it had when it
    was already true, and otherwise the time that was read; and doing it again changes
    nothing and asks for nothing. *)
Theorem setReadyCondition_spec (p p' : DisconnectedPlatform) (reason message : string) tr :
  exec (setReadyCondition p reason message) tr (Done p') ->
  (exists c, ready p' = Some c /\ c_Status c = ConditionTrue /\ c_Reason c = reason /\
     c_Message c = message /\ c_ObservedGeneration c = om_Generation (dp_ObjectMeta p') /\
     ((exists c0, ready p = Some c0 /\ c_Status c0 = ConditionTrue /\ tr = [] /\
         c_LastTransitionTime c = c_LastTransitionTime c0) \/
      ((forall c0, ready p = Some c0 -> c_Status c0 <> ConditionTrue) /\
       exists now, tr = [Ev CNow now] /\ c_LastTransitionTime c = now))) /\
  setReadyCondition p' reason message = Ret p'.
Proof.
  assert (Hset : forall t, let c := readyCondition p ConditionTrue reason message t in
    ready (putReady p c) = Some c /\ setReadyCondition (putReady p c) reason message = Ret (putReady p c)).
  { intros t c. split; [by apply ready_putReady|]. unfold setReadyCondition.
    fold (ready (putReady p c)). rewrite ready_putReady by done.
    change (om_Generation (dp_ObjectMeta (putReady p c))) with (om_Generation (dp_ObjectMeta p)).
    cbn. by rewrite !str_eqb_refl, Z.eqb_refl. }
  unfold setReadyCondition at 1, transitionTime. fold (ready p).
  destruct (ready p) as [c0|] eqn:E0.
  - destruct (_ && (_ =? _)%Z) eqn:Eq.
    + intros [-> [= ->]]%exec_inv. apply andb_true_iff in Eq as [Eq Eg]. apply Z.eqb_eq in Eg.
      str_eq. split.
      * exists c0. split_and!; try done. left. by exists c0.
      * unfold setReadyCondition. fold (ready p). rewrite E0.
        replace (c_Status c0 == ConditionTrue) with true by (symmetry; by apply String.eqb_eq).
        replace (c_Reason c0 == reason) with true by (symmetry; by apply String.eqb_eq).
        replace (c_Message c0 == message) with true by (symmetry; by apply String.eqb_eq).
        by rewrite Eg, Z.eqb_refl.
    + destruct (c_Status c0 == ConditionTrue) eqn:Es; cbn [negb].
      * intros [-> [= ->]]%exec_inv. destruct (Hset (c_LastTransitionTime c0)) as [H1 H2].
        split; [|exact H2]. eexists. split; [exact H1|]. split_and!; try done.
        left. exists c0. str_eq. by split_and!.
      * intros (now & t & -> & H)%exec_call_bind. apply exec_inv in H as [-> [= ->]].
        destruct (Hset now) as [H1 H2]. split; [|exact H2]. eexists. split; [exact H1|].
        split_and!; try done. right. split; [|by exists now]. intros c1 [= <-]. by str_eq.
  - intros (now & t & -> & H)%exec_call_bind. apply exec_inv in H as [-> [= ->]].
    destruct (Hset now) as [H1 H2]. split; [|exact H2]. eexists. split; [exact H1|].
    split_and!; try done. right. split; [done|by exists now].
Qed.

(** ** A degradation keeps its first message *)

(** A degradation that is already active for a reason is left as it is: whatever
    message it is raised with again, the conditions do not change. *)
Theorem degraded_message_stale (p p' : DisconnectedPlatform) (reason message : string) (c : Condition) tr :
  find_first (isType "Degraded") (platformConditions p) = Some c ->
  c_Status c = ConditionTrue -> c_Reason c = reason ->
  exec (updateDegradedCondition p reason message) tr (Done p') ->
  platformConditions p' = platformConditions p.
Proof.
  intros Hf Hs Hr (now & t & _ & H)%exec_call_bind. apply exec_inv in H as [_ [= ->]].
  change (degrade reason message now (platformConditions p) = platformConditions p).
  unfold degrade. destruct (update_first _ _ _) as [l|] eqn:E.
  - revert l E Hf. induction (platformConditions p) as [|x cs IH]; simpl; [done|].
    destruct (isType "Degraded" x).
    + intros l [= <-] [= ->]. by rewrite Hs, Hr, !str_eqb_refl.
    + destruct (update_first _ _ cs) as [l2|]; [|done]. intros l [= <-] Hf. f_equal. by apply IH.
  - apply update_first_find_None in E. congruence.
Qed.

(** ** The two repairs of the TUF keys *)

Lemma filter_kept_all keys :
  Forall (fun k => is_Some (as_map k)) keys -> existsb problematicKey keys = false ->
  List.filter keptKey keys = keys.
Proof.
  induction 1 as [|k keys [m Hm] _ IH]; simpl; [done|]. intros [Hk Hr]%orb_false_iff.
  unfold keptKey, problematicKey in *. rewrite Hm in *. rewrite Hk. simpl. by rewrite IH.
Qed.

Lemma keptKey_map k : is_Some (as_map k) -> keptKey k = negb (problematicKey k).
Proof. intros [m E]. unfold keptKey, problematicKey. by rewrite E. Qed.

Definition badKeys (keys : list json) : nat := length (List.filter problematicKey keys).
Lemma badKeys_none keys : existsb problematicKey keys = false <-> badKeys keys = 0.
Proof.
  unfold badKeys. induction keys as [|k keys IH]; [done|]. cbn [existsb List.filter].
  destruct (problematicKey k); [done|]. exact IH.
Qed.
(** One key less is bad, and those that are to be kept are the same. *)
Lemma dropFirst_spec keys :
  Forall (fun k => is_Some (as_map k)) keys ->
  match dropFirst keys with
  | None => badKeys keys = 0
  | Some keys' => badKeys keys = S (badKeys keys') /\ List.filter keptKey keys' = List.filter keptKey keys /\
                  (forall k, In k keys' -> In k keys)
  end.
Proof.
  unfold badKeys. induction 1 as [|k keys Hk _ IH]; [done|]. cbn [dropFirst List.filter]. rewrite (keptKey_map k Hk).
  destruct (problematicKey k) eqn:E; cbn [negb]; [split_and!; [done|done|by right]|].
  destruct (dropFirst keys) as [l|]; [|exact IH]. destruct IH as (H1 & H2 & H3). cbn [option_map List.filter].
  rewrite (keptKey_map k Hk), E. cbn [negb length]. split_and!; [done|by f_equal|].
  intros x [->|Hx]; [by left|right; auto].
Qed.

(** A Securesign object with a list of keys. *)
Definition has_keys (s : Unstructured) (keys : list json) : Prop :=
  walk (u_Object s) tufKeysPath = Some (Some (JList keys)) /\ forallb copyable keys = true.

Section Repairs.
Context {X : Externals} `{!ExternalsLaws X}.

(** With another list in its place. *)
Definition withKeys (s : Unstructured) (keys : list json) : Unstructured :=
  withObject s (set_field tufKeysPath (JList keys) (u_Object s)).

Lemma has_keys_read s keys : has_keys s keys -> NestedSlice (u_Object s) tufKeysPath = (keys, true, None).
Proof. intros [H Hc]. by apply NestedSlice_at. Qed.
Lemma has_keys_settable s keys : has_keys s keys -> settable (u_Object s) tufKeysPath = true.
Proof.
  intros [H _]. unfold tufKeysPath in *. cbn in *. destruct (jhas _ "spec"); [|done].
  destruct (jget _ "spec"); try done. destruct (jhas _ "tuf"); [|done]. by destruct (jget _ "tuf").
Qed.
Lemma has_keys_set s keys keys' :
  has_keys s keys -> (forall k, In k keys' -> In k keys) ->
  SetNestedSlice (u_Object s) keys' tufKeysPath = (set_field tufKeysPath (JList keys') (u_Object s), None) /\
  has_keys (withKeys s keys') keys'.
Proof.
  intros Hk Hin. assert (Hs := has_keys_settable _ _ Hk). destruct Hk as [_ Hc].
  assert (Hc' : forallb copyable keys' = true) by (rewrite !forallb_forall in *; auto).
  split; [by rewrite SetNestedSlice_field, set_field_ok|]. split; [|done]. by apply set_field_at.
Qed.

(** What the platform reconciler writes for an object it read, and what the health check writes:
    [tr] and [o] are the rest of the run, [keys] the keys of the object. *)
Definition repairOne (s : Unstructured) (keys : list json) (tr : trace) (o : outcome (option error)) : Prop :=
  match badKeys keys with
  | 0 => tr = [] /\ o = Done None
  | S n => exists keys' (u : result Unstructured),
      tr = [Ev (CUpdate KSecuresign (withKeys s keys')) u] /\
      o = Done (option_map (Wrapf "failed to patch Securesign to remove tsa.certchain.pem") (err_of u)) /\
      has_keys (withKeys s keys') keys' /\ badKeys keys' = n /\
      List.filter keptKey keys' = List.filter keptKey keys /\ (forall k, In k keys' -> In k keys)
  end.
Definition repairAll (s : Unstructured) (keys : list json) (tr : trace) (o : outcome (Unstructured * option error)) : Prop :=
  match badKeys keys with
  | 0 => tr = [] /\ o = Done (s, None)
  | S _ => exists u : result Unstructured,
      let s' := withKeys s (List.filter keptKey keys) in
      tr = [Ev (CUpdate KSecuresign s') u] /\
      o = Done (match u with Ok stored => (stored, None) | Err e => (s', Some e) end) /\
      has_keys s' (List.filter keptKey keys) /\ badKeys (List.filter keptKey keys) = 0
  end.

Lemma platform_repair s keys tr o :
  has_keys s keys -> Forall (fun k => is_Some (as_map k)) keys -> exec checkAndFixTUFKeys tr o ->
  exists g rest, tr = Ev (CGet KSecuresign securesignMeta) g :: rest /\ (g = Ok s -> repairOne s keys rest o).
Proof.
  intros Hk Hm H. unfold checkAndFixTUFKeys in H. apply exec_call_bind in H as (g & rest & -> & H).
  exists g, rest. split; [done|]. intros ->. fold tufKeysPath in H. rewrite (has_keys_read _ _ Hk) in H.
  apply dropFirst_spec in Hm. unfold repairOne. destruct (dropFirst keys) as [keys'|].
  - destruct Hm as (Hn & Hf & Hin). destruct (has_keys_set s keys keys' Hk Hin) as [Es Hs]. rewrite Es in H.
    rewrite Hn. apply exec_call_bind in H as (u & t & -> & H). apply exec_inv in H as [-> ->]. by exists keys', u.
  - rewrite Hm. by apply exec_inv in H.
Qed.

Lemma health_repair s keys tr o : has_keys s keys -> exec (validateTUFKeys s) tr o -> repairAll s keys tr o.
Proof.
  intros Hk H. unfold validateTUFKeys in H. fold tufKeysPath in H. rewrite (has_keys_read _ _ Hk) in H.
  cbn [negb] in H. unfold repairAll. destruct (existsb problematicKey keys) eqn:E.
  - destruct (badKeys keys) as [|n] eqn:En; [apply badKeys_none in En; congruence|].
    destruct (has_keys_set s keys (List.filter keptKey keys) Hk) as [Es Hs]; [by intros k [? _]%List.filter_In|].
    rewrite Es in H. apply exec_call_bind in H as (u & t & -> & H). apply exec_inv in H as [-> ->]. exists u.
    split_and!; [done|by destruct u|exact Hs|]. by apply badKeys_none, kept_none.
  - apply badKeys_none in E. rewrite E. by apply exec_inv in H.
Qed.

(** C40: The two repairs of the TUF keys of a Securesign object, [checkAndFixTUFKeys] of the
    platform reconciler and [validateTUFKeys] of the health check.  On an object whose keys are
    maps both make no call but the read when no key is named tsa.certchain.pem.  Otherwise each
    makes one update of the object, with nothing but the list of keys changed: the health check
    removes all the keys of that name; the platform removes one, so that as many of its runs are
    needed as there are such keys, and the same keys are left to be kept.  When there is exactly
    one the two send the same object. *)
Theorem repairs_agree (s : Unstructured) (keys : list json)
    (Hk : has_keys s keys) (Hm : Forall (fun k => is_Some (as_map k)) keys) :
  (forall tr o, exec checkAndFixTUFKeys tr o ->
     exists g rest, tr = Ev (CGet KSecuresign securesignMeta) g :: rest /\ (g = Ok s -> repairOne s keys rest o)) /\
  (forall tr o, exec (validateTUFKeys s) tr o -> repairAll s keys tr o) /\
  (badKeys keys = 1 -> forall t1 o1 t2 o2, repairOne s keys t1 o1 -> repairAll s keys t2 o2 ->
     map ev_call t1 = map ev_call t2 /\ map ev_call t1 = [CUpdate KSecuresign (withKeys s (List.filter keptKey keys))]).
Proof.
  split; [intros tr o; by apply platform_repair|]. split; [intros tr o; by apply health_repair|].
  intros E t1 o1 t2 o2. unfold repairOne, repairAll. rewrite E.
  intros (keys' & u1 & -> & _ & _ & Hb & Hf & Hin) (u2 & -> & _).
  assert (keys' = List.filter keptKey keys) as ->; [|done].
  rewrite <- Hf. symmetry. apply filter_kept_all; [|by apply badKeys_none].
  rewrite List.Forall_forall in *. auto.
Qed.
End Repairs.

(** ** The histories *)

Definition entryOf (p : CollectionPipeline) : string * string :=
  (cpst_Version (cp_Status p), cpst_Phase (cp_Status p)).
Definition entry (i : CollectionInfo) : string * string := (ci_Version i, ci_Status i).

Lemma collectionHistory_spec items tr o :
  exec (collectionHistory items) tr o ->
  exists history, o = Done history /\ map entry history = map entryOf (List.filter isRecorded items) /\
    tr = map (fun i => Ev CNow (ci_Timestamp i)) history.
Proof.
  revert tr o; induction items as [|p items IH]; intros tr o H; cbn [collectionHistory] in H.
  { apply exec_inv in H as [-> ->]. by exists []. }
  cbn [List.filter]. destruct (isRecorded p); [|by apply IH].
  apply exec_call_bind in H as (now & t & -> & H).
  apply exec_bind in H as [(m & H & ->)|(history & t1 & t2 & H1 & H & ->)].
  { apply IH in H as (h & [=] & _). }
  apply exec_inv in H as [-> ->]. rewrite app_nil_r.
  apply IH in H1 as (h & [= <-] & Hm & ->). eexists. split; [done|]. simpl. by rewrite Hm.
Qed.

(** The collection history of a platform.  It is rebuilt from the collections listed:
    one entry for each that has a version and is complete, in the order listed, the last
    of them being the last collection, each stamped with the time of this reconcile.
    Nothing changes when the list fails or no collection is complete. *)
Theorem aggregateCollections_spec (p : DisconnectedPlatform) tr o :
  exec (aggregateCollections p) tr o ->
  (exists e, tr = [Ev (CList KCollectionPipeline None []) (Err e)] /\ o = Done p) \/
  exists items history,
    tr = Ev (CList KCollectionPipeline None []) (Ok items) :: map (fun i => Ev CNow (ci_Timestamp i)) history /\
    map entry history = map entryOf (List.filter isRecorded items) /\
    exists p', o = Done p' /\
      if decide (history = []) then p' = p
      else dpst_CollectionHistory (dp_Status p') = history /\
           dpst_LastCollection (dp_Status p') = list.last history /\
           dpst_ImportHistory (dp_Status p') = dpst_ImportHistory (dp_Status p) /\
           platformConditions p' = platformConditions p /\ dp_Spec p' = dp_Spec p.
Proof.
  unfold aggregateCollections. intros (l & t & -> & H)%exec_call_bind.
  destruct l as [items|e]; [right|left; apply exec_inv in H as [-> ->]; by exists e].
  apply exec_bind in H as [(m & H & ->)|(history & t1 & t2 & H1 & H & ->)].
  { apply collectionHistory_spec in H as (h & [=] & _). }
  apply exec_inv in H as [-> ->]. rewrite app_nil_r.
  apply collectionHistory_spec in H1 as (h & [= <-] & Hm & ->).
  exists items, history. split_and!; [done|done|]. eexists. split; [done|].
  by destruct history as [|i history]; case_decide.
Qed.

(** ** Worked examples *)

Section Witnesses.
#[local] Existing Instance sampleX.

Definition sampleStatus : DisconnectedPlatformStatus :=
  mkDisconnectedPlatformStatus "Degraded"
    [mkCondition "Degraded" ConditionTrue 0 sampleClock "HealthCheckFailed" "first";
     mkCondition "Ready" ConditionTrue 0 sampleClock "ReconciliationSucceeded" "ok"]
    None [] None [] [] None.

Definition statusPlatform : DisconnectedPlatform :=
  mkDisconnectedPlatform (mkTypeMeta "" "") (sampleMeta "" "platform")
    (mkDisconnectedPlatformSpec "connected" None None None None) sampleStatus.

Definition resultOf {A} (d : A) (p : prog A) (s : store) : A :=
  match outcomeOf p s with Done a => a | Panicked _ => d end.

Lemma returned {A} (d : A) (p : prog A) (s : store) :
  (exists a, outcomeOf p s = Done a) -> exec p (traceOf p s) (Done (resultOf d p s)).
Proof.
  intros [a Ha]. unfold resultOf. rewrite Ha, <- Ha. apply traceOf_exec.
Qed.

Definition clearRun : prog DisconnectedPlatform := clearDegradedCondition statusPlatform "HealthCheckFailed".

Lemma status_ops_wf_witness :
  status_wf statusPlatform /\ platformPhase (resultOf statusPlatform clearRun emptyStore) = "Ready" /\
  status_wf (resultOf statusPlatform clearRun emptyStore).
Proof.
  assert (H : status_wf statusPlatform).
  { split; [apply (bool_decide_unpack _); vm_compute; exact I|done]. }
  split; [exact H|]. split; [vm_compute; reflexivity|].
  apply (status_ops_wf statusPlatform _ clearRun (traceOf clearRun emptyStore)); [exact H|apply op_clear|].
  apply returned. eexists. vm_compute. reflexivity.
Defined.

Definition readyRun : prog DisconnectedPlatform := setReadyCondition statusPlatform "ReconciliationSucceeded" "done".

Lemma setReadyCondition_spec_witness :
  let p' := resultOf statusPlatform readyRun emptyStore in let tr := traceOf readyRun emptyStore in
  (exists c, ready p' = Some c /\ c_Status c = ConditionTrue /\ c_Reason c = "ReconciliationSucceeded" /\
     c_Message c = "done" /\ c_ObservedGeneration c = om_Generation (dp_ObjectMeta p') /\
     ((exists c0, ready statusPlatform = Some c0 /\ c_Status c0 = ConditionTrue /\ tr = [] /\
         c_LastTransitionTime c = c_LastTransitionTime c0) \/
      ((forall c0, ready statusPlatform = Some c0 -> c_Status c0 <> ConditionTrue) /\
       exists now, tr = [Ev CNow now] /\ c_LastTransitionTime c = now))) /\
  setReadyCondition p' "ReconciliationSucceeded" "done" = Ret p'.
Proof.
  intros p' tr. apply (setReadyCondition_spec statusPlatform p' _ _ tr).
  apply returned. eexists. vm_compute. reflexivity.
Defined.

Definition degradeRun : prog DisconnectedPlatform :=
  updateDegradedCondition statusPlatform "HealthCheckFailed" "second".

Lemma degraded_message_stale_witness :
  platformConditions (resultOf statusPlatform degradeRun emptyStore) = platformConditions statusPlatform.
Proof.
  apply (degraded_message_stale statusPlatform _ "HealthCheckFailed" "second"
           (mkCondition "Degraded" ConditionTrue 0 sampleClock "HealthCheckFailed" "first")
           (traceOf degradeRun emptyStore)); [reflexivity|reflexivity|reflexivity|].
  apply returned. eexists. vm_compute. reflexivity.
Defined.

Definition tufKey (name : string) : json := JMap [("name", JStr name)].

Definition tufKeys (names : list string) : list json := map tufKey names.
Definition keyedSecuresign (names : list string) : Unstructured :=
  mkUnstructured securesignGVK (sampleMeta (nn_Namespace securesignMeta) (nn_Name securesignMeta))
    [("spec", JMap [("tuf", JMap [("keys", JList (tufKeys names))])])].
Definition badNames : list string := ["rekor.pub"; "tsa.certchain.pem"; "ctfe.pub"].
Definition keyedStore (names : list string) : store := with_objs emptyStore KSecuresign [keyedSecuresign names].

Lemma repairs_agree_witness :
  let keys := tufKeys badNames in
  let s := keyedSecuresign badNames in
  badKeys keys = 1 /\
  writes (traceOf checkAndFixTUFKeys (keyedStore badNames)) =
    [CUpdate KSecuresign (keyedSecuresign ["rekor.pub"; "ctfe.pub"])] /\
  repairAll s keys (traceOf (validateTUFKeys s) (keyedStore badNames)) (outcomeOf (validateTUFKeys s) (keyedStore badNames)).
Proof.
  intros keys s. split; [reflexivity|]. split; [vm_compute; reflexivity|].
  destruct (repairs_agree s keys) as (_ & H & _).
  - split; reflexivity.
  - repeat constructor; by eexists.
  - apply H, traceOf_exec.
Defined.

Definition completePipeline (name version : string) : CollectionPipeline :=
  samplePipeline name sampleSpec (status0 <| cpst_Version := version |> <| cpst_Phase := "Complete" |>) [].

Definition aggregateRun : prog DisconnectedPlatform := aggregateCollections statusPlatform.
Definition aggregateStore : store := pipelinesStore [completePipeline "a" "v1"; samplePipeline "b" sampleSpec status0 []].

Lemma aggregateCollections_spec_witness :
  let tr := traceOf aggregateRun aggregateStore in let o := outcomeOf aggregateRun aggregateStore in
  length tr = 2 /\
  ((exists e, tr = [Ev (CList KCollectionPipeline None []) (Err e)] /\ o = Done statusPlatform) \/
  exists items history,
    tr = Ev (CList KCollectionPipeline None []) (Ok items) :: map (fun i => Ev CNow (ci_Timestamp i)) history /\
    map entry history = map entryOf (List.filter isRecorded items) /\
    exists p', o = Done p' /\
      if decide (history = []) then p' = statusPlatform
      else dpst_CollectionHistory (dp_Status p') = history /\
           dpst_LastCollection (dp_Status p') = list.last history /\
           dpst_ImportHistory (dp_Status p') = dpst_ImportHistory (dp_Status statusPlatform) /\
           platformConditions p' = platformConditions statusPlatform /\
           dp_Spec p' = dp_Spec statusPlatform).
Proof.
  intros tr o. split; [vm_compute; reflexivity|].
  apply (aggregateCollections_spec statusPlatform), traceOf_exec.
Defined.

(** Rebuilt a second later, the history of an unchanged cluster is another one. *)
Example history_never_settles :
  dpst_CollectionHistory (dp_Status (resultOf statusPlatform aggregateRun aggregateStore)) <>
  dpst_CollectionHistory (dp_Status (resultOf statusPlatform aggregateRun
    (mkStore (st_objs aggregateStore) (sampleClock + Second)%Z noHttp noWeb))).
Proof. vm_compute. discriminate. Qed.

(** An import without a version is recorded under two names: the one of its own
    reconciler, and its object's name when the platform rebuilds the history. *)
Definition unversionedImport : MirrorImport :=
  mkMirrorImport (mkTypeMeta "" "") (sampleMeta "mirror" "import-a")
    (mkMirrorImportSpec "text" (mkBundleSource "bundle-pvc" "bundle.tar.gz")
       (mkRegistryConfig "registry.local:8443" "") (mkPublishConfig true true) "" None)
    (mkMirrorImportStatus [] "Complete" "").

Example import_recorded_under_two_names :
  map ii_Version (importHistory [unversionedImport]) = ["import-a"] /\
  ImportController.importVersion unversionedImport = "import-import-a-00010101".
Proof. vm_compute. split; reflexivity. Qed.

(** A pod with two restarted containers is deleted twice. *)
Definition crashingPod : Pod :=
  mkPod (sampleMeta architectNamespace "fulcio-0") "Running" [mkContainerStatus 9 None; mkContainerStatus 7 None] [] [].
Definition keycloakStore : store :=
  with_objs emptyStore KKeycloak
    [mkUnstructured keycloakGVK (sampleMeta architectNamespace "mirror-operator-keycloak")
       [("status", JMap [("conditions", JList [JMap [("type", JStr "Ready"); ("status", JStr "True")]])])]].

Example fulcio_deleted_twice :
  length (List.filter (fun e => deletes KPod (ev_call e))
            (traceOf (restartFulcio crashingPod (pod_ContainerStatuses crashingPod)) keycloakStore)) = 2.
Proof. vm_compute. reflexivity. Qed.

(** A connected platform without a connected section panics in the RHTAS checks. *)
Example connected_without_section_panics :
  outcomeOf (performRHTASHealthChecks statusPlatform) emptyStore =
    Panicked "invalid memory address or nil pointer dereference".
Proof. reflexivity. Qed.
End Witnesses.
