(* ===== verification/Platform.v ===== *)
(** What the parts of the platform reconciler ([disconnectedplatform_controller.go],
    [disconnectedplatform_airgapped.go]) share: the reconciler itself, the kinds of the objects
    it manages, owner references. *)
From S2P Require Import Prelude GoStrings K8s Api Kube Externals Helpers.

(** The fields of the reconciler; of the two clients for [exec], whether they are set. *)
Record DisconnectedPlatformReconciler := mkPlatformReconciler {
  dpr_MirrorImage : string;
  dpr_ArchitectFrontendImage : string;
  dpr_ArchitectBackendImage : string;
  dpr_ArchitectConsolePluginImage : string;
  dpr_SkopeoImage : string;
  dpr_UBI9Image : string;
  dpr_UBI9MinimalImage : string;
  dpr_ClientSet : bool;
  dpr_RESTConfig : bool;
  dpr_TektonAvailable : bool;
}.

Definition gvkDisconnectedPlatform : GroupVersionKind :=
  mkGVK "mirror.mirror.mathianasj.github.com" "v1" "DisconnectedPlatform".
Definition pipelineGVK : GroupVersionKind := mkGVK "tekton.dev" "v1" "Pipeline".
Definition quayRegistryGVK : GroupVersionKind := mkGVK "quay.redhat.com" "v1" "QuayRegistry".
Abbreviation KQuayRegistry := (KUnstructured quayRegistryGVK).

(** [setOwnerReference]: the owner is named with the kind the object itself carries. *)
Definition setOwnerReference (obj : Unstructured) (owner : DisconnectedPlatform) : Unstructured :=
  obj <| u_Meta ::= fun om => om <| om_OwnerReferences :=
    [mkOwnerRef (tm_APIVersion (dp_TypeMeta owner)) (tm_Kind (dp_TypeMeta owner))
       (om_Name (dp_ObjectMeta owner)) (om_UID (dp_ObjectMeta owner)) (Some true) None] |> |>.

(** [ctrl.SetControllerReference] on the metadata of an object that has no owner yet: the
    platform is cluster-scoped, so it can own objects of every namespace. *)
Definition controlledBy {X : Externals} (platform : DisconnectedPlatform) (om : ObjectMeta) : ObjectMeta :=
  om <| om_OwnerReferences := [NewControllerRef (dp_ObjectMeta platform) gvkDisconnectedPlatform] |>.

(** An object of a dynamic kind with a name, and its key. *)
Definition unstructured_ (g : GroupVersionKind) (ns name : string) (o : fields) : Unstructured :=
  mkUnstructured g (meta0 <| om_Name := name |> <| om_Namespace := ns |>) o.

(** [o.SetResourceVersion(existing.GetResourceVersion())]. *)
Definition withVersionOf (existing o : Unstructured) : Unstructured :=
  o <| u_Meta ::= fun om => om <| om_ResourceVersion := om_ResourceVersion (u_Meta existing) |> |>.

(** [labels], as a part of a dynamic object. *)
Definition labelFields (labels : gmap string string) : fields :=
  map (fun kv => (fst kv, JStr (snd kv))) (map_to_list labels).

(** [if err := p; err != nil { return err }], then [q]. *)
Definition orReturn (p q : prog (option error)) : prog (option error) :=
  r ← p;
  match r with
  | Some e => mret (Some e)
  | None => q
  end.

(** What follows a call that must succeed, in a function that returns an error, and in one that
    returns a value or an error. *)
Definition onOk {A} (p : prog (result A)) (k : A -> prog (option error)) : prog (option error) :=
  r ← p;
  match r with
  | Err e => mret (Some e)
  | Ok a => k a
  end.
Definition rbind {A B} (p : prog (result A)) (k : A -> prog (result B)) : prog (result B) :=
  r ← p;
  match r with
  | Err e => mret (Err e)
  | Ok a => k a
  end.
Notation "'let?' x := p 'in' q" := (rbind p (fun x => q))
  (at level 200, x pattern, p at level 100, q at level 200) : go_scope.
