(* ===== verification/CABundles.v ===== *)
(** The CA bundles of the platform ([disconnectedplatform_controller.go]): the cluster bundle,
    the bundle of the service CA, their concatenation, the copy Quay gets, and the bundle and
    proxy the operator puts on its own subscription. *)
From S2P Require Import Prelude GoStrings K8s Api Kube Externals Helpers Operators Platform.

Definition serviceCAConfigMap : string := "config-service-cabundle".
Definition serviceCAKey : string := "service-ca.crt".
Definition combinedCABundleName : string := "combined-ca-bundle".
Definition injectCAAnnotation : string := "service.beta.openshift.io/inject-cabundle".
Definition extraCAKey : string := "extra_ca_cert_cluster-ca.crt".

Definition nilMap : string := "assignment to entry in nil map".

Section CABundles.
Context {X : Externals}.

Definition ensureClusterCABundle : prog (option error) :=
  ensureClusterCABundleInNamespace architectNamespace.

Definition serviceCA0 : ConfigMap :=
  mkConfigMap (meta0 <| om_Name := serviceCAConfigMap |> <| om_Namespace := architectNamespace |>
                     <| om_Annotations := {[ injectCAAnnotation := "true" ]} |>) None.

Definition annotatedForCA (existing : ConfigMap) : ConfigMap :=
  existing <| cm_Meta ::= fun om => om <| om_Annotations ::= <[ injectCAAnnotation := "true" ]> |> |>.

Definition ensureServiceCAConfigMap : prog (option error) :=
  g ← Get KConfigMap (key_of_meta (cm_Meta serviceCA0));
  match g with
  | Ok existing =>
      if default "" (om_Annotations (cm_Meta existing) !! injectCAAnnotation) == "true" then mret None
      else u ← Update KConfigMap (annotatedForCA existing); mret (err_of u)
  | Err e => if negb (IsNotFound e) then mret (Some e) else c ← Create KConfigMap serviceCA0; mret (err_of c)
  end.

(** The cluster bundle and the service bundle, with a line feed between when both are there. *)
Definition combineCA (clusterCA serviceCA : string) : string :=
  if serviceCA != "" then
    (if clusterCA != "" then clusterCA +:+ newline else clusterCA) +:+ serviceCA
  else clusterCA.

Definition combinedConfigMap (combined : string) : ConfigMap :=
  mkConfigMap (meta0 <| om_Name := combinedCABundleName |> <| om_Namespace := architectNamespace |>)
    (Some {[ clusterCABundleKey := combined ]}).

(** What is written; an existing ConfigMap without data makes the assignment panic. *)
Definition putCombined (combined : string) : prog (option error) :=
  g ← Get KConfigMap (mkNN architectNamespace combinedCABundleName);
  match g with
  | Ok existing =>
      if map_get (cm_Data existing) clusterCABundleKey == combined then mret None
      else
        match cm_Data existing with
        | None => Panic nilMap
        | Some data =>
            u ← Update KConfigMap (existing <| cm_Data := Some (<[ clusterCABundleKey := combined ]> data) |>);
            mret (err_of u)
        end
  | Err e =>
      if negb (IsNotFound e) then mret (Some e)
      else c ← Create KConfigMap (combinedConfigMap combined); mret (err_of c)
  end.

Definition ensureCombinedCABundle : prog (option error) :=
  _ ← ensureServiceCAConfigMap;
  ca ← getClusterCABundleData;
  let clusterCA := match ca with Ok d => d | Err _ => "" end in
  s ← Get KConfigMap (mkNN architectNamespace serviceCAConfigMap);
  let serviceCA := match s with Ok cm => map_get (cm_Data cm) serviceCAKey | Err _ => "" end in
  let combined := combineCA clusterCA serviceCA in
  if combined == "" then mret None else putCombined combined.

(** [quayRegistry.GetAPIVersion()]. *)
Definition apiVersionOf (g : GroupVersionKind) : string :=
  if g_Group g == "" then g_Version g else g_Group g +:+ "/" +:+ g_Version g.

(** The controller reference written out by hand for an object of a dynamic kind. *)
Definition ownedByUnstructured (owner : Unstructured) (om : ObjectMeta) : ObjectMeta :=
  if om_UID (u_Meta owner) != "" then
    om <| om_OwnerReferences :=
      [mkOwnerRef (apiVersionOf (u_GVK owner)) (g_Kind (u_GVK owner)) (om_Name (u_Meta owner))
         (om_UID (u_Meta owner)) (Some true) None] |>
  else om.

Definition ensureQuayCAInConfigBundle (quayRegistry : Unstructured) : prog (option error) :=
  ca ← getClusterCABundleData;
  match ca with
  | Err _ => mret None
  | Ok caData =>
      if caData == "" then mret None
      else
        let secretName := om_Name (u_Meta quayRegistry) +:+ "-config-bundle" in
        let ns := om_Namespace (u_Meta quayRegistry) in
        g ← Get KSecret (mkNN ns secretName);
        match g with
        | Ok existing =>
            if map_get (sec_Data existing) extraCAKey == caData then mret None
            else
              u ← Update KSecret
                    (existing <| sec_Data ::= fun d => Some (<[ extraCAKey := caData ]> (default ∅ d)) |>);
              mret (err_of u)
        | Err e =>
            if negb (IsNotFound e) then mret (Some e)
            else
              c ← Create KSecret
                    (mkTypedSecret
                       (ownedByUnstructured quayRegistry
                          (meta0 <| om_Name := secretName |> <| om_Namespace := ns |>))
                       (Some {[ extraCAKey := caData ]}) SecretTypeOpaque);
              mret (err_of c)
        end
  end.

(** ** The operator's own subscription *)

Definition isHTTPProxy (e : json) : bool :=
  match as_map e with Some em => iface_is (jget em "name") "HTTP_PROXY" | None => false end.

(** The proxy of the cluster, unless the subscription has one. *)
Definition addProxyToSubscription (sub : Unstructured) : prog (option error) :=
  p ← getClusterProxy;
  let '(httpProxy, httpsProxy, noProxy) := p in
  let proxyEnvs := proxyEnvForSubscription httpProxy httpsProxy noProxy in
  if (length proxyEnvs =? 0)%nat then mret None
  else
    let envs := nested_slice (u_Object sub) envPath in
    if existsb isHTTPProxy envs then mret None
    else
      u ← Update KSubscription (sub <| u_Object ::= setSlice envPath (envs ++ map JMap proxyEnvs) |>);
      mret (err_of u).

(** The first subscription to the package of the operator; the others are not looked at. *)
Fixpoint configureOwnSubscription (subs : list Unstructured) : prog (option error) :=
  match subs with
  | [] => mret None
  | sub :: rest =>
      if nested_string (u_Object sub) ["spec"; "name"] != "mirror-operator" then configureOwnSubscription rest
      else
        r ← ensureSubscriptionCABundle sub;
        match r with
        | (_, Some e) => mret (Some (Wrapf "ensuring CA bundle on own subscription" e))
        | (sub, None) => addProxyToSubscription sub
        end
  end.

Definition ensureOwnSubscriptionConfig : prog (option error) :=
  l ← List_ KSubscription (Some architectNamespace) [];
  match l with
  | Err e => mret (Some (Wrapf "listing subscriptions" e))
  | Ok subs => configureOwnSubscription subs
  end.
End CABundles.
