(* ===== verification/Tekton.v ===== *)
(** What Tekton asks of a pipeline and how it runs one: references to parameters, results and
    workspaces, the order of tasks, and executions as sequences of completed tasks.  This is
    the specification the pipelines of Pipelines are checked against; it is stated on the
    dynamic object that is sent to the API server. *)
From S2P Require Import Prelude GoStrings K8s Helpers.

(** ** Texts and the references in them *)

(** All the strings of a value that are not keys. *)
Fixpoint texts (v : json) : list string :=
  match v with
  | JStr s => [s]
  | JStrs l => l
  | JList l => flat_map texts l
  | JMap m => flat_map (fun kv => texts (snd kv)) m
  | JMaps l => flat_map (flat_map (fun kv => texts (snd kv))) l
  | _ => []
  end.

Fixpoint upto (c : ascii) (s : string) : option string :=
  match s with
  | EmptyString => None
  | String d t => if Ascii.eqb d c then Some EmptyString else option_map (String d) (upto c t)
  end.

(** The texts between an opening [$(] and the next [)]: variables, and shell commands. *)
Fixpoint dollar_refs (s : string) : list string :=
  match s with
  | EmptyString => []
  | String c t =>
      match t with
      | String d t' =>
          if Ascii.eqb c "$" && Ascii.eqb d "(" then
            match upto ")" t' with Some x => x :: dollar_refs t | None => dollar_refs t end
          else dollar_refs t
      | EmptyString => []
      end
  end.

Definition name_char (c : ascii) : bool :=
  let n := N_of_ascii c in
  (((97 <=? n) && (n <=? 122)) || ((48 <=? n) && (n <=? 57)) || ((65 <=? n) && (n <=? 90)) || (n =? 45))%N.

Fixpoint take_name (s : string) : string :=
  match s with
  | String c t => if name_char c then String c (take_name t) else EmptyString
  | EmptyString => EmptyString
  end.

(** The workspaces whose mount path a text mentions. *)
Fixpoint mount_refs (s : string) : list string :=
  match s with
  | EmptyString => []
  | String c t =>
      if HasPrefix s "/workspace/" then take_name (drop_str 11 s) :: mount_refs t else mount_refs t
  end.

Definition after_prefix (pre s : string) : option string :=
  if HasPrefix s pre then Some (drop_str (String.length pre) s) else None.

Definition param_ref (x : string) : option string := after_prefix "params." x.
(** [$(results.R.path)], where a step writes the result R. *)
Definition result_path_ref (x : string) : option string :=
  match Split x "." with ["results"; r; "path"] => Some r | _ => None end.
(** [$(tasks.T.results.R)]. *)
Definition task_result_ref (x : string) : option (string * string) :=
  match Split x "." with ["tasks"; t; "results"; r] => Some (t, r) | _ => None end.

(** ** Parts of a pipeline *)

Definition names_at (m : fields) (k : string) : list string :=
  omap (fun o => as_string (jget o "name")) (default [] (as_maps (jget m k))).
Definition strings_at (m : fields) (k : string) : list string :=
  match jget m k with JStrs l => l | _ => [] end.

(** What the checks look at in a task: its name, the tasks it waits for, the workspaces and
    results it declares, the variables and the mount paths in its texts. *)
Record task_facts := mkTaskFacts {
  tf_name : string;
  tf_runAfter : list string;
  tf_workspaces : list string;
  tf_results : list string;
  tf_vars : list string;
  tf_mounts : list string;
}.

Definition facts (task : fields) : task_facts :=
  mkTaskFacts (default "" (as_string (jget task "name"))) (strings_at task "runAfter")
    (names_at task "workspaces") (names_at (default [] (as_map (jget task "taskSpec"))) "results")
    (flat_map dollar_refs (texts (JMap task))) (flat_map mount_refs (texts (JMap task))).

Record pipeline_facts := mkPipelineFacts {
  pf_params : list string;
  pf_workspaces : list string;
  pf_tasks : list task_facts;
  pf_finally : list task_facts;
  pf_vars : list string;                            (* in the pipeline's results *)
}.

Definition maps_at (m : fields) (k : string) : list fields := default [] (as_maps (jget m k)).

Definition facts_of (spec : fields) : pipeline_facts :=
  mkPipelineFacts (names_at spec "params") (names_at spec "workspaces")
    (map facts (maps_at spec "tasks")) (map facts (maps_at spec "finally"))
    (flat_map dollar_refs (texts (jget spec "results"))).

(** ** Well-formed pipelines *)

Definition all_in (l decl : list string) : bool := forallb (containsString decl) l.

Fixpoint nodup_names (l : list string) : bool :=
  match l with
  | [] => true
  | x :: l' => negb (containsString l' x) && nodup_names l'
  end.

(** A reference to a result of a task: the task declares it. *)
Definition result_exists (ts : list task_facts) (tr : string * string) : bool :=
  existsb (fun t => (tf_name t == fst tr) && containsString (tf_results t) (snd tr)) ts.

Definition task_ok (p : pipeline_facts) (t : task_facts) : bool :=
  all_in (omap param_ref (tf_vars t)) (pf_params p)
  && all_in (omap result_path_ref (tf_vars t)) (tf_results t)
  && all_in (tf_workspaces t) (pf_workspaces p)
  && all_in (tf_runAfter t) (map tf_name (pf_tasks p))
  && forallb (result_exists (pf_tasks p)) (omap task_result_ref (tf_vars t)).

(** The mount paths a task mentions are those of workspaces it declares. *)
Definition mounts_ok (t : task_facts) : bool := all_in (tf_mounts t) (tf_workspaces t).

(** Only the tasks that run at the end may ask how the others went. *)
Definition no_status (t : task_facts) : bool := negb (containsString (tf_vars t) "tasks.status").

Definition well_formed (p : pipeline_facts) : bool :=
  nodup_names (map tf_name (pf_tasks p ++ pf_finally p))
  && nodup_names (pf_params p) && nodup_names (pf_workspaces p)
  && forallb (task_ok p) (pf_tasks p ++ pf_finally p)
  && forallb no_status (pf_tasks p)
  && forallb (fun t => bool_decide (tf_runAfter t = [])) (pf_finally p)
  && forallb (result_exists (pf_tasks p)) (omap task_result_ref (pf_vars p)).

(** ** Executions

    The state of a run is the tasks that are complete, the last one first; a task whose
    [when] expressions are false is skipped, which completes it as far as the order goes. *)

Section Executions.
Context (ts : list task_facts).

Definition enabled (t : task_facts) (completed : list string) : Prop :=
  In t ts /\ ~ In (tf_name t) completed /\ forall x, In x (tf_runAfter t) -> In x completed.

Inductive tasks_run : list string -> Prop :=
| run_nil : tasks_run []
| run_task t completed : tasks_run completed -> enabled t completed -> tasks_run (tf_name t :: completed).

Definition complete (completed : list string) : Prop := forall t, In t ts -> In (tf_name t) completed.

(** One round: every task whose predecessors are complete. *)
Definition ready (completed : list string) (t : task_facts) : bool :=
  negb (containsString completed (tf_name t)) && all_in (tf_runAfter t) completed.
Fixpoint rounds (n : nat) (completed : list string) : list string :=
  match n with
  | O => completed
  | S m => rounds m (map tf_name (filter (ready completed) ts) ++ completed)
  end.
Definition acyclic : bool := forallb (fun t => containsString (rounds (length ts) []) (tf_name t)) ts.

(** The tasks that come before a given one, [n] steps back at most. *)
Fixpoint ancestors (n : nat) (x : string) : list string :=
  match n with
  | O => []
  | S m => flat_map (fun t => if tf_name t == x then tf_runAfter t ++ flat_map (ancestors m) (tf_runAfter t)
                              else []) ts
  end.

(** *** Lemmas *)

Lemma all_in_spec l decl : all_in l decl = true <-> forall x, In x l -> In x decl.
Proof.
  unfold all_in. rewrite forallb_forall. split; intros H x Hx; apply containsString_In, H, Hx.
Qed.

Lemma names_inj t t' :
  nodup_names (map tf_name ts) = true -> In t ts -> In t' ts -> tf_name t = tf_name t' -> t = t'.
Proof.
  induction ts as [|u us IHu]; [done|]. simpl. intros [Hu Hnd]%andb_true_iff Ht Hin Hx.
  apply negb_true_iff, containsString_false in Hu.
  destruct Ht as [->|Ht], Hin as [->|Hin]; [done| | |by apply IHu].
  - exfalso. apply Hu. rewrite Hx. by apply in_map.
  - exfalso. apply Hu. rewrite <- Hx. by apply in_map.
Qed.

(** A run is closed under predecessors. *)
Lemma run_closed completed x t y :
  tasks_run completed -> nodup_names (map tf_name ts) = true -> In x completed ->
  In t ts -> tf_name t = x -> In y (tf_runAfter t) -> In y completed.
Proof.
  intros Hrun Hnd. revert x t y. induction Hrun as [|t' completed Hrun IH (Hin & Hnew & Hafter)];
    intros x t y Hx Ht <- Hy; [done|].
  destruct Hx as [Hx|Hx]; [|by right; eapply IH]. right.
  assert (t = t') as ->; [|by apply Hafter]. by apply names_inj.
Qed.

Lemma run_ancestors n completed x y :
  tasks_run completed -> nodup_names (map tf_name ts) = true -> In x completed ->
  In y (ancestors n x) -> In y completed.
Proof.
  intros Hrun Hnd. revert x. induction n as [|n IH]; intros x Hx; simpl; [done|].
  intros (t & Ht & Hy)%in_flat_map. destruct (tf_name t == x) eqn:E; [|done]. str_eq.
  apply in_app_iff in Hy as [Hy|(z & Hz & Hy)%in_flat_map].
  - by eapply run_closed.
  - apply (IH z); [|done]. by eapply run_closed.
Qed.

(** If not everything is complete, something that [rounds] completes can start. *)
Lemma ready_enabled completed t : In t ts -> ready completed t = true -> enabled t completed.
Proof.
  unfold ready. intros Ht [H1 H2]%andb_true_iff.
  split_and!; [done|by apply negb_true_iff, containsString_false in H1|by apply all_in_spec].
Qed.

Lemma not_enabled_rounds n base completed :
  (forall t, ~ enabled t completed) -> (forall x, In x base -> In x completed) ->
  forall x, In x (rounds n base) -> In x completed.
Proof.
  intros Hno. revert base. induction n as [|n IH]; intros base Hbase x; simpl; [auto|].
  apply IH. intros y [(t & <- & Ht)%in_map_iff|Hy]%in_app_iff; [|auto].
  apply list_elem_of_In, list_elem_of_filter in Ht as [Hr Ht%list_elem_of_In].
  destruct (In_dec string_dec (tf_name t) completed) as [|Hnew]; [done|].
  exfalso. apply (Hno t). split_and!; [done|done|]. intros z Hz. apply Hbase.
  apply Is_true_true in Hr. unfold ready in Hr. apply andb_true_iff in Hr as [_ Hr].
  rewrite all_in_spec in Hr. by apply Hr.
Qed.

Lemma find_enabled completed :
  (exists t, enabled t completed) \/ (forall t, ~ enabled t completed).
Proof.
  destruct (find_first (ready completed) ts) as [t|] eqn:E.
  - left. exists t. apply find_first_Some in E as [H1 H2]. by apply ready_enabled.
  - right. intros t (H1 & H2 & H3). rewrite find_first_None in E. specialize (E t H1).
    unfold ready in E. apply andb_false_iff in E as [E|E].
    + apply negb_false_iff, containsString_In in E. done.
    + assert (all_in (tf_runAfter t) completed = true) by by apply all_in_spec. congruence.
Qed.

Lemma acyclic_progress completed :
  acyclic = true -> ~ complete completed -> exists t, enabled t completed.
Proof.
  intros Hac Hinc. destruct (find_enabled completed) as [|Hno]; [done|]. exfalso. apply Hinc.
  intros t Ht. unfold acyclic in Hac. rewrite forallb_forall in Hac.
  specialize (Hac t Ht). apply containsString_In in Hac.
  by eapply not_enabled_rounds; [| |exact Hac].
Qed.

Lemma run_NoDup completed : tasks_run completed -> NoDup completed.
Proof. induction 1 as [|t c _ IH (_ & Hn & _)]; constructor; [by rewrite list_elem_of_In|done]. Qed.

Lemma run_names completed : tasks_run completed -> incl completed (map tf_name ts).
Proof.
  induction 1 as [|t c _ IH (Ht & _ & _)]; intros x Hx; [done|].
  destruct Hx as [<-|Hx]; [by apply in_map|by apply IH].
Qed.

(** A run has at most as many steps as there are tasks. *)
Lemma run_bound completed : tasks_run completed -> (length completed <= length ts)%nat.
Proof.
  intros H. rewrite <- (length_map tf_name). apply NoDup_incl_length; [|by apply run_names].
  by apply NoDup_ListNoDup, run_NoDup.
Qed.
(** *** Cycles *)

(** One task waits for another: the relation of the order of the run. *)
Definition waits (x y : string) : Prop := exists t, In t ts /\ tf_name t = x /\ In y (tf_runAfter t).
Definition no_cycle : Prop := forall x, ~ tc waits x x.

(** A task on a cycle is in no round. *)
Lemma rounds_off_cycle n base :
  nodup_names (map tf_name ts) = true -> (forall x, In x base -> ~ tc waits x x) ->
  forall x, In x (rounds n base) -> ~ tc waits x x.
Proof.
  intros Hnd. revert base. induction n as [|n IH]; intros base Hbase x; simpl; [auto|].
  apply IH. intros y [(t & <- & Ht)%in_map_iff|Hy]%in_app_iff; [|auto].
  apply list_elem_of_In, list_elem_of_filter in Ht as [Hr Ht%list_elem_of_In].
  apply Is_true_true in Hr. unfold ready in Hr. apply andb_true_iff in Hr as [_ Hr]. rewrite all_in_spec in Hr.
  assert (Hdep : forall z, waits (tf_name t) z -> In z base).
  { intros z (t' & Ht' & E & Hz). apply Hr. by rewrite <- (names_inj t' t). }
  intros Hc. inversion Hc as [? ? Hw|? z ? Hw Hz]; subst.
  - exact (Hbase _ (Hdep _ Hw) Hc).
  - apply (Hbase _ (Hdep _ Hw)). exact (tc_r _ _ _ Hz Hw).
Qed.

Lemma acyclic_no_cycle : acyclic = true -> nodup_names (map tf_name ts) = true -> no_cycle.
Proof.
  intros Hac Hnd x Hc. unfold acyclic in Hac. rewrite forallb_forall in Hac.
  assert (exists t, In t ts /\ tf_name t = x) as (t & Ht & Ex).
  { inversion Hc as [? ? (t & H & E & _)|? ? ? (t & H & E & _)]; eauto. }
  specialize (Hac t Ht). apply containsString_In in Hac.
  apply (rounds_off_cycle _ [] Hnd ltac:(done) _ Hac). by rewrite Ex.
Qed.
End Executions.

(** A task also waits for those whose results it uses. *)
Definition withResultRefs (t : task_facts) : task_facts :=
  mkTaskFacts (tf_name t) (tf_runAfter t ++ map fst (omap task_result_ref (tf_vars t))) (tf_workspaces t)
    (tf_results t) (tf_vars t) (tf_mounts t).
