(* ===== verification/PipelineScripts.v ===== *)
(** The shell scripts of the Tekton tasks, as the program writes them: those of the collection
    and import pipelines ([disconnectedplatform_controller.go], [disconnectedplatform_airgapped.go])
    and of the RHCOS server image ([pipelines/rhcos.go]).  A script is written with the
    backquote in the place of the double quote: a raw string of the source cannot hold one. *)
From S2P Require Import Prelude GoStrings.

Fixpoint bq (s : string) : string :=
  match s with
  | EmptyString => EmptyString
  | String c rest => String (if Ascii.eqb c "`" then "034"%char else c) (bq rest)
  end.

(** ** The RHCOS server image *)

(** The check whether the image exists in the registry. *)
Definition registryExistsCheckSnippet : string := bq "
REGISTRY_HOST=$(echo `$INTERMEDIATE_REGISTRY` | cut -d/ -f1)
REGISTRY_PATH=$(echo `$INTERMEDIATE_REGISTRY` | cut -sd/ -f2-)

PULL_SECRET=`/workspace/pull-secret/.dockerconfigjson`
AUTH=$(cat `$PULL_SECRET` | python3 -c `
import sys,json
d=json.load(sys.stdin)
host = '${INTERMEDIATE_REGISTRY}'.split('/')[0]
for key in [host, '${INTERMEDIATE_REGISTRY}', 'https://' + host, 'https://${INTERMEDIATE_REGISTRY}']:
  if key in d.get('auths',{}):
    print(d['auths'][key].get('auth',''))
    break
` 2>/dev/null || true)

MANIFEST_URL=`https://${REGISTRY_HOST}/v2/${REGISTRY_PATH:+${REGISTRY_PATH}/}rhcos-server/manifests/${RHCOS_VERSION}`
HTTP_CODE=`000`

if [ -n `$AUTH` ]; then
  # Docker v2 registries require Bearer token auth:
  # 1. Request the manifest endpoint to get the WWW-Authenticate challenge
  CHALLENGE=$(curl -sk -D - -o /dev/null `$MANIFEST_URL` 2>/dev/null | grep -i 'www-authenticate')
  REALM=$(echo `$CHALLENGE` | grep -oP 'realm=`\K[^`]+' || true)
  SERVICE=$(echo `$CHALLENGE` | grep -oP 'service=`\K[^`]+' || true)
  SCOPE=$(echo `$CHALLENGE` | grep -oP 'scope=`\K[^`]+' || true)

  if [ -n `$REALM` ]; then
    # 2. Exchange Basic credentials for a Bearer token at the auth realm
    CREDS=$(echo `$AUTH` | base64 -d)
    TOKEN_URL=`${REALM}?service=${SERVICE}&scope=${SCOPE}`
    TOKEN=$(curl -sk -u `$CREDS` `$TOKEN_URL` 2>/dev/null | python3 -c `import sys,json; print(json.load(sys.stdin).get('token',''))` 2>/dev/null || true)

    if [ -n `$TOKEN` ]; then
      # 3. Retry the manifest request with the Bearer token
      HTTP_CODE=$(curl -sk -o /dev/null -w '%{http_code}' \
        -H `Authorization: Bearer ${TOKEN}` \
        `$MANIFEST_URL` 2>/dev/null || echo `000`)
    fi
  fi
fi
if [ -z `$HTTP_CODE` ]; then HTTP_CODE=`000`; fi
".

Definition downloadRHCOSScript : string :=
  bq "
set -e

if [ `$(params.rhcos-download-enabled)` != `true` ]; then
  echo `RHCOS download skipped (rhcos-download-enabled=$(params.rhcos-download-enabled))`
  exit 0
fi

OC_VERSION=`$(params.oc-version)`
# Extract major.minor (e.g., `4.18.3` -> `4.18`, `stable-4.18` -> `4.18`)
RHCOS_VERSION=$(echo `$OC_VERSION` | grep -oP '\d+\.\d+')
if [ -z `$RHCOS_VERSION` ]; then
  echo `ERROR: Cannot extract major.minor version from $OC_VERSION`
  exit 1
fi

INTERMEDIATE_REGISTRY=`$(params.intermediate-registry)`
if [ -n `$INTERMEDIATE_REGISTRY` ]; then
" +:+ registryExistsCheckSnippet +:+ bq "
  if [ `$HTTP_CODE` = `200` ]; then
    echo `RHCOS server image already exists: ${INTERMEDIATE_REGISTRY}/rhcos-server:${RHCOS_VERSION} — skipping download`
    exit 0
  fi
  echo `RHCOS server image not found (HTTP $HTTP_CODE), proceeding with download...`
fi

echo `=== Downloading RHCOS boot images for ACM Host Inventory ===`

RHCOS_DIR=`/workspace/output/rhcos`
mkdir -p `$RHCOS_DIR`

RHCOS_BASE=`https://mirror.openshift.com/pub/openshift-v4/dependencies/rhcos/${RHCOS_VERSION}/latest`

echo `Downloading RHCOS live ISO for version $RHCOS_VERSION...`
if ! curl -L -f `${RHCOS_BASE}/rhcos-live.x86_64.iso` \
  -o `$RHCOS_DIR/rhcos-live.x86_64.iso` 2>/dev/null; then
  echo `Unversioned filename not found, discovering versioned filename from rhcos-id.txt...`
  RHCOS_FULL_VERSION=$(curl -sL -f `${RHCOS_BASE}/rhcos-id.txt` 2>/dev/null | tr -d '[:space:]')
  if [ -z `$RHCOS_FULL_VERSION` ]; then
    echo `ERROR: Could not determine RHCOS version from ${RHCOS_BASE}/rhcos-id.txt`
    exit 1
  fi
  echo `Discovered RHCOS version: $RHCOS_FULL_VERSION`
  curl -L -f `${RHCOS_BASE}/rhcos-${RHCOS_FULL_VERSION}-x86_64-live.x86_64.iso` \
    -o `$RHCOS_DIR/rhcos-live.x86_64.iso`
fi

echo `Downloading RHCOS rootFS for version $RHCOS_VERSION...`
if ! curl -L -f `${RHCOS_BASE}/rhcos-live-rootfs.x86_64.img` \
  -o `$RHCOS_DIR/rhcos-live-rootfs.x86_64.img` 2>/dev/null; then
  echo `Unversioned filename not found, discovering versioned filename from rhcos-id.txt...`
  if [ -z `$RHCOS_FULL_VERSION` ]; then
    RHCOS_FULL_VERSION=$(curl -sL -f `${RHCOS_BASE}/rhcos-id.txt` 2>/dev/null | tr -d '[:space:]')
  fi
  if [ -z `$RHCOS_FULL_VERSION` ]; then
    echo `ERROR: Could not determine RHCOS version from ${RHCOS_BASE}/rhcos-id.txt`
    exit 1
  fi
  curl -L -f `${RHCOS_BASE}/rhcos-${RHCOS_FULL_VERSION}-x86_64-live-rootfs.x86_64.img` \
    -o `$RHCOS_DIR/rhcos-live-rootfs.x86_64.img`
fi

echo `RHCOS downloads:`
ls -lh `$RHCOS_DIR/`

# Validate file sizes (ISO and rootFS should each be > 500MB)
for file in `$RHCOS_DIR`/*.iso `$RHCOS_DIR`/*.img; do
  if [ -f `$file` ]; then
    size=$(stat -c%s `$file` 2>/dev/null || stat -f%z `$file` 2>/dev/null)
    if [ `$size` -lt 500000000 ]; then
      echo `ERROR: $(basename $file) is only $(($size / 1048576))MB - expected >500MB`
      exit 1
    fi
  fi
done

# Write version metadata
cat > `$RHCOS_DIR/RHCOS_VERSION.txt` <<EOFV
rhcos_version=${RHCOS_VERSION}
ocp_version=${OC_VERSION}
EOFV

echo `=== RHCOS download complete ===`
".

Definition buildRHCOSServerScript : string :=
  bq "
set -e

if [ `$(params.rhcos-download-enabled)` != `true` ] || [ -z `$(params.intermediate-registry)` ]; then
  echo `RHCOS server build skipped (rhcos-download-enabled=$(params.rhcos-download-enabled), intermediate-registry=$(params.intermediate-registry))`
  exit 0
fi

RHCOS_DIR=`/workspace/output/rhcos`
BASE_IMAGE=`$(params.rhcos-server-base-image)`
INTERMEDIATE_REGISTRY=`$(params.intermediate-registry)`

# Get RHCOS version from metadata file, or derive from OCP version if download was skipped
if [ -f `$RHCOS_DIR/RHCOS_VERSION.txt` ]; then
  RHCOS_VERSION=$(cat `$RHCOS_DIR/RHCOS_VERSION.txt` | grep rhcos_version | cut -d= -f2)
else
  RHCOS_VERSION=$(echo `$(params.oc-version)` | grep -oP '\d+\.\d+')
fi

FULL_IMAGE=`${INTERMEDIATE_REGISTRY}/rhcos-server:${RHCOS_VERSION}`

# Check if RHCOS server image already exists in intermediate registry
" +:+ registryExistsCheckSnippet +:+ bq "
if [ `$HTTP_CODE` = `200` ]; then
  echo `RHCOS server image already exists: ${FULL_IMAGE} — skipping build`
  exit 0
fi

# If download was skipped but image doesn't exist, we need the RHCOS files
if [ ! -f `$RHCOS_DIR/rhcos-live.x86_64.iso` ]; then
  echo `ERROR: RHCOS files not found and image not in registry. Re-run with download enabled.`
  exit 1
fi

echo `=== Building RHCOS server OCI image ===`

cat > `$RHCOS_DIR/Containerfile` <<CEOF
FROM ${BASE_IMAGE}
ADD --chown=1001:0 rhcos-live.x86_64.iso /tmp/src/rhcos-live.x86_64.iso
ADD --chown=1001:0 rhcos-live-rootfs.x86_64.img /tmp/src/rhcos-live-rootfs.x86_64.img
ADD --chown=1001:0 RHCOS_VERSION.txt /tmp/src/RHCOS_VERSION.txt
RUN /usr/libexec/s2i/assemble
CMD /usr/libexec/s2i/run
LABEL io.openshift.rhcos.version=`${RHCOS_VERSION}`
LABEL io.openshift.mirror-operator/component=`rhcos-server`
CEOF

CERT_DIR_FLAG=``
if [ -d `/workspace/trusted-ca` ] && [ -f `/workspace/trusted-ca/ca-bundle.crt` ]; then
  mkdir -p /etc/docker/certs.d
  CERT_DIR_FLAG=`--cert-dir=/workspace/trusted-ca`
fi

buildah bud --storage-driver=vfs --isolation=chroot \
  --authfile=/workspace/pull-secret/.dockerconfigjson \
  -t `$FULL_IMAGE` \
  -f `$RHCOS_DIR/Containerfile` \
  `$RHCOS_DIR`

# Push directly to internal Quay service (bypasses external route/HAProxy)
NAMESPACE=$(cat /var/run/secrets/kubernetes.io/serviceaccount/namespace 2>/dev/null || echo `mirror-operator-system`)
INTERNAL_HOST=`mirror-operator-quay-quay-app.${NAMESPACE}.svc.cluster.local`

if [ -n `$REGISTRY_PATH` ]; then
  PUSH_IMAGE=`${INTERNAL_HOST}/${REGISTRY_PATH}/rhcos-server:${RHCOS_VERSION}`
else
  PUSH_IMAGE=`${INTERNAL_HOST}/rhcos-server:${RHCOS_VERSION}`
fi

# Extract credentials from pull secret
AUTH_B64=$(cat /workspace/pull-secret/.dockerconfigjson | \
  grep -o `\`${REGISTRY_HOST}[^\`]*\`[[:space:]]*:[[:space:]]*{[^}]*}` | head -1 | \
  grep -o '`auth`:`[^`]*`' | cut -d'`' -f4)
LOGIN_TLS=`--tls-verify=false`
if [ -n `$CERT_DIR_FLAG` ]; then
  LOGIN_TLS=`$CERT_DIR_FLAG`
fi
if [ -n `$AUTH_B64` ]; then
  CREDS=$(echo `$AUTH_B64` | base64 -d)
  CRED_USER=$(echo `$CREDS` | cut -d: -f1)
  CRED_PASS=$(echo `$CREDS` | cut -d: -f2-)
  buildah login $LOGIN_TLS -u `$CRED_USER` -p `$CRED_PASS` `$INTERNAL_HOST`
fi

# Map external hostname to internal service IP so Quay's auth/upload
# redirects (which use SERVER_HOSTNAME) stay cluster-internal
INTERNAL_IP=$(getent hosts `$INTERNAL_HOST` | awk '{print $1}' | head -1)
if [ -n `$INTERNAL_IP` ]; then
  echo `$INTERNAL_IP $REGISTRY_HOST` >> /etc/hosts
  echo `Mapped $REGISTRY_HOST -> $INTERNAL_IP to bypass CLB`
  buildah login $LOGIN_TLS -u `$CRED_USER` -p `$CRED_PASS` `$REGISTRY_HOST` 2>/dev/null || true
fi

echo `Pushing via internal service: ${PUSH_IMAGE}`
TLS_FLAG=`--tls-verify=false`
if [ -n `$CERT_DIR_FLAG` ]; then
  TLS_FLAG=`$CERT_DIR_FLAG`
fi
buildah push --storage-driver=vfs $TLS_FLAG --retry 3 \
  `$FULL_IMAGE` `docker://${PUSH_IMAGE}`

echo `=== RHCOS server image build and push complete ===`
".

(** ** The collection pipeline *)

(** The script of dry-run. *)
Definition dryRunScript : string := bq "
set -e
oc-mirror \
  --v2 \
  --config=/workspace/config/imageset-config.yaml \
  --authfile=/workspace/pull-secret/.dockerconfigjson \
  --dry-run \
  --workspace=file:///workspace/output \
  docker://$(params.intermediate-registry)
".

(** The script of mirror-to-intermediate. *)
Definition mirrorToIntermediateScript : string := bq "
set -e

MAX_RETRIES=3
RETRY_COUNT=0
SUCCESS=0

while [ $RETRY_COUNT -lt $MAX_RETRIES ] && [ $SUCCESS -eq 0 ]; do
  if [ $RETRY_COUNT -gt 0 ]; then
    echo `=== Retry attempt $RETRY_COUNT of $((MAX_RETRIES - 1)) ===`
    sleep 10
  fi

  OUTPUT_FILE=`/tmp/oc-mirror-output-$$.log`
  oc-mirror \
    --v2 \
    --config=/workspace/config/imageset-config.yaml \
    --authfile=/workspace/pull-secret/.dockerconfigjson \
    --cache-dir=/workspace/output/.cache \
    --workspace=file:///workspace/output/workspace-to-intermediate \
    docker://$(params.intermediate-registry) 2>&1 | tee `$OUTPUT_FILE` || true

  if grep -q `✗` `$OUTPUT_FILE`; then
    echo `=== Mirror completed with errors (some images failed to mirror) ===`
    grep `✗` `$OUTPUT_FILE`
    grep `\[ERROR\]` `$OUTPUT_FILE` || true
    RETRY_COUNT=$((RETRY_COUNT + 1))
  elif grep -q `✓.*release images mirrored successfully` `$OUTPUT_FILE` || \
       grep -q `✓.*operator images mirrored successfully` `$OUTPUT_FILE` || \
       grep -q `✓.*additional images mirrored successfully` `$OUTPUT_FILE`; then
    echo `=== Mirror completed successfully (all images mirrored) ===`
    SUCCESS=1
    break
  else
    echo `=== Mirror may have failed, no success indicator found ===`
    RETRY_COUNT=$((RETRY_COUNT + 1))
  fi

  rm -f `$OUTPUT_FILE`
done

if [ $SUCCESS -eq 0 ]; then
  echo `=== Mirror failed after $MAX_RETRIES attempts ===`
  exit 1
fi

# Preserve IDMS and ITMS files for mirror-from-intermediate step
# oc-mirror will delete working-dir when it starts, so save to persistent location
IDMS_FILE=`/workspace/output/workspace-to-intermediate/working-dir/cluster-resources/idms-oc-mirror.yaml`
IDMS_BACKUP=`/workspace/output/idms-oc-mirror.yaml`
ITMS_FILE=`/workspace/output/workspace-to-intermediate/working-dir/cluster-resources/itms-oc-mirror.yaml`
ITMS_BACKUP=`/workspace/output/itms-oc-mirror.yaml`

if [ -f `$IDMS_FILE` ]; then
  echo `=== Preserving IDMS file for mirror-from-intermediate ===`
  cp `$IDMS_FILE` `$IDMS_BACKUP`
  echo `IDMS file saved to: $IDMS_BACKUP`

  # Show first few lines for debugging
  echo `IDMS preview:`
  head -30 `$IDMS_BACKUP`
else
  echo `WARNING: IDMS file not found at $IDMS_FILE`
  echo `Checking for IDMS in other locations...`
  find /workspace/output -name `idms-*.yaml` -type f 2>/dev/null | while read idms; do
    echo `Found: $idms`
    cp `$idms` `$IDMS_BACKUP`
  done
fi

if [ -f `$ITMS_FILE` ]; then
  echo `=== Preserving ITMS file for mirror-from-intermediate ===`
  cp `$ITMS_FILE` `$ITMS_BACKUP`
  echo `ITMS file saved to: $ITMS_BACKUP`

  # Show first few lines for debugging
  echo `ITMS preview:`
  head -30 `$ITMS_BACKUP`
else
  echo `WARNING: ITMS file not found at $ITMS_FILE`
fi

# Preserve updateService.yaml for reference
US_FILE=`/workspace/output/workspace-to-intermediate/working-dir/cluster-resources/updateService.yaml`
US_BACKUP=`/workspace/output/updateService.yaml`
if [ -f `$US_FILE` ]; then
  echo `=== Preserving updateService.yaml ===`
  cp `$US_FILE` `$US_BACKUP`
  cat `$US_BACKUP`
else
  echo `INFO: updateService.yaml not found (graph: true may not be set in ImageSetConfig)`
fi
".

(** The script of syft-sbom, part 1. *)
Definition syftSbomScript1 : string := bq "
set -e
echo `=== Generating SBOM with Syft ===`

# Set up registry authentication
export HOME=/tmp
mkdir -p $HOME/.docker
cp /workspace/pull-secret/.dockerconfigjson $HOME/.docker/config.json
export DOCKER_CONFIG=$HOME/.docker

# === TPA Upload Setup ===
CLIENT_SECRET=$(cat /workspace/tpa-oidc-secret/clientSecret)
TOKEN_FILE=$(mktemp)
echo `0` > `${TOKEN_FILE}.time`

refresh_tpa_token() {
  local now=$(date +%s)
  local last=$(cat `${TOKEN_FILE}.time` 2>/dev/null || echo 0)
  if [ $((now - last)) -lt 240 ]; then
    TPA_TOKEN=$(cat `$TOKEN_FILE` 2>/dev/null)
    return
  fi
  local lockdir=`${TOKEN_FILE}.lock`
  if mkdir `$lockdir` 2>/dev/null; then
    trap 'rmdir `$lockdir` 2>/dev/null' RETURN
    last=$(cat `${TOKEN_FILE}.time` 2>/dev/null || echo 0)
    if [ $((now - last)) -lt 240 ]; then
      :
    else
      curl -s -X POST `$(params.tpa-oidc-issuer)/protocol/openid-connect/token` \
        -d `client_id=$(params.tpa-oidc-client-id)` \
        -d `client_secret=$CLIENT_SECRET` \
        -d `grant_type=client_credentials` | jq -r '.access_token' > `$TOKEN_FILE`
      date +%s > `${TOKEN_FILE}.time`
    fi
  else
    while [ -d `$lockdir` ]; do sleep 0.1; done
  fi
  TPA_TOKEN=$(cat `$TOKEN_FILE` 2>/dev/null)
}

upload_sbom_to_tpa() {
  local sbom_file=`$1`
  refresh_tpa_token

  # Check if SBOM already exists in TPA by documentNamespace
  local doc_ns
  doc_ns=$(jq -r '.documentNamespace // empty' `$sbom_file` 2>/dev/null)
  if [ -n `$doc_ns` ]; then
    local check_resp check_code check_body
    check_resp=$(curl -s -w `\nHTTP_CODE:%{http_code}` \
      -H `Authorization: Bearer $TPA_TOKEN` \
      `https://$(params.tpa-host)/api/v2/sbom?q=$(printf '%s' `$doc_ns` | jq -sRr @uri)`)
    check_code=$(echo `$check_resp` | grep `HTTP_CODE:` | cut -d: -f2)
    check_body=$(echo `$check_resp` | grep -v `HTTP_CODE:`)
    if [ `$check_code` = `200` ]; then
      local exists
      exists=$(echo `$check_body` | jq '.items | length // 0')
      if [ `$exists` -gt 0 ] 2>/dev/null; then
        echo `    -> Already exists in TPA, skipping upload`
        return 0
      fi
    fi
  fi

  local response
  response=$(curl -s -w `\nHTTP_CODE:%{http_code}` -X POST \
    -H `Authorization: Bearer $TPA_TOKEN` \
    -H `Content-Type: application/json` \
    -d @`$sbom_file` \
    `https://$(params.tpa-host)/api/v2/sbom`)
  local http_code body
  http_code=$(echo `$response` | grep `HTTP_CODE:` | cut -d: -f2)
  body=$(echo `$response` | grep -v `HTTP_CODE:`)
  if [ `$http_code` = `200` ] || [ `$http_code` = `201` ]; then
    echo `    -> Uploaded to TPA`
    return 0
  elif [ `$http_code` = `409` ]; then
    echo `    -> Already exists in TPA (HTTP 409), skipping`
    return 0
  else
    echo `    -> TPA upload failed (HTTP $http_code): $body`
    return 1
  fi
}

".

(** The script of syft-sbom, part 2. *)
Definition syftSbomScript2 : string := bq "# Post-process SBOM to set upstream source name and add intermediate destination annotation
postprocess_sbom() {
  local sbom_file=`$1`
  local source_ref=`$2`
  local dest_ref=`$3`
  local src_no_proto=`${source_ref#docker://}`
  local src_repo=`${src_no_proto%%@*}`
  jq --arg src `$src_no_proto` --arg srcRepo `$src_repo` --arg dest `$dest_ref` --arg ts `$(date -u +%Y-%m-%dT%H:%M:%SZ)` '
    .name = $srcRepo |
    .documentNamespace = `https://mirror-operator/sboms/\($src)` |
    .annotations = ((.annotations // []) + [{
      `annotationDate`: $ts,
      `annotationType`: `OTHER`,
      `annotator`: `Tool: mirror-operator-collection-pipeline`,
      `comment`: `Mirrored to: \($dest)`
    }]) |
    if (.packages | length) > 0 then
      .packages[0].name = $srcRepo |
      .packages[0].externalRefs = ([
        .packages[0].externalRefs[]? |
        if .referenceType == `purl` then
          . as $orig |
          (.referenceLocator | ltrimstr(`pkg:oci/`) | index(`@`)) as $at |
          if $at then
            {referenceCategory: `PACKAGE-MANAGER`, referenceType: `purl`,
             referenceLocator: (`pkg:oci/` + $srcRepo + (.referenceLocator | ltrimstr(`pkg:oci/`)[$at:]))},
            {referenceCategory: `OTHER`, referenceType: `purl`,
             referenceLocator: $orig.referenceLocator,
             comment: `intermediate-registry-ref`}
          else . end
        else . end
      ])
    else . end
  ' `$sbom_file` > `${sbom_file}.tmp` && mv `${sbom_file}.tmp` `$sbom_file`
}

refresh_tpa_token
uploaded_tpa=0

MAPPING_FILE=`/workspace/output/working-dir/dry-run/mapping.txt`
if [ ! -f `$MAPPING_FILE` ]; then
  MAPPING_FILE=$(find /workspace/output/working-dir -name `mapping.txt` -type f 2>/dev/null | head -1)
fi

if [ -z `$MAPPING_FILE` ] || [ ! -f `$MAPPING_FILE` ]; then
  echo `No mapping.txt found, skipping SBOM generation`
  mkdir -p /workspace/output/sboms
  exit 0
fi

echo `Found mapping file: $MAPPING_FILE`
image_count=$(grep -c -v '^#' `$MAPPING_FILE` || echo 0)
echo `Total images: $image_count`

# Create SBOM cache and output directories
SBOM_CACHE_DIR=`/workspace/output/sbom-cache`
mkdir -p `$SBOM_CACHE_DIR`
mkdir -p /workspace/output/sboms

# Determine if scanning from intermediate registry or local cache
if [ -n `$(params.intermediate-registry)` ]; then
  echo `Scanning from intermediate registry: $(params.intermediate-registry)`
  SCAN_FROM_REGISTRY=`$(params.intermediate-registry)`
else
  echo `Scanning from local cache`
  SCAN_FROM_REGISTRY=``
fi

".

(** The script of syft-sbom, part 3. *)
Definition syftSbomScript3 : string := bq "# Parallel SBOM generation
MAX_JOBS=$(params.sbom-parallel-jobs)
COUNTER_DIR=$(mktemp -d)
echo 0 > `$COUNTER_DIR/cached`
echo 0 > `$COUNTER_DIR/scanned`
echo 0 > `$COUNTER_DIR/uploaded_tpa`
echo 0 > `$COUNTER_DIR/current`

process_image() {
  local source=`$1`
  local dest=`$2`
  local image_count=`$3`

  local idx
  idx=$(( $(cat `$COUNTER_DIR/current`) + 1 ))
  echo `$idx` > `$COUNTER_DIR/current`

  local dest_no_proto=`${dest#docker://}`

  # Extract digest for cache lookup
  local DIGEST
  DIGEST=$(echo `$dest` | grep -oP 'sha256:[a-f0-9]+' || echo ``)
  if [ -z `$DIGEST` ]; then
    DIGEST=$(echo `$source` | grep -oP 'sha256:[a-f0-9]+' || echo ``)
  fi

  local SAFE_NAME
  SAFE_NAME=$(echo -n `$dest_no_proto` | sha256sum | cut -d' ' -f1)
  local OUTPUT_FILE=`/workspace/output/sboms/${SAFE_NAME}.spdx.json`

  # Check cache first if we have a digest
  if [ -n `$DIGEST` ]; then
    local CACHE_FILE=`$SBOM_CACHE_DIR/$(echo `$DIGEST` | tr ':' '_').json`
    if [ -f `$CACHE_FILE` ]; then
      cp `$CACHE_FILE` `$OUTPUT_FILE`
      local fixed_source=`${source//localhost:55000/$SCAN_FROM_REGISTRY}`
      local fixed_dest=`${dest_no_proto//localhost:55000/$SCAN_FROM_REGISTRY}`
      postprocess_sbom `$OUTPUT_FILE` `$fixed_source` `$fixed_dest`
      local pkg_count
      pkg_count=$(jq '.packages | length // 0' `$OUTPUT_FILE` 2>/dev/null || echo 0)
      echo `  [$idx/$image_count] Cached: $fixed_dest ($pkg_count packages)`
      echo $(( $(cat `$COUNTER_DIR/cached`) + 1 )) > `$COUNTER_DIR/cached`
      if upload_sbom_to_tpa `$OUTPUT_FILE`; then
        echo $(( $(cat `$COUNTER_DIR/uploaded_tpa`) + 1 )) > `$COUNTER_DIR/uploaded_tpa`
      fi
      return
    fi
  fi

  # Check TPA before scanning to avoid slow syft scan for existing SBOMs
  local fixed_source_pre=`${source//localhost:55000/$SCAN_FROM_REGISTRY}`
  local src_no_proto_pre=`${fixed_source_pre#docker://}`
  local doc_ns_pre=`https://mirror-operator/sboms/${src_no_proto_pre}`
  refresh_tpa_token
  local tpa_check_resp tpa_check_code tpa_check_body
  tpa_check_resp=$(curl -s -w `\nHTTP_CODE:%{http_code}` \
    -H `Authorization: Bearer $TPA_TOKEN` \
    `https://$(params.tpa-host)/api/v2/sbom?q=$(printf '%s' `$doc_ns_pre` | jq -sRr @uri)` 2>/dev/null)
  tpa_check_code=$(echo `$tpa_check_resp` | grep `HTTP_CODE:` | cut -d: -f2)
  tpa_check_body=$(echo `$tpa_check_resp` | grep -v `HTTP_CODE:`)
  if [ `$tpa_check_code` = `200` ]; then
    local tpa_exists
    tpa_exists=$(echo `$tpa_check_body` | jq '.items | length // 0' 2>/dev/null)
    if [ `$tpa_exists` -gt 0 ] 2>/dev/null; then
      local fixed_dest_pre=`${dest_no_proto//localhost:55000/$SCAN_FROM_REGISTRY}`
      echo `  [$idx/$image_count] TPA exists: $fixed_dest_pre`
      echo $(( $(cat `$COUNTER_DIR/cached`) + 1 )) > `$COUNTER_DIR/cached`
      return
    fi
  fi

  # Scan image
  local IMAGE
  if [ -n `$SCAN_FROM_REGISTRY` ]; then
    IMAGE=`registry:${dest_no_proto//localhost:55000/$SCAN_FROM_REGISTRY}`
  else
    if [ -z `$DIGEST` ]; then
      echo `  [$idx/$image_count] Skipping (no digest): $source`
      return
    fi
    IMAGE=`/workspace/output/.cache/blobs/sha256/${DIGEST#sha256:}`
  fi

  echo `  [$idx/$image_count] Scanning: $dest_no_proto`
  if syft `$IMAGE` -o spdx-json=`$OUTPUT_FILE` --select-catalogers `-file-metadata-cataloger,-file-digest-cataloger,-file-content-cataloger` 2>/dev/null; then
    echo $(( $(cat `$COUNTER_DIR/scanned`) + 1 )) > `$COUNTER_DIR/scanned`
    local fixed_source=`${source//localhost:55000/$SCAN_FROM_REGISTRY}`
    local fixed_dest=`${dest_no_proto//localhost:55000/$SCAN_FROM_REGISTRY}`
    postprocess_sbom `$OUTPUT_FILE` `$fixed_source` `$fixed_dest`
    if [ -n `$DIGEST` ]; then
      cp `$OUTPUT_FILE` `$SBOM_CACHE_DIR/$(echo `$DIGEST` | tr ':' '_').json`
    fi
    if upload_sbom_to_tpa `$OUTPUT_FILE`; then
      echo $(( $(cat `$COUNTER_DIR/uploaded_tpa`) + 1 )) > `$COUNTER_DIR/uploaded_tpa`
    fi
  else
    echo `    Failed to scan: $dest_no_proto`
  fi
}

export -f process_image postprocess_sbom upload_sbom_to_tpa refresh_tpa_token
export SBOM_CACHE_DIR SCAN_FROM_REGISTRY COUNTER_DIR TOKEN_FILE CLIENT_SECRET

active_jobs=0
while IFS='=' read -r source dest; do
  [ -z `$source` ] || [[ `$source` =~ ^# ]] && continue

  process_image `$source` `$dest` `$image_count` &
  active_jobs=$((active_jobs + 1))

  if [ `$active_jobs` -ge `$MAX_JOBS` ]; then
    wait -n 2>/dev/null || wait
    active_jobs=$((active_jobs - 1))
  fi
done < `$MAPPING_FILE`
wait

cached=$(cat `$COUNTER_DIR/cached`)
scanned=$(cat `$COUNTER_DIR/scanned`)
uploaded_tpa=$(cat `$COUNTER_DIR/uploaded_tpa`)
rm -rf `$COUNTER_DIR`
rm -f `$TOKEN_FILE` `${TOKEN_FILE}.time` `${TOKEN_FILE}.lock`

echo `=== SBOM generation complete ===`
echo `Total: $image_count | Cached: $cached | Scanned: $scanned | Uploaded to TPA: $uploaded_tpa`
ls -lh /workspace/output/sboms/ | head -20
".

Definition syftSbomScript : string := syftSbomScript1 +:+ syftSbomScript2 +:+ syftSbomScript3.

(** The script of sign-images. *)
Definition signImagesScript : string := bq "
set -e

# Set up registry authentication
export HOME=/tmp
mkdir -p $HOME/.docker
cp /workspace/pull-secret/.dockerconfigjson $HOME/.docker/config.json
export DOCKER_CONFIG=$HOME/.docker

echo `=== Initializing TUF root ===`
cosign initialize --mirror=`$(params.tuf-url)` --root=`$(params.tuf-url)/root.json`

echo `=== Signing images with cosign keyless ===`

MAPPING_FILE=`/workspace/output/working-dir/dry-run/mapping.txt`
if [ ! -f `$MAPPING_FILE` ]; then
  MAPPING_FILE=$(find /workspace/output/working-dir -name `mapping.txt` -type f 2>/dev/null | head -1)
fi

if [ -z `$MAPPING_FILE` ] || [ ! -f `$MAPPING_FILE` ]; then
  echo `No mapping.txt found, skipping image signing`
  exit 0
fi

# Get OIDC token
OIDC_TOKEN=$(curl -s -X POST `$(params.oidc-issuer)/protocol/openid-connect/token` \
  -d `client_id=$(params.oidc-client-id)` \
  -d `client_secret=$(cat /workspace/oidc-secret/clientSecret)` \
  -d `grant_type=client_credentials` \
  -d `audience=trusted-artifact-signer` | jq -r '.access_token')

if [ -z `$OIDC_TOKEN` ] || [ `$OIDC_TOKEN` = `null` ]; then
  echo `ERROR: Failed to get OIDC token`
  exit 1
fi

export COSIGN_EXPERIMENTAL=1

# Initialize TUF root for our private Sigstore instance
# This ensures cosign verify checks against OUR Rekor, not public Sigstore
echo `=== Initializing TUF root for private Sigstore ===`
cosign initialize --mirror=`$(params.tuf-url)` --root=`$(params.tuf-url)/root.json`

# Sign each image in intermediate registry
signed_count=0
skipped_count=0
failed_count=0
total_images=$(grep -c -v '^#' `$MAPPING_FILE` || echo 0)
echo `Processing $total_images images...`

while IFS='=' read -r source dest; do
  [ -z `$source` ] || [[ `$source` =~ ^# ]] && continue

  # Replace localhost:55000 with intermediate registry in dest path
  dest_no_proto=`${dest#docker://}`
  image_ref=`${dest_no_proto//localhost:55000/\$(params.intermediate-registry)}`

  # Check if image is already signed BY OUR PRIVATE SIGSTORE INSTANCE
  # We must verify against OUR Rekor, not upstream public Sigstore
  # This prevents skipping images that only have upstream Red Hat signatures
  if cosign verify \
    --rekor-url=$(params.rekor-url) \
    --certificate-oidc-issuer=$(params.oidc-issuer) \
    --certificate-identity-regexp=`.*` \
    `$image_ref` >/dev/null 2>&1; then
    echo `  ✓ Already signed by our Sigstore: $image_ref (skipping)`
    skipped_count=$((skipped_count + 1))
    continue
  fi

  echo `  Signing $image_ref`
  if cosign sign \
    --fulcio-url=$(params.fulcio-url) \
    --rekor-url=$(params.rekor-url) \
    --oidc-issuer=$(params.oidc-issuer) \
    --identity-token=`$OIDC_TOKEN` \
    --yes \
    `$image_ref`; then
    signed_count=$((signed_count + 1))
  else
    echo `  ✗ Failed to sign $image_ref`
    failed_count=$((failed_count + 1))
  fi
done < `$MAPPING_FILE`

echo ``
echo `=== Image signing complete ===`
echo `Total: $total_images | Signed: $signed_count | Already signed: $skipped_count | Failed: $failed_count`

if [ `$signed_count` -eq 0 ] && [ `$skipped_count` -eq 0 ] && [ `$total_images` -gt 0 ]; then
  echo `ERROR: All images failed to sign`
  exit 1
fi
".

(** The script of oc-mirror. *)
Definition ocMirrorScript : string := bq "
set -e

# Preserve parent tars so oc-mirror doesn't overwrite them
if [ -n `$(params.parent-pipeline)` ]; then
  EXISTING_TARS=$(ls -1 /workspace/output/mirror_*.tar 2>/dev/null || true)
  if [ -n `$EXISTING_TARS` ]; then
    mkdir -p /workspace/output/parent-archives
    echo `Moving parent tars to parent-archives/ before oc-mirror run:`
    for f in /workspace/output/mirror_*.tar; do
      echo `  $(basename $f)`
      mv `$f` /workspace/output/parent-archives/
    done
  fi
fi

touch /workspace/output/.mirror-marker

# Snapshot cache for rollback on failure
echo `=== Creating cache snapshot for rollback ===`
rm -rf /workspace/output/.cache-snapshot
mkdir -p /workspace/output/.cache-snapshot
if [ -d /workspace/output/.oc-mirror ]; then
  cp -al /workspace/output/.oc-mirror /workspace/output/.cache-snapshot/.oc-mirror
fi
if [ -d /workspace/output/.cache ]; then
  cp -al /workspace/output/.cache /workspace/output/.cache-snapshot/.cache
fi
echo `Cache snapshot created (hardlinks, minimal extra space)`

# Force graph-image re-inclusion in every bundle
# Clear cached graph-image so oc-mirror treats it as new content
echo `=== Clearing graph-image from cache to force inclusion in bundle ===`
find /workspace/output -path `*graph-image*` \
  -not -path `*/mirror_*.tar` \
  -not -path `*/parent-archives/*` \
  -exec rm -rf {} + 2>/dev/null || true

oc-mirror \
  --v2 \
  --config=/workspace/config/imageset-config.yaml \
  --authfile=/workspace/pull-secret/.dockerconfigjson \
  --workspace=file:///workspace/output
".

(** The script of mirror-from-intermediate, part 1. *)
Definition mirrorFromIntermediateScript1 : string := bq "
set -e
echo `=== Mirroring FROM intermediate registry TO disk ===`

# Preserve parent tars so oc-mirror doesn't overwrite them
if [ -n `$(params.parent-pipeline)` ]; then
  EXISTING_TARS=$(ls -1 /workspace/output/mirror_*.tar 2>/dev/null || true)
  if [ -n `$EXISTING_TARS` ]; then
    mkdir -p /workspace/output/parent-archives
    echo `Moving parent tars to parent-archives/ before oc-mirror run:`
    for f in /workspace/output/mirror_*.tar; do
      echo `  $(basename $f)`
      mv `$f` /workspace/output/parent-archives/
    done
  fi
fi

touch /workspace/output/.mirror-marker

# Setup temp and cache directories on PVC (not ephemeral storage)
mkdir -p /workspace/output/tmp
mkdir -p /workspace/output/.oc-mirror/.cache
export TMPDIR=/workspace/output/tmp
export HOME=/workspace/output

# Snapshot cache for rollback on failure
echo `=== Creating cache snapshot for rollback ===`
rm -rf /workspace/output/.cache-snapshot
mkdir -p /workspace/output/.cache-snapshot
if [ -d /workspace/output/.oc-mirror ]; then
  cp -al /workspace/output/.oc-mirror /workspace/output/.cache-snapshot/.oc-mirror
fi
if [ -d /workspace/output/.cache ]; then
  cp -al /workspace/output/.cache /workspace/output/.cache-snapshot/.cache
fi
echo `Cache snapshot created (hardlinks, minimal extra space)`

# Force graph-image re-inclusion in every bundle
# Clear cached graph-image so oc-mirror treats it as new content
echo `=== Clearing graph-image from cache to force inclusion in bundle ===`
find /workspace/output -path `*graph-image*` \
  -not -path `*/mirror_*.tar` \
  -not -path `*/parent-archives/*` \
  -exec rm -rf {} + 2>/dev/null || true

# Clear stale registries config from previous steps (e.g. mirror-to-intermediate)
rm -rf /workspace/output/.config/containers/registries.conf.d
rm -f /workspace/output/.config/containers/registries.conf
rm -rf /workspace/output/tmp/containers

# Configure container storage to use workspace instead of /tmp or /var/tmp
# This ensures the localhost:55000 internal registry uses the PVC
mkdir -p /workspace/output/containers
cat > /workspace/output/storage.conf <<STORAGE_EOF
[storage]
  driver = `overlay`
  graphroot = `/workspace/output/containers/storage`
  runroot = `/workspace/output/containers/run`

[storage.options]
  additionalimagestores = []

[storage.options.overlay]
  mountopt = `nodev,metacopy=on`
STORAGE_EOF

export CONTAINERS_STORAGE_CONF=/workspace/output/storage.conf

echo `=== Container storage configured ===`
echo `Storage root: /workspace/output/containers/storage`
echo `Temp directory: $TMPDIR`
echo `Cache directory: $HOME/.oc-mirror/.cache`
df -h /workspace/output

# Generate registries.conf from IDMS/ITMS files created by mirror-to-intermediate
# This ensures we use the ACTUAL paths that oc-mirror created
echo `=== Generating registries.conf from IDMS + ITMS ===`

IDMS_FILE=`/workspace/output/idms-oc-mirror.yaml`

if [ ! -f `$IDMS_FILE` ]; then
  echo `ERROR: IDMS file not found at $IDMS_FILE`
  echo `This file should have been saved by the mirror-to-intermediate step`
  find /workspace/output -name `idms-*.yaml` -type f 2>/dev/null || echo `No IDMS files found`
  exit 1
fi

echo `Found IDMS file: $IDMS_FILE`
echo ``
echo `=== IDMS File Content ===`
cat `$IDMS_FILE`
echo `=== End IDMS Content ===`
echo ``

mkdir -p /workspace/output/tmp/containers

CONF_FILE=`/workspace/output/tmp/containers/registries.conf`
INTERMEDIATE_REGISTRY=`$(params.intermediate-registry)`
INTERMEDIATE_HOST=$(echo `$INTERMEDIATE_REGISTRY` | cut -d/ -f1)

# Write header
echo `# Generated from IDMS/ITMS files created by oc-mirror` > `$CONF_FILE`

# parse_yaml_mirrors: extract source->mirror pairs from IDMS/ITMS YAML
# Handles multi-document YAML and alternating mirror/source pairs
parse_yaml_mirrors() {
  local file=`$1`
  local current_mirror=``
  while IFS= read -r line; do
    case `$line` in
      *`- mirrors:`*)
        current_mirror=``
        ;;
      `    - `*)
        current_mirror=$(echo `$line` | sed 's/^[[:space:]]*- //')
        ;;
      *`source: `*)
        local source=$(echo `$line` | sed 's/^[[:space:]]*source:[[:space:]]*//')
        if [ -n `$current_mirror` ] && [ -n `$source` ]; then
          # Skip self-references to the intermediate registry
          case `$source` in *`$INTERMEDIATE_HOST`*) current_mirror=`` ; continue ;; esac
          echo `$source	$current_mirror`
        fi
        current_mirror=``
        ;;
    esac
  done < `$file`
}

".

(** The script of mirror-from-intermediate, part 2. *)
Definition mirrorFromIntermediateScript2 : string := bq "# Parse IDMS and generate registries.conf entries (deduplicated)
parse_yaml_mirrors `$IDMS_FILE` | awk -F'\t' '!seen[$1]++' | while IFS='	' read -r source mirror; do
  printf '\n[[registry]]\nlocation=`%s`\nblocked = true\n[[registry.mirror]]\nlocation=`%s`\n' `$source` `$mirror` >> `$CONF_FILE`
done

# Parse ITMS if present
ITMS_FILE=`/workspace/output/itms-oc-mirror.yaml`
if [ -f `$ITMS_FILE` ]; then
  echo ``
  echo `=== ITMS File Content ===`
  cat `$ITMS_FILE`
  echo `=== End ITMS Content ===`
  echo ``

  parse_yaml_mirrors `$ITMS_FILE` | awk -F'\t' '!seen[$1]++' | while IFS='	' read -r source mirror; do
    printf '\n[[registry]]\nlocation=`%s`\nblocked = true\n[[registry.mirror]]\nlocation=`%s`\n' `$source` `$mirror` >> `$CONF_FILE`
  done
  echo `Added ITMS-based tag mirrors to registries.conf`
else
  echo `No ITMS file found`
fi

# Block CDN access that Quay might redirect to
printf '\n# Block CDN access\n' >> `$CONF_FILE`
for cdn in cdn01.quay.io cdn02.quay.io cdn03.quay.io; do
  printf '\n[[registry]]\nlocation=`%s`\nblocked = true\n' `$cdn` >> `$CONF_FILE`
done

# Top-level fallback mirrors for upstream registries blocked in /etc/hosts
printf '\n# Top-level fallback mirrors\n' >> `$CONF_FILE`
for upstream in registry.redhat.io registry.access.redhat.com quay.io docker.io registry-1.docker.io; do
  printf '\n[[registry]]\nlocation=`%s`\nblocked = true\n[[registry.mirror]]\nlocation=`%s`\n' `$upstream` `$INTERMEDIATE_REGISTRY` >> `$CONF_FILE`
done
for blocked in gcr.io ghcr.io; do
  printf '\n[[registry]]\nlocation=`%s`\nblocked = true\n' `$blocked` >> `$CONF_FILE`
done

echo `=== Generated registries.conf from IDMS + ITMS ===`
cat /workspace/output/tmp/containers/registries.conf

# Use standard mirror-to-disk workflow with registries.conf redirection
# oc-mirror will pull from intermediate registry instead of internet
export CONTAINERS_REGISTRIES_CONF=/workspace/output/tmp/containers/registries.conf

# Also block network access to common upstream hosts via /etc/hosts
# This provides defense-in-depth if registries.conf is bypassed
cat >> /etc/hosts <<HOSTS_EOF
# Block upstream registries - force use of intermediate registry only
127.0.0.1 registry.redhat.io
127.0.0.1 quay.io
127.0.0.1 registry.access.redhat.com
127.0.0.1 cdn01.quay.io
127.0.0.1 cdn02.quay.io
127.0.0.1 cdn03.quay.io
127.0.0.1 docker.io
127.0.0.1 registry-1.docker.io
127.0.0.1 api.openshift.com
HOSTS_EOF

echo `=== Blocked upstream registries in /etc/hosts ===`
grep -E `(registry.redhat.io|quay.io|cdn.*quay.io)` /etc/hosts

# Verify intermediate registry is accessible before starting mirror
echo ``
echo `=== Verifying intermediate registry access ===`
REGISTRY_HOST=$(echo `$(params.intermediate-registry)` | cut -d'/' -f1)
HTTPS_CODE=$(curl -k -s -o /dev/null -w `%%{http_code}` `https://${REGISTRY_HOST}/v2/` 2>/dev/null || true)
HTTP_CODE=$(curl -k -s -o /dev/null -w `%%{http_code}` `http://${REGISTRY_HOST}/v2/` 2>/dev/null || true)
if [ `$HTTPS_CODE` = `000` ] && [ `$HTTP_CODE` = `000` ]; then
  echo `ERROR: Cannot reach intermediate registry: ${REGISTRY_HOST}`
  echo `Ensure the registry is accessible from this pod and contains mirrored content`
  exit 1
fi
echo `✓ Intermediate registry is accessible (${REGISTRY_HOST})`

# List available repositories (helps debug missing content)
echo ``
echo `=== Checking intermediate registry content ===`
if curl -f -k -s --user `$(cat /workspace/pull-secret/.dockerconfigjson | jq -r '.auths[`'`${REGISTRY_HOST}`'`].auth' | base64 -d)` \
  `https://${REGISTRY_HOST}/v2/_catalog?n=10` 2>/dev/null | jq -r '.repositories[]?' | head -5; then
  echo `✓ Found repositories in intermediate registry`
else
  echo `⚠ Warning: Could not list repositories (may need authentication or different endpoint)`
fi

echo ``
echo `=== Starting mirror from intermediate registry ===`
echo `Source: $(params.intermediate-registry)`
echo `Destination: file:///workspace/output`
echo `Upstream access: BLOCKED (registries.conf + /etc/hosts)`

# Discover OSUS graph URL from the operator-managed UpdateService CR
# oc-mirror v2 uses UPDATE_URL_OVERRIDE to query a local OSUS instance
TOKEN=$(cat /var/run/secrets/kubernetes.io/serviceaccount/token)
API_SERVER=`https://kubernetes.default.svc`
CA_CERT=`/var/run/secrets/kubernetes.io/serviceaccount/ca.crt`

US_API=`$API_SERVER/apis/updateservice.operator.openshift.io/v1/namespaces/openshift-update-service/updateservices/update-service-oc-mirror`

if [ `$(params.osus-enabled)` = `true` ]; then
  echo `=== Waiting for OSUS to be ready ===`
  OSUS_READY=0
  for i in $(seq 1 60); do
    POLICY_URI=$(curl -sf --cacert `$CA_CERT` -H `Authorization: Bearer $TOKEN` \
      `$US_API` 2>/dev/null | jq -r '.status.policyEngineURI // empty' 2>/dev/null)
    if [ -n `$POLICY_URI` ]; then
      export UPDATE_URL_OVERRIDE=`${POLICY_URI}/api/upgrades_info/v1/graph`
      echo `✓ OSUS ready: UPDATE_URL_OVERRIDE=$UPDATE_URL_OVERRIDE`
      OSUS_READY=1
      break
    fi
    echo `  Waiting for OSUS policy engine... (attempt $i/60)`
    sleep 10
  done

  if [ `$OSUS_READY` -eq 0 ]; then
    echo `WARNING: OSUS not ready after 10 minutes - graph: true in ImageSetConfig may fail`
  fi
else
  echo `OSUS disabled; using graph content mirrored by oc-mirror`
fi
echo ``

# Run oc-mirror with verbose output and clear error handling
if ! oc-mirror \
  --v2 \
  --config=/workspace/config/imageset-config.yaml \
  --authfile=/workspace/pull-secret/.dockerconfigjson \
  --cache-dir=/workspace/output/.oc-mirror/.cache \
  file:///workspace/output; then

  echo ``
  echo `=== Mirror from intermediate FAILED ===`
  echo ``
  echo `Common causes:`
  echo `  1. Content not present in intermediate registry ($(params.intermediate-registry))`
  echo `  2. Authentication failed (check pull secret)`
  echo `  3. Network connectivity issues to intermediate registry`
  echo `  4. Intermediate registry is proxying/redirecting to blocked upstream CDNs`
  echo ``
  echo `Check that the intermediate registry has been populated with:`
  echo `  oc-mirror --v2 --config=imageset.yaml docker://$(params.intermediate-registry)/mirror`
  echo ``
  exit 1
fi

echo ``
echo `=== Mirror from intermediate complete ===`
".

Definition mirrorFromIntermediateScript : string := mirrorFromIntermediateScript1 +:+ mirrorFromIntermediateScript2.

(** The script of sign-bundles. *)
Definition signBundlesScript : string := bq "
set -e
echo `=== Initializing TUF root ===`
cosign initialize --mirror=`$(params.tuf-url)` --root=`$(params.tuf-url)/root.json`

echo `=== Signing tar bundles with cosign ===`

export COSIGN_EXPERIMENTAL=1

# Increase cosign HTTP timeout for large file operations (default 30s is too short)
export COSIGN_TIMEOUT=300

fetch_oidc_token() {
  curl -s -X POST `$(params.oidc-issuer)/protocol/openid-connect/token` \
    -d `client_id=$(params.oidc-client-id)` \
    -d `client_secret=$(cat /workspace/oidc-secret/clientSecret)` \
    -d `grant_type=client_credentials` \
    -d `audience=trusted-artifact-signer` | jq -r '.access_token'
}

sign_file() {
  local filepath=`$1`
  local max_retries=3
  local attempt=0
  echo `Signing $filepath ($(du -h `$filepath` | cut -f1))`
  while [ $attempt -lt $max_retries ]; do
    attempt=$((attempt + 1))
    local token=$(fetch_oidc_token)
    if [ -z `$token` ] || [ `$token` = `null` ]; then
      echo `  OIDC token fetch failed (attempt $attempt/$max_retries)`
    elif cosign sign-blob \
      --fulcio-url=$(params.fulcio-url) \
      --rekor-url=$(params.rekor-url) \
      --oidc-issuer=$(params.oidc-issuer) \
      --identity-token=`$token` \
      --yes \
      --timeout=600s \
      --bundle=`${filepath}.bundle` \
      `$filepath` 2>&1 | tee `${filepath}.sig`; then
      echo `  ✓ Signed successfully`
      return 0
    fi
    echo `  Signing attempt $attempt/$max_retries failed, retrying in 10s...`
    sleep 10
  done
  echo `  Failed to sign $filepath after $max_retries attempts`
}

# Sign small files first (fast, validates the signing pipeline works)
for tarfile in $(find /workspace/output -maxdepth 1 -name `*.tar.gz` -type f); do
  sign_file `$tarfile`
done

# Sign large tar files last (these take longest to hash)
for tarfile in $(find /workspace/output -maxdepth 1 -name `*.tar` -type f); do
  sign_file `$tarfile`
done

# Sign bundle SBOM if it exists
if [ -f /workspace/output/sboms/bundle-*.spdx.json ]; then
  for sbomfile in /workspace/output/sboms/bundle-*.spdx.json; do
    echo `Signing bundle SBOM: $(basename $sbomfile)`
    sign_file `$sbomfile`
  done
fi

echo `=== Bundle signing complete ===`
".

(** The script of create-bundle-sbom, part 1. *)
Definition createBundleSbomScript1 : string := bq "
set -e
echo `=== Creating Bundle SBOM (Full Hierarchy) ===`

# === TPA Upload Setup ===
CLIENT_SECRET=$(cat /workspace/tpa-oidc-secret/clientSecret)
TPA_TOKEN=``
TOKEN_TIME=0

refresh_tpa_token() {
  TPA_TOKEN=$(curl -s -X POST `$(params.tpa-oidc-issuer)/protocol/openid-connect/token` \
    -d `client_id=$(params.tpa-oidc-client-id)` \
    -d `client_secret=$CLIENT_SECRET` \
    -d `grant_type=client_credentials` | jq -r '.access_token')
  TOKEN_TIME=$(date +%s)
}

upload_sbom_to_tpa() {
  local sbom_file=`$1`
  local now=$(date +%s)
  if [ $((now - TOKEN_TIME)) -ge 240 ]; then
    echo `  Refreshing TPA OIDC token...`
    refresh_tpa_token
  fi

  # Check if SBOM already exists in TPA by documentNamespace
  local doc_ns
  doc_ns=$(jq -r '.documentNamespace // empty' `$sbom_file` 2>/dev/null)
  if [ -n `$doc_ns` ]; then
    local check_code
    check_code=$(curl -s -o /dev/null -w `%{http_code}` \
      -H `Authorization: Bearer $TPA_TOKEN` \
      `https://$(params.tpa-host)/api/v2/sbom?q=$(printf '%s' `$doc_ns` | jq -sRr @uri)`)
    if [ `$check_code` = `200` ]; then
      local exists
      exists=$(curl -s \
        -H `Authorization: Bearer $TPA_TOKEN` \
        `https://$(params.tpa-host)/api/v2/sbom?q=$(printf '%s' `$doc_ns` | jq -sRr @uri)` | jq '.items | length // 0')
      if [ `$exists` -gt 0 ] 2>/dev/null; then
        echo `  -> Already exists in TPA, skipping upload`
        return 0
      fi
    fi
  fi

  local response
  response=$(curl -s -w `\nHTTP_CODE:%{http_code}` -X POST \
    -H `Authorization: Bearer $TPA_TOKEN` \
    -H `Content-Type: application/json` \
    -d @`$sbom_file` \
    `https://$(params.tpa-host)/api/v2/sbom`)
  local http_code body
  http_code=$(echo `$response` | grep `HTTP_CODE:` | cut -d: -f2)
  body=$(echo `$response` | grep -v `HTTP_CODE:`)
  if [ `$http_code` = `200` ] || [ `$http_code` = `201` ]; then
    echo `  -> Uploaded to TPA`
    return 0
  elif [ `$http_code` = `409` ]; then
    echo `  -> Already exists in TPA (HTTP 409), skipping`
    return 0
  else
    echo `  -> TPA upload failed (HTTP $http_code): $body`
    return 1
  fi
}

".

(** The script of create-bundle-sbom, part 2. *)
Definition createBundleSbomScript2 : string := bq "postprocess_sbom() {
  local sbom_file=`$1`
  local source_name=`$2`
  jq --arg src `$source_name` --arg ts `$(date -u +%Y-%m-%dT%H:%M:%SZ)` '
    .name = $src |
    .documentNamespace = `https://mirror-operator/sboms/\($src)`
  ' `$sbom_file` > `${sbom_file}.tmp` && mv `${sbom_file}.tmp` `$sbom_file`
}

refresh_tpa_token
uploaded_tpa=0

COLLECTION_NAME=`$(params.collection-name)`
mkdir -p /workspace/output/sboms

# === Scan Architect Images ===
echo `--- Scanning Architect Images ---`

if [ -f `/workspace/output/airgap-architect-frontend.tar.gz` ]; then
  echo `Scanning architect frontend image...`
  if syft docker-archive:/workspace/output/airgap-architect-frontend.tar.gz \
       -o spdx-json=/workspace/output/sboms/architect-frontend.spdx.json 2>/dev/null; then
    postprocess_sbom `/workspace/output/sboms/architect-frontend.spdx.json` `$(params.architect-frontend-image)`
    if upload_sbom_to_tpa `/workspace/output/sboms/architect-frontend.spdx.json`; then
      uploaded_tpa=$((uploaded_tpa + 1))
    fi
  else
    echo `  Failed to scan architect frontend`
  fi
else
  echo `  Architect frontend tarball not found, skipping`
fi

if [ -f `/workspace/output/airgap-architect-backend.tar.gz` ]; then
  echo `Scanning architect backend image...`
  if syft docker-archive:/workspace/output/airgap-architect-backend.tar.gz \
       -o spdx-json=/workspace/output/sboms/architect-backend.spdx.json 2>/dev/null; then
    postprocess_sbom `/workspace/output/sboms/architect-backend.spdx.json` `$(params.architect-backend-image)`
    if upload_sbom_to_tpa `/workspace/output/sboms/architect-backend.spdx.json`; then
      uploaded_tpa=$((uploaded_tpa + 1))
    fi
  else
    echo `  Failed to scan architect backend`
  fi
else
  echo `  Architect backend tarball not found, skipping`
fi

# === Scan CLI Tools (conditional) ===
if [ `$(params.cli-tools-enabled)` = `true` ] && [ -d `/workspace/output/cli-tools` ]; then
  echo `--- Scanning CLI Tools ---`

  scan_cli_tool() {
    local tarball=`$1`
    local sbom_name=`$2`
    local display_name=`$3`
    if [ -f `$tarball` ]; then
      echo `Scanning $display_name...`
      if syft file:`$tarball` \
           -o spdx-json=`/workspace/output/sboms/${sbom_name}.spdx.json` 2>/dev/null; then
        postprocess_sbom `/workspace/output/sboms/${sbom_name}.spdx.json` `$display_name`
        if upload_sbom_to_tpa `/workspace/output/sboms/${sbom_name}.spdx.json`; then
          uploaded_tpa=$((uploaded_tpa + 1))
        fi
      else
        echo `  Failed to scan $display_name`
      fi
    else
      echo `  $display_name tarball not found, skipping`
    fi
  }

  scan_cli_tool `/workspace/output/cli-tools/openshift-client-linux.tar.gz` \
    `cli-openshift-client-linux` \
    `openshift-client-linux $(params.oc-version)`

  scan_cli_tool `/workspace/output/cli-tools/openshift-install-linux.tar.gz` \
    `cli-openshift-install-linux` \
    `openshift-install-linux $(params.oc-version)`

  scan_cli_tool `/workspace/output/cli-tools/oc-mirror.tar.gz` \
    `cli-oc-mirror` \
    `oc-mirror $(params.oc-version)`

  scan_cli_tool `/workspace/output/cli-tools/mirror-registry.tar.gz` \
    `cli-mirror-registry` \
    `mirror-registry $(params.mirror-registry-version)`
else
  echo `--- CLI tools scanning skipped (disabled or not present) ---`
fi

echo `Uploaded $uploaded_tpa additional SBOMs to TPA`

".

(** The script of create-bundle-sbom, part 3. *)
Definition createBundleSbomScript3 : string := bq "# === Build Bundle SBOM ===
echo `--- Building Bundle SBOM ---`

BUNDLE_FILE=$(find /workspace/output -maxdepth 1 \( -name `*-complete.tar` -o -name `*-update.tar` \) -type f | head -1)
if [ -z `$BUNDLE_FILE` ]; then
  echo `No bundle file found, skipping bundle SBOM creation`
  exit 0
fi

BUNDLE_FILENAME=$(basename `$BUNDLE_FILE`)
BUNDLE_SHA256=$(sha256sum `$BUNDLE_FILE` | awk '{print $1}')
BUNDLE_PACKAGE_ID=`SPDXRef-Package-Bundle-${COLLECTION_NAME}`
BUNDLE_SBOM=`/workspace/output/sboms/bundle-${COLLECTION_NAME}.spdx.json`

echo `Bundle: $BUNDLE_FILENAME (SHA256: $BUNDLE_SHA256)`

# Collect child packages, external refs, and relationships into temp files to avoid ARG_MAX
TMPDIR_SBOM=$(mktemp -d)
echo '[]' > `$TMPDIR_SBOM/child_packages.json`
echo '[]' > `$TMPDIR_SBOM/ext_refs.json`
echo '[]' > `$TMPDIR_SBOM/contains_rels.json`

for sbom_file in $(find /workspace/output/sboms -name `*.spdx.json` ! -name `bundle-*.spdx.json` -type f | sort); do
  sbom_name=$(basename `$sbom_file` .spdx.json)

  pkg=$(jq -c '.packages[0] // empty' `$sbom_file` 2>/dev/null)
  if [ -n `$pkg` ] && [ `$pkg` != `null` ]; then
    jq --argjson p `$pkg` '. + [$p]' `$TMPDIR_SBOM/child_packages.json` > `$TMPDIR_SBOM/tmp.json` && mv `$TMPDIR_SBOM/tmp.json` `$TMPDIR_SBOM/child_packages.json`
  fi

  sbom_checksum=$(sha256sum `$sbom_file` | awk '{print $1}')
  jq \
    --arg id `DocumentRef-${sbom_name}` \
    --arg uri `https://mirror-operator/sboms/${sbom_name}` \
    --arg sum `$sbom_checksum` \
    '. + [{`externalDocumentId`: $id, `spdxDocument`: $uri, `checksum`: {`algorithm`: `SHA256`, `checksumValue`: $sum}}]' \
    `$TMPDIR_SBOM/ext_refs.json` > `$TMPDIR_SBOM/tmp.json` && mv `$TMPDIR_SBOM/tmp.json` `$TMPDIR_SBOM/ext_refs.json`

  main_pkg_id=$(jq -r '.packages[0].SPDXID // `SPDXRef-Package`' `$sbom_file` 2>/dev/null || echo `SPDXRef-Package`)
  jq \
    --arg bundle `$BUNDLE_PACKAGE_ID` \
    --arg child `$main_pkg_id` \
    '. + [{`spdxElementId`: $bundle, `relationshipType`: `CONTAINS`, `relatedSpdxElement`: $child}]' \
    `$TMPDIR_SBOM/contains_rels.json` > `$TMPDIR_SBOM/tmp.json` && mv `$TMPDIR_SBOM/tmp.json` `$TMPDIR_SBOM/contains_rels.json`
done

CHILD_COUNT=$(jq 'length' `$TMPDIR_SBOM/child_packages.json`)

# Build the complete bundle SBOM using --slurpfile to avoid ARG_MAX
jq -n \
  --arg ns `https://mirror-operator/bundles/${COLLECTION_NAME}/$(date -u +%Y%m%d%H%M%S)` \
  --arg created `$(date -u +%Y-%m-%dT%H:%M:%SZ)` \
  --arg bundleId `$BUNDLE_PACKAGE_ID` \
  --arg bundleName `$BUNDLE_FILENAME` \
  --arg collName `$COLLECTION_NAME` \
  --arg s3Bucket `$(params.s3-bucket)` \
  --arg bundleSha `$BUNDLE_SHA256` \
  --arg childCount `$CHILD_COUNT` \
  --slurpfile childPkgs `$TMPDIR_SBOM/child_packages.json` \
  --slurpfile extRefs `$TMPDIR_SBOM/ext_refs.json` \
  --slurpfile containsRels `$TMPDIR_SBOM/contains_rels.json` \
  '{
    spdxVersion: `SPDX-2.3`,
    dataLicense: `CC0-1.0`,
    SPDXID: `SPDXRef-DOCUMENT`,
    name: `OCI Mirror Bundle`,
    documentNamespace: $ns,
    creationInfo: {
      created: $created,
      creators: [`Tool: mirror-operator-collection-pipeline`],
      licenseListVersion: `3.21`
    },
    packages: ([{
      SPDXID: $bundleId,
      name: $bundleName,
      versionInfo: $collName,
      downloadLocation: (`s3://` + $s3Bucket + `/` + $collName + `/` + $bundleName),
      filesAnalyzed: false,
      checksums: [{algorithm: `SHA256`, checksumValue: $bundleSha}],
      externalRefs: [{
        referenceCategory: `PACKAGE-MANAGER`,
        referenceType: `purl`,
        referenceLocator: (`pkg:oci/mirror-bundle@` + $collName + `?checksum=sha256:` + $bundleSha)
      }],
      primaryPackagePurpose: `CONTAINER`,
      description: (`OCI mirror bundle containing ` + $childCount + ` child components (OCI images, CLI tools, architect images)`)
    }] + $childPkgs[0]),
    externalDocumentRefs: $extRefs[0],
    relationships: ([{
      spdxElementId: `SPDXRef-DOCUMENT`,
      relationshipType: `DESCRIBES`,
      relatedSpdxElement: $bundleId
    }] + $containsRels[0])
  }' > `$BUNDLE_SBOM`

rm -rf `$TMPDIR_SBOM`

echo `=== Bundle SBOM Created ===`
echo `File: bundle-${COLLECTION_NAME}.spdx.json`
jq -r '.packages | length | `Total packages: \(.)`' `$BUNDLE_SBOM`
jq -r '.externalDocumentRefs | length | `External document refs: \(.)`' `$BUNDLE_SBOM`
jq -r '.relationships | map(select(.relationshipType == `CONTAINS`)) | length | `Contains relationships: \(.)`' `$BUNDLE_SBOM`
".

Definition createBundleSbomScript : string := createBundleSbomScript1 +:+ createBundleSbomScript2 +:+ createBundleSbomScript3.

(** The script of upload-sbom. *)
Definition uploadSbomScript : string := bq "
set -e
echo `=== Uploading SBOMs to TPA ===`

CLIENT_SECRET=$(cat /workspace/tpa-oidc-secret/clientSecret)

refresh_token() {
  TPA_TOKEN=$(curl -s -X POST `$(params.tpa-oidc-issuer)/protocol/openid-connect/token` \
    -d `client_id=$(params.tpa-oidc-client-id)` \
    -d `client_secret=$CLIENT_SECRET` \
    -d `grant_type=client_credentials` | jq -r '.access_token')
  TOKEN_TIME=$(date +%s)
}

refresh_token

# Get collection name from working PVC
COLLECTION_NAME=`$(params.collection-name)`

upload_sbom() {
  local sbom_file=`$1`
  # Refresh token if older than 4 minutes (tokens expire at 5 min)
  local now=$(date +%s)
  if [ $((now - TOKEN_TIME)) -ge 240 ]; then
    echo `Refreshing OIDC token...`
    refresh_token
  fi
  curl -s -w `\nHTTP_CODE:%{http_code}` -X POST \
    -H `Authorization: Bearer $TPA_TOKEN` \
    -H `Content-Type: application/json` \
    -d @`$sbom_file` \
    `https://$(params.tpa-host)/api/v2/sbom`
}

# Image SBOMs were already uploaded to TPA during the syft-sbom task
echo `Skipping image SBOM upload (already uploaded during syft-sbom task)`
UPLOAD_COUNT=0

# Upload bundle SBOM last and capture its ID for the result URL
BUNDLE_SBOM_ID=``
for bundle_sbom in /workspace/output/sboms/bundle-*.spdx.json; do
  if [ -f `$bundle_sbom` ]; then
    echo `Uploading bundle SBOM: $(basename $bundle_sbom)`
    RESPONSE=$(upload_sbom `$bundle_sbom`)

    HTTP_CODE=$(echo `$RESPONSE` | grep `HTTP_CODE:` | cut -d: -f2)
    RESPONSE_BODY=$(echo `$RESPONSE` | grep -v `HTTP_CODE:`)

    if [ `$HTTP_CODE` = `200` ] || [ `$HTTP_CODE` = `201` ]; then
      UPLOAD_COUNT=$((UPLOAD_COUNT + 1))
      # Extract bundle SBOM ID from response
      BUNDLE_SBOM_ID=$(echo `$RESPONSE_BODY` | jq -r '.id // empty')
      echo `✓ Successfully uploaded bundle SBOM`
      echo `Bundle SBOM ID: $BUNDLE_SBOM_ID`
    else
      echo `✗ Failed to upload bundle SBOM - HTTP $HTTP_CODE`
      echo `Response: $RESPONSE_BODY`
    fi
  fi
done

echo `=== SBOM upload complete ===`
echo `Uploaded $UPLOAD_COUNT SBOMs to TPA`

# Write SBOM URL result - use bundle SBOM ID if available
if [ -n `$BUNDLE_SBOM_ID` ]; then
  SBOM_URL=`https://$(params.tpa-host)/sboms/${BUNDLE_SBOM_ID}`
  echo -n `$SBOM_URL` > $(results.sbom-url.path)
  echo `Bundle SBOM URL: $SBOM_URL`
else
  # Fallback to search if no bundle ID
  SBOM_URL=`https://$(params.tpa-host)/sboms?q=${COLLECTION_NAME}`
  echo -n `$SBOM_URL` > $(results.sbom-url.path)
  echo `Search URL: $SBOM_URL`
fi
".

(** The script of export-architect-images. *)
Definition exportArchitectImagesScript : string := bq "
set -ex
echo `=== Exporting Airgap Architect images from intermediate registry ===`

rm -f /workspace/output/airgap-architect-frontend.tar.gz
rm -f /workspace/output/airgap-architect-backend.tar.gz

INTERMEDIATE_REGISTRY=`$(params.intermediate-registry)`
AUTHFILE=`/workspace/pull-secret/.dockerconfigjson`

# relatedImages are mirrored by digest under the full namespace path.
# OLM injects digest refs via RELATED_IMAGE_* env vars, but if the operator
# runs outside OLM the defaults use :latest tags which don't exist in
# intermediate. In that case, discover the sha256-* tag from the registry.
strip_ref() {
  local ref=`$1`
  ref=`${ref%%@*}`
  local base=`${ref%/*}`
  local name=`${ref##*/}`
  name=`${name%%:*}`
  echo `${base}/${name}`
}

resolve_intermediate_path() {
  local param=`$1`
  local path=$(echo `$param` | sed 's|^[^/]*/||')
  case `$path` in
    *@sha256:*) echo `$path`; return ;;
  esac
  # Tag ref — check if the tag exists, otherwise find a sha256-* tag
  local repo_path=$(echo `$path` | sed 's|:.*||')
  if ! skopeo inspect --authfile=`$AUTHFILE` `docker://${INTERMEDIATE_REGISTRY}/${path}` >/dev/null 2>&1; then
    local digest_tag=$(skopeo list-tags --authfile=`$AUTHFILE` \
      `docker://${INTERMEDIATE_REGISTRY}/${repo_path}` 2>/dev/null \
      | grep -o '`sha256-[^`]*`' | head -1 | tr -d '`')
    if [ -n `$digest_tag` ]; then
      echo `  Tag not found, using discovered tag: ${digest_tag}` >&2
      echo `${repo_path}:${digest_tag}`
      return
    fi
  fi
  echo `$path`
}

echo `Copying frontend image...`
FRONTEND_PATH=$(resolve_intermediate_path `$(params.architect-frontend-image)`)
FRONTEND_NAME=$(strip_ref `$(params.architect-frontend-image)`)
skopeo copy --authfile=`$AUTHFILE` \
  `docker://${INTERMEDIATE_REGISTRY}/${FRONTEND_PATH}` \
  `docker-archive:/workspace/output/airgap-architect-frontend.tar.gz:${FRONTEND_NAME}:latest`
echo `  ✓ Frontend exported`

echo `Copying backend image...`
BACKEND_PATH=$(resolve_intermediate_path `$(params.architect-backend-image)`)
BACKEND_NAME=$(strip_ref `$(params.architect-backend-image)`)
skopeo copy --authfile=`$AUTHFILE` \
  `docker://${INTERMEDIATE_REGISTRY}/${BACKEND_PATH}` \
  `docker-archive:/workspace/output/airgap-architect-backend.tar.gz:${BACKEND_NAME}:latest`
echo `  ✓ Backend exported`

echo `Images exported successfully:`
ls -lh /workspace/output/airgap-architect-*.tar.gz
".

(** The script of download-cli-tools. *)
Definition downloadCliToolsScript : string := bq "
set -ex
echo `=== Downloading OpenShift CLI tools for airgapped bundle ===`

# Create CLI tools directory
CLI_DIR=`/workspace/output/cli-tools`
mkdir -p `$CLI_DIR`

# Determine versions (default to latest stable if not specified)
OC_VERSION=`$(params.oc-version)`
MIRROR_REGISTRY_VERSION=`$(params.mirror-registry-version)`

# Base URL for OpenShift clients
MIRROR_BASE=`https://mirror.openshift.com/pub/openshift-v4/clients`

echo `Downloading oc CLI (version: $OC_VERSION)...`
curl -L `${MIRROR_BASE}/ocp/${OC_VERSION}/openshift-client-linux.tar.gz` \
  -o `$CLI_DIR/openshift-client-linux.tar.gz`

echo `Downloading openshift-install (version: $OC_VERSION, RHEL9/FIPS)...`
if ! curl -f -L `${MIRROR_BASE}/ocp/${OC_VERSION}/openshift-install-rhel9-amd64.tar.gz` \
  -o `$CLI_DIR/openshift-install-linux.tar.gz` 2>/dev/null; then
  echo `RHEL9 installer archive unavailable; trying legacy filename...`
  curl -f -L `${MIRROR_BASE}/ocp/${OC_VERSION}/openshift-install-linux.tar.gz` \
    -o `$CLI_DIR/openshift-install-linux.tar.gz`
fi

echo `Downloading oc-mirror standalone binary (RHEL9/FIPS)...`
OC_MIRROR_URL=`${MIRROR_BASE}/ocp/${OC_VERSION}/oc-mirror.rhel9.tar.gz`
if ! curl -f -L `$OC_MIRROR_URL` -o `$CLI_DIR/oc-mirror.tar.gz` 2>/dev/null; then
  echo `Version-specific oc-mirror archive unavailable; using current stable RHEL9 build...`
  curl -f -L `${MIRROR_BASE}/ocp/stable/oc-mirror.rhel9.tar.gz` \
    -o `$CLI_DIR/oc-mirror.tar.gz`
fi

echo `Downloading mirror-registry installer...`
# mirror-registry is in the cgw path with architecture-specific naming
if [ `$MIRROR_REGISTRY_VERSION` = `latest` ]; then
  REGISTRY_URL=`https://mirror.openshift.com/pub/cgw/mirror-registry/latest/mirror-registry-amd64.tar.gz`
else
  REGISTRY_URL=`https://mirror.openshift.com/pub/cgw/mirror-registry/${MIRROR_REGISTRY_VERSION}/mirror-registry-amd64.tar.gz`
fi

curl -f -L `$REGISTRY_URL` -o `$CLI_DIR/mirror-registry.tar.gz`

echo `Verifying downloads...`
ls -lh `$CLI_DIR`
du -sh `$CLI_DIR`

# Validate downloaded files are not error pages (check file size)
for file in `$CLI_DIR`/*.tar.gz; do
  if [ -f `$file` ]; then
    size=$(stat -f%z `$file` 2>/dev/null || stat -c%s `$file` 2>/dev/null)
    if [ `$size` -lt 1000 ]; then
      echo `WARNING: $(basename $file) is suspiciously small ($size bytes) - likely a download error`
      echo `Contents:`
      head -5 `$file`
      rm -f `$file`
    fi
  fi
done

echo `Valid downloads:`
ls -lh `$CLI_DIR`

# Fail the task if critical tools are missing
MISSING_TOOLS=``
for tool in openshift-client-linux.tar.gz openshift-install-linux.tar.gz oc-mirror.tar.gz mirror-registry.tar.gz; do
  if [ ! -f `$CLI_DIR/$tool` ]; then
    MISSING_TOOLS=`$MISSING_TOOLS $tool`
  fi
done

if [ -n `$MISSING_TOOLS` ]; then
  echo ``
  echo `ERROR: Critical CLI tools failed to download:$MISSING_TOOLS`
  echo `Please check the download URLs or network connectivity`
  exit 1
fi

echo ``
echo `✓ All CLI tools downloaded successfully`

# Create versions manifest for documentation
cat > `$CLI_DIR/VERSIONS.txt` <<EOF
OpenShift CLI Tools Bundle
Generated: $(date -u +`%Y-%m-%d %H:%M:%S UTC`)

Included Tools:
- oc: $OC_VERSION
- openshift-install: $OC_VERSION
- oc-mirror: dev-preview
- mirror-registry: $MIRROR_REGISTRY_VERSION

Usage:
  Extract all tarballs to get the binaries:
  tar -xzf openshift-client-linux.tar.gz
  tar -xzf openshift-install-linux.tar.gz
  tar -xzf oc-mirror.tar.gz
  tar -xzf mirror-registry.tar.gz

Mirror Registry Installation:
  ./mirror-registry install --quayHostname <hostname>
EOF

echo `=== CLI tools download complete ===`
cat `$CLI_DIR/VERSIONS.txt`
".

(** The script of copy-import-script. *)
Definition copyImportScriptScript : string := bq "
set -ex
echo `=== Copying Airgap Architect import script to bundle ===`
cp /workspace/architect-script/import-airgap-architect.sh /workspace/output/import-airgap-architect.sh
chmod +x /workspace/output/import-airgap-architect.sh
ls -lh /workspace/output/import-airgap-architect.sh
".

(** The script of repackage-bundle, part 1. *)
Definition repackageBundleScript1 : string := bq "
set -ex
echo `=== Creating bundle with Airgap Architect artifacts ===`

cd /workspace/output

# Copy ImageSetConfiguration from config workspace to output
if [ -f `/workspace/config/imageset-config.yaml` ]; then
  echo `Copying ImageSetConfiguration to bundle...`
  cp /workspace/config/imageset-config.yaml .
fi

COLLECTION_NAME=`$(params.collection-name)`
PARENT_PIPELINE=`$(params.parent-pipeline)`

# Collect mirror tar files — parent tars were moved to parent-archives/ before oc-mirror,
# so only new delta tars remain in the output root for update collections
MIRROR_TARS=$(ls -1 mirror_*.tar 2>/dev/null || echo ``)

if [ -z `$MIRROR_TARS` ]; then
  echo `WARNING: No oc-mirror .tar bundle found`
fi

if [ -n `$PARENT_PIPELINE` ]; then
  # Update/child collection: lightweight bundle with only delta content
  FINAL_BUNDLE_NAME=`${COLLECTION_NAME}-update.tar`
  echo `=== Creating lightweight update bundle ===`

  SMALL_CONTENTS=``
  if [ -f `imageset-config.yaml` ]; then
    SMALL_CONTENTS=`$SMALL_CONTENTS imageset-config.yaml`
  fi
  if [ -f `idms-oc-mirror.yaml` ]; then
    SMALL_CONTENTS=`$SMALL_CONTENTS idms-oc-mirror.yaml`
  fi
  if [ -f `itms-oc-mirror.yaml` ]; then
    SMALL_CONTENTS=`$SMALL_CONTENTS itms-oc-mirror.yaml`
  fi

  if [ -n `$SMALL_CONTENTS` ]; then
    tar -b 2048 -cf `$FINAL_BUNDLE_NAME` $SMALL_CONTENTS
  fi

  if [ -n `$MIRROR_TARS` ]; then
    echo `=== Appending mirror archives ($(du -sh $MIRROR_TARS | cut -f1)) ===`
    if [ -f `$FINAL_BUNDLE_NAME` ]; then
      tar -b 2048 -rf `$FINAL_BUNDLE_NAME` --transform='s,^,archives/,' $MIRROR_TARS
    else
      tar -b 2048 -cf `$FINAL_BUNDLE_NAME` --transform='s,^,archives/,' $MIRROR_TARS
    fi
  fi
else
  # Root collection: full standalone bundle
  FINAL_BUNDLE_NAME=`${COLLECTION_NAME}-complete.tar`
  echo `=== Creating full bundle ===`

  SMALL_CONTENTS=``

  for artifact in airgap-architect-frontend.tar.gz airgap-architect-backend.tar.gz import-airgap-architect.sh; do
    if [ -f `$artifact` ]; then
      SMALL_CONTENTS=`$SMALL_CONTENTS $artifact`
    fi
  done

  if [ -f `imageset-config.yaml` ]; then
    echo `Including ImageSetConfiguration in bundle`
    SMALL_CONTENTS=`$SMALL_CONTENTS imageset-config.yaml`
  fi

  if [ -f `idms-oc-mirror.yaml` ]; then
    SMALL_CONTENTS=`$SMALL_CONTENTS idms-oc-mirror.yaml`
  fi
  if [ -f `itms-oc-mirror.yaml` ]; then
    SMALL_CONTENTS=`$SMALL_CONTENTS itms-oc-mirror.yaml`
  fi

  if [ -d `cli-tools` ] && [ `$(params.cli-tools-enabled)` = `true` ]; then
    echo `Including CLI tools in bundle`
    SMALL_CONTENTS=`$SMALL_CONTENTS cli-tools`
  fi

  # Include SBOM if available (generated by create-bundle-sbom task)
  BUNDLE_SBOM=$(ls -1 /workspace/output/sboms/bundle-*.spdx.json 2>/dev/null | head -1)
  if [ -n `$BUNDLE_SBOM` ]; then
    echo `Including SBOM in bundle`
    cp `$BUNDLE_SBOM` sbom.spdx.json
    SMALL_CONTENTS=`$SMALL_CONTENTS sbom.spdx.json`
  fi

".

(** The script of repackage-bundle, part 2. *)
Definition repackageBundleScript2 : string := bq "  # Generate README with usage instructions
  cat > README.md <<'READMEEOF'
# Airgap Complete Bundle

## Contents

- archives/         Mirrored OpenShift container images (oc-mirror output)
- airgap-architect-*.tar.gz          Standalone Architect UI images
- import-airgap-architect.sh         Bootstrap script for the Architect UI
- imageset-config.yaml               ImageSetConfiguration used for this collection
- sbom.spdx.json                     SPDX SBOM covering all bundled content (if available)
- idms-oc-mirror.yaml / itms-oc-mirror.yaml   ImageDigestMirrorSet / ImageTagMirrorSet
- cli-tools/                         OpenShift CLI tools (if included)

## IMPORTANT: Extraction Location

**You must extract this bundle to the correct directory before use.**

On systems with SELinux or fapolicyd enabled (RHEL, STIG-hardened systems),
binaries and scripts must reside in a trusted path to be executable.
Extract to /opt/bundle (or the path configured in your DisconnectedPlatform
importPath field) rather than your home directory or a temporary location:

     sudo mkdir -p /opt/bundle
     sudo tar -xf <bundle>.tar -C /opt/bundle
     cd /opt/bundle

If you extract to a different directory, fapolicyd may block execution of
the bundled scripts and CLI tools, and oc-mirror may fail due to SELinux
context denials.

## Quick Start

1. Verify the bundle (if cosign is available):

     cosign verify-blob --bundle <bundle>.tar.bundle <bundle>.tar

2. Extract the bundle to /opt/bundle (see IMPORTANT section above):

     sudo mkdir -p /opt/bundle
     sudo tar -xf <bundle>.tar -C /opt/bundle
     cd /opt/bundle

3. Run the import script with no arguments to be guided through the available
   options:

     ./import-airgap-architect.sh

4. Open a browser to http://localhost:5173 to access the Architect UI.

5. Use the UI to configure and bootstrap your disconnected OpenShift cluster
   using the mirrored content in the archives/ directory.

## Stopping the UI

     ./import-airgap-architect.sh stop

## Additional Commands

Run `./import-airgap-architect.sh --help` for all available commands including
mirror-registry installation and oc-mirror operations.
READMEEOF
  SMALL_CONTENTS=`$SMALL_CONTENTS README.md`

  tar -b 2048 -cf `$FINAL_BUNDLE_NAME` $SMALL_CONTENTS

  if [ -n `$MIRROR_TARS` ]; then
    echo `=== Appending mirror archives ($(du -sh $MIRROR_TARS | cut -f1)) ===`
    tar -b 2048 -rf `$FINAL_BUNDLE_NAME` --transform='s,^,archives/,' $MIRROR_TARS
  fi
fi

echo `Bundle contents:`
tar tf `$FINAL_BUNDLE_NAME` | head -20
echo `...`

echo `Final bundle created: $FINAL_BUNDLE_NAME`
ls -lh `$FINAL_BUNDLE_NAME`

# Clean up parent archives after repackaging
rm -rf /workspace/output/parent-archives

echo `=== Bundle creation complete ===`
".

Definition repackageBundleScript : string := repackageBundleScript1 +:+ repackageBundleScript2.

(** The script of upload-to-s3. *)
Definition uploadToS3Script : string := bq "
set -ex
echo `Uploading artifacts to S3...`

# Tune S3 multipart upload — use smaller chunks and fewer concurrent
# requests to avoid overwhelming the NooBaa endpoint on large bundles
aws configure set default.s3.multipart_chunksize 128MB
aws configure set default.s3.multipart_threshold 128MB
aws configure set default.s3.max_concurrent_requests 5

S3_TIMEOUT_ARGS=`--cli-read-timeout 600 --cli-connect-timeout 30`

upload_with_retry() {
  local src=`$1`
  shift
  local max_attempts=3
  local attempt=1
  while [ $attempt -le $max_attempts ]; do
    echo `Upload attempt $attempt/$max_attempts: $(basename `$src`)`
    if aws s3 cp `$src` `$@` $S3_TIMEOUT_ARGS; then
      return 0
    fi
    echo `Attempt $attempt failed, retrying in 10s...`
    sleep 10
    attempt=$((attempt + 1))
  done
  echo `ERROR: Upload failed after $max_attempts attempts: $(basename `$src`)`
  return 1
}

# Collection name from working-pvc-name (format: collection-storage-<name>)
COLLECTION_NAME=`$(params.collection-name)`

# Upload only the final bundle and its signature/attestation
BUNDLE_FILE=``
SIG_FILE=``

# Determine bundle filename based on whether this is an update or root collection
if [ -n `$(params.parent-pipeline)` ]; then
  BUNDLE_FILENAME=`${COLLECTION_NAME}-update.tar`
else
  BUNDLE_FILENAME=`${COLLECTION_NAME}-complete.tar`
fi
FINAL_BUNDLE=`/workspace/output/${BUNDLE_FILENAME}`

if [ -f `$FINAL_BUNDLE` ]; then
  echo `Uploading final bundle: $BUNDLE_FILENAME to s3://$(params.s3-bucket)/$COLLECTION_NAME/`
  upload_with_retry `$FINAL_BUNDLE` `s3://$(params.s3-bucket)/$COLLECTION_NAME/$BUNDLE_FILENAME` \
    --endpoint-url=`$(params.s3-endpoint)` \
    --region=`$(params.s3-region)` \
    --content-type=`application/x-tar`
  BUNDLE_FILE=`$BUNDLE_FILENAME`

  # Upload signature if it exists
  if [ -f `${FINAL_BUNDLE}.sig` ]; then
    echo `Uploading bundle signature...`
    upload_with_retry `${FINAL_BUNDLE}.sig` `s3://$(params.s3-bucket)/$COLLECTION_NAME/${BUNDLE_FILENAME}.sig` \
      --endpoint-url=`$(params.s3-endpoint)` \
      --region=`$(params.s3-region)`
    SIG_FILE=`${BUNDLE_FILENAME}.sig`
  fi

  # Upload attestation bundle if it exists
  if [ -f `${FINAL_BUNDLE}.bundle` ]; then
    echo `Uploading bundle attestation...`
    upload_with_retry `${FINAL_BUNDLE}.bundle` `s3://$(params.s3-bucket)/$COLLECTION_NAME/${BUNDLE_FILENAME}.bundle` \
      --endpoint-url=`$(params.s3-endpoint)` \
      --region=`$(params.s3-region)`
  fi
else
  echo `ERROR: Final bundle not found at $FINAL_BUNDLE`
  ls -lh /workspace/output/
  exit 1
fi

# Upload bundle SBOM and its signature if they exist
if [ -f /workspace/output/sboms/bundle-*.spdx.json ]; then
  for sbomfile in /workspace/output/sboms/bundle-*.spdx.json; do
    FILENAME=$(basename `$sbomfile`)
    echo `Uploading bundle SBOM: $FILENAME to s3://$(params.s3-bucket)/$COLLECTION_NAME/`
    upload_with_retry `$sbomfile` `s3://$(params.s3-bucket)/$COLLECTION_NAME/$FILENAME` \
      --endpoint-url=`$(params.s3-endpoint)` \
      --region=`$(params.s3-region)`

    # Upload signature if it exists
    if [ -f `${sbomfile}.sig` ]; then
      upload_with_retry `${sbomfile}.sig` `s3://$(params.s3-bucket)/$COLLECTION_NAME/${FILENAME}.sig` \
        --endpoint-url=`$(params.s3-endpoint)` \
        --region=`$(params.s3-region)`
    fi

    # Upload bundle if it exists
    if [ -f `${sbomfile}.bundle` ]; then
      upload_with_retry `${sbomfile}.bundle` `s3://$(params.s3-bucket)/$COLLECTION_NAME/${FILENAME}.bundle` \
        --endpoint-url=`$(params.s3-endpoint)` \
        --region=`$(params.s3-region)`
    fi
  done
fi

echo `=== Upload complete ===`
aws s3 ls `s3://$(params.s3-bucket)/$COLLECTION_NAME/` --endpoint-url=`$(params.s3-endpoint)` --region=`$(params.s3-region)`

# Write result URLs
# Construct S3 URL based on endpoint
S3_BASE_URL=`$(params.s3-endpoint)`
if [ -n `$BUNDLE_FILE` ]; then
  BUNDLE_URL=`${S3_BASE_URL}/$(params.s3-bucket)/${COLLECTION_NAME}/${BUNDLE_FILE}`
  echo -n `$BUNDLE_URL` > $(results.bundle-url.path)
  echo `Bundle URL: $BUNDLE_URL`
fi

if [ -n `$SIG_FILE` ]; then
  SIG_URL=`${S3_BASE_URL}/$(params.s3-bucket)/${COLLECTION_NAME}/${SIG_FILE}`
  echo -n `$SIG_URL` > $(results.signature-url.path)
  echo `Signature URL: $SIG_URL`
fi
".

(** The script of cleanup-workspace. *)
Definition cleanupWorkspaceScript : string := bq "
set -x
echo `=== Pipeline finally cleanup ===`
echo `Pipeline status: $(tasks.status)`
df -h /workspace/output

echo `=== Cleaning up old bundle tars ===`
rm -f /workspace/output/collection-*.tar
rm -f /workspace/output/collection-*.tar.sig
rm -f /workspace/output/collection-*.tar.bundle

echo `=== Removing intermediate working artifacts ===`
rm -rf /workspace/output/working-dir
rm -rf /workspace/output/tmp
rm -rf /workspace/output/containers
rm -rf /workspace/output/sboms
rm -rf /workspace/output/sbom-cache
rm -rf /workspace/output/syft-cache

if [ `$(tasks.status)` != `Succeeded` ]; then
  echo `=== Pipeline failed — restoring cache snapshot ===`
  if [ -d /workspace/output/.cache-snapshot ]; then
    rm -rf /workspace/output/.oc-mirror
    rm -rf /workspace/output/.cache
    mv /workspace/output/.cache-snapshot/.oc-mirror /workspace/output/.oc-mirror 2>/dev/null || true
    mv /workspace/output/.cache-snapshot/.cache /workspace/output/.cache 2>/dev/null || true
    rm -rf /workspace/output/.cache-snapshot
    echo `Cache restored from snapshot`
  fi
else
  echo `=== Pipeline succeeded — removing cache snapshot ===`
  rm -rf /workspace/output/.cache-snapshot
fi

echo `=== Cleanup complete ===`
df -h /workspace/output
".

(** ** The import pipeline *)

(** The script of verify-bundle. *)
Definition verifyBundleScript : string := bq "
set -ex
BUNDLE_FILE=`$(params.bundle-filename)`
bn=$(basename `$BUNDLE_FILE` .tar)

echo `=== Verifying bundle signature ===`
cosign verify-blob \
  --key /workspace/cosign-pub/cosign.pub \
  --signature `/workspace/bundle-data/${bn}.sig` \
  `/workspace/bundle-data/${BUNDLE_FILE}`

echo `=== Verifying attestation signature ===`
cosign verify-blob \
  --key /workspace/cosign-pub/cosign.pub \
  --signature /workspace/bundle-data/attestation.json.sig \
  /workspace/bundle-data/attestation.json

echo `=== Verifying attestation hashes ===`
abh=$(jq -r '.bundle.sha256' /workspace/bundle-data/attestation.json)
ash=$(jq -r '.sbom.sha256' /workspace/bundle-data/attestation.json)
cbh=$(sha256sum `/workspace/bundle-data/${BUNDLE_FILE}` | cut -d` ` -f1)

if [ `$cbh` != `$abh` ]; then
  echo `ERROR: Bundle hash mismatch: expected $abh, got $cbh`
  exit 1
fi
echo `Bundle hash verified: $cbh`

if [ -f /workspace/bundle-data/sbom.cyclonedx.json ]; then
  csh=$(sha256sum /workspace/bundle-data/sbom.cyclonedx.json | cut -d` ` -f1)
  if [ `$csh` != `$ash` ]; then
    echo `ERROR: SBOM hash mismatch: expected $ash, got $csh`
    exit 1
  fi
  echo `SBOM hash verified: $csh`
fi

echo `=== All verifications passed ===`
".

(** The script of extract-bundle. *)
Definition extractBundleScript : string := bq "
set -ex
BUNDLE_FILE=`$(params.bundle-filename)`
echo `=== Extracting bundle: ${BUNDLE_FILE} ===`
tar -xvf `/workspace/bundle-data/${BUNDLE_FILE}` -C /workspace/bundle-data
echo `=== Extraction complete ===`
echo `Contents:`
ls -lh /workspace/bundle-data/
".

(** The script of mirror-content. *)
Definition mirrorContentScript : string := bq "
set -ex
mkdir -p $HOME/.docker
cp /workspace/pull-secret/.dockerconfigjson $HOME/.docker/config.json
echo `=== Mirroring content to $(params.target-registry) ===`
oc-mirror \
  --config /workspace/config/imageset-config.yaml \
  --from file:///workspace/bundle-data/archives \
  docker://$(params.target-registry) \
  --v2
echo `=== Mirror complete ===`
".

(** The script of mirror-to-nodes. *)
Definition mirrorToNodesScript : string := bq "
set -ex
mkdir -p $HOME/.docker
cp /workspace/pull-secret/.dockerconfigjson $HOME/.docker/config.json

NODE_REGISTRIES=`$(params.node-registries)`
echo `=== Mirroring content to node registries: ${NODE_REGISTRIES} ===`

FAILED=0
for registry in ${NODE_REGISTRIES}; do
    echo `--- Mirroring to ${registry} ---`
    if oc-mirror \
        --config /workspace/config/imageset-config.yaml \
        --from file:///workspace/bundle-data/archives \
        docker://${registry} \
        --dest-skip-tls \
        --v2; then
        echo `--- Mirror to ${registry} complete ---`
    else
        echo `WARNING: Mirror to ${registry} failed`
        FAILED=$((FAILED + 1))
    fi
done

if [ $FAILED -gt 0 ]; then
    echo `ERROR: ${FAILED} node registry mirrors failed`
    exit 1
fi

echo `=== All node registry mirrors complete ===`
".

(** The script of apply-manifests. *)
Definition applyManifestsScript : string := bq "
set -ex
echo `=== Applying cluster manifests ===`
MANIFEST_DIR=$(find /workspace/bundle-data -path `*/cluster-resources` -type d 2>/dev/null | head -1)

if [ -z `$MANIFEST_DIR` ]; then
  echo `WARNING: No cluster-resources directory found, skipping manifest apply`
  exit 0
fi

echo `Found manifests in: $MANIFEST_DIR`

for f in `$MANIFEST_DIR`/idms-*.yaml; do
  if [ -f `$f` ]; then
    oc apply -f `$f` && echo `Applied IDMS: $(basename $f)`
  fi
done

for f in `$MANIFEST_DIR`/itms-*.yaml; do
  if [ -f `$f` ]; then
    oc apply -f `$f` && echo `Applied ITMS: $(basename $f)`
  fi
done

for f in `$MANIFEST_DIR`/cs-*.yaml; do
  if [ -f `$f` ]; then
    oc apply -f `$f` && echo `Applied CatalogSource: $(basename $f)`
  fi
done

echo `=== Cluster manifests applied ===`
".

(** The script of cleanup-workspace. *)
Definition cleanupImportScript : string := bq "
set -ex
echo `=== Cleaning up extracted content ===`
rm -rf /workspace/bundle-data/archives /workspace/bundle-data/imageset-config.yaml /workspace/bundle-data/idms-oc-mirror.yaml /workspace/bundle-data/itms-oc-mirror.yaml
echo `Workspace cleaned`
".
