(* ===== verification/PullSecrets.v ===== *)
(** The registry credentials of the platform ([disconnectedplatform_controller.go]): the pull
    secrets it copies and merges, the robot account it gets from Quay by running a script in
    the Quay pod, and the secrets it generates. *)
From S2P Require Import Prelude GoStrings Sha256 Base64 K8s Api Kube Externals Helpers Platform.
From S2P Require Import PipelineScripts CABundles.

Definition pullSecretKey : string := ".dockerconfigjson".
Definition defaultPullSecretName : string := "pull-secret".
Definition defaultPullSecretNS : string := "openshift-config".
Definition routeGVK : GroupVersionKind := mkGVK "route.openshift.io" "v1" "Route".
Definition quayKey : NamespacedName := mkNN architectNamespace "mirror-operator-quay".

(** The script that looks the token of the robot up. *)
Definition queryRobotScript (orgName robotShortName : string) : string :=
  bq "
import sys
from app import app
from data import model
from data.database import configure

# Initialize database
configure(app.config)

org_name = `" +:+ orgName +:+ bq "`
robot_short_name = `" +:+ robotShortName +:+ bq "`
robot_full_name = org_name + `+` + robot_short_name

try:
    # Look up the robot account
    robot = model.user.lookup_robot(robot_full_name)
    if not robot:
        print(f`Robot {robot_full_name} not found`, file=sys.stderr)
        sys.exit(1)

    # Retrieve the robot's token
    robot_token = model.user.retrieve_robot_token(robot)
    if not robot_token:
        print(f`Robot {robot_full_name} has no token`, file=sys.stderr)
        sys.exit(1)

    print(robot_token)

except Exception as e:
    print(f`Error querying robot token: {e}`, file=sys.stderr)
    import traceback
    traceback.print_exc(file=sys.stderr)
    sys.exit(1)
".

(** The script that creates the robot, or looks it up. *)
Definition ensureRobotScript (orgName robotShortName : string) : string :=
  bq "
import os
import sys
from app import app
from data import model
from data.database import configure

# Initialize database
configure(app.config)

org_name = `" +:+ orgName +:+ bq "`
robot_short_name = `" +:+ robotShortName +:+ bq "`
robot_full_name = org_name + `+` + robot_short_name

try:
    # Ensure initialization user exists
    init_username = `mirroroperator-init`
    init_email = `mirroroperator@example.com`
    try:
        init_user = model.user.get_user(init_username)
        print(f`Init user {init_username} already exists`, file=sys.stderr)
    except:
        print(f`Creating init user {init_username}`, file=sys.stderr)
        # Create initialization user (will be the org owner)
        init_user = model.user.create_user(init_username, init_email, ``, auto_verify=True)
        init_user.verified = True
        init_user.save()
        print(f`Init user {init_username} created and verified`, file=sys.stderr)

    # Get or create organization
    try:
        org = model.organization.get_organization(org_name)
        print(f`Organization {org_name} already exists`, file=sys.stderr)
    except:
        print(f`Organization {org_name} not found, creating it`, file=sys.stderr)
        # Create organization directly in database to avoid team member constraint issues
        from data.database import User
        org = User.create(username=org_name, email=init_email, verified=True, organization=True)
        print(f`Organization {org_name} created`, file=sys.stderr)

        # Create owners team for the organization
        try:
            owners_team = model.team.create_team(`owners`, org, `admin`, `Owners of the organization`)
            print(f`Created owners team for organization`, file=sys.stderr)
        except Exception as e:
            print(f`Warning: Could not create owners team: {e}`, file=sys.stderr)

    # Check if robot already exists
    try:
        existing_robot = model.user.lookup_robot(robot_full_name)
        print(f`Robot {robot_full_name} already exists`, file=sys.stderr)
        # Get the robot's token
        robot_token = model.user.retrieve_robot_token(existing_robot)

        # Ensure robot is in owners team (may have been missed on initial creation)
        try:
            owners_team = model.team.get_organization_team(org_name, `owners`)
            from data.database import TeamMember
            TeamMember.get_or_create(user=existing_robot, team=owners_team)
            print(f`Ensured robot is in owners team`, file=sys.stderr)
        except Exception as e:
            print(f`Warning: Could not verify robot owners team membership: {e}`, file=sys.stderr)

        print(robot_token)
    except:
        print(f`Creating robot {robot_full_name}`, file=sys.stderr)
        # Create robot account - returns (robot, token) tuple
        robot_result = model.user.create_robot(robot_short_name, org, `Mirror operator robot account`)
        # Extract robot and token from tuple
        if isinstance(robot_result, tuple):
            robot, robot_token = robot_result
        else:
            robot = robot_result
            robot_token = model.user.retrieve_robot_token(robot)

        # Grant robot admin access to organization - two step process
        try:
            owners_team = model.team.get_organization_team(org_name, `owners`)

            # Step 1: Create team member entry
            from data.database import TeamMember
            team_member = TeamMember.create(user=robot, team=owners_team)
            print(f`Created team member entry for robot`, file=sys.stderr)

            # Step 2: Set role to admin
            from data.database import TeamRole
            team_member.role = TeamRole.admin
            team_member.save()
            print(f`Set robot role to admin in owners team`, file=sys.stderr)
        except Exception as e:
            print(f`Warning: Could not add robot to owners team: {e}`, file=sys.stderr)

        print(robot_token)

except Exception as e:
    print(f`Error: {e}`, file=sys.stderr)
    import traceback
    traceback.print_exc(file=sys.stderr)
    sys.exit(1)
".

(** ** Running a script in the Quay pod *)

Section PullSecrets.
Context {X : Externals}.

(** The standard output and error of a command, or why it did not run. *)
Definition execCommandInPod (r : DisconnectedPlatformReconciler) (ns podName containerName : string)
    (command : list string) (stdin : option string) : prog (string * string * option error) :=
  if negb (dpr_ClientSet r) || negb (dpr_RESTConfig r) then
    mret ("", "", Some (Errorf "ClientSet or RESTConfig not initialized"))
  else
    x ← Call (CExecInPod ns podName containerName command stdin) Ret;
    mret (match ex_NoExecutor x with
          | Some e => ("", "", Some (Wrapf "failed to create executor" e))
          | None => (ex_Stdout x, ex_Stderr x,
                     option_map (Wrapf "failed to execute command") (ex_StreamError x))
          end).

(** The last line of the output of a script, without surrounding white space. *)
Definition lastLine (out : string) : string :=
  TrimSpace (List.last (Split (TrimSpace out) newline) "").

Definition execInQuayPod (r : DisconnectedPlatformReconciler) (ns pythonScript : string)
  : prog (result string) :=
  l ← List_ KPod (Some ns) [("quay-component", "quay-app")];
  match l with
  | Err e => mret (Err (Wrapf "failed to list Quay pods" e))
  | Ok [] => mret (Err (Errorf "no Quay pods found"))
  | Ok (pod :: _) =>
      let podName := om_Name (pod_Meta pod) in
      let containerName := default "" (head (pod_Containers pod)) in
      if containerName == "" then mret (Err (Errorf ("no containers found in pod " +:+ podName)))
      else
        w ← execCommandInPod r ns podName containerName ["sh"; "-c"; "cat > /tmp/bootstrap.py"]
              (Some pythonScript);
        match snd w with
        | Some e => mret (Err (Wrapf "failed to copy script to pod" e))
        | None =>
            x ← execCommandInPod r ns podName containerName ["python"; "/tmp/bootstrap.py"] None;
            let '(stdout, stderr, err) := x in
            mret (match (err : option error) with
                  | Some e => Err (mkError (e_Reason e) ("failed to execute script: " +:+ e_Msg e +:+
                                     " (stderr: " +:+ stderr +:+ ")"))
                  | None => Ok (lastLine stdout)
                  end)
        end
  end.

Definition queryQuayRobotToken (r : DisconnectedPlatformReconciler) (orgName robotShortName : string)
  : prog (result string) :=
  o ← execInQuayPod r architectNamespace (queryRobotScript orgName robotShortName);
  mret (match o with
        | Err e => Err (Wrapf "failed to execute token query script" e)
        | Ok output =>
            let token := TrimSpace output in
            if token == "" then Err (Errorf "token query script returned empty token") else Ok token
        end).

Definition ensureQuayRobotViaPython (r : DisconnectedPlatformReconciler) (orgName robotShortName : string)
  : prog (result string) :=
  o ← execInQuayPod r architectNamespace (ensureRobotScript orgName robotShortName);
  mret (match o with
        | Err e => Err (Wrapf "failed to execute robot creation script" e)
        | Ok output =>
            let token := TrimSpace output in
            if token == "" then Err (Errorf "robot creation script returned empty token") else Ok token
        end).

(** ** Quay *)

Definition getQuayHostname (quayRegistry : Unstructured) : prog (result string) :=
  let '(hostname, found, err) := NestedString (u_Object quayRegistry) ["status"; "registryEndpoint"] in
  match (err : option error) with
  | Some e => mret (Err e)
  | None =>
      let strip h := TrimPrefix (TrimPrefix h "https://") "http://" in
      if negb found || (hostname == "") then
        g ← Get (KUnstructured routeGVK)
              (mkNN (om_Namespace (u_Meta quayRegistry)) (om_Name (u_Meta quayRegistry) +:+ "-quay"));
        mret (match g with
              | Err e => if IsNotFound e then Ok "" else Err e
              | Ok route => Ok (strip (nested_string (u_Object route) ["spec"; "host"]))
              end)
      else mret (Ok (strip hostname))
  end.

Definition robotSecretKey : NamespacedName := mkNN architectNamespace "quay-robot-credentials".

Definition robotSecret (robotName robotToken : string) : Secret :=
  mkSecret (meta0 <| om_Name := nn_Name robotSecretKey |> <| om_Namespace := architectNamespace |>)
    (Some (<[ "username" := robotName ]> {[ "token" := robotToken ]})).

Definition saveQuayRobotCredentials (robotName robotToken : string) : prog (option error) :=
  let secret := robotSecret robotName robotToken in
  g ← Get KSecret robotSecretKey;
  match g with
  | Ok existing =>
      u ← Update KSecret (secret <| sec_Meta ::= fun om =>
            om <| om_ResourceVersion := om_ResourceVersion (sec_Meta existing) |> |>);
      mret (err_of u)
  | Err e => if IsNotFound e then c ← Create KSecret secret; mret (err_of c) else mret (Some e)
  end.

Definition robot : string := "mirror+mirroroperator".

(** The token, asked of Quay and kept in the secret when the secret has none. *)
Definition freshRobotCredentials (r : DisconnectedPlatformReconciler) : prog (result (string * string)) :=
  t ← queryQuayRobotToken r "mirror" "mirroroperator";
  match t with
  | Err e => mret (Err (Wrapf "failed to query robot token from Quay" e))
  | Ok token => _ ← saveQuayRobotCredentials robot token; mret (Ok (robot, token))
  end.

Definition getQuayRobotCredentials (r : DisconnectedPlatformReconciler) : prog (result (string * string)) :=
  g ← Get KSecret robotSecretKey;
  match g with
  | Ok s =>
      let token := map_get (sec_Data s) "token" in
      if token != "" then mret (Ok (robot, token)) else freshRobotCredentials r
  | Err _ => freshRobotCredentials r
  end.

Definition ensureQuayCredentials (r : DisconnectedPlatformReconciler) : prog (option error) :=
  q ← Get KQuayRegistry quayKey;
  match q with
  | Err e => mret (Some (Wrapf "failed to get QuayRegistry" e))
  | Ok quayRegistry =>
      h ← getQuayHostname quayRegistry;
      match h with
      | Err _ => mret None
      | Ok hostname =>
          if hostname == "" then mret None
          else
            let create :=
              t ← ensureQuayRobotViaPython r "mirror" "mirroroperator";
              match t with
              | Err e => mret (Some (Wrapf "failed to ensure Quay robot account" e))
              | Ok robotToken => _ ← saveQuayRobotCredentials robot robotToken; mret None
              end in
            c ← Get KSecret robotSecretKey;
            match c with
            | Ok cached =>
                if (map_get (sec_Data cached) "username" == robot) && (map_get (sec_Data cached) "token" != "")
                then mret None else create
            | Err e =>
                if negb (IsNotFound e) then
                  mret (Some (Wrapf "failed to get cached Quay robot credentials" e))
                else create
            end
      end
  end.

(** The token that nothing uses any more. *)
Definition bootstrapQuayAPIToken : prog (result string) := mret (Ok "unused").

Definition quayTokenMeta : ObjectMeta :=
  meta0 <| om_Name := "quay-api-token" |> <| om_Namespace := architectNamespace |>.

Definition ensureQuayAPIToken : prog (result string) :=
  g ← Get KSecret (key_of_meta quayTokenMeta);
  let found := match g with Ok s => map_get_ok (sec_Data s) "token" | Err _ => None end in
  let tokenMeta := match g with Ok s => sec_Meta s | Err _ => quayTokenMeta end in
  let bootstrap :=
    b ← bootstrapQuayAPIToken;
    match b with
    | Err e => mret (Err (Wrapf "failed to bootstrap Quay API token" e))
    | Ok token =>
        c ← Create KSecret
              (mkTypedSecret tokenMeta (Some {[ "token" := token ]})
                 (match g with Ok s => sec_Type s | Err _ => "" end));
        mret (match c with
              | Err e => if negb (IsAlreadyExists e) then Err (Wrapf "failed to save API token" e) else Ok token
              | Ok _ => Ok token
              end)
    end in
  match found with
  | Some token => if token != "" then mret (Ok token) else bootstrap
  | None => bootstrap
  end.

(** ** Merging *)

Fixpoint drop_key (k : string) (m : fields) : fields :=
  match m with
  | [] => []
  | (k', v) :: m' => if k' == k then drop_key k m' else (k', v) :: drop_key k m'
  end.

(** The entries of a map, each key once. *)
Fixpoint jentries (m : fields) : fields :=
  match m with
  | [] => []
  | (k, v) :: m' => (k, v) :: drop_key k (jentries m')
  end.

(** One turn of the loop that merges: the entry is taken over when it is absent or prints
    differently. *)
Definition mergeAuth (acc : fields * bool) (entry : string * json) : fields * bool :=
  let '(existingAuths, changed) := acc in
  let '(host, auth) := entry in
  if negb (jhas existingAuths host) || (FormatValue (jget existingAuths host) != FormatValue auth)
  then (jset existingAuths host auth, true) else (existingAuths, changed).

Definition mergeAuths (existingAuths sourceAuths : fields) : fields * bool :=
  fold_left mergeAuth (jentries sourceAuths) (existingAuths, false).

(** The map under "auths"; empty when there is none. *)
Definition authsOf (config : option fields) : fields :=
  default [] (config ≫= fun m => as_map (jget m "auths")).

(** The merged text and whether anything changed.  Decoding [null] leaves a nil map, in
    which nothing can be stored. *)
Definition mergePullSecrets (existing source : string) : prog (result (string * bool)) :=
  match json_Unmarshal_object existing with
  | Err e => mret (Err (Wrapf "failed to parse existing dockerconfig" e))
  | Ok existingConfig =>
      match json_Unmarshal_object source with
      | Err e => mret (Err (Wrapf "failed to parse source dockerconfig" e))
      | Ok sourceConfig =>
          let '(auths, changed) := mergeAuths (authsOf existingConfig) (authsOf sourceConfig) in
          match existingConfig with
          | None => Panic nilMap
          | Some config =>
              mret (match json_Marshal (JMap (jset config "auths" (JMap auths))) with
                    | Err e => Err (Wrapf "failed to marshal merged dockerconfig" e)
                    | Ok merged => Ok (merged, changed)
                    end)
          end
      end
  end.

Definition basicAuth (user token : string) : string := StdEncodeToString (user +:+ ":" +:+ token).
Definition authEntry (authString : string) : json := JMap [("auth", JStr authString)].

(** The registry has this authentication already. *)
Definition hasAuth (auths : fields) (hostname authString : string) : bool :=
  jhas auths hostname &&
  match as_map (jget auths hostname) with
  | Some m => iface_is (jget m "auth") authString
  | None => false
  end.

(** What [addQuayCredentialsIfNeeded] does once the hostname is known. *)
Definition addQuayAuth (r : DisconnectedPlatformReconciler) (hostname dockerconfigJSON : string)
  : prog (result (string * bool)) :=
  match json_Unmarshal_object dockerconfigJSON with
  | Err e => mret (Err (Wrapf "failed to parse dockerconfig" e))
  | Ok None => Panic nilMap
  | Ok (Some dockerConfig) =>
      let auths := authsOf (Some dockerConfig) in
      c ← getQuayRobotCredentials r;
      mret (match c with
            | Err e =>
                if jhas auths hostname then Ok (dockerconfigJSON, false)
                else Err (Wrapf "failed to get Quay robot credentials" e)
            | Ok (robot, token) =>
                let authString := basicAuth robot token in
                if hasAuth auths hostname authString then Ok (dockerconfigJSON, false)
                else
                  let auths := jset auths hostname (authEntry authString) in
                  match json_Marshal (JMap (jset dockerConfig "auths" (JMap auths))) with
                  | Err e => Err (Wrapf "failed to marshal updated dockerconfig" e)
                  | Ok updated => Ok (updated, true)
                  end
            end)
  end.

Definition addQuayCredentialsIfNeeded (r : DisconnectedPlatformReconciler) (dockerconfigJSON : string)
  : prog (result (string * bool)) :=
  q ← Get KQuayRegistry quayKey;
  match q with
  | Err _ => mret (Ok (dockerconfigJSON, false))
  | Ok quayRegistry =>
      h ← getQuayHostname quayRegistry;
      match h with
      | Err _ => mret (Ok (dockerconfigJSON, false))
      | Ok hostname =>
          if hostname == "" then mret (Ok (dockerconfigJSON, false))
          else addQuayAuth r hostname dockerconfigJSON
      end
  end.

(** ** The pull secret of the operator *)

(** Deletes every pod of a list; failures are only logged. *)
Fixpoint deletePods (pods : list Pod) : prog () :=
  match pods with
  | [] => mret ()
  | pod :: rest => _ ← Delete KPod pod; deletePods rest
  end.

Definition restartBackendPods : prog (option error) :=
  l ← List_ KPod (Some architectNamespace)
        [("app.kubernetes.io/component", "backend"); ("app.kubernetes.io/part-of", "mirror-operator")];
  match l with
  | Err e => mret (Some e)
  | Ok pods => _ ← deletePods pods; mret None
  end.

(** [m[k] = v], where [m] may be nil. *)
Definition withKey (data : option (gmap string string)) (k v : string)
    (f : option (gmap string string) -> prog (option error)) : prog (option error) :=
  match data with
  | None => Panic nilMap
  | Some m => f (Some (<[ k := v ]> m))
  end.

Definition getPullSecretReference (cfg : option AirgapArchitectConfig) : string * string :=
  match cfg ≫= aac_PullSecret with
  | Some ref => if lor_Name ref != "" then (lor_Name ref, architectNamespace)
                else (defaultPullSecretName, defaultPullSecretNS)
  | None => (defaultPullSecretName, defaultPullSecretNS)
  end.

Definition pullSecretTarget (secretName : string) (source : Secret) : Secret :=
  mkTypedSecret (meta0 <| om_Name := secretName |> <| om_Namespace := architectNamespace |>)
    (sec_Data source) (sec_Type source).

(** The copy that exists is merged with the source and with the credentials for Quay; the
    pods that use it are restarted when it changed. *)
Definition updatePullSecret (r : DisconnectedPlatformReconciler) (secretName : string)
    (source existing : Secret) : prog (option error) :=
  m ← mergePullSecrets (map_get (sec_Data existing) pullSecretKey) (map_get (sec_Data source) pullSecretKey);
  match m with
  | Err e => mret (Some (Wrapf "failed to merge pull secrets" e))
  | Ok (merged, changed) =>
      q ← addQuayCredentialsIfNeeded r merged;
      let '(merged, changed) :=
        match q with
        | Err _ => (merged, changed)
        | Ok (mergedWithQuay, quayChanged) => (mergedWithQuay, changed || quayChanged)
        end in
      if (changed : bool) then
        withKey (sec_Data source) pullSecretKey merged (fun data =>
          u ← Update KSecret
                (mkTypedSecret
                   ((sec_Meta (pullSecretTarget secretName source))
                      <| om_ResourceVersion := om_ResourceVersion (sec_Meta existing) |>)
                   data (sec_Type source));
          match u with
          | Err e => mret (Some e)
          | Ok _ => restartBackendPods
          end)
      else mret None
  end.

Definition createPullSecret (r : DisconnectedPlatformReconciler) (target : Secret) : prog (option error) :=
  q ← addQuayCredentialsIfNeeded r (map_get (sec_Data target) pullSecretKey);
  match q with
  | Err _ => c ← Create KSecret target; mret (err_of c)
  | Ok (quayEnhanced, _) =>
      withKey (sec_Data target) pullSecretKey quayEnhanced (fun data =>
        c ← Create KSecret (target <| sec_Data := data |>); mret (err_of c))
  end.

Definition ensurePullSecret (r : DisconnectedPlatformReconciler) (secretName sourceNamespace : string)
  : prog (option error) :=
  if sourceNamespace == architectNamespace then mret None
  else
    s ← Get KSecret (mkNN sourceNamespace secretName);
    match s with
    | Err e =>
        mret (Some (Wrapf ("failed to get pull secret from " +:+ sourceNamespace +:+ "/" +:+ secretName) e))
    | Ok source =>
        let target := pullSecretTarget secretName source in
        g ← Get KSecret (key_of_meta (sec_Meta target));
        match g with
        | Ok existing => updatePullSecret r secretName source existing
        | Err e => if negb (IsNotFound e) then mret (Some e) else createPullSecret r target
        end
    end.

(** ** The pull secrets of the update service *)

Definition osusNamespace : string := "openshift-update-service".

(** The copy of the operator's pull secret in the namespace of the update service. *)
Definition copyPullSecretToOSUS (source : Secret) : prog (option error) :=
  let target := mkTypedSecret (meta0 <| om_Name := "pull-secret" |> <| om_Namespace := osusNamespace |>)
                  (sec_Data source) (sec_Type source) in
  g ← Get KSecret (key_of_meta (sec_Meta target));
  match g with
  | Ok existing =>
      if map_get (sec_Data existing) pullSecretKey != map_get (sec_Data source) pullSecretKey then
        u ← Update KSecret (existing <| sec_Data := sec_Data source |>); mret (err_of u)
      else mret None
  | Err e => if IsNotFound e then c ← Create KSecret target; mret (err_of c) else mret (Some e)
  end.

Definition linkPullSecret : prog (option error) :=
  g ← Get KServiceAccount (mkNN osusNamespace "default");
  match g with
  | Err e => mret (Some (Wrapf ("failed to get default SA in " +:+ osusNamespace) e))
  | Ok sa =>
      if existsb (fun s => lor_Name s == "pull-secret") (sa_ImagePullSecrets sa) then mret None
      else
        u ← Update KServiceAccount (sa <| sa_ImagePullSecrets ::= fun l => snoc l (mkLocalRef "pull-secret") |>);
        mret (option_map (Wrapf "failed to link pull-secret to default SA") (err_of u))
  end.

(** The robot's credentials in the pull secret of the whole cluster. *)
Definition mergeIntoClusterPullSecret (quayHostname robotUser robotToken : string) : prog (option error) :=
  g ← Get KSecret (mkNN "openshift-config" "pull-secret");
  match g with
  | Err e => mret (Some (Wrapf "failed to get cluster pull-secret" e))
  | Ok clusterPullSecret =>
      match json_Unmarshal_object (map_get (sec_Data clusterPullSecret) pullSecretKey) with
      | Err e => mret (Some (Wrapf "failed to parse cluster pull-secret" e))
      | Ok cfg =>
          let auths := authsOf cfg in
          let authValue := basicAuth robotUser robotToken in
          if hasAuth auths quayHostname authValue then mret None
          else
            match cfg with
            | None => Panic nilMap
            | Some config =>
                let auths := jset auths quayHostname (authEntry authValue) in
                match json_Marshal (JMap (jset config "auths" (JMap auths))) with
                | Err e => mret (Some (Wrapf "failed to marshal cluster pull-secret" e))
                | Ok merged =>
                    withKey (sec_Data clusterPullSecret) pullSecretKey merged (fun data =>
                      u ← Update KSecret (clusterPullSecret <| sec_Data := data |>);
                      mret (option_map (Wrapf "failed to update cluster pull-secret") (err_of u)))
                end
            end
      end
  end.

(** What is skipped while Quay is not ready. *)
Definition mergeQuayIntoCluster (r : DisconnectedPlatformReconciler) : prog (option error) :=
  c ← getQuayRobotCredentials r;
  match c with
  | Err _ => mret None
  | Ok (robotUser, robotToken) =>
      q ← Get KQuayRegistry quayKey;
      match q with
      | Err _ => mret None
      | Ok quayRegistry =>
          h ← getQuayHostname quayRegistry;
          match h with
          | Err _ => mret None
          | Ok quayHostname =>
              if quayHostname == "" then mret None
              else mergeIntoClusterPullSecret quayHostname robotUser robotToken
          end
      end
  end.

Definition ensureOSUSPullSecret (r : DisconnectedPlatformReconciler) : prog (option error) :=
  s ← Get KSecret (mkNN architectNamespace "pull-secret");
  match s with
  | Err e => mret (Some (Wrapf ("failed to get pull-secret from " +:+ architectNamespace) e))
  | Ok source =>
      e1 ← copyPullSecretToOSUS source;
      match e1 with
      | Some e => mret (Some e)
      | None =>
          e2 ← linkPullSecret;
          match e2 with
          | Some e => mret (Some e)
          | None => mergeQuayIntoCluster r
          end
      end
  end.

(** ** Generated secrets *)

Definition charset : string := "abcdefghijklmnopqrstuvwxyzABCDEFGHIJKLMNOPQRSTUVWXYZ0123456789".
Definition charset_at (i : nat) : ascii := default "a"%char (String.get (i mod 62) charset).

(** The string of the first [n] characters of the charset, repeated. *)
Definition generateRandomString (n : nat) : string := string_of_list_ascii (map charset_at (seq 0 n)).

(** Each character comes from the hash of the time and of its position. *)
Definition passwordChar (now : time) (i : nat) : ascii :=
  charset_at (Z.to_nat (nth 0 (Sum256 (itoa now +:+ itoa (Z.of_nat i))) 0%Z)).

Fixpoint passwordFrom (n i : nat) : prog (list ascii) :=
  match n with
  | O => mret []
  | S m => now ← Now; rest ← passwordFrom m (S i); mret (passwordChar now i :: rest)
  end.
Definition generateRandomPassword (length : nat) : prog string :=
  cs ← passwordFrom length 0; mret (string_of_list_ascii cs).

Definition oidcCacheMeta : ObjectMeta :=
  meta0 <| om_Name := "sigstore-client-secret-cache" |> <| om_Namespace := architectNamespace |>.

(** The client secret of the OIDC client; the arguments are not used. *)
Definition ensureKeycloakOIDCClient (hostname realm adminUser adminPassword clientID : string)
  : prog (result string) :=
  g ← Get KSecret (key_of_meta oidcCacheMeta);
  match g with
  | Ok existing => mret (Ok (map_get (sec_Data existing) "secret"))
  | Err _ =>
      let clientSecret := generateRandomString 32 in
      c ← Create KSecret (mkSecret oidcCacheMeta (Some {[ "secret" := clientSecret ]}));
      mret (match c with
            | Err e => if negb (IsAlreadyExists e) then Err e else Ok clientSecret
            | Ok _ => Ok clientSecret
            end)
  end.
End PullSecrets.
