(* ===== verification/PullSecretProps.v ===== *)
(** Properties of the credentials: what merging pull secrets keeps and takes over, that the
    operator's pull secret never loses a registry, and how the secrets it generates can be
    predicted. *)
From S2P Require Import Prelude GoStrings Sha256 Base64 K8s Json Api Kube Externals Helpers Platform.
From S2P Require Import CABundles PullSecrets Instances Samples.

(** ** Entries of a map *)

Lemma drop_key_jhas k m k' : jhas (drop_key k m) k' = negb (k == k') && jhas m k'.
Proof.
  induction m as [|[k2 v] m IH]; simpl; [by rewrite andb_false_r|].
  destruct (k2 == k) eqn:E; simpl; rewrite IH; str_eq; subst.
  - by destruct (k == k').
  - destruct (k2 == k') eqn:E2; [|done]. str_eq. subst. by rewrite str_eqb_ne.
Qed.

Lemma drop_key_jget k m k' : k <> k' -> jget (drop_key k m) k' = jget m k'.
Proof.
  intros Hne. induction m as [|[k2 v] m IH]; simpl; [done|].
  destruct (k2 == k) eqn:E; simpl; str_eq; subst; rewrite IH; [|done]. by rewrite str_eqb_ne.
Qed.

Lemma jentries_jhas m k : jhas (jentries m) k = jhas m k.
Proof.
  induction m as [|[k' v] m IH]; simpl; [done|].
  rewrite drop_key_jhas, IH. by destruct (k' == k).
Qed.

Lemma jentries_jget m k : jget (jentries m) k = jget m k.
Proof.
  induction m as [|[k' v] m IH]; simpl; [done|].
  destruct (k' == k) eqn:E; [done|]. str_eq. rewrite drop_key_jget; [done|congruence].
Qed.

Lemma jhas_In m k : jhas m k = true <-> In k (map fst m).
Proof.
  induction m as [|[k' v] m IH]; simpl; [done|].
  rewrite orb_true_iff, IH, String.eqb_eq. done.
Qed.

Lemma In_drop_key k m k' : In k' (map fst (drop_key k m)) -> k' <> k /\ In k' (map fst m).
Proof. rewrite <- !jhas_In, drop_key_jhas. intros [H1 H2]%andb_true_iff. str_eq. auto. Qed.

Lemma NoDup_drop_key k m : List.NoDup (map fst m) -> List.NoDup (map fst (drop_key k m)).
Proof.
  induction m as [|[k' v] m IH]; simpl; [done|]. intros [Hn Hd]%NoDup_cons_iff.
  destruct (k' == k); [auto|]. simpl. constructor; [|auto]. by intros [_ H]%In_drop_key.
Qed.

Lemma jentries_NoDup m : List.NoDup (map fst (jentries m)).
Proof.
  induction m as [|[k v] m IH]; simpl; [constructor|]. constructor; [|by apply NoDup_drop_key].
  by intros [H _]%In_drop_key.
Qed.

(** ** Merging *)

Section MergeProps.
Context {X : Externals} {L : ExternalsLaws X}.

Lemma mergeAuth_jhas acc host v k :
  jhas (fst (mergeAuth acc (host, v))) k = (host == k) || jhas (fst acc) k.
Proof.
  destruct acc as [ex ch]. simpl. destruct (jhas ex host) eqn:E; simpl;
    [destruct (_ != _); simpl|]; rewrite ?jhas_jset; try done.
  destruct (host == k) eqn:E2; [|done]. str_eq. by subst.
Qed.

Lemma mergeAuth_jget_ne acc host v k : host <> k -> jget (fst (mergeAuth acc (host, v))) k = jget (fst acc) k.
Proof.
  intros Hne. destruct acc as [ex ch]. simpl. destruct (_ || _); simpl; [|done].
  by rewrite jget_jset, str_eqb_ne.
Qed.

(** The value under the host prints as the merged one. *)
Lemma mergeAuth_jget_eq acc host v :
  FormatValue (jget (fst (mergeAuth acc (host, v))) host) = FormatValue v /\
  (jget (fst (mergeAuth acc (host, v))) host = v \/
   jget (fst (mergeAuth acc (host, v))) host = jget (fst acc) host).
Proof.
  destruct acc as [ex ch]. simpl. destruct (jhas ex host) eqn:E; simpl;
    [destruct (FormatValue (jget ex host) == FormatValue v) eqn:E2; simpl|];
    rewrite ?jget_jset_eq; try (split; [done|by left]).
  str_eq. split; [done|by right].
Qed.

Lemma mergeAuth_plain acc host v :
  json_plain (JMap (fst acc)) = true -> utf8_valid host = true -> json_plain v = true ->
  json_plain (JMap (fst (mergeAuth acc (host, v)))) = true.
Proof.
  destruct acc as [ex ch]. unfold mergeAuth. intros H1 H2 H3.
  destruct (_ || _); cbn [fst]; [by apply json_plain_jset|done].
Qed.

(** The fold over a list of entries with distinct keys. *)
Lemma fold_merge es acc :
  List.NoDup (map fst es) ->
  let r := fst (fold_left mergeAuth es acc) in
  (forall k, jhas r k = jhas es k || jhas (fst acc) k) /\
  (forall k, jhas es k = true ->
     FormatValue (jget r k) = FormatValue (jget es k) /\
     (jget r k = jget es k \/ jget r k = jget (fst acc) k)) /\
  (forall k, jhas es k = false -> jget r k = jget (fst acc) k).
Proof.
  revert acc; induction es as [|[h v] es IH]; intros acc Hnd; [by split_and!|].
  apply NoDup_cons_iff in Hnd as [Hn Hnd]. cbn [fold_left].
  destruct (IH (mergeAuth acc (h, v)) Hnd) as (I1 & I2 & I3). cbn zeta in *.
  assert (Hh : jhas es h = false).
  { destruct (jhas es h) eqn:E; [|done]. apply jhas_In in E. done. }
  split_and!; intros k.
  - rewrite I1, mergeAuth_jhas. simpl. by destruct (h == k), (jhas es k).
  - simpl. destruct (h == k) eqn:E; simpl; intros Hk.
    + str_eq. subst. rewrite (I3 k Hh). apply mergeAuth_jget_eq.
    + str_eq. destruct (I2 k Hk) as [H1 H2]. rewrite mergeAuth_jget_ne in H2 by done. done.
  - simpl. intros [Hne Hk]%orb_false_iff. str_eq. rewrite (I3 k Hk). by apply mergeAuth_jget_ne.
Qed.

Lemma fold_merge_plain es acc :
  json_plain (JMap (fst acc)) = true ->
  (forall h v, In (h, v) es -> utf8_valid h = true /\ json_plain v = true) ->
  json_plain (JMap (fst (fold_left mergeAuth es acc))) = true.
Proof.
  revert acc; induction es as [|[h v] es IH]; intros acc Ha He; [done|]. cbn [fold_left].
  apply IH; [|intros; apply He; by right]. destruct (He h v) as [H1 H2]; [by left|].
  by apply mergeAuth_plain.
Qed.

(** Nothing is changed exactly when every entry is there and prints the same. *)
Lemma fold_merge_changed es acc :
  List.NoDup (map fst es) ->
  snd (fold_left mergeAuth es acc) = false <->
  snd acc = false /\ forall k, jhas es k = true ->
    jhas (fst acc) k = true /\ FormatValue (jget (fst acc) k) = FormatValue (jget es k).
Proof.
  revert acc; induction es as [|[h v] es IH]; intros acc Hnd; [naive_solver|].
  apply NoDup_cons_iff in Hnd as [Hn Hnd]. cbn [fold_left]. rewrite IH by done.
  destruct acc as [ex ch]. unfold mergeAuth at 1 2 3. cbn [fst snd].
  assert (Hne : forall k, jhas es k = true -> h <> k).
  { intros k Hk ->. apply Hn. by apply jhas_In. }
  destruct (jhas ex h) eqn:E1, (FormatValue (jget ex h) == FormatValue v) eqn:E2;
    simpl; str_eq; (split; [intros [H1 H2]|intros [H1 H2]]); try done.
  - split; [done|]. intros k [Hk|Hk]%orb_true_iff.
    + str_eq. subst. by rewrite str_eqb_refl.
    + rewrite (str_eqb_ne h k) by auto. by apply H2.
  - split; [done|]. intros k Hk. specialize (H2 k). rewrite Hk, orb_true_r in H2.
    rewrite (str_eqb_ne h k) in H2 by auto. by apply H2.
  - exfalso. apply E2. specialize (H2 h). rewrite !str_eqb_refl in H2. by apply H2.
  - exfalso. specialize (H2 h). rewrite !str_eqb_refl in H2. destruct (H2 eq_refl). congruence.
  - exfalso. specialize (H2 h). rewrite !str_eqb_refl in H2. destruct (H2 eq_refl). congruence.
Qed.

Lemma fold_merge_same es acc :
  snd acc = false -> snd (fold_left mergeAuth es acc) = false -> fst (fold_left mergeAuth es acc) = fst acc.
Proof.
  revert acc; induction es as [|[h v] es IH]; intros [ex ch] Ha H; [done|]. cbn [fold_left] in *.
  assert (Hm : forall es acc, snd (fold_left mergeAuth es acc) = false -> snd acc = false).
  { clear. induction es as [|e es IHe]; intros acc H; [done|]. cbn [fold_left] in H.
    apply IHe in H. destruct acc as [ex ch], e as [h v]. simpl in H. by destruct (_ || _). }
  assert (H1 := Hm _ _ H). rewrite IH by done.
  simpl in H1 |- *. by destruct (_ || _).
Qed.
End MergeProps.

(** ** The merge of two texts *)

(** What merging [existing] with [source] into [merged] means, on the decoded texts. *)
Record merged_ok {X : Externals} (existing source merged : string) (changed : bool) : Prop := {
  mo_config : exists config src m', json_Unmarshal_object existing = Ok (Some config) /\
    json_Unmarshal_object source = Ok src /\ json_Unmarshal_object merged = Ok (Some m') /\
    let old := authsOf (Some config) in let new := authsOf src in let auths := authsOf (Some m') in
    (forall k, jhas auths k = jhas new k || jhas old k) /\
    (forall k, jhas new k = true -> FormatValue (jget auths k) = FormatValue (jget new k)) /\
    (forall k, jhas new k = false -> json_equiv (jget auths k) (jget old k)) /\
    (forall k, k <> "auths" -> json_equiv (jget m' k) (jget config k)) /\
    (changed = false <-> forall k, jhas new k = true ->
       jhas old k = true /\ FormatValue (jget old k) = FormatValue (jget new k));
}.

Section MergeTexts.
Context {X : Externals} {L : ExternalsLaws X}.

Lemma authsOf_plain config : json_plain (JMap config) = true -> json_plain (JMap (authsOf (Some config))) = true.
Proof.
  intros H. unfold authsOf. simpl. assert (Hp := json_plain_jget config "auths" H).
  by destruct (jget config "auths").
Qed.

Lemma authsOf_plain_opt s c : json_Unmarshal_object s = Ok c -> json_plain (JMap (authsOf c)) = true.
Proof.
  destruct c as [m|]; [|done]. intros H. eapply authsOf_plain, json_Unmarshal_plain, H.
Qed.

Lemma jentries_plain m h v :
  json_plain (JMap m) = true -> In (h, v) (jentries m) -> utf8_valid h = true /\ json_plain v = true.
Proof.
  intros Hp Hin.
  assert (Hh : jhas m h = true). { rewrite <- jentries_jhas. apply jhas_In. by apply (in_map fst) in Hin. }
  split; [by eapply json_plain_map_key|].
  assert (Hv : jget (jentries m) h = v).
  { assert (Hnd := jentries_NoDup m). clear Hp Hh. induction (jentries m) as [|[h' v'] es IH]; [done|].
    simpl in Hnd. apply NoDup_cons_iff in Hnd as [Hn Hnd]. simpl. destruct Hin as [[= -> ->]|Hin].
    - by rewrite str_eqb_refl.
    - rewrite str_eqb_ne; [by apply IH|]. intros ->. apply Hn. by apply (in_map fst) in Hin. }
  rewrite <- Hv, jentries_jget. by apply json_plain_jget.
Qed.

(** What storing [auths] in a configuration and encoding it gives back. *)
Lemma stored_auths config auths s :
  json_plain (JMap config) = true -> json_plain (JMap auths) = true ->
  json_Marshal (JMap (jset config "auths" (JMap auths))) = Ok s ->
  exists m', json_Unmarshal_object s = Ok (Some m') /\
    fields_equiv (authsOf (Some m')) auths /\
    (forall k, k <> "auths" -> json_equiv (jget m' k) (jget config k)).
Proof.
  intros Hc Ha Hs. destruct (json_Unmarshal_Marshal _ _ (json_plain_jset _ "auths" _ Hc eq_refl Ha) Hs)
    as (m' & Hm & E). exists m'. split; [done|]. split.
  - assert (E2 : json_equiv (jget m' "auths") (JMap auths)) by (by rewrite E, jget_jset_eq).
    destruct (json_equiv_map_inv _ _ E2) as (x & Ex & Hx). unfold authsOf. simpl. by rewrite Ex.
  - intros k Hk. rewrite E. rewrite jget_jset_ne by congruence. reflexivity.
Qed.

Lemma mergePullSecrets_exec existing source tr merged changed :
  exec (mergePullSecrets existing source) tr (Done (Ok (merged, changed))) ->
  tr = [] /\ exists config src, json_Unmarshal_object existing = Ok (Some config) /\
    json_Unmarshal_object source = Ok src /\
    json_Marshal (JMap (jset config "auths" (JMap (fst (mergeAuths (authsOf (Some config)) (authsOf src))))))
      = Ok merged /\
    snd (mergeAuths (authsOf (Some config)) (authsOf src)) = changed.
Proof.
  unfold mergePullSecrets. intros H.
  destruct (json_Unmarshal_object existing) as [[config|]|e] eqn:E1;
    [..|by apply exec_inv in H as [_ H]];
    (destruct (json_Unmarshal_object source) as [src|e] eqn:E2; [|by apply exec_inv in H as [_ H]]);
    destruct (mergeAuths _ _) as [auths ch] eqn:E3; [|by apply exec_inv in H as [_ H]].
  apply exec_inv in H as [-> H]. split; [done|]. exists config, src.
  destruct (json_Marshal _) as [s|] eqn:E4; [|done]. injection H as -> ->. rewrite E3. done.
Qed.

(** Merging pull secrets makes no call, and on the decoded texts: a registry of the source
    is in the result and authenticates as in the source; a registry the source does not
    have, that of Quay included, keeps its entry; nothing else of the existing
    configuration changes; the change is reported exactly when a registry of the source was
    missing or different.  Merging the same source into the result again reports none. *)
Theorem mergePullSecrets_spec (existing source merged : string) (changed : bool) tr :
  exec (mergePullSecrets existing source) tr (Done (Ok (merged, changed))) ->
  tr = [] /\ merged_ok existing source merged changed /\
  forall tr2 merged2 changed2,
    exec (mergePullSecrets merged source) tr2 (Done (Ok (merged2, changed2))) -> changed2 = false.
Proof.
  intros (-> & config & src & E1 & E2 & E3 & E4)%mergePullSecrets_exec. split; [done|].
  assert (Hc : json_plain (JMap config) = true) by by eapply json_Unmarshal_plain.
  assert (Hs : json_plain (JMap (authsOf src)) = true) by by eapply authsOf_plain_opt.
  set (old := authsOf (Some config)) in *. set (new := authsOf src) in *.
  destruct (fold_merge (jentries new) (old, false) (jentries_NoDup _)) as (M1 & M2 & M3).
  assert (Mc := fold_merge_changed (jentries new) (old, false) (jentries_NoDup _)).
  fold (mergeAuths old new) in M1, M2, M3, Mc. cbn [fst snd] in *.
  destruct (stored_auths config (fst (mergeAuths old new)) merged) as (m' & E5 & Ha & Hk); [done| |done|].
  { apply (fold_merge_plain (jentries new) (old, false)); [by apply authsOf_plain|].
    intros h v. by apply jentries_plain. }
  assert (Hf : forall k, jhas new k = true -> FormatValue (jget (authsOf (Some m')) k) = FormatValue (jget new k)).
  { intros k Hk2. destruct (M2 k) as [M _]; [by rewrite jentries_jhas|].
    by rewrite Ha, M, jentries_jget. }
  split.
  - constructor. exists config, src, m'. cbv zeta. fold old new. split_and!; [done|done|done| |done| |done|].
    + intros k. rewrite Ha. rewrite M1. by rewrite jentries_jhas.
    + intros k Hk2. rewrite Ha, M3; [reflexivity|by rewrite jentries_jhas].
    + rewrite <- E4, Mc. setoid_rewrite jentries_jhas. setoid_rewrite jentries_jget. naive_solver.
  - intros tr2 merged2 changed2 (-> & config2 & src2 & F1 & F2 & F3 & <-)%mergePullSecrets_exec.
    rewrite E5 in F1. injection F1 as <-. rewrite E2 in F2. injection F2 as <-.
    apply (fold_merge_changed (jentries new) (_, false) (jentries_NoDup _)). split; [done|].
    cbn [fst]. intros k. rewrite jentries_jhas, jentries_jget. intros Hk2. split; [|by apply Hf].
    rewrite Ha, M1. by rewrite jentries_jhas, Hk2.
Qed.
End MergeTexts.

(** ** The operator's pull secret *)

(** The secret a call writes. *)
Definition secret_written (c : call) : option Secret :=
  match c with
  | CCreate K o => match K return obj K -> option Secret with KSecret => Some | _ => fun _ => None end o
  | CUpdate K o => match K return obj K -> option Secret with KSecret => Some | _ => fun _ => None end o
  | _ => None
  end.

Definition pull_text (s : Secret) : string := map_get (sec_Data s) pullSecretKey.

(** Every registry of the first text is one of the second. *)
Definition loses_none {X : Externals} (d d' : string) : Prop :=
  forall config, json_Unmarshal_object d = Ok (Some config) ->
  exists config', json_Unmarshal_object d' = Ok (Some config') /\
    forall h, jhas (authsOf (Some config)) h = true -> jhas (authsOf (Some config')) h = true.

#[export] Instance loses_none_preorder {X : Externals} : PreOrder loses_none.
Proof.
  split.
  - intros d config H. by exists config.
  - intros d1 d2 d3 H12 H23 c1 E1. destruct (H12 _ E1) as (c2 & E2 & H2).
    destruct (H23 _ E2) as (c3 & E3 & H3). exists c3. auto.
Qed.

(** A call of the Quay part: it writes the robot's secret at most, and deletes no pod. *)
Definition quay_call (c : call) : Prop :=
  match secret_written c with
  | Some s => key_of (K := KSecret) s = robotSecretKey
  | None => deletes KPod c = false
  end.

Section Keeps.
Context {X : Externals} {L : ExternalsLaws X}.

Lemma merge_loses_none existing source merged ch tr :
  exec (mergePullSecrets existing source) tr (Done (Ok (merged, ch))) ->
  loses_none existing merged /\ loses_none source merged.
Proof.
  intros (-> & config & src & E1 & E2 & E3 & E4)%mergePullSecrets_exec.
  assert (Hs : json_plain (JMap (authsOf src)) = true) by by eapply authsOf_plain_opt.
  assert (Hc : json_plain (JMap config) = true) by by eapply json_Unmarshal_plain.
  destruct (fold_merge (jentries (authsOf src)) (authsOf (Some config), false) (jentries_NoDup _)) as (M & _ & _).
  fold (mergeAuths (authsOf (Some config)) (authsOf src)) in M. cbn [fst] in M.
  destruct (stored_auths config (fst (mergeAuths (authsOf (Some config)) (authsOf src))) merged)
    as (m' & E5 & Ha & _); [done| |done|].
  { apply (fold_merge_plain _ (_, false)); [by apply authsOf_plain|]. intros h v. by apply jentries_plain. }
  assert (Hh : forall h, jhas (authsOf (Some m')) h = jhas (authsOf src) h || jhas (authsOf (Some config)) h).
  { intros h. rewrite Ha, M. by rewrite jentries_jhas. }
  split; intros c Hc2; exists m'; (split; [done|]); intros h Hk; rewrite Hh.
  - rewrite E1 in Hc2. injection Hc2 as <-. by rewrite Hk, orb_true_r.
  - rewrite E2 in Hc2. injection Hc2 as ->. by rewrite Hk.
Qed.

(** Texts of ASCII characters are valid. *)
Lemma utf8_ascii s : Forall (fun c => (N_of_ascii c < 128)%N) (list_ascii_of_string s) -> utf8_valid s = true.
Proof.
  induction s as [|c s IH]; simpl; [done|]. intros [H1 H2]%Forall_cons.
  apply N.ltb_lt in H1 as ->. auto.
Qed.

Lemma encode_digit_ascii a n : (N_of_ascii (encode_digit a n) < 128)%N.
Proof.
  unfold encode_digit. repeat case_match; try done;
    repeat match goal with H : (_ <? _)%N = _ |- _ => apply N.ltb_lt in H || apply N.ltb_ge in H end;
    rewrite N_ascii_embedding; lia.
Qed.

Lemma basicAuth_valid user token : utf8_valid (basicAuth user token) = true.
Proof.
  unfold basicAuth, StdEncodeToString. apply utf8_ascii. rewrite list_ascii_of_string_of_list_ascii.
  destruct (encode_bytes_digits StdAlphabet true (list_ascii_of_string (user +:+ ":" +:+ token))) as [n ->].
  apply Forall_app. split; [|by apply Forall_replicate].
  apply Forall_map, Forall_true. intros m. apply encode_digit_ascii.
Qed.

(** *** The Quay part *)

(** The objects the server answers with hold text. *)
Definition valid_texts (e : event) : Prop :=
  match e with
  | Ev (CGet (KUnstructured g) k) (Ok o) => forall path, utf8_valid (nested_string (u_Object o) path) = true
  | _ => True
  end.

Abbreviation quay p post := (rg valid_texts quay_call p post).

Lemma quay_any {A} (p : prog A) : always (calls quay_call) p -> quay p (fun _ => True).
Proof. intros H. by apply rg_always. Qed.

Lemma TrimPrefix_valid s pre :
  utf8_valid s = true -> (forall t, utf8_valid (pre +:+ t) = utf8_valid t) ->
  utf8_valid (TrimPrefix s pre) = true.
Proof.
  intros Hs Hpre. destruct (HasPrefix s pre) eqn:E; [|unfold TrimPrefix; by rewrite E].
  apply HasPrefix_inv in E as [t ->]. rewrite TrimPrefix_app. by rewrite Hpre in Hs.
Qed.

Definition valid_result (h : result string) : Prop :=
  match h with Ok h => utf8_valid h = true | Err _ => True end.

Lemma strip_valid h :
  utf8_valid h = true -> utf8_valid (TrimPrefix (TrimPrefix h "https://") "http://") = true.
Proof. intros H. by apply TrimPrefix_valid; [apply TrimPrefix_valid|]. Qed.

Lemma hostname_post q :
  (forall path, utf8_valid (nested_string (u_Object q) path) = true) ->
  quay (getQuayHostname q) valid_result.
Proof.
  intros Hq. unfold getQuayHostname. specialize (Hq ["status"; "registryEndpoint"]). unfold nested_string in Hq.
  destruct (NestedString _ _) as [[h f] [e|]]; [by apply rg_ret|]. destruct (_ || _).
  - eapply (rg_bind _ _ _ _ (fun g => match g with
              | Ok o => forall path, utf8_valid (nested_string (u_Object o) path) = true | Err _ => True end)).
    + apply rg_call; [done|]. by intros [o|e].
    + intros [o|e] H; apply rg_ret; [apply strip_valid, H|]. by destruct (IsNotFound e).
  - apply rg_ret. by apply strip_valid.
Qed.

Lemma quay_robot r : always (calls quay_call) (getQuayRobotCredentials r).
Proof.
  unfold getQuayRobotCredentials, freshRobotCredentials, queryQuayRobotToken, execInQuayPod,
    execCommandInPod, saveQuayRobotCredentials. always_go; by repeat constructor.
Qed.

Definition kept_by (d : string) (res : result (string * bool)) : Prop :=
  match res with Ok (d', _) => loses_none d d' | Err _ => True end.

Lemma addQuayAuth_post r h d :
  utf8_valid h = true -> quay (addQuayAuth r h d) (kept_by d).
Proof.
  intros Hh. unfold addQuayAuth. destruct (json_Unmarshal_object d) as [[config|]|e] eqn:E;
    [|by apply rg_panic|by apply rg_ret].
  assert (Hc : json_plain (JMap config) = true) by by eapply json_Unmarshal_plain.
  eapply rg_bind; [apply quay_any, quay_robot|]. intros [[rb tok]|e] _; apply rg_ret; cbn [kept_by].
  - destruct (hasAuth _ _ _); [cbn; reflexivity|].
    destruct (json_Marshal _) as [s|e] eqn:Es; [|done]. cbn.
    destruct (stored_auths config (jset (authsOf (Some config)) h (authEntry (basicAuth rb tok))) s)
      as (m' & Em & Ha & _); [done| |done|].
    { apply json_plain_jset; [by apply authsOf_plain|done|]. simpl. by rewrite basicAuth_valid. }
    intros c Ec. rewrite E in Ec. injection Ec as <-. exists m'. split; [done|].
    intros k Hk. rewrite Ha, jhas_jset, Hk. by rewrite orb_true_r.
  - destruct (jhas _ _); [cbn; reflexivity|done].
Qed.

Lemma addQuay_post r d : quay (addQuayCredentialsIfNeeded r d) (kept_by d).
Proof.
  unfold addQuayCredentialsIfNeeded.
  eapply (rg_bind _ _ _ _ (fun g => match g with
            | Ok o => forall path, utf8_valid (nested_string (u_Object o) path) = true | Err _ => True end)).
  { apply rg_call; [done|]. by intros [o|e]. }
  intros [q|e] Hq; [|apply rg_ret; cbn; reflexivity].
  eapply rg_bind; [by apply hostname_post|]. intros [h|e] Hh; [|apply rg_ret; cbn; reflexivity].
  destruct (h == ""); [apply rg_ret; cbn; reflexivity|by apply addQuayAuth_post].
Qed.

(** *** The whole *)

(** Listing and deleting pods. *)
Definition restart_call (c : call) : Prop :=
  match c with CList KPod _ _ => True | CDelete KPod _ => True | _ => False end.

(** How a run goes on once the source and the copy were read: the Quay part, then at most one
    write, of a secret that satisfies [keeps]; pods are restarted only after an update that
    succeeded. *)
Inductive pull_rest (keeps : Secret -> Prop) : trace -> Prop :=
| pull_nothing q : calls quay_call q -> pull_rest keeps q
| pull_created q sec w :
    calls quay_call q -> keeps sec -> pull_rest keeps (q ++ [Ev (CCreate KSecret sec) w])
| pull_refused q sec e :
    calls quay_call q -> keeps sec -> pull_rest keeps (q ++ [Ev (CUpdate KSecret sec) (Err e)])
| pull_updated q sec stored restarts :
    calls quay_call q -> keeps sec -> calls restart_call restarts ->
    pull_rest keeps (q ++ Ev (CUpdate KSecret sec) (Ok stored) :: restarts).

Lemma pull_silent keeps : pull_rest keeps [].
Proof. apply pull_nothing. constructor. Qed.

Lemma restart_calls : always (calls restart_call) restartBackendPods.
Proof.
  assert (H : forall pods, always (calls restart_call) (deletePods pods)).
  { induction pods as [|p pods IH]; cbn [deletePods]; always_go; repeat constructor. }
  unfold restartBackendPods. always_go; repeat constructor.
Qed.

Lemma exec_quay r d tr o :
  exec (addQuayCredentialsIfNeeded r d) tr o -> Forall valid_texts tr ->
  calls quay_call tr /\ match o with Done res => kept_by d res | Panicked _ => True end.
Proof. intros H Hv. exact (rg_exec _ _ _ _ _ _ (addQuay_post r d) H Hv). Qed.

Lemma merge_no_calls existing source : always (calls (fun _ => False)) (mergePullSecrets existing source).
Proof.
  unfold mergePullSecrets. destruct (json_Unmarshal_object existing), (json_Unmarshal_object source);
    try apply always_ret; try exact _. destruct (mergeAuths _ _), a; [apply always_ret|apply always_panic]; exact _.
Qed.

Lemma merge_nil existing source tr o : exec (mergePullSecrets existing source) tr o -> tr = [].
Proof.
  intros H. assert (Hc := always_exec _ _ _ _ (merge_no_calls existing source) H).
  destruct tr as [|e tr]; [done|]. by apply Forall_cons in Hc as [[] _].
Qed.

Lemma updatePullSecret_rest r name source existing tr o :
  exec (updatePullSecret r name source existing) tr o -> Forall valid_texts tr ->
  pull_rest (fun sec => key_of (K := KSecret) sec = mkNN architectNamespace name /\
    loses_none (pull_text source) (pull_text sec) /\ loses_none (pull_text existing) (pull_text sec)) tr.
Proof.
  unfold updatePullSecret. intros [(m & H & _)|(res & t1 & t2 & H1 & H & ->)]%exec_bind Hv.
  { rewrite (merge_nil _ _ _ _ H). apply pull_silent. }
  rewrite (merge_nil _ _ _ _ H1) in *. rewrite app_nil_l in *.
  destruct res as [[merged ch]|e]; [|apply exec_inv in H as [-> _]; apply pull_silent].
  destruct (merge_loses_none _ _ _ _ _ H1) as [He Hs].
  apply exec_bind in H as [(m & H & _)|(q & t3 & t4 & H3 & H & ->)].
  { apply pull_nothing. by apply (exec_quay _ _ _ _ H). }
  apply Forall_app in Hv as [Hv1 _]. destruct (exec_quay _ _ _ _ H3 Hv1) as [Hq Hk].
  destruct (match q with Ok _ => _ | Err _ => _ end) as [final ch2] eqn:Ef.
  assert (Hf : loses_none merged final).
  { destruct q as [[d qc]|e]; injection Ef as <- _; [exact Hk|reflexivity]. }
  destruct ch2; [|apply exec_inv in H as [-> _]; rewrite app_nil_r; by apply pull_nothing].
  assert (Hs2 : loses_none (pull_text source) final) by (etransitivity; [exact Hs|exact Hf]).
  assert (He2 : loses_none (pull_text existing) final) by (etransitivity; [exact He|exact Hf]).
  unfold withKey in H. destruct (sec_Data source) as [data|] eqn:Ed;
    [|apply exec_inv in H as [-> _]; rewrite app_nil_r; by apply pull_nothing].
  apply exec_call_bind in H as (u & t5 & -> & H).
  match goal with |- pull_rest ?keeps (_ ++ Ev (CUpdate KSecret ?s) _ :: _) =>
    assert (Hkeeps : keeps s) end.
  { split_and!; [done|unfold pull_text at 2; simpl; by rewrite lookup_insert_eq..]. }
  destruct u as [stored|e].
  - apply pull_updated; [done|done|]. eapply always_exec, H. apply restart_calls.
  - apply exec_inv in H as [-> _]. by apply pull_refused.
Qed.

Lemma createPullSecret_rest r name source tr o :
  exec (createPullSecret r (pullSecretTarget name source)) tr o -> Forall valid_texts tr ->
  pull_rest (fun sec => key_of (K := KSecret) sec = mkNN architectNamespace name /\
    loses_none (pull_text source) (pull_text sec) /\ True) tr.
Proof.
  unfold createPullSecret. intros [(m & H & _)|(q & t1 & t2 & H1 & H & ->)]%exec_bind Hv.
  { apply pull_nothing. by apply (exec_quay _ _ _ _ H). }
  apply Forall_app in Hv as [Hv1 _]. destruct (exec_quay _ _ _ _ H1 Hv1) as [Hq Hk].
  destruct q as [[d qc]|e].
  - unfold withKey in H. destruct (sec_Data _) as [data|] eqn:Ed;
      [|apply exec_inv in H as [-> _]; rewrite app_nil_r; by apply pull_nothing].
    apply exec_call_bind in H as (c & t3 & -> & H). apply exec_inv in H as [-> _].
    apply pull_created; [done|]. split_and!; [done| |done]. destruct source as [om dat ty]. simpl in Ed. subst dat.
    unfold pull_text. simpl in *. by rewrite lookup_insert_eq.
  - apply exec_call_bind in H as (c & t3 & -> & H). apply exec_inv in H as [-> _].
    apply pull_created; [done|]. split_and!; [done| |done].
    change (pull_text (pullSecretTarget name source)) with (pull_text source). reflexivity.
Qed.

(** C23: The operator's pull secret never loses a registry.  A run reads the source and the
    copy; from then on, the robot account of Quay aside, it writes at most one secret, the
    copy; whatever it writes there has every registry of the source and every registry the
    copy had, so the credentials for Quay that were merged in earlier are kept; and pods
    are restarted only after an update of the copy that succeeded. *)
Theorem ensurePullSecret_keeps r name ns tr o :
  exec (ensurePullSecret r name ns) tr o -> Forall valid_texts tr ->
  tr = [] \/ (exists e, tr = [Ev (CGet KSecret (mkNN ns name)) (Err e)]) \/
  exists source (g : result Secret) rest,
    tr = Ev (CGet KSecret (mkNN ns name)) (Ok source) ::
         Ev (CGet KSecret (mkNN architectNamespace name)) g :: rest /\
    pull_rest (fun sec => key_of (K := KSecret) sec = mkNN architectNamespace name /\
      loses_none (pull_text source) (pull_text sec) /\
      match g with Ok existing => loses_none (pull_text existing) (pull_text sec) | Err _ => True end) rest.
Proof.
  unfold ensurePullSecret. intros H Hv. destruct (ns == architectNamespace).
  { apply exec_inv in H as [-> _]. by left. }
  right. apply exec_call_bind in H as (s & t & -> & H). destruct s as [source|e].
  2: { apply exec_inv in H as [-> _]. left. by eexists. }
  right. cbv zeta in H. apply exec_call_bind in H as (g & rest & -> & H).
  apply Forall_cons in Hv as [_ Hv]. apply Forall_cons in Hv as [_ Hv].
  exists source, g, rest. split; [done|]. destruct g as [existing|e].
  - by eapply updatePullSecret_rest.
  - destruct (negb (IsNotFound e)); [apply exec_inv in H as [-> _]; apply pull_silent|].
    by eapply createPullSecret_rest.
Qed.
End Keeps.

(** ** Generated secrets *)

Definition in_charset (c : ascii) : Prop := In c (list_ascii_of_string charset).

Lemma charset_at_in i : in_charset (charset_at i).
Proof.
  unfold charset_at. assert (H : (i mod 62 < 62)%nat) by (apply Nat.mod_upper_bound; lia).
  generalize dependent (i mod 62)%nat. intros n Hn.
  assert (Hall : forallb (fun n => existsb (Ascii.eqb (default "a"%char (String.get n charset)))
                            (list_ascii_of_string charset)) (seq 0 62) = true) by by vm_compute.
  rewrite forallb_forall in Hall. specialize (Hall n). rewrite in_seq in Hall.
  apply existsb_exists in Hall as (c & Hc & ->%Ascii.eqb_eq); [exact Hc|lia].
Qed.

(** The clock readings of a trace. *)
Definition clock_readings (tr : trace) : list time :=
  omap (fun e => match e with Ev CNow n => Some n | _ => None end) tr.

Lemma passwordFrom_exec n i tr cs :
  exec (passwordFrom n i) tr (Done cs) ->
  length cs = n /\ Forall in_charset cs /\
  cs = imap (fun j now => passwordChar now (i + j)) (clock_readings tr).
Proof.
  revert i tr cs; induction n as [|n IH]; intros i tr cs H.
  - apply exec_inv in H as [-> [= ->]]. split_and!; [done|constructor|done].
  - cbn [passwordFrom] in H. apply exec_call_bind in H as (now & t & -> & H).
    apply exec_bind in H as [(m & _ & [=])|(rest & t1 & t2 & H1 & H & ->)].
    apply exec_inv in H as [-> [= ->]]. destruct (IH _ _ _ H1) as (Hl & Hc & Hr). rewrite app_nil_r.
    split_and!; [simpl; by rewrite Hl|constructor; [apply charset_at_in|done]|].
    change (clock_readings (Ev CNow now :: t1)) with (now :: clock_readings t1).
    rewrite imap_cons. f_equal; [by rewrite Nat.add_0_r|].
    rewrite Hr. apply imap_ext. intros j x _. simpl. f_equal. lia.
Qed.

(** C32: What the operator generates as secrets.  A "random" string has the length that was
    asked for and characters of the charset, but its i-th character is always the i-th of
    the charset: every string of a length is the same, and the client secret that is stored
    for Keycloak when there is none is always abcdefghijklmnopqrstuvwxyzABCDEF.  A
    "random" password has its length and charset too, and is a function of the clock
    readings of its run and of nothing else. *)
Theorem generated_secrets n :
  (let s := list_ascii_of_string (generateRandomString n) in
   length s = n /\ Forall in_charset s /\
   forall i, (i < n)%nat -> s !! i = Some (charset_at i)) /\
  (forall h rl u p c tr s, exec (ensureKeycloakOIDCClient h rl u p c) tr (Done (Ok s)) ->
     s = "abcdefghijklmnopqrstuvwxyzABCDEF" \/
     exists stored : Secret, tr = [Ev (CGet KSecret (key_of_meta oidcCacheMeta)) (Ok stored)] /\
       s = map_get (sec_Data stored) "secret") /\
  (forall tr s, exec (generateRandomPassword n) tr (Done s) ->
     let cs := list_ascii_of_string s in
     length cs = n /\ Forall in_charset cs /\ cs = imap (fun i now => passwordChar now i) (clock_readings tr)).
Proof.
  split_and!.
  - unfold generateRandomString. rewrite list_ascii_of_string_of_list_ascii. split_and!.
    + by rewrite length_map, length_seq.
    + apply Forall_map, Forall_true. apply charset_at_in.
    + intros i Hi. rewrite list_lookup_fmap, lookup_seq_lt by done. done.
  - intros h rl u p c tr s H. apply exec_call_bind in H as (g & t & -> & H). destruct g as [stored|e].
    + apply exec_inv in H as [-> [= ->]]. right. by exists stored.
    + left. cbv zeta in H. apply exec_call_bind in H as (w & t2 & -> & H). apply exec_inv in H as [_ H].
      destruct w as [?|e2]; [|destruct (negb (IsAlreadyExists e2)); [done|]]; by injection H as ->.
  - intros tr s H. apply exec_bind in H as [(m & _ & [=])|(cs & t1 & t2 & H1 & H & ->)].
    apply exec_inv in H as [-> [= ->]]. rewrite app_nil_r, list_ascii_of_string_of_list_ascii.
    by apply passwordFrom_exec in H1.
Qed.

(** ** Witnesses *)

Definition authJson (hosts : list (string * string)) : string :=
  json_text (JMap [("auths", JMap (map (fun ha => (fst ha, authEntry (snd ha))) hosts))]).

(** The copy has the robot's credentials for Quay; the source has a new registry. *)
Definition oldText : string := authJson [("quay.example.com", basicAuth robot "t0"); ("registry.redhat.io", "QQ==")].
Definition sourceText : string := authJson [("registry.redhat.io", "QUI="); ("cloud.openshift.com", "Qw==")].

Definition mergedText : string :=
  match outcomeOf (mergePullSecrets (X := sampleX) oldText sourceText) emptyStore with
  | Done (Ok (m, _)) => m
  | _ => ""
  end.
Definition registriesOf (text : string) : list string :=
  match json_Unmarshal_object (Externals := sampleX) text with
  | Ok c => map fst (authsOf c)
  | Err _ => []
  end.

Lemma mergePullSecrets_spec_witness :
  registriesOf mergedText = ["quay.example.com"; "registry.redhat.io"; "cloud.openshift.com"] /\
  merged_ok (X := sampleX) oldText sourceText mergedText true.
Proof.
  split; [vm_compute; reflexivity|].
  apply (mergePullSecrets_spec (X := sampleX) oldText sourceText mergedText true
           (traceOf (mergePullSecrets (X := sampleX) oldText sourceText) emptyStore)).
  assert (E : outcomeOf (mergePullSecrets (X := sampleX) oldText sourceText) emptyStore
              = Done (Ok (mergedText, true))) by (vm_compute; reflexivity).
  rewrite <- E. apply traceOf_exec.
Defined.

Definition dockerSecret (ns name text : string) : Secret :=
  mkTypedSecret (sampleMeta ns name) (Some {[ pullSecretKey := text ]}) "kubernetes.io/dockerconfigjson".

Definition pullStore : store :=
  with_objs
    (with_objs
       (with_objs emptyStore KSecret
          [dockerSecret "openshift-config" "pull-secret" sourceText;
           dockerSecret architectNamespace "pull-secret" oldText;
           robotSecret robot "t1"])
       KQuayRegistry
       [unstructured_ quayRegistryGVK architectNamespace "mirror-operator-quay"
          [("status", JMap [("registryEndpoint", JStr "https://quay.example.com")])]])
    KPod [mkPod (sampleMeta architectNamespace "backend-0") "Running" [] [] []].

Definition podReconciler : DisconnectedPlatformReconciler :=
  mkPlatformReconciler "" "" "" "" "" "" "" true true true.
Definition pullRun : prog (option error) :=
  ensurePullSecret (X := sampleX) podReconciler "pull-secret" "openshift-config".

(** The copy afterwards: the registries, the credentials for Quay, and the pods left. *)
Example pull_secret_updated :
  let s := snd (run pullRun pullStore) in
  map (fun x => registriesOf (pull_text x)) (List.filter (fun x => has_key (mkNN architectNamespace "pull-secret") x)
    (st_objs s KSecret : list Secret)) = [["quay.example.com"; "registry.redhat.io"; "cloud.openshift.com"]] /\
  st_objs s KPod = [] /\ outcomeOf pullRun pullStore = Done None /\
  writes (traceOf pullRun s) = [].
Proof. vm_compute. done. Qed.

Lemma walk_plain m path v :
  json_plain (JMap m) = true -> walk m path = Some (Some v) -> json_plain v = true.
Proof.
  revert m; induction path as [|k rest IH]; intros m Hm H; [by injection H as <-|].
  destruct rest as [|k2 rest].
  - simpl in H. destruct (jhas m k); [|done]. injection H as <-. by apply json_plain_jget.
  - rewrite walk_cons in H. destruct (jhas m k); [|done].
    assert (Hp := json_plain_jget m k Hm). destruct (jget m k); try done. by eapply IH.
Qed.

Lemma nested_plain m path :
  json_plain (JMap m) = true -> utf8_valid (nested_string (X := sampleX) m path) = true.
Proof.
  intros Hm. unfold nested_string. simpl. unfold nested.
  destruct (walk m path) as [[v|]|] eqn:E; [|done|done].
  assert (Hv := walk_plain _ _ _ Hm E). by destruct v.
Qed.

Definition valid_event_b (e : event) : bool :=
  match e with
  | Ev (CGet (KUnstructured g) k) (Ok o) => json_plain (JMap (u_Object o))
  | _ => true
  end.

Lemma valid_events tr : forallb valid_event_b tr = true -> Forall (valid_texts (X := sampleX)) tr.
Proof.
  intros H. apply Forall_forall. intros e He%list_elem_of_In. rewrite forallb_forall in H.
  specialize (H e He). destruct e as [[K k| | | | | | | | | | | | | |] r]; try done. destruct K; try done.
  destruct r as [o|e]; [|done]. intros path. by apply nested_plain.
Qed.

(** The run on the sample store: the copy is read, the robot's token is found, one update. *)
Lemma ensurePullSecret_keeps_witness :
  map is_write (map ev_call (traceOf pullRun pullStore)) = [false; false; false; false; true; false; true] /\
  (traceOf pullRun pullStore = [] \/
   (exists e, traceOf pullRun pullStore = [Ev (CGet KSecret (mkNN "openshift-config" "pull-secret")) (Err e)]) \/
   exists source (g : result Secret) rest,
     traceOf pullRun pullStore =
       Ev (CGet KSecret (mkNN "openshift-config" "pull-secret")) (Ok source) ::
       Ev (CGet KSecret (mkNN architectNamespace "pull-secret")) g :: rest /\
     pull_rest (fun sec => key_of (K := KSecret) sec = mkNN architectNamespace "pull-secret" /\
       loses_none (X := sampleX) (pull_text source) (pull_text sec) /\
       match g with Ok existing => loses_none (X := sampleX) (pull_text existing) (pull_text sec)
                  | Err _ => True end) rest).
Proof.
  split; [vm_compute; reflexivity|].
  apply (ensurePullSecret_keeps (X := sampleX) podReconciler "pull-secret" "openshift-config"
           (traceOf pullRun pullStore) (outcomeOf pullRun pullStore)).
  - apply traceOf_exec.
  - apply valid_events. vm_compute. reflexivity.
Defined.

Definition passwordRun : prog string := generateRandomPassword 8.
Lemma generated_secrets_witness :
  generateRandomString 16 = "abcdefghijklmnop" /\
  outcomeOf passwordRun emptyStore = Done "WTp6dkfd" /\
  list_ascii_of_string "WTp6dkfd" =
    imap (fun i now => passwordChar now i) (clock_readings (traceOf passwordRun emptyStore)).
Proof.
  split; [vm_compute; reflexivity|]. split; [vm_compute; reflexivity|].
  assert (E : outcomeOf passwordRun emptyStore = Done "WTp6dkfd") by (vm_compute; reflexivity).
  destruct (generated_secrets 8) as (_ & _ & H).
  apply (H (traceOf passwordRun emptyStore) "WTp6dkfd"). rewrite <- E. apply traceOf_exec.
Defined.
