(* ===== verification/Pipelines.v ===== *)
(** The Tekton pipelines the platform installs: the task lists of [buildPipelineTasks],
    [buildPipelineFinallyTasks] and [buildImportPipelineTasks], the tasks of
    [pipelines/rhcos.go], and the two functions that write the Pipeline objects. *)
From S2P Require Import Prelude GoStrings Sha256 K8s Api Kube Externals Helpers Platform.
From S2P Require Import PipelineScripts.

(** ** The RHCOS tasks *)

Definition DownloadRHCOSTask (ubi9Image : string) : fields :=
  [("name", JStr "download-rhcos-images");
   ("taskSpec", JMap [("steps", JMaps [[("name", JStr "download-rhcos");
         ("image", JStr ubi9Image);
         ("command", JStrs ["/bin/bash"; "-c"]);
         ("args", JStrs [downloadRHCOSScript])]])]);
   ("workspaces", JMaps [[("name", JStr "output")]; [("name", JStr "pull-secret")]])].

Definition BuildRHCOSServerTask : fields :=
  [("name", JStr "build-rhcos-server");
   ("runAfter", JStrs ["download-rhcos-images"]);
   ("taskSpec", JMap [("steps", JMaps [[("name", JStr "build-and-push");
         ("image", JStr "quay.io/buildah/stable:latest");
         ("command", JStrs ["/bin/bash"; "-c"]);
         ("env", JMaps [[("name", JStr "BUILDAH_ISOLATION"); ("value", JStr "chroot")];
           [("name", JStr "STORAGE_DRIVER"); ("value", JStr "vfs")]]);
         ("securityContext", JMap [("capabilities", JMap [("add", JStrs ["SETFCAP"])])]);
         ("args", JStrs [buildRHCOSServerScript])]])]);
   ("workspaces", JMaps [[("name", JStr "output")]; [("name", JStr "pull-secret")]])].

Definition RegistryV2ManifestURL (host path repository tag : string) : string :=
  if path != "" then Sprintf "https://%s/v2/%s/%s/manifests/%s" [host; path; repository; tag]
  else Sprintf "https://%s/v2/%s/manifests/%s" [host; repository; tag].

(** ** Proxies *)

Definition pipelineProxyEnvVars : list fields :=
  [envMap "HTTP_PROXY" "$(params.http-proxy)"; envMap "HTTPS_PROXY" "$(params.https-proxy)";
   envMap "NO_PROXY" "$(params.no-proxy)"; envMap "http_proxy" "$(params.http-proxy)";
   envMap "https_proxy" "$(params.https-proxy)"; envMap "no_proxy" "$(params.no-proxy)"].

Definition appendEnvVars (existing extra : list fields) : list fields := existing ++ extra.

(** [needsCA] is not looked at. *)
Definition injectProxyAndCAIntoTask (task : fields) (needsProxy needsCA : bool) : fields :=
  if negb needsProxy then task
  else
    match as_map (jget task "taskSpec") with
    | None => task
    | Some taskSpec =>
        match as_maps (jget taskSpec "steps") with
        | None => task
        | Some steps =>
            let injected step :=
              jset step "env" (JMaps (appendEnvVars (default [] (as_maps (jget step "env"))) pipelineProxyEnvVars)) in
            jset task "taskSpec" (JMap (jset taskSpec "steps" (JMaps (map injected steps))))
        end
    end.

(** ** The tasks of a collection *)

Definition dryRunTask : fields :=
  [("name", JStr "dry-run");
   ("retries", JInt 2);
   ("runAfter", JStrs ["build-rhcos-server"]);
   ("when", JMaps [[("input", JStr "$(params.intermediate-registry)");
       ("operator", JStr "notin");
       ("values", JStrs [""])]]);
   ("taskSpec", JMap [("steps", JMaps [[("name", JStr "dry-run");
         ("image", JStr "$(params.mirror-image)");
         ("command", JStrs ["/bin/sh"; "-c"]);
         ("args", JStrs [dryRunScript])]])]);
   ("workspaces", JMaps [[("name", JStr "config")]; [("name", JStr "pull-secret")]; [("name", JStr "output")]])].

Definition mirrorToIntermediateTask : fields :=
  [("name", JStr "mirror-to-intermediate");
   ("retries", JInt 2);
   ("runAfter", JStrs ["dry-run"]);
   ("when", JMaps [[("input", JStr "$(params.intermediate-registry)");
       ("operator", JStr "notin");
       ("values", JStrs [""])]]);
   ("taskSpec", JMap [("steps", JMaps [[("name", JStr "mirror-to-intermediate");
         ("image", JStr "$(params.mirror-image)");
         ("command", JStrs ["/bin/sh"; "-c"]);
         ("args", JStrs [mirrorToIntermediateScript])]])]);
   ("workspaces", JMaps [[("name", JStr "config")]; [("name", JStr "pull-secret")]; [("name", JStr "output")]])].

Definition syftSbomTask : fields :=
  [("name", JStr "syft-sbom");
   ("runAfter", JStrs ["mirror-to-intermediate"; "oc-mirror"]);
   ("when", JMaps [[("input", JStr "$(params.has-tpa)"); ("operator", JStr "in"); ("values", JStrs ["true"])]]);
   ("taskSpec", JMap [("steps", JMaps [[("name", JStr "generate-sbom");
         ("image", JStr "$(params.mirror-image)");
         ("command", JStrs ["/bin/sh"; "-c"]);
         ("args", JStrs [syftSbomScript]);
         ("env", JMaps [[("name", JStr "INTERMEDIATE_REGISTRY");
             ("value", JStr "$(params.intermediate-registry)")];
           [("name", JStr "SYFT_CACHE_DIR"); ("value", JStr "/workspace/output/syft-cache")]])]])]);
   ("workspaces", JMaps [[("name", JStr "output")]; [("name", JStr "pull-secret")]; [("name", JStr "tpa-oidc-secret")]])].

Definition signImagesTask : fields :=
  [("name", JStr "sign-images");
   ("retries", JInt 2);
   ("runAfter", JStrs ["syft-sbom"]);
   ("when", JMaps [[("input", JStr "$(params.has-keyless-signing)");
       ("operator", JStr "in");
       ("values", JStrs ["true"])];
     [("input", JStr "$(params.intermediate-registry)");
       ("operator", JStr "notin");
       ("values", JStrs [""])]]);
   ("taskSpec", JMap [("steps", JMaps [[("name", JStr "sign-images");
         ("image", JStr "$(params.mirror-image)");
         ("command", JStrs ["/bin/sh"; "-c"]);
         ("args", JStrs [signImagesScript]);
         ("env", JMaps [[("name", JStr "COSIGN_EXPERIMENTAL"); ("value", JStr "1")]])]])]);
   ("workspaces", JMaps [[("name", JStr "output")]; [("name", JStr "oidc-secret")]; [("name", JStr "pull-secret")]])].

Definition ocMirrorTask : fields :=
  [("name", JStr "oc-mirror");
   ("retries", JInt 2);
   ("when", JMaps [[("input", JStr "$(params.intermediate-registry)");
       ("operator", JStr "in");
       ("values", JStrs [""])]]);
   ("taskSpec", JMap [("steps", JMaps [[("name", JStr "oc-mirror");
         ("image", JStr "$(params.mirror-image)");
         ("command", JStrs ["/bin/sh"; "-c"]);
         ("args", JStrs [ocMirrorScript])]])]);
   ("workspaces", JMaps [[("name", JStr "config")]; [("name", JStr "pull-secret")]; [("name", JStr "output")]])].

Definition mirrorFromIntermediateTask : fields :=
  [("name", JStr "mirror-from-intermediate");
   ("retries", JInt 2);
   ("runAfter", JStrs ["sign-images"]);
   ("when", JMaps [[("input", JStr "$(params.intermediate-registry)");
       ("operator", JStr "notin");
       ("values", JStrs [""])]]);
   ("taskSpec", JMap [("steps", JMaps [[("name", JStr "mirror-from-intermediate");
         ("image", JStr "$(params.mirror-image)");
         ("command", JStrs ["/bin/sh"; "-c"]);
         ("env", JMaps [[("name", JStr "TMPDIR"); ("value", JStr "/workspace/output/tmp")];
           [("name", JStr "HOME"); ("value", JStr "/workspace/output")];
           [("name", JStr "CONTAINERS_STORAGE_CONF");
             ("value", JStr "/workspace/output/storage.conf")]]);
         ("args", JStrs [mirrorFromIntermediateScript])]])]);
   ("workspaces", JMaps [[("name", JStr "config")]; [("name", JStr "output")]; [("name", JStr "pull-secret")]])].

Definition signBundlesTask : fields :=
  [("name", JStr "sign-bundles");
   ("runAfter", JStrs ["repackage-bundle"]);
   ("when", JMaps [[("input", JStr "$(params.has-keyless-signing)");
       ("operator", JStr "in");
       ("values", JStrs ["true"])]]);
   ("taskSpec", JMap [("steps", JMaps [[("name", JStr "sign-bundles");
         ("image", JStr "$(params.mirror-image)");
         ("command", JStrs ["/bin/sh"; "-c"]);
         ("args", JStrs [signBundlesScript])]])]);
   ("workspaces", JMaps [[("name", JStr "output")]; [("name", JStr "oidc-secret")]])].

Definition createBundleSbomTask : fields :=
  [("name", JStr "create-bundle-sbom");
   ("retries", JInt 2);
   ("runAfter", JStrs ["sign-bundles"]);
   ("when", JMaps [[("input", JStr "$(params.has-tpa)"); ("operator", JStr "in"); ("values", JStrs ["true"])]]);
   ("taskSpec", JMap [("steps", JMaps [[("name", JStr "create-bundle-sbom");
         ("image", JStr "$(params.mirror-image)");
         ("command", JStrs ["/bin/sh"; "-c"]);
         ("args", JStrs [createBundleSbomScript])]])]);
   ("workspaces", JMaps [[("name", JStr "output")]; [("name", JStr "tpa-oidc-secret")]])].

Definition uploadSbomTask : fields :=
  [("name", JStr "upload-sbom");
   ("retries", JInt 2);
   ("runAfter", JStrs ["create-bundle-sbom"]);
   ("when", JMaps [[("input", JStr "$(params.has-tpa)"); ("operator", JStr "in"); ("values", JStrs ["true"])]]);
   ("taskSpec", JMap [("results", JMaps [[("name", JStr "sbom-url"); ("description", JStr "URL to view uploaded SBOMs in TPA")]]);
     ("steps", JMaps [[("name", JStr "upload-sbom");
         ("image", JStr "$(params.mirror-image)");
         ("command", JStrs ["/bin/sh"; "-c"]);
         ("args", JStrs [uploadSbomScript])]])]);
   ("workspaces", JMaps [[("name", JStr "output")]; [("name", JStr "tpa-oidc-secret")]])].

Definition exportArchitectImagesTask (r : DisconnectedPlatformReconciler) : fields :=
  [("name", JStr "export-architect-images");
   ("retries", JInt 2);
   ("runAfter", JStrs ["sign-images"]);
   ("when", JMaps [[("input", JStr "$(params.architect-export-enabled)");
       ("operator", JStr "in");
       ("values", JStrs ["true"])]]);
   ("taskSpec", JMap [("steps", JMaps [[("name", JStr "save-images");
         ("image", JStr (dpr_SkopeoImage r));
         ("command", JStrs ["/bin/sh"; "-c"]);
         ("args", JStrs [exportArchitectImagesScript])]])]);
   ("workspaces", JMaps [[("name", JStr "output")]; [("name", JStr "pull-secret")]])].

Definition downloadCliToolsTask (r : DisconnectedPlatformReconciler) : fields :=
  [("name", JStr "download-cli-tools");
   ("retries", JInt 2);
   ("runAfter", JStrs ["export-architect-images"]);
   ("when", JMaps [[("input", JStr "$(params.cli-tools-enabled)");
       ("operator", JStr "in");
       ("values", JStrs ["true"])]]);
   ("taskSpec", JMap [("steps", JMaps [[("name", JStr "download-tools");
         ("image", JStr (dpr_UBI9Image r));
         ("command", JStrs ["/bin/bash"; "-c"]);
         ("args", JStrs [downloadCliToolsScript])]])]);
   ("workspaces", JMaps [[("name", JStr "output")]])].

Definition copyImportScriptTask (r : DisconnectedPlatformReconciler) : fields :=
  [("name", JStr "copy-import-script");
   ("runAfter", JStrs ["download-cli-tools"]);
   ("taskSpec", JMap [("steps", JMaps [[("name", JStr "copy-script");
         ("image", JStr (dpr_UBI9MinimalImage r));
         ("command", JStrs ["/bin/sh"; "-c"]);
         ("args", JStrs [copyImportScriptScript])]])]);
   ("workspaces", JMaps [[("name", JStr "output")]; [("name", JStr "architect-script")]])].

Definition repackageBundleTask (r : DisconnectedPlatformReconciler) : fields :=
  [("name", JStr "repackage-bundle");
   ("runAfter", JStrs ["copy-import-script"; "mirror-from-intermediate"; "oc-mirror"; "download-cli-tools"]);
   ("taskSpec", JMap [("steps", JMaps [[("name", JStr "repackage");
         ("image", JStr (dpr_UBI9Image r));
         ("command", JStrs ["/bin/sh"; "-c"]);
         ("args", JStrs [repackageBundleScript])]])]);
   ("workspaces", JMaps [[("name", JStr "output")]; [("name", JStr "config")]])].

Definition uploadToS3Task : fields :=
  [("name", JStr "upload-to-s3");
   ("retries", JInt 2);
   ("runAfter", JStrs ["upload-sbom"]);
   ("taskSpec", JMap [("results", JMaps [[("name", JStr "bundle-url"); ("description", JStr "S3 URL to the uploaded bundle")];
       [("name", JStr "signature-url"); ("description", JStr "S3 URL to the bundle signature")]]);
     ("steps", JMaps [[("name", JStr "upload-artifacts");
         ("image", JStr "amazon/aws-cli:latest");
         ("command", JStrs ["/bin/sh"; "-c"]);
         ("args", JStrs [uploadToS3Script]);
         ("env", JMaps [[("name", JStr "AWS_ACCESS_KEY_ID");
             ("valueFrom", JMap [("secretKeyRef", JMap [("name", JStr "$(params.s3-secret-name)"); ("key", JStr "AWS_ACCESS_KEY_ID")])])];
           [("name", JStr "AWS_SECRET_ACCESS_KEY");
             ("valueFrom", JMap [("secretKeyRef", JMap [("name", JStr "$(params.s3-secret-name)"); ("key", JStr "AWS_SECRET_ACCESS_KEY")])])]])]])]);
   ("workspaces", JMaps [[("name", JStr "output")]])].

Definition cleanupWorkspaceTask (r : DisconnectedPlatformReconciler) : fields :=
  [("name", JStr "cleanup-workspace");
   ("taskSpec", JMap [("steps", JMaps [[("name", JStr "cleanup");
         ("image", JStr (dpr_UBI9MinimalImage r));
         ("command", JStrs ["/bin/sh"; "-c"]);
         ("args", JStrs [cleanupWorkspaceScript])]])]);
   ("workspaces", JMaps [[("name", JStr "output")]])].

Definition proxyTasks : list string :=
  ["dry-run"; "mirror-to-intermediate"; "syft-sbom"; "sign-images"; "oc-mirror";
   "mirror-from-intermediate"; "download-cli-tools"; "upload-to-s3"; "upload-sbom";
   "download-rhcos-images"; "export-architect-images"].
Definition caTasks : list string :=
  ["dry-run"; "mirror-to-intermediate"; "syft-sbom"; "sign-images"; "oc-mirror";
   "mirror-from-intermediate"; "build-rhcos-server"; "export-architect-images"].

Definition task_name (task : fields) : string := default "" (as_string (jget task "name")).

Definition buildPipelineTasks (r : DisconnectedPlatformReconciler) : list fields :=
  map (fun task => injectProxyAndCAIntoTask task (containsString proxyTasks (task_name task))
                     (containsString caTasks (task_name task)))
    [dryRunTask; mirrorToIntermediateTask; syftSbomTask; signImagesTask; ocMirrorTask;
     mirrorFromIntermediateTask; signBundlesTask; createBundleSbomTask; uploadSbomTask;
     exportArchitectImagesTask r; downloadCliToolsTask r; DownloadRHCOSTask (dpr_UBI9Image r);
     BuildRHCOSServerTask; copyImportScriptTask r; repackageBundleTask r; uploadToS3Task].

Definition buildPipelineFinallyTasks (r : DisconnectedPlatformReconciler) : list fields :=
  [cleanupWorkspaceTask r].

(** ** The tasks of an import *)

Definition verifyBundleTask : fields :=
  [("name", JStr "verify-bundle");
   ("when", JMaps [[("input", JStr "$(params.verify-enabled)");
       ("operator", JStr "in");
       ("values", JStrs ["true"])]]);
   ("taskSpec", JMap [("steps", JMaps [[("name", JStr "verify");
         ("image", JStr "$(params.mirror-image)");
         ("command", JStrs ["/bin/bash"; "-c"]);
         ("args", JStrs [verifyBundleScript])]])]);
   ("workspaces", JMaps [[("name", JStr "bundle-data")]; [("name", JStr "cosign-pub")]])].

Definition extractBundleTask (r : DisconnectedPlatformReconciler) : fields :=
  [("name", JStr "extract-bundle");
   ("runAfter", JStrs ["verify-bundle"]);
   ("taskSpec", JMap [("steps", JMaps [[("name", JStr "extract");
         ("image", JStr (dpr_UBI9Image r));
         ("command", JStrs ["/bin/sh"; "-c"]);
         ("args", JStrs [extractBundleScript])]])]);
   ("workspaces", JMaps [[("name", JStr "bundle-data")]])].

Definition mirrorContentTask : fields :=
  [("name", JStr "mirror-content");
   ("runAfter", JStrs ["extract-bundle"]);
   ("taskSpec", JMap [("steps", JMaps [[("name", JStr "oc-mirror");
         ("image", JStr "$(params.mirror-image)");
         ("command", JStrs ["/bin/bash"; "-c"]);
         ("args", JStrs [mirrorContentScript])]])]);
   ("workspaces", JMaps [[("name", JStr "config")]; [("name", JStr "bundle-data")]; [("name", JStr "pull-secret")]])].

Definition mirrorToNodesTask : fields :=
  [("name", JStr "mirror-to-nodes");
   ("runAfter", JStrs ["mirror-content"]);
   ("when", JMaps [[("input", JStr "$(params.node-registries)");
       ("operator", JStr "notin");
       ("values", JStrs [""])]]);
   ("taskSpec", JMap [("steps", JMaps [[("name", JStr "oc-mirror-nodes");
         ("image", JStr "$(params.mirror-image)");
         ("command", JStrs ["/bin/bash"; "-c"]);
         ("args", JStrs [mirrorToNodesScript])]])]);
   ("workspaces", JMaps [[("name", JStr "config")]; [("name", JStr "bundle-data")]; [("name", JStr "pull-secret")]])].

Definition applyManifestsTask : fields :=
  [("name", JStr "apply-manifests");
   ("runAfter", JStrs ["mirror-to-nodes"]);
   ("taskSpec", JMap [("steps", JMaps [[("name", JStr "apply");
         ("image", JStr "$(params.mirror-image)");
         ("command", JStrs ["/bin/bash"; "-c"]);
         ("args", JStrs [applyManifestsScript])]])]);
   ("workspaces", JMaps [[("name", JStr "bundle-data")]])].

Definition cleanupImportTask (r : DisconnectedPlatformReconciler) : fields :=
  [("name", JStr "cleanup-workspace");
   ("runAfter", JStrs ["apply-manifests"]);
   ("taskSpec", JMap [("steps", JMaps [[("name", JStr "cleanup");
         ("image", JStr (dpr_UBI9MinimalImage r));
         ("command", JStrs ["/bin/sh"; "-c"]);
         ("args", JStrs [cleanupImportScript])]])]);
   ("workspaces", JMaps [[("name", JStr "bundle-data")]])].

Definition buildImportPipelineTasks (r : DisconnectedPlatformReconciler) : list fields :=
  [verifyBundleTask; extractBundleTask r; mirrorContentTask; mirrorToNodesTask; applyManifestsTask;
   cleanupImportTask r].

(** ** The Pipeline objects *)

Definition collectionParams (r : DisconnectedPlatformReconciler) : list fields :=
  [[("name", JStr "config-map-name");
     ("type", JStr "string");
     ("description", JStr "ConfigMap containing ImageSetConfiguration")];
   [("name", JStr "mirror-image"); ("type", JStr "string"); ("default", JStr (dpr_MirrorImage r))];
   [("name", JStr "working-pvc-name");
     ("type", JStr "string");
     ("description", JStr "PVC for working directory/cache")];
   [("name", JStr "collection-name");
     ("type", JStr "string");
     ("description", JStr "Name of the CollectionPipeline resource")];
   [("name", JStr "parent-pipeline");
     ("type", JStr "string");
     ("default", JStr "");
     ("description", JStr "Parent pipeline name (non-empty for update/child collections)")];
   [("name", JStr "intermediate-registry");
     ("type", JStr "string");
     ("default", JStr "");
     ("description", JStr "Intermediate registry for m2m workflow (empty = local cache)")];
   [("name", JStr "has-keyless-signing");
     ("type", JStr "string");
     ("default", JStr "false");
     ("description", JStr "Enable keyless signing")];
   [("name", JStr "fulcio-url"); ("type", JStr "string"); ("default", JStr "")];
   [("name", JStr "rekor-url"); ("type", JStr "string"); ("default", JStr "")];
   [("name", JStr "tuf-url"); ("type", JStr "string"); ("default", JStr "")];
   [("name", JStr "oidc-issuer"); ("type", JStr "string"); ("default", JStr "")];
   [("name", JStr "oidc-client-id"); ("type", JStr "string"); ("default", JStr "")];
   [("name", JStr "has-tpa"); ("type", JStr "string"); ("default", JStr "false")];
   [("name", JStr "tpa-host"); ("type", JStr "string"); ("default", JStr "")];
   [("name", JStr "tpa-oidc-issuer"); ("type", JStr "string"); ("default", JStr "")];
   [("name", JStr "tpa-oidc-client-id"); ("type", JStr "string"); ("default", JStr "")];
   [("name", JStr "has-s3");
     ("type", JStr "string");
     ("default", JStr "false");
     ("description", JStr "Enable S3 storage output")];
   [("name", JStr "s3-bucket"); ("type", JStr "string"); ("default", JStr "")];
   [("name", JStr "s3-endpoint"); ("type", JStr "string"); ("default", JStr "")];
   [("name", JStr "s3-region"); ("type", JStr "string"); ("default", JStr "")];
   [("name", JStr "s3-secret-name"); ("type", JStr "string"); ("default", JStr "")];
   [("name", JStr "architect-frontend-image");
     ("type", JStr "string");
     ("description", JStr "Airgap Architect frontend container image")];
   [("name", JStr "architect-backend-image");
     ("type", JStr "string");
     ("description", JStr "Airgap Architect backend container image")];
   [("name", JStr "architect-export-enabled");
     ("type", JStr "string");
     ("default", JStr "true");
     ("description", JStr "Export standalone Airgap Architect images into the bundle")];
   [("name", JStr "oc-version");
     ("type", JStr "string");
     ("default", JStr "latest");
     ("description", JStr "OpenShift CLI version to download")];
   [("name", JStr "mirror-registry-version");
     ("type", JStr "string");
     ("default", JStr "latest");
     ("description", JStr "mirror-registry installer version")];
   [("name", JStr "cli-tools-enabled");
     ("type", JStr "string");
     ("default", JStr "true");
     ("description", JStr "Include CLI tools in bundle")];
   [("name", JStr "sbom-parallel-jobs");
     ("type", JStr "string");
     ("default", JStr "8");
     ("description", JStr "Number of parallel syft SBOM scans")];
   [("name", JStr "rhcos-download-enabled");
     ("type", JStr "string");
     ("default", JStr "true");
     ("description", JStr "Download RHCOS boot images for ACM host inventory")];
   [("name", JStr "rhcos-server-base-image");
     ("type", JStr "string");
     ("default", JStr "registry.access.redhat.com/ubi9/nginx-122:latest");
     ("description", JStr "Base image for RHCOS server container")];
   [("name", JStr "osus-enabled");
     ("type", JStr "string");
     ("default", JStr "true");
     ("description", JStr "Use the operator-managed OpenShift Update Service")];
   [("name", JStr "http-proxy");
     ("type", JStr "string");
     ("default", JStr "");
     ("description", JStr "HTTP proxy URL from cluster config")];
   [("name", JStr "https-proxy");
     ("type", JStr "string");
     ("default", JStr "");
     ("description", JStr "HTTPS proxy URL from cluster config")];
   [("name", JStr "no-proxy");
     ("type", JStr "string");
     ("default", JStr "");
     ("description", JStr "No-proxy hosts from cluster config")]].

Definition collectionWorkspaces : list fields :=
  [[("name", JStr "config"); ("description", JStr "ImageSetConfiguration ConfigMap")];
   [("name", JStr "pull-secret"); ("description", JStr "Registry pull secret")];
   [("name", JStr "output"); ("description", JStr "Working PVC for cache and temp files")];
   [("name", JStr "oidc-secret");
     ("description", JStr "OIDC client secret for keyless signing");
     ("optional", JBool true)];
   [("name", JStr "tpa-oidc-secret");
     ("description", JStr "TPA OIDC secret for SBOM upload");
     ("optional", JBool true)];
   [("name", JStr "cosign-key");
     ("description", JStr "Cosign private key");
     ("optional", JBool true)];
   [("name", JStr "architect-script");
     ("description", JStr "Airgap Architect import script ConfigMap");
     ("optional", JBool true)];
   [("name", JStr "cluster-ca-bundle");
     ("description", JStr "Cluster CA bundle for trusting internal CAs");
     ("optional", JBool true)]].

Definition collectionResults : list fields :=
  [[("name", JStr "bundle-url");
     ("description", JStr "URL to the uploaded bundle in S3");
     ("value", JStr "$(tasks.upload-to-s3.results.bundle-url)")];
   [("name", JStr "signature-url");
     ("description", JStr "URL to the bundle signature in S3");
     ("value", JStr "$(tasks.upload-to-s3.results.signature-url)")];
   [("name", JStr "sbom-url");
     ("description", JStr "URL to view SBOMs in TPA");
     ("value", JStr "$(tasks.upload-sbom.results.sbom-url)")]].

Definition collectionPipelineSpec (r : DisconnectedPlatformReconciler) : fields :=
  [("params", JMaps (collectionParams r));
   ("workspaces", JMaps collectionWorkspaces);
   ("results", JMaps collectionResults);
   ("tasks", JMaps (injectCABundleIntoTasks (buildPipelineTasks r)));
   ("finally", JMaps (injectCABundleIntoTasks (buildPipelineFinallyTasks r)))].

Definition importTemplateParams (r : DisconnectedPlatformReconciler) : list fields :=
  [[("name", JStr "bundle-filename");
     ("type", JStr "string");
     ("description", JStr "Tar filename on the bundle PVC")];
   [("name", JStr "target-registry");
     ("type", JStr "string");
     ("description", JStr "Destination mirror registry URL")];
   [("name", JStr "mirror-image");
     ("type", JStr "string");
     ("default", JStr (dpr_MirrorImage r));
     ("description", JStr "oc-mirror container image")];
   [("name", JStr "verify-enabled");
     ("type", JStr "string");
     ("default", JStr "false");
     ("description", JStr "Enable cosign signature verification")];
   [("name", JStr "cosign-pub-secret");
     ("type", JStr "string");
     ("default", JStr "");
     ("description", JStr "Secret name containing cosign public key")];
   [("name", JStr "node-registries");
     ("type", JStr "string");
     ("default", JStr "");
     ("description", JStr "Space-separated list of node registry host:port targets for MachineConfig registries")]].

Definition importTemplateWorkspaces : list fields :=
  [[("name", JStr "bundle-data"); ("description", JStr "PVC containing the bundle tar file")];
   [("name", JStr "config"); ("description", JStr "ConfigMap with imageset-config.yaml")];
   [("name", JStr "pull-secret"); ("description", JStr "Registry pull secret for authentication")];
   [("name", JStr "cosign-pub");
     ("description", JStr "Cosign public key secret for verification");
     ("optional", JBool true)];
   [("name", JStr "cluster-ca-bundle");
     ("description", JStr "Cluster CA bundle for trusting internal CAs");
     ("optional", JBool true)]].

Definition importPipelineSpec (r : DisconnectedPlatformReconciler) : fields :=
  [("params", JMaps (importTemplateParams r));
   ("workspaces", JMaps importTemplateWorkspaces);
   ("tasks", JMaps (injectCABundleIntoTasks (buildImportPipelineTasks r)))].

Definition specHashAnnotation : string := "mirror.mathianasj.github.com/desired-spec-hash".

Section Templates.
Context {X : Externals}.

Definition pipelineObject (platform : DisconnectedPlatform) (name : string)
    (annotations : gmap string string) (spec : option fields) : Unstructured :=
  mkUnstructured pipelineGVK
    (controlledBy platform
       (meta0 <| om_Name := name |> <| om_Namespace := architectNamespace |>
              <| om_Annotations := annotations |>))
    [("spec", JMap (default [] spec))].

Definition reconcileCollectionPipelineTemplate (r : DisconnectedPlatformReconciler)
    (platform : DisconnectedPlatform) : prog (option error) :=
  if dps_Mode (dp_Spec platform) != PlatformModeConnected then mret None
  else
    match json_Marshal (JMap (collectionPipelineSpec r)) with
    | Err e => mret (Some (Wrapf "failed to marshal pipeline spec" e))
    | Ok specJSON =>
        match json_Unmarshal_object specJSON with
        | Err e => mret (Some (Wrapf "failed to unmarshal pipeline spec" e))
        | Ok specMap =>
            let desiredSpecHash := EncodeToString (Sum256 specJSON) in
            let pipeline := pipelineObject platform "collection-pipeline-template"
                              {[ specHashAnnotation := desiredSpecHash ]} specMap in
            g ← Get (KUnstructured pipelineGVK) (key_of_meta (u_Meta pipeline));
            match g with
            | Ok existing =>
                if default "" (om_Annotations (u_Meta existing) !! specHashAnnotation) == desiredSpecHash
                then mret None
                else
                  u ← Update (KUnstructured pipelineGVK) (withVersionOf existing pipeline);
                  mret (option_map (Wrapf "failed to update collection pipeline template") (err_of u))
            | Err e =>
                if IsNotFound e then
                  c ← Create (KUnstructured pipelineGVK) pipeline;
                  mret (option_map (Wrapf "failed to create collection pipeline template") (err_of c))
                else mret (Some e)
            end
        end
    end.

Definition reconcileImportPipelineTemplate (r : DisconnectedPlatformReconciler)
    (platform : DisconnectedPlatform) : prog (option error) :=
  if dps_Mode (dp_Spec platform) != PlatformModeAirgapped then mret None
  else
    match json_Marshal (JMap (importPipelineSpec r)) with
    | Err e => mret (Some (Wrapf "failed to marshal import pipeline spec" e))
    | Ok specJSON =>
        match json_Unmarshal_object specJSON with
        | Err e => mret (Some (Wrapf "failed to unmarshal import pipeline spec" e))
        | Ok specMap =>
            let pipeline := pipelineObject platform "import-pipeline-template" ∅ specMap in
            g ← Get (KUnstructured pipelineGVK) (key_of_meta (u_Meta pipeline));
            match g with
            | Ok existing =>
                u ← Update (KUnstructured pipelineGVK) (withVersionOf existing pipeline);
                mret (option_map (Wrapf "failed to update import pipeline template") (err_of u))
            | Err e =>
                if IsNotFound e then
                  c ← Create (KUnstructured pipelineGVK) pipeline;
                  mret (option_map (Wrapf "failed to create import pipeline template") (err_of c))
                else mret (Some e)
            end
        end
    end.
End Templates.
