(* ===== verification/PipelineProps.v ===== *)
(** Properties of the Tekton pipelines the platform installs: they are well formed, they can
    always run to their end, and in which order their tasks come. *)
From S2P Require Import Prelude GoStrings Sha256 K8s Json Api Kube Externals Helpers Platform.
From S2P Require Import Tekton PipelineScripts Pipelines ImageSet Instances Samples CollectionBuild Collection.
From S2P Require Import CollectionProps CollectionBuildProps ImportController.

#[local] Strategy opaque
  [dryRunScript mirrorToIntermediateScript syftSbomScript signImagesScript ocMirrorScript
   mirrorFromIntermediateScript signBundlesScript createBundleSbomScript uploadSbomScript
   exportArchitectImagesScript downloadCliToolsScript copyImportScriptScript repackageBundleScript
   uploadToS3Script cleanupWorkspaceScript verifyBundleScript extractBundleScript
   mirrorContentScript mirrorToNodesScript applyManifestsScript cleanupImportScript
   downloadRHCOSScript buildRHCOSServerScript].

(** ** The facts about a pipeline do not depend on the images *)

Definition no_refs (s : string) : Prop := dollar_refs s = [] /\ mount_refs s = [].

(** The images of the operator are names, not templates. *)
Definition plain_images (r : DisconnectedPlatformReconciler) : Prop :=
  no_refs (dpr_UBI9Image r) /\ no_refs (dpr_UBI9MinimalImage r) /\ no_refs (dpr_SkopeoImage r).

Definition noImages : DisconnectedPlatformReconciler :=
  mkPlatformReconciler "" "" "" "" "" "" "" false false false.

Definition collectionFacts : pipeline_facts := facts_of (collectionPipelineSpec noImages).
Definition importFacts : pipeline_facts := facts_of (importPipelineSpec noImages).

Lemma no_refs_empty : no_refs "".
Proof. done. Qed.

(** Both sides are normalised up to the scans of the texts, those of the images removed. *)
Ltac facts_go :=
  let u9 := fresh in let um := fresh in let sk := fresh in
  intros r; destruct r as [? ? ? ? sk u9 um ? ? ?]; intros ([?H ?H] & [?H ?H] & [?H ?H]);
  destruct no_refs_empty as [?H ?H]; cbn [dpr_UBI9Image dpr_UBI9MinimalImage dpr_SkopeoImage] in *;
  cbv -[dollar_refs mount_refs];
  repeat match goal with H : ?f ?x = [] |- _ => rewrite H; clear H end;
  cbv -[dollar_refs mount_refs]; reflexivity.

Lemma collection_facts : forall r,
  plain_images r -> facts_of (collectionPipelineSpec r) = collectionFacts.
Proof. facts_go. Qed.

Lemma import_facts : forall r,
  plain_images r -> facts_of (importPipelineSpec r) = importFacts.
Proof. facts_go. Qed.

(** The checks, evaluated once. *)
Lemma collection_checked :
  well_formed collectionFacts = true /\ acyclic (pf_tasks collectionFacts) = true /\
  nodup_names (map tf_name (pf_tasks collectionFacts)) = true.
Proof. by vm_compute. Qed.
Lemma collection_no_cycle : no_cycle (map withResultRefs (pf_tasks collectionFacts)).
Proof. apply acyclic_no_cycle; by vm_compute. Qed.

Lemma import_checked :
  well_formed importFacts = true /\ acyclic (pf_tasks importFacts) = true /\
  nodup_names (map tf_name (pf_tasks importFacts)) = true.
Proof. by vm_compute. Qed.
Lemma import_no_cycle : no_cycle (map withResultRefs (pf_tasks importFacts)).
Proof. apply acyclic_no_cycle; by vm_compute. Qed.

(** ** Theorems *)

(** C20: The two pipelines the platform installs are well formed, whatever images the operator
    is configured with: their tasks, parameters and workspaces have distinct names, a task
    waits for tasks of the pipeline and uses workspaces of the pipeline, every variable in its
    texts (the shell scripts included) names a declared parameter or a result the task
    declares, only a final task asks for the status of the run, and the results of the
    pipeline are results of its tasks.  No task waits for itself, directly or through others, be
    it by the order that is declared or for a result it uses.  Mounting is right too, with one exception: the
    script of build-rhcos-server looks for the CA bundle in a workspace the task does not
    have. *)
Theorem pipelines_well_formed r :
  plain_images r ->
  well_formed (facts_of (collectionPipelineSpec r)) = true /\
  well_formed (facts_of (importPipelineSpec r)) = true /\
  no_cycle (map withResultRefs (pf_tasks (facts_of (collectionPipelineSpec r)))) /\
  no_cycle (map withResultRefs (pf_tasks (facts_of (importPipelineSpec r)))) /\
  map tf_name (List.filter (fun t => negb (mounts_ok t)) (pf_tasks (facts_of (collectionPipelineSpec r))))
    = ["build-rhcos-server"] /\
  List.filter (fun t => negb (mounts_ok t)) (pf_tasks (facts_of (importPipelineSpec r))) = [].
Proof.
  intros H. rewrite collection_facts, import_facts by done.
  split_and!; [apply collection_checked|apply import_checked|apply collection_no_cycle|apply import_no_cycle|
               by vm_compute..].
Qed.

(** C30: No order of the tasks blocks a run.  Whatever tasks of a collection (or of an import)
    are complete, either all are, or one that is not can start now; and a run has at most
    sixteen (six) steps. *)
Theorem pipelines_complete r completed :
  plain_images r ->
  (let ts := pf_tasks (facts_of (collectionPipelineSpec r)) in
   tasks_run ts completed ->
   (length completed <= 16)%nat /\ (~ complete ts completed -> exists t, enabled ts t completed)) /\
  (let ts := pf_tasks (facts_of (importPipelineSpec r)) in
   tasks_run ts completed ->
   (length completed <= 6)%nat /\ (~ complete ts completed -> exists t, enabled ts t completed)).
Proof.
  intros H. rewrite collection_facts, import_facts by done.
  split; intros ts Hrun.
  - split; [exact (run_bound ts completed Hrun)|]. apply acyclic_progress, collection_checked.
  - split; [exact (run_bound ts completed Hrun)|]. apply acyclic_progress, import_checked.
Qed.

(** Task [y] of the collection pipeline is complete before [x] is. *)
Definition comes_before (y x : string) : Prop :=
  forall r completed, plain_images r ->
    tasks_run (pf_tasks (facts_of (collectionPipelineSpec r))) completed ->
    In x completed -> In y completed.

Lemma comes_before_ancestors y x :
  containsString (ancestors (pf_tasks collectionFacts) 16 x) y = true -> comes_before y x.
Proof.
  intros Hy%containsString_In r completed Hr Hrun Hx. rewrite collection_facts in Hrun by done.
  eapply run_ancestors; [done|apply collection_checked|done|done].
Qed.

(** C21: The order of a collection, over every execution its pipeline allows: images are in the
    intermediate registry before they are scanned, scanned before they are signed and signed
    before they are pulled into the bundle; the bundle is complete before it is signed, and
    nothing is uploaded until every other task is complete.  The SBOM of the bundle comes
    after the bundle and its signature, so the bundle that is uploaded never holds the SBOM
    of this run, nor is that SBOM signed in this run. *)
Theorem collection_order :
  comes_before "mirror-to-intermediate" "syft-sbom" /\
  comes_before "syft-sbom" "sign-images" /\
  comes_before "sign-images" "mirror-from-intermediate" /\
  comes_before "mirror-from-intermediate" "repackage-bundle" /\
  comes_before "repackage-bundle" "sign-bundles" /\
  comes_before "sign-bundles" "create-bundle-sbom" /\
  (forall t, In t (pf_tasks collectionFacts) -> tf_name t = "upload-to-s3" \/
     comes_before (tf_name t) "upload-to-s3").
Proof.
  split_and!; try (apply comes_before_ancestors; by vm_compute).
  assert (H : forallb (fun t => (tf_name t == "upload-to-s3") ||
                 containsString (ancestors (pf_tasks collectionFacts) 16 "upload-to-s3") (tf_name t))
                (pf_tasks collectionFacts) = true) by by vm_compute.
  intros t Ht. rewrite forallb_forall in H. specialize (H t Ht).
  apply orb_true_iff in H as [H|H]; str_eq; [by left|right; by apply comes_before_ancestors].
Qed.

(** The parameter that says whether there is a bucket is never looked at, nor is the one that
    names the secret of the verification key: the upload runs without a bucket too. *)
Example unused_parameters :
  let used p x := containsString (flat_map (fun t => omap param_ref (tf_vars t)) (pf_tasks p ++ pf_finally p)) x in
  List.filter (fun x => negb (used collectionFacts x)) (pf_params collectionFacts)
    = ["config-map-name"; "working-pvc-name"; "has-s3"] /\
  List.filter (fun x => negb (used importFacts x)) (pf_params importFacts) = ["cosign-pub-secret"] /\
  jget uploadToS3Task "when" = JNil.
Proof. by vm_compute. Qed.

(** ** The runs fit the pipelines *)

(** The parameters without a default, and the workspaces that are not optional. *)
Definition required_params (spec : fields) : list string :=
  omap (fun o => if jhas o "default" then None else as_string (jget o "name")) (maps_at spec "params").
Definition required_workspaces (spec : fields) : list string :=
  omap (fun o => match jget o "optional" with JBool true => None | _ => as_string (jget o "name") end)
    (maps_at spec "workspaces").

(** A run of the pipeline [name], whose specification is [spec]: it supplies each required
    parameter and binds each required workspace, and supplies and binds nothing twice and
    nothing else. *)
Definition run_fits (name : string) (spec : fields) (pr : PipelineRun) : bool :=
  let supplied := map p_Name (prs_Params (pr_Spec pr)) in
  let bound := map ws_Name (prs_Workspaces (pr_Spec pr)) in
  bool_decide (prs_PipelineRef (pr_Spec pr) = Some name)
  && nodup_names supplied && all_in (required_params spec) supplied
  && all_in supplied (names_at spec "params")
  && nodup_names bound && all_in (required_workspaces spec) bound
  && all_in bound (names_at spec "workspaces").

Section RunsFit.
Context {X : Externals} {Y : IscYaml}.

Lemma collectionPipelineRun_fits dr r p cm wpvc reg (tpa : bool * (string * string * string)) s3 found2 proxy platform :
  run_fits "collection-pipeline-template" (collectionPipelineSpec dr)
    (collectionPipelineRun p
       (baseParams r p cm wpvc ++ [strParam "intermediate-registry" reg] ++
        signingParams p ++ tpaParams tpa ++ s3Params s3 ++ architectParamsOf found2 ++
        cliParams p ++ proxyParams proxy ++ rhcosParams platform ++ osusParams platform)
       (baseWorkspaces cm wpvc ++ oidcWorkspace p ++ tpaWorkspace (fst tpa) ++ cosignWorkspace p ++
        finalWorkspaces)) = true.
Proof.
  destruct tpa as [hasTPA [[th ti] tc]], s3 as [[[bu en] re] se], proxy as [[h1 h2] h3].
  assert (Ha : map p_Name (architectParamsOf found2) =
            ["architect-frontend-image"; "architect-backend-image"; "architect-export-enabled"]).
  { unfold architectParamsOf. by destruct (match found2 with Ok (Some _) => _ | _ => _ end). }
  unfold run_fits. cbn [pr_Spec prs_Params prs_Workspaces collectionPipelineRun fst prs_PipelineRef].
  rewrite !map_app, Ha. unfold oidcWorkspace, tpaWorkspace, cosignWorkspace.
  destruct (keylessOf p ≫= ksc_OIDCClientSecret), hasTPA, (cps_Signing (cp_Spec p) ≫= csc_KeySecretRef);
    reflexivity.
Qed.

Lemma importPipelineRun_fits dr r m n nodes :
  run_fits "import-pipeline-template" (importPipelineSpec dr)
    (importPipelineRun m (ImportController.importParams r m nodes) (ImportController.importWorkspaces m n)) = true.
Proof. reflexivity. Qed.

(** C19: The runs fit the pipelines they refer to.  Every run the collection reconciler builds
    refers to the collection pipeline, supplies each of its parameters that has no default
    and binds each of its workspaces that is not optional, and supplies and binds nothing
    twice and nothing the pipeline does not declare; so does every run the import
    reconciler builds with the import pipeline. *)
Theorem runs_fit_pipelines (dr : DisconnectedPlatformReconciler) :
  (forall r p cm tr pr, exec (buildPipelineRun r p cm) tr (Done (Ok pr)) ->
     run_fits "collection-pipeline-template" (collectionPipelineSpec dr) pr = true) /\
  (forall r m n tr pr, exec (buildImportPipelineRun r m n) tr (Done pr) ->
     run_fits "import-pipeline-template" (importPipelineSpec dr) pr = true).
Proof.
  split.
  - intros r p cm tr pr H.
    destruct (rg_exec _ _ _ _ _ _ (buildPipelineRun_shape r p cm) H) as [_ Hp]; [by apply Forall_true|].
    destruct Hp as (? & ? & ? & ? & ? & ? & ? & _ & _ & _ & ->). apply collectionPipelineRun_fits.
  - intros r m n tr pr H. apply exec_bind in H as [(msg & _ & E)|(nodes & s1 & s2 & _ & H & _)]; [done|].
    apply exec_inv in H as [_ [= ->]]. apply importPipelineRun_fits.
Qed.
End RunsFit.

(** ** Witnesses *)

Definition sampleReconcilerP : DisconnectedPlatformReconciler :=
  mkPlatformReconciler "oc-mirror:v2" "front:1" "back:1" "plugin:1" "skopeo:1" "ubi9:1" "ubi9-minimal:1"
    true true true.

Lemma sample_plain_images : plain_images sampleReconcilerP.
Proof. done. Qed.

Lemma pipelines_well_formed_witness :
  well_formed (facts_of (collectionPipelineSpec sampleReconcilerP)) = true.
Proof. exact (proj1 (pipelines_well_formed sampleReconcilerP sample_plain_images)). Defined.

(** A run of the collection pipeline that has come to its fifth task. *)
Definition halfway : list string :=
  ["mirror-to-intermediate"; "dry-run"; "build-rhcos-server"; "oc-mirror"; "download-rhcos-images"].
Lemma run_task_named ts x l :
  tasks_run ts l ->
  (exists t, find_first (fun t => (tf_name t == x) && ready l t) ts = Some t) -> tasks_run ts (x :: l).
Proof.
  intros Hl (t & E). apply find_first_Some in E as [Ht H]. str_eq. subst x.
  apply run_task; [done|]. by apply ready_enabled.
Qed.
Lemma halfway_run : tasks_run (pf_tasks (facts_of (collectionPipelineSpec sampleReconcilerP))) halfway.
Proof.
  rewrite collection_facts by apply sample_plain_images.
  do 5 (apply run_task_named; [|eexists; vm_compute; reflexivity]). apply run_nil.
Qed.

Lemma pipelines_complete_witness :
  (length halfway <= 16)%nat /\
  exists t, enabled (pf_tasks (facts_of (collectionPipelineSpec sampleReconcilerP))) t halfway.
Proof.
  destruct (pipelines_complete sampleReconcilerP halfway sample_plain_images) as [H _].
  destruct (H halfway_run) as [H1 H2]. split; [exact H1|]. apply H2. intros Hc.
  assert (Hn : containsString halfway "upload-to-s3" = true); [|by vm_compute in Hn].
  apply containsString_In. rewrite collection_facts in Hc by apply sample_plain_images.
  assert (E : exists t, find_first (fun t => tf_name t == "upload-to-s3") (pf_tasks collectionFacts) = Some t)
    by (eexists; vm_compute; reflexivity).
  destruct E as [t E]. apply find_first_Some in E as [E1 E2]. str_eq. rewrite <- E2. by apply Hc.
Defined.

(** The run the collection reconciler builds for the sample pipeline. *)
#[local] Existing Instance sampleX.
#[local] Existing Instance sampleYaml.
Definition builtRun : option PipelineRun :=
  match outcomeOf (buildPipelineRun sampleReconciler sampleP sampleCM) emptyStore with
  | Done (Ok pr) => Some pr
  | _ => None
  end.

Lemma runs_fit_pipelines_witness :
  exists pr, builtRun = Some pr /\
  run_fits "collection-pipeline-template" (collectionPipelineSpec sampleReconcilerP) pr = true.
Proof.
  assert (H := traceOf_exec (buildPipelineRun sampleReconciler sampleP sampleCM) emptyStore).
  assert (E : exists pr, outcomeOf (buildPipelineRun sampleReconciler sampleP sampleCM) emptyStore = Done (Ok pr))
    by (eexists; vm_compute; reflexivity).
  destruct E as [pr E]. exists pr. split; [unfold builtRun; by rewrite E|].
  rewrite E in H. exact (proj1 (runs_fit_pipelines sampleReconcilerP) _ _ _ _ _ H).
Defined.

(** The images are signed in a run that goes on from there. *)
Definition signed : list string := ["sign-images"; "syft-sbom"] ++ halfway.

Lemma collection_order_witness :
  plain_images sampleReconcilerP /\
  (tasks_run (pf_tasks (facts_of (collectionPipelineSpec sampleReconcilerP))) signed -> In "syft-sbom" signed) /\
  tasks_run (pf_tasks (facts_of (collectionPipelineSpec sampleReconcilerP))) signed.
Proof.
  destruct collection_order as (_ & H & _).
  split; [exact sample_plain_images|]. split.
  - intros Hr. apply (H sampleReconcilerP signed sample_plain_images Hr). by left.
  - assert (Hh := halfway_run). revert Hh. unfold signed.
    rewrite collection_facts by apply sample_plain_images. intros Hh.
    do 2 (apply run_task_named; [|eexists; vm_compute; reflexivity]). exact Hh.
Defined.
