(* ===== verification/CABundleProps.v ===== *)
(** Properties of the objects the platform keeps as they should be: which functions implement
    the contract of Ensure, that they settle, and what the combined CA bundle holds. *)
From S2P Require Import Prelude GoStrings Sha256 K8s Json Api Kube Externals Helpers Operators Platform.
From S2P Require Import CABundles PullSecrets Pipelines Instances Samples Ensure.

(** ** Specifications *)

(** The ConfigMap of a namespace into which the cluster's CA bundle is injected. *)
Definition clusterCASpec (namespace : string) : ensure_spec KConfigMap :=
  @mkEnsure KConfigMap (mkNN namespace clusterCABundleName)
    (fun cm => default "" (om_Labels (cm_Meta cm) !! injectLabel) == "true")
    (fun cm => cm <| cm_Meta ::= fun om => om <| om_Labels ::= <[ injectLabel := "true" ]> |> |>)
    (mkConfigMap (meta0 <| om_Name := clusterCABundleName |> <| om_Namespace := namespace |>
                        <| om_Labels := {[ injectLabel := "true" ]} |>) None)
    noWrap noWrap.

(** The ConfigMap into which the CA of the service certificates is injected. *)
Definition serviceCASpec : ensure_spec KConfigMap :=
  @mkEnsure KConfigMap (mkNN architectNamespace serviceCAConfigMap)
    (fun cm => default "" (om_Annotations (cm_Meta cm) !! injectCAAnnotation) == "true")
    annotatedForCA serviceCA0 noWrap noWrap.

(** The copy of the pull secret for the update service. *)
Definition osusSecretSpec (source : Secret) : ensure_spec KSecret :=
  @mkEnsure KSecret (mkNN osusNamespace "pull-secret")
    (fun s => map_get (sec_Data s) pullSecretKey == map_get (sec_Data source) pullSecretKey)
    (fun s => s <| sec_Data := sec_Data source |>)
    (mkTypedSecret (meta0 <| om_Name := "pull-secret" |> <| om_Namespace := osusNamespace |>)
       (sec_Data source) (sec_Type source))
    noWrap noWrap.

(** The Pipeline of the collections, for an encoded specification. *)
Definition templateSpec {X : Externals} (platform : DisconnectedPlatform) (specJSON : string)
    (spec : option fields) : ensure_spec (KUnstructured pipelineGVK) :=
  let hash := EncodeToString (Sum256 specJSON) in
  let pipeline := pipelineObject platform "collection-pipeline-template" {[ specHashAnnotation := hash ]} spec in
  @mkEnsure (KUnstructured pipelineGVK) (mkNN architectNamespace "collection-pipeline-template")
    (fun o => default "" (om_Annotations (u_Meta o) !! specHashAnnotation) == hash)
    (fun o => withVersionOf o pipeline) pipeline
    (Wrapf "failed to update collection pipeline template")
    (Wrapf "failed to create collection pipeline template").

#[export] Instance clusterCA_converges ns : Converges (clusterCASpec ns).
Proof.
  constructor; try done.
  intros o. simpl. rewrite lookup_insert_eq. apply str_eqb_refl.
Qed.

#[export] Instance serviceCA_converges : Converges serviceCASpec.
Proof.
  constructor; try done.
  intros o. simpl. rewrite lookup_insert_eq. apply str_eqb_refl.
Qed.

#[export] Instance osusSecret_converges source : Converges (osusSecretSpec source).
Proof. constructor; try done; intros; apply str_eqb_refl. Qed.

#[export] Instance template_converges {X : Externals} platform j spec : Converges (templateSpec platform j spec).
Proof.
  constructor; try done.
  - intros o. cbn [es_ok es_fix templateSpec withVersionOf pipelineObject controlledBy set u_Meta om_Annotations].
    simpl. rewrite lookup_singleton_eq. apply str_eqb_refl.
  - cbn [es_ok es_new templateSpec pipelineObject controlledBy set u_Meta om_Annotations].
    simpl. rewrite lookup_singleton_eq. apply str_eqb_refl.
Qed.

(** ** Refinement *)

Section Refinements.
Context {X : Externals}.

Lemma clusterCA_refines ns : refines (clusterCASpec ns) (ensureClusterCABundleInNamespace ns).
Proof.
  unfold ensureClusterCABundleInNamespace. refine_go; refine_leaf (clusterCASpec ns).
Qed.

Lemma serviceCA_refines : refines serviceCASpec ensureServiceCAConfigMap.
Proof.
  unfold ensureServiceCAConfigMap. refine_go; refine_leaf serviceCASpec.
Qed.

Lemma osusSecret_refines source : refines (osusSecretSpec source) (copyPullSecretToOSUS source).
Proof.
  unfold copyPullSecretToOSUS. refine_go; refine_leaf (osusSecretSpec source).
Qed.

Lemma template_refines r platform j spec :
  dps_Mode (dp_Spec platform) = PlatformModeConnected ->
  json_Marshal (JMap (collectionPipelineSpec r)) = Ok j -> json_Unmarshal_object j = Ok spec ->
  refines (templateSpec platform j spec) (reconcileCollectionPipelineTemplate r platform).
Proof.
  intros Hm Hj Hs. unfold reconcileCollectionPipelineTemplate. rewrite Hm, Hj, Hs, str_eqb_refl. cbn [negb].
  refine_go; refine_leaf (templateSpec platform j spec).
Qed.

(** C22: Four functions of the platform implement the contract of Ensure: each execution of
    the function, whatever the server answers, is one of its specification, that is, it
    reads one object, leaves it alone when it is as wanted, else replaces it, creates it
    when it does not exist, reports the error of the call that failed, and does nothing
    else.  They are the injected CA bundles of a namespace and of the services, the copy of
    the pull secret for the update service, and the Pipeline of the collections, whose
    annotation is the hash of the encoded specification. *)
Theorem functions_refine_ensure ns source r platform j spec :
  dps_Mode (dp_Spec platform) = PlatformModeConnected ->
  json_Marshal (JMap (collectionPipelineSpec r)) = Ok j -> json_Unmarshal_object j = Ok spec ->
  refines (clusterCASpec ns) (ensureClusterCABundleInNamespace ns) /\
  refines serviceCASpec ensureServiceCAConfigMap /\
  refines (osusSecretSpec source) (copyPullSecretToOSUS source) /\
  refines (templateSpec platform j spec) (reconcileCollectionPipelineTemplate r platform).
Proof.
  intros Hm Hj Hs. split_and!.
  - apply clusterCA_refines.
  - apply serviceCA_refines.
  - apply osusSecret_refines.
  - by apply template_refines.
Qed.

(** These functions settle: from any state of the cluster, on a server that does what it
    is told, one run succeeds, and a second run right after it writes nothing and changes
    nothing. *)
Theorem functions_settle (s : store) ns source r platform j spec :
  dps_Mode (dp_Spec platform) = PlatformModeConnected ->
  json_Marshal (JMap (collectionPipelineSpec r)) = Ok j -> json_Unmarshal_object j = Ok spec ->
  settles_on s (ensureClusterCABundleInNamespace ns) /\
  settles_on s ensureServiceCAConfigMap /\
  settles_on s (copyPullSecretToOSUS source) /\
  settles_on s (reconcileCollectionPipelineTemplate r platform).
Proof.
  intros Hm Hj Hs. split_and!.
  - apply (refines_settles_on (clusterCASpec ns)), clusterCA_refines.
  - apply (refines_settles_on serviceCASpec), serviceCA_refines.
  - apply (refines_settles_on (osusSecretSpec source)), osusSecret_refines.
  - by apply (refines_settles_on (templateSpec platform j spec)), template_refines.
Qed.

(** ** The combined bundle *)

(** The ConfigMap of the combined bundle, when the one that exists has data. *)
Definition combinedSpec (combined : string) : ensure_spec KConfigMap :=
  @mkEnsure KConfigMap (mkNN architectNamespace combinedCABundleName)
    (fun cm => map_get (cm_Data cm) clusterCABundleKey == combined)
    (fun cm => cm <| cm_Data ::= fun d => Some (<[ clusterCABundleKey := combined ]> (default ∅ d)) |>)
    (combinedConfigMap combined) noWrap noWrap.

Lemma combineCA_spec c s :
  combineCA c s = if c == "" then s else if s == "" then c else c +:+ newline +:+ s.
Proof.
  unfold combineCA. destruct (String.eqb_spec c ""), (String.eqb_spec s ""); subst; simpl; try done. apply app_str_assoc.
Qed.

Lemma putCombined_exec combined tr o :
  exec (putCombined combined) tr o ->
  (exists r, o = Done r /\ ensured (combinedSpec combined) tr r) \/
  (exists cm : ConfigMap, cm_Data cm = None /\ combined <> "" /\ o = Panicked nilMap /\
     tr = [Ev (CGet KConfigMap (mkNN architectNamespace combinedCABundleName)) (Ok cm)]).
Proof.
  intros H. apply exec_call_bind in H as (g & t & -> & H). destruct g as [cm|e].
  - destruct (map_get (cm_Data cm) clusterCABundleKey == combined) eqn:E.
    + apply exec_inv in H as [-> ->]. left. eexists. split; [done|]. by apply (ensured_ok (combinedSpec combined)).
    + destruct (cm_Data cm) as [data|] eqn:Ed.
      * apply exec_call_bind in H as (u & t2 & -> & H). apply exec_inv in H as [-> ->].
        left. eexists. split; [done|].
        replace (cm <| cm_Data := Some (<[clusterCABundleKey:=combined]> data) |>)
          with (es_fix (combinedSpec combined) cm) by (simpl; by rewrite Ed).
        apply (leaf_fixed (combinedSpec combined)); [simpl; by rewrite Ed|apply noWrap_err].
      * apply exec_inv in H as [-> ->]. right. exists cm. split_and!; [done| |done|done].
        intros ->. done.
  - destruct (IsNotFound e) eqn:E; cbn [negb] in H.
    + apply exec_call_bind in H as (c & t2 & -> & H). apply exec_inv in H as [-> ->].
      left. eexists. split; [done|]. apply (leaf_created (combinedSpec combined)); [done|apply noWrap_err].
    + apply exec_inv in H as [-> ->]. left. eexists. split; [done|]. by apply (ensured_failed (combinedSpec combined)).
Qed.

(** The combined CA bundle.  A run first sees to the service bundle, whose errors do not
    stop it, and reads both bundles.  When both are empty it ends there; otherwise it keeps
    the combined ConfigMap equal to the cluster bundle, a line feed and the service bundle
    (or the one that is there), by the contract of Ensure.  It panics in one case only: a
    combined ConfigMap without any data exists. *)
Theorem ensureCombinedCABundle_spec tr o :
  exec ensureCombinedCABundle tr o ->
  exists t1 (r1 : option error) (ca svc : result ConfigMap) rest,
    ensured serviceCASpec t1 r1 /\
    tr = t1 ++ Ev (CGet KConfigMap (mkNN architectNamespace clusterCABundleName)) ca ::
               Ev (CGet KConfigMap (mkNN architectNamespace serviceCAConfigMap)) svc :: rest /\
    let data cm k := match cm with Ok cm => map_get (cm_Data cm) k | Err _ => "" end in
    let clusterCA := data ca clusterCABundleKey in
    let serviceCA := data svc serviceCAKey in
    let combined := if clusterCA == "" then serviceCA
                    else if serviceCA == "" then clusterCA
                    else clusterCA +:+ newline +:+ serviceCA in
    if combined == "" then rest = [] /\ o = Done None
    else (exists r, o = Done r /\ ensured (combinedSpec combined) rest r) \/
         (exists cm : ConfigMap, cm_Data cm = None /\ o = Panicked nilMap /\
            rest = [Ev (CGet KConfigMap (mkNN architectNamespace combinedCABundleName)) (Ok cm)]).
Proof.
  unfold ensureCombinedCABundle. intros [(m & H & ->)|(r1 & t1 & t2 & H1 & H & ->)]%exec_bind.
  { destruct (serviceCA_refines _ _ H) as (r & [=] & _). }
  destruct (serviceCA_refines _ _ H1) as (r1' & [= <-] & He).
  apply exec_bind in H as [(m & H & _)|(ca & t3 & t4 & H3 & H & ->)].
  { apply exec_call_bind in H as (g & t & -> & H). by apply exec_inv in H as [_ [=]]. }
  apply exec_call_bind in H3 as (g & t & -> & H3). apply exec_inv in H3 as [-> [= ->]].
  apply exec_call_bind in H as (svc & rest & -> & H). cbv zeta in H.
  exists t1, r1, g, svc, rest. split; [done|]. split; [done|]. cbv zeta.
  set (c := match g with Ok cm => map_get (cm_Data cm) clusterCABundleKey | Err _ => "" end).
  set (s := match svc with Ok cm => map_get (cm_Data cm) serviceCAKey | Err _ => "" end) in *.
  assert (Hc : exec (if combineCA c s == "" then mret None else putCombined (combineCA c s)) rest o).
  { unfold c. destruct g as [cm|e]; [|exact H].
    destruct (map_get (cm_Data cm) clusterCABundleKey == "") eqn:E0; [|exact H].
    str_eq. rewrite E0. exact H. }
  clear H. rename Hc into H.
  rewrite combineCA_spec in H. set (combined := if c == "" then _ else _) in *.
  match goal with |- if ?x == "" then _ else _ => change x with combined end. destruct (combined == "") eqn:E3.
  - by apply exec_inv in H as [-> ->].
  - apply putCombined_exec in H as [H|(cm & H1' & _ & H2 & H3)]; [by left|right; by exists cm].
Qed.
End Refinements.

(** ** Witnesses *)

Definition sampleReconcilerC : DisconnectedPlatformReconciler :=
  mkPlatformReconciler "oc-mirror:v2" "front:1" "back:1" "plugin:1" "skopeo:1" "ubi9:1" "ubi9-minimal:1"
    true true true.
Definition samplePlatformC : DisconnectedPlatform :=
  mkDisconnectedPlatform (mkTypeMeta "" "") (sampleMeta "" "platform")
    (mkDisconnectedPlatformSpec PlatformModeConnected None None None None)
    (mkDisconnectedPlatformStatus "" [] None [] None [] [] None).

(** The specification as it comes back from its text. *)
Definition sampleTemplate : json := plain_of (JMap (collectionPipelineSpec sampleReconcilerC)).
Definition sampleTemplateFields : fields := match sampleTemplate with JMap m => m | _ => [] end.

Lemma sampleTemplate_decoded :
  json_Unmarshal_object (Externals := sampleX) (json_text sampleTemplate) = Ok (Some sampleTemplateFields).
Proof. apply json_object_of_text_text. vm_compute. reflexivity. Qed.

#[local] Strategy opaque [collectionPipelineSpec Sum256].

(** A pull secret that is there in an old version is replaced. *)
Definition oldCopy : Secret := mkSecret (sampleMeta osusNamespace "pull-secret") (Some {[ pullSecretKey := "old" ]}).
Definition newSource : Secret := mkSecret (sampleMeta "openshift-config" "pull-secret") (Some {[ pullSecretKey := "new" ]}).

Lemma functions_refine_ensure_witness :
  exists r, outcomeOf (copyPullSecretToOSUS newSource) (with_objs emptyStore KSecret [oldCopy]) = Done r /\ r = None /\
  ensured (osusSecretSpec newSource)
    [Ev (CGet KSecret (mkNN osusNamespace "pull-secret")) (Ok oldCopy);
     Ev (CUpdate KSecret (es_fix (osusSecretSpec newSource) oldCopy))
        (Ok (es_fix (osusSecretSpec newSource) oldCopy))] r.
Proof.
  destruct (functions_refine_ensure (X := sampleX) "mirror" newSource sampleReconcilerC samplePlatformC
              (json_text sampleTemplate) (Some sampleTemplateFields) eq_refl eq_refl sampleTemplate_decoded)
    as (_ & _ & H & _).
  assert (He := traceOf_exec (copyPullSecretToOSUS newSource) (with_objs emptyStore KSecret [oldCopy])).
  destruct (H _ _ He) as (r & E & Hr). exists r. split; [exact E|].
  split; [vm_compute in E; congruence|exact Hr].
Defined.

Lemma functions_settle_witness :
  settles_on emptyStore (ensureClusterCABundleInNamespace "mirror") /\
  settles_on emptyStore ensureServiceCAConfigMap /\
  settles_on emptyStore (copyPullSecretToOSUS newSource) /\
  settles_on emptyStore (reconcileCollectionPipelineTemplate (X := sampleX) sampleReconcilerC samplePlatformC).
Proof.
  exact (functions_settle (X := sampleX) emptyStore "mirror" newSource sampleReconcilerC samplePlatformC
           (json_text sampleTemplate) (Some sampleTemplateFields) eq_refl eq_refl sampleTemplate_decoded).
Defined.

(** The bundles of the cluster and of the services, and a combined ConfigMap without data. *)
Definition caStore (combined : list ConfigMap) : store :=
  with_objs emptyStore KConfigMap
    (mkConfigMap (sampleMeta architectNamespace clusterCABundleName) (Some {[ clusterCABundleKey := "A" ]}) ::
     mkConfigMap (sampleMeta architectNamespace serviceCAConfigMap) (Some {[ serviceCAKey := "B" ]}) :: combined).
Definition noData : ConfigMap := mkConfigMap (sampleMeta architectNamespace combinedCABundleName) None.

Lemma ensureCombinedCABundle_spec_witness :
  outcomeOf ensureCombinedCABundle (caStore [noData]) = Panicked nilMap /\
  (exists t1 (r1 : option error) (ca svc : result ConfigMap) rest,
    ensured serviceCASpec t1 r1 /\
    traceOf ensureCombinedCABundle (caStore []) =
      t1 ++ Ev (CGet KConfigMap (mkNN architectNamespace clusterCABundleName)) ca ::
            Ev (CGet KConfigMap (mkNN architectNamespace serviceCAConfigMap)) svc :: rest) /\
  map cm_Data (List.filter (has_key (K := KConfigMap) (mkNN architectNamespace combinedCABundleName))
    (st_objs (snd (run ensureCombinedCABundle (caStore []))) KConfigMap))
    = [Some {[ clusterCABundleKey := "A" +:+ newline +:+ "B" ]}].
Proof.
  split; [vm_compute; reflexivity|]. split; [|vm_compute; reflexivity].
  destruct (ensureCombinedCABundle_spec _ _ (traceOf_exec ensureCombinedCABundle (caStore [])))
    as (t1 & r1 & ca & svc & rest & H1 & H2 & _).
  exists t1, r1, ca, svc, rest. split; [exact H1|exact H2].
Defined.
