(* ===== verification/Quay.v ===== *)
(** The managed Quay ([disconnectedplatform_controller.go]): the configuration of Clair, the
    environment of the registry and its components. *)
From S2P Require Import Prelude GoStrings K8s Json Api Kube Externals Helpers Operators Platform.
From S2P Require Import CABundles PullSecrets.

(** ** Clair *)

(** What follows the first ["key:"] of the first line that has one, before the next. *)
Fixpoint extractFrom (lines : list string) (sep : string) : string :=
  match lines with
  | [] => ""
  | line :: rest =>
      if Contains line sep then TrimSpace (nth 1 (Split line sep) "") else extractFrom rest sep
  end.
Definition extractPSKKey (config : string) : string := extractFrom (Split config newline) "key:".
Definition extractValue (config key : string) : string := extractFrom (Split config newline) (key +:+ ":").

Definition vexConfigFormat : string := "auth:
    psk:
        iss:
            - quay
            - clairctl
        key: %s
http_listen_addr: :8080
indexer:
    connstring: %s
    layer_scan_concurrency: 5
    migrations: true
    scanlock_retry: 10
log_level: info
matcher:
    connstring: %s
    migrations: true
metrics:
    name: prometheus
notifier:
    connstring: %s
    delivery_interval: 1m0s
    migrations: true
    poll_interval: 5m0s
    webhook:
        callback: http://mirror-operator-quay-clair-app/notifier/api/v1/notifications
        target: %s
updaters:
    sets:
        - rhcc
    config:
        rhcc:
            url: https://access.redhat.com/security/data/csaf/v2/vex/
            vex: true
".

Definition vexConfig (clairConfig : string) : string :=
  let connString := extractValue clairConfig "connstring" in
  Sprintf vexConfigFormat
    [extractPSKKey clairConfig; connString; connString; connString; extractValue clairConfig "target"].

Definition isConfigVolume (v : Volume) : bool := vol_Name v == "config".
Definition configSecretOf (v : Volume) : option string :=
  match vol_Source v with
  | VolSecret s => if isConfigVolume v then Some s else None
  | _ => None
  end.

(** The secret of the first volume that is named config and is a secret. *)
Fixpoint currentConfigSecret (volumes : list Volume) : string :=
  match volumes with
  | [] => ""
  | v :: rest => match configSecretOf v with Some s => s | None => currentConfigSecret rest end
  end.

(** The first volume named config gets the secret; [None]: it is not a secret, a nil
    dereference. *)
Fixpoint setConfigSecret (volumes : list Volume) (secretName : string) : option (list Volume) :=
  match volumes with
  | [] => Some []
  | v :: rest =>
      if isConfigVolume v then
        match vol_Source v with
        | VolSecret _ => Some (mkVolume (vol_Name v) (VolSecret secretName) :: rest)
        | _ => None
        end
      else option_map (cons v) (setConfigSecret rest secretName)
  end.

Definition nilPointer : string := "invalid memory address or nil pointer dereference".

Section Quay.
Context {X : Externals}.

(** [StringData] is merged into the data by the server. *)
Definition putVexSecret (quayRegistry : Unstructured) (name config : string) : prog (option error) :=
  let ns := om_Namespace (u_Meta quayRegistry) in
  c ← Create KSecret
        (mkSecret (ownedByUnstructured quayRegistry (meta0 <| om_Name := name |> <| om_Namespace := ns |>))
           (Some {[ "config.yaml" := config ]}));
  match c with
  | Ok _ => mret None
  | Err e =>
      if IsAlreadyExists e then
        g ← Get KSecret (mkNN ns name);
        match g with
        | Err e => mret (Some e)
        | Ok existing =>
            u ← Update KSecret
                  (existing <| sec_Data ::= fun d => Some (<[ "config.yaml" := config ]> (default ∅ d)) |>);
            mret (err_of u)
        end
      else mret (Some e)
  end.

Definition configureClairVEX (quayRegistry : Unstructured) : prog (option error) :=
  let name := om_Name (u_Meta quayRegistry) in
  let ns := om_Namespace (u_Meta quayRegistry) in
  g ← Get KDeployment (mkNN ns (name +:+ "-clair-app"));
  match g with
  | Err e =>
      if IsNotFound e then mret None else mret (Some (Wrapf "failed to get Clair deployment" e))
  | Ok deployment =>
      let volumes := ps_Volumes (dep_PodSpec deployment) in
      let current := currentConfigSecret volumes in
      if current == "" then mret (Some (Errorf "could not find config volume in Clair deployment"))
      else
        s ← Get KSecret (mkNN ns current);
        match s with
        | Err e => mret (Some (Wrapf "failed to get current Clair config secret" e))
        | Ok secret =>
            let customSecretName := name +:+ "-clair-vex-config" in
            orReturn
              (putVexSecret quayRegistry customSecretName
                 (vexConfig (map_get (sec_Data secret) "config.yaml")))
              (if current != customSecretName then
                 match setConfigSecret volumes customSecretName with
                 | None => Panic nilPointer
                 | Some volumes =>
                     u ← Update KDeployment
                           (deployment <| dep_PodSpec ::= fun p => p <| ps_Volumes := volumes |> |>);
                     mret (option_map (Wrapf "failed to update Clair deployment with VEX config") (err_of u))
                 end
               else mret None)
        end
  end.

(** ** The components of the registry *)

Definition componentsPath : list string := ["spec"; "components"].

Definition desiredEnvVars : list fields :=
  [envMap "GUNICORN_CMD_ARGS" "--timeout 300"; envMap "WORKER_COUNT_REGISTRY" "2"].

Definition envNames (envList : list json) : list string :=
  omap (fun e => as_map e ≫= fun m => as_string (jget m "name")) envList.
Definition missingEnvVars (envList : list json) : list json :=
  map JMap (List.filter (fun d => negb (containsString (envNames envList)
                                     (default "" (as_string (jget d "name"))))) desiredEnvVars).

(** The components with the variables the first component of kind quay lacks: nothing to
    change, the new components, or the failed assertion that its overrides are a map. *)
Inductive component_change := Unchanged | Changed (components : list json) | BadOverrides.

Definition consChange (c : json) (r : component_change) : component_change :=
  match r with Changed l => Changed (c :: l) | _ => r end.

Fixpoint withEnvVars (components : list json) : component_change :=
  match components with
  | [] => Unchanged
  | comp :: rest =>
      match as_map comp with
      | None => consChange comp (withEnvVars rest)
      | Some c =>
          if nested_string c ["kind"] != "quay" then consChange comp (withEnvVars rest)
          else
            let envList := nested_slice c ["overrides"; "env"] in
            match missingEnvVars envList with
            | [] => Unchanged
            | missing =>
                match jget c "overrides" with
                | JNil => Changed (JMap (jset c "overrides" (JMap [("env", JList (envList ++ missing))])) :: rest)
                | JMap overrides =>
                    Changed (JMap (jset c "overrides" (JMap (jset overrides "env" (JList (envList ++ missing))))) :: rest)
                | _ => BadOverrides
                end
            end
      end
  end.

(** [SetNestedSlice(components)], then [Update].  The caller's object is changed, so it is part
    of the result. *)
Definition putComponents (quayRegistry : Unstructured) (components : list json)
  : prog (Unstructured * option error) :=
  match SetNestedSlice (u_Object quayRegistry) components componentsPath with
  | (_, Some e) => mret (quayRegistry, Some e)
  | (o, None) =>
      let quayRegistry := quayRegistry <| u_Object := o |> in
      u ← Update KQuayRegistry quayRegistry;
      mret (match u with Ok stored => (stored, None) | Err e => (quayRegistry, Some e) end)
  end.

Definition badAssertion : string := "interface conversion".

Definition ensureQuayGunicornTimeout (quayRegistry : Unstructured) : prog (Unstructured * option error) :=
  let '(components, found, err) := NestedSlice (u_Object quayRegistry) componentsPath in
  match (err : option error), (found : bool) with
  | Some e, _ => mret (quayRegistry, Some e)
  | None, false => mret (quayRegistry, None)
  | None, true =>
      match withEnvVars components with
      | Unchanged => mret (quayRegistry, None)
      | BadOverrides => Panic badAssertion
      | Changed components => putComponents quayRegistry components
      end
  end.

(** The components route and tls are no longer managed; [None]: they were not. *)
Definition unmanaged (comp : json) : option json :=
  match as_map comp with
  | None => None
  | Some c =>
      let kind_ := nested_string c ["kind"] in
      if (kind_ == "route") || (kind_ == "tls") then
        let '(managed, _, _) := NestedBool c ["managed"] in
        if (managed : bool) then Some (JMap (jset c "managed" (JBool false))) else None
      else None
  end.

Definition ensureQuayComponentsUnmanaged (quayRegistry : Unstructured) : prog (Unstructured * option error) :=
  let '(components, found, err) := NestedSlice (u_Object quayRegistry) componentsPath in
  match (err : option error), (found : bool) with
  | Some e, _ => mret (quayRegistry, Some e)
  | None, false => mret (quayRegistry, None)
  | None, true =>
      if existsb (fun c => match unmanaged c with Some _ => true | None => false end) components then
        putComponents quayRegistry (map (fun c => default c (unmanaged c)) components)
      else mret (quayRegistry, None)
  end.
End Quay.
