(* ===== verification/ConnectedQuay.v ===== *)
(** The Quay of a connected cluster ([disconnectedplatform_controller.go]): where it stores
    images, its certificate and its route, and the reconcile that creates it and keeps it
    configured.  The certificate of Keycloak, which is asked for in the same way, is here too. *)
From S2P Require Import Prelude GoStrings K8s Json Api Kube Externals Nested Helpers Operators Platform.
From S2P Require Import CABundles PullSecrets Quay.

Definition withConnected {A} (platform : DisconnectedPlatform) (k : ConnectedConfig -> prog A) : prog A :=
  match dps_Connected (dp_Spec platform) with
  | Some cc => k cc
  | None => Panic nilPointer
  end.
Definition setConnectedRegistry (registry : string) (platform : DisconnectedPlatform) : DisconnectedPlatform :=
  platform <| dp_Spec ::= fun s => s <| dps_Connected ::= fmap (fun cc => cc <| cc_MirrorRegistry := registry |>) |> |>.

(** ** Credentials of the storage *)

Record resolvedS3Credentials := mkS3Credentials {
  s3_Hostname : string;
  s3_Port : Z;
  s3_IsSecure : bool;
  s3_Bucket : string;
  s3_AccessKey : string;
  s3_SecretKey : string;
}.

(** The port and whether it is the one of HTTPS; a text that is not a number is passed over. *)
Definition portOf (text : option string) : Z * bool :=
  match text ≫= Atoi with
  | Some p => (p, (p =? 443)%Z)
  | None => (443%Z, true)
  end.

(** [host:port]. *)
Definition endpointOf (endpoint : string) : string * (Z * bool) :=
  if Contains endpoint ":" then
    match Split endpoint ":" with
    | [host; port] => (host, portOf (Some port))
    | host :: _ => (host, portOf None)
    | [] => (endpoint, portOf None)
    end
  else (endpoint, portOf None).

Definition explicitS3 (storage : QuayStorageConfig) : bool :=
  (qsc_S3AccessKey storage != "") || (qsc_S3SecretKey storage != "") || (qsc_S3Bucket storage != "") ||
  (qsc_S3Endpoint storage != "").
Definition explicitS3Credentials (storage : QuayStorageConfig) : resolvedS3Credentials :=
  let '(hostname, (port, isSecure)) := endpointOf (qsc_S3Endpoint storage) in
  mkS3Credentials hostname port isSecure (qsc_S3Bucket storage) (qsc_S3AccessKey storage)
    (qsc_S3SecretKey storage).

Definition obcGVK : GroupVersionKind := mkGVK "objectbucket.io" "v1alpha1" "ObjectBucketClaim".
Definition obcName : string := "quay-storage".
Definition obcKey : NamespacedName := mkNN architectNamespace obcName.

Definition obcCredentials (cm : ConfigMap) (sec : Secret) : resolvedS3Credentials :=
  let hostname := map_get (cm_Data cm) "BUCKET_HOST" in
  let portStr := map_get (cm_Data cm) "BUCKET_PORT" in
  let '(port, isSecure) := portOf (if portStr != "" then Some portStr else None) in
  mkS3Credentials
    (if hostname == "s3.openshift-storage.svc" then "s3.openshift-storage.svc.cluster.local" else hostname)
    port isSecure (map_get (cm_Data cm) "BUCKET_NAME") (map_get (sec_Data sec) "AWS_ACCESS_KEY_ID")
    (map_get (sec_Data sec) "AWS_SECRET_ACCESS_KEY").

(** ** The configuration of the registry *)

Definition radosGW (creds : resolvedS3Credentials) : json :=
  JMap [("hostname", JStr (s3_Hostname creds)); ("is_secure", JBool (s3_IsSecure creds));
        ("port", JInt (s3_Port creds)); ("bucket_name", JStr (s3_Bucket creds));
        ("access_key", JStr (s3_AccessKey creds)); ("secret_key", JStr (s3_SecretKey creds));
        ("storage_path", JStr "/datastorage/registry"); ("server_side_assembly", JBool false);
        ("maximum_chunk_size_mb", JInt 100)].

Definition s3QuayConfig (creds : resolvedS3Credentials) (serverHostname : string) : fields :=
  [("DISTRIBUTED_STORAGE_CONFIG", JMap [("default", JList [JStr "RadosGWStorage"; radosGW creds])]);
   ("DISTRIBUTED_STORAGE_DEFAULT_LOCATIONS", JList []);
   ("DISTRIBUTED_STORAGE_PREFERENCE", JList [JStr "default"])] ++
  (if serverHostname != "" then
     [("SERVER_HOSTNAME", JStr serverHostname); ("PREFERRED_URL_SCHEME", JStr "https")]
   else []) ++
  [("FEATURE_PROXY_STORAGE", JBool true)].

Definition certificateGVK : GroupVersionKind := mkGVK "cert-manager.io" "v1" "Certificate".

(** The certificate of some names, from the issuer of the platform. *)
Definition certificateSpec (secretName : string) (issuer : CertIssuerReference) (commonName : fields)
    (hostname : string) : fields :=
  [("secretName", JStr secretName);
   ("issuerRef", JMap [("name", JStr (cir_Name issuer));
      ("kind", JStr (if cir_Kind issuer != "" then cir_Kind issuer else "ClusterIssuer"))])] ++
  commonName ++
  [("dnsNames", JList [JStr hostname]); ("duration", JStr "8760h"); ("renewBefore", JStr "720h")].

Section Quay.
Context {X : Externals}.

Definition reconcileQuayOBC (platform : DisconnectedPlatform) : prog (result (option resolvedS3Credentials)) :=
  g ← Get (KUnstructured obcGVK) obcKey;
  match g with
  | Err e =>
      if IsNotFound e then
        let obc := unstructured_ obcGVK architectNamespace obcName
                     [("spec", JMap [("generateBucketName", JStr obcName);
                                     ("storageClassName", JStr "openshift-storage.noobaa.io")])] in
        c ← Create (KUnstructured obcGVK) (obc <| u_Meta ::= controlledBy platform |>);
        mret (match c with
              | Err e => Err (Wrapf "failed to create Quay storage OBC" e)
              | Ok _ => Ok None
              end)
      else mret (Err (Wrapf "failed to get Quay storage OBC" e))
  | Ok _ =>
      cm ← Get KConfigMap obcKey;
      match cm with
      | Err _ => mret (Ok None)
      | Ok obcConfigMap =>
          s ← Get KSecret obcKey;
          mret (match s with
                | Err _ => Ok None
                | Ok obcSecret => Ok (Some (obcCredentials obcConfigMap obcSecret))
                end)
      end
  end.

Definition resolveQuayS3Credentials (platform : DisconnectedPlatform) (storage : QuayStorageConfig)
  : prog (result (option resolvedS3Credentials)) :=
  if explicitS3 storage then mret (Ok (Some (explicitS3Credentials storage)))
  else reconcileQuayOBC platform.

Definition quayTLSSecret : string := "mirror-operator-quay-tls".

Definition getQuayTLSCertData : prog (result (string * string)) :=
  g ← Get KSecret (mkNN architectNamespace quayTLSSecret);
  mret (match g with
        | Err e => Err e
        | Ok tls =>
            let certPEM := map_get (sec_Data tls) "tls.crt" in
            let keyPEM := map_get (sec_Data tls) "tls.key" in
            if (certPEM == "") || (keyPEM == "") then
              Err (Errorf ("TLS secret " +:+ quayTLSSecret +:+ " missing tls.crt or tls.key"))
            else Ok (certPEM, keyPEM)
        end).

(** The configuration, with the certificate and the CA of the cluster when they are there. *)
Definition bundleData (configYAML : string) (tls : result (string * string)) (ca : result string)
  : gmap string string :=
  let data := {[ "config.yaml" := configYAML ]} in
  let data := match tls with
              | Ok (certPEM, keyPEM) => <["ssl.key" := keyPEM]> (<["ssl.cert" := certPEM]> data)
              | Err _ => data
              end in
  match ca with
  | Ok caData => if caData != "" then <[extraCAKey := caData]> data else data
  | Err _ => data
  end.

Definition createOrUpdateQuayS3ConfigSecret (quayRegistry : Unstructured) (creds : resolvedS3Credentials)
    (serverHostname : string) : prog (option error) :=
  match yaml_Marshal_map (s3QuayConfig creds serverHostname) with
  | Err e => mret (Some (Wrapf "failed to marshal Quay config" e))
  | Ok configYAML =>
      tls ← getQuayTLSCertData;
      ca ← getClusterCABundleData;
      let data := Some (bundleData configYAML tls ca) in
      let om := meta0 <| om_Name := om_Name (u_Meta quayRegistry) +:+ "-config-bundle" |>
                      <| om_Namespace := om_Namespace (u_Meta quayRegistry) |> in
      g ← Get KSecret (key_of_meta om);
      match g with
      | Ok existing =>
          u ← Update KSecret (existing <| sec_Data := data |>);
          mret (option_map (Wrapf "failed to update Quay config bundle secret") (err_of u))
      | Err e =>
          if negb (IsNotFound e) then mret (Some e)
          else
            c ← Create KSecret (mkTypedSecret (ownedByUnstructured quayRegistry om) data SecretTypeOpaque);
            mret (err_of c)
      end
  end.

(** ** Certificates and routes *)

(** A certificate that is asked for once; errors of the read are passed over. *)
Definition requestCertificate (name failure : string) (spec : fields) : prog (option error) :=
  g ← Get (KUnstructured certificateGVK) (mkNN architectNamespace name);
  match g with
  | Err e =>
      if IsNotFound e then
        c ← Create (KUnstructured certificateGVK)
              (unstructured_ certificateGVK architectNamespace name [("spec", JMap spec)]);
        mret (option_map (Wrapf failure) (err_of c))
      else mret None
  | Ok _ => mret None
  end.

Definition ensureKeycloakTLS (platform : DisconnectedPlatform) (hostname secretName : string)
  : prog (option error) :=
  withConnected platform (fun cc =>
    match cc_CertIssuer cc with
    | None => mret (Some (Errorf "spec.connected.certIssuer must be specified when not using custom tlsSecret"))
    | Some issuer =>
        requestCertificate "keycloak-certificate" "failed to create certificate"
          (certificateSpec secretName issuer [("commonName", JStr hostname)] hostname)
    end).

Definition ensureQuayTLSCertificate (platform : DisconnectedPlatform) (hostname : string)
  : prog (option error) :=
  match dps_Connected (dp_Spec platform) ≫= cc_CertIssuer with
  | None => mret (Some (Errorf "spec.connected.certIssuer must be specified for Quay TLS passthrough"))
  | Some issuer =>
      requestCertificate "quay-certificate" "failed to create Quay TLS certificate"
        (certificateSpec quayTLSSecret issuer [] hostname)
  end.

Definition getClusterIngressDomain : prog (result string) :=
  g ← Get (KUnstructured gvkIngress) (clusterKey "cluster");
  mret (match g with
        | Err e => Err (Wrapf "failed to get cluster ingress config" e)
        | Ok ingress =>
            let '(domain, found, err) := NestedString (u_Object ingress) ["spec"; "domain"] in
            if bool_decide (is_Some (err : option error)) || negb found || (domain == "") then
              Err (Errorf "cluster ingress domain not found")
            else Ok domain
        end).

Definition passthroughRoute (platform : DisconnectedPlatform) (quayRegistry : Unstructured)
    (domain : string) : Unstructured :=
  let ns := om_Namespace (u_Meta quayRegistry) in
  let routeName := om_Name (u_Meta quayRegistry) +:+ "-quay" in
  let route :=
    mkUnstructured routeGVK
      (meta0 <| om_Name := routeName |> <| om_Namespace := ns |>
             <| om_Labels := list_to_map
                  [("app.kubernetes.io/name", "quay-registry"); ("app.kubernetes.io/part-of", "mirror-operator");
                   ("app.kubernetes.io/managed-by", "mirror-operator")] |>)
      (set_fields
         [(["spec"; "host"], JStr (routeName +:+ "-" +:+ ns +:+ "." +:+ domain));
          (["spec"; "to"; "kind"], JStr "Service"); (["spec"; "to"; "name"], JStr (routeName +:+ "-app"));
          (["spec"; "to"; "weight"], JInt 100); (["spec"; "port"; "targetPort"], JStr "https");
          (["spec"; "tls"; "termination"], JStr "passthrough")] []) in
  setOwnerReference route platform.

Definition createPassthroughRoute (platform : DisconnectedPlatform) (quayRegistry : Unstructured)
  : prog (option error) :=
  d ← getClusterIngressDomain;
  match d with
  | Err e => mret (Some e)
  | Ok domain =>
      c ← Create (KUnstructured routeGVK) (passthroughRoute platform quayRegistry domain);
      mret (option_map (Wrapf "failed to create Quay passthrough route") (err_of c))
  end.

Definition ensureQuayPassthroughRoute (platform : DisconnectedPlatform) (quayRegistry : Unstructured)
  : prog (option error) :=
  g ← Get (KUnstructured routeGVK)
        (mkNN (om_Namespace (u_Meta quayRegistry)) (om_Name (u_Meta quayRegistry) +:+ "-quay"));
  match g with
  | Ok route =>
      if nested_string (u_Object route) ["spec"; "tls"; "termination"] == "passthrough" then mret None
      else
        d ← Delete (KUnstructured routeGVK) route;
        match d with
        | Some e => mret (Some (Wrapf "failed to delete existing Quay route" e))
        | None => createPassthroughRoute platform quayRegistry
        end
  | Err e =>
      if negb (IsNotFound e) then mret (Some e) else createPassthroughRoute platform quayRegistry
  end.

(** ** The load balancer of AWS *)

Definition ingressControllerGVK : GroupVersionKind := mkGVK "operator.openshift.io" "v1" "IngressController".
Definition publishingPath (rest : list string) : list string :=
  "spec" :: "endpointPublishingStrategy" :: rest.
Definition idleTimeoutPath : list string :=
  publishingPath ["loadBalancer"; "providerParameters"; "aws"; "classicLoadBalancer"; "connectionIdleTimeout"].

(** Required fields are written with the value they have, or their default. *)
Definition withIdleTimeout (ic : Unstructured) : Unstructured :=
  let current path d := let v := nested_string (u_Object ic) path in if v == "" then d else v in
  let scopePath := publishingPath ["loadBalancer"; "scope"] in
  let awsTypePath := publishingPath ["loadBalancer"; "providerParameters"; "aws"; "type"] in
  let typePath := publishingPath ["type"] in
  let scope := current scopePath "External" in
  let awsType := current awsTypePath "Classic" in
  let epsType := current typePath "LoadBalancerService" in
  ic <| u_Object ::= set_fields
    [(typePath, JStr epsType); (scopePath, JStr scope);
     (publishingPath ["loadBalancer"; "providerParameters"; "type"], JStr "AWS");
     (awsTypePath, JStr awsType); (idleTimeoutPath, JStr "5m0s")] |>.

Definition ensureAWSLoadBalancerTimeout : prog (option error) :=
  i ← Get (KUnstructured gvkInfrastructure) (clusterKey "cluster");
  match i with
  | Err e => mret (Some (Wrapf "failed to get Infrastructure" e))
  | Ok infra =>
      if nested_string (u_Object infra) ["status"; "platformStatus"; "type"] != "AWS" then mret None
      else
        g ← Get (KUnstructured ingressControllerGVK) (mkNN "openshift-ingress-operator" "default");
        match g with
        | Err e => mret (Some (Wrapf "failed to get IngressController" e))
        | Ok ic =>
            if nested_string (u_Object ic) idleTimeoutPath == "5m0s" then mret None
            else u ← Update (KUnstructured ingressControllerGVK) (withIdleTimeout ic); mret (err_of u)
        end
  end.

(** ** The reconcile *)

Definition useS3 (managed : ManagedQuayConfig) : bool :=
  match mqc_Storage managed with Some s => qsc_Type s == "s3" | None => false end.
Definition vexOnly (managed : ManagedQuayConfig) : bool :=
  match mqc_Clair managed with Some c => clc_UseRedHatVEXOnly c | None => false end.

(** The credentials when images are stored in S3; the storage is configured then. *)
Definition s3Credentials (platform : DisconnectedPlatform) (managed : ManagedQuayConfig)
  : prog (result (option resolvedS3Credentials)) :=
  match mqc_Storage managed with
  | Some storage =>
      c ← resolveQuayS3Credentials platform storage;
      mret (match c with Err e => Err (Wrapf "failed to resolve Quay S3 credentials" e) | Ok c => Ok c end)
  | None => Panic nilPointer
  end.

(** The configuration bundle of a registry that exists; its errors go to the log. *)
Definition refreshBundle (platform : DisconnectedPlatform) (managed : ManagedQuayConfig)
    (quayRegistry : Unstructured) (hostname : string) : prog (option error) :=
  if useS3 managed then
    c ← s3Credentials platform managed;
    match c with
    | Err e => mret (Some e)
    | Ok None => mret None
    | Ok (Some creds) => _ ← createOrUpdateQuayS3ConfigSecret quayRegistry creds hostname; mret None
    end
  else _ ← ensureQuayCAInConfigBundle quayRegistry; mret None.

(** The registry of the platform is the managed Quay; it is written to the stored platform. *)
Definition publishRegistry (platform : DisconnectedPlatform) (newRegistry : string)
  : prog (DisconnectedPlatform * option error) :=
  g ← Get KDisconnectedPlatform (key_of_meta (dp_ObjectMeta platform));
  match g with
  | Err e => mret (platform, Some (Wrapf "failed to refetch platform for mirrorRegistry update" e))
  | Ok latest =>
      withConnected latest (fun _ =>
        u ← Update KDisconnectedPlatform (setConnectedRegistry newRegistry latest);
        mret (match u with
              | Err e => (platform, Some (Wrapf "failed to update mirrorRegistry" e))
              | Ok _ => (setConnectedRegistry newRegistry platform, None)
              end))
  end.

(** The name the route of the registry gets. *)
Definition quayHostnameIn (quayRegistry : Unstructured) (domain : string) : string :=
  om_Name (u_Meta quayRegistry) +:+ "-quay-" +:+ om_Namespace (u_Meta quayRegistry) +:+ "." +:+ domain.

(** TLS is passed through to the registry; errors go to the log. *)
Definition passThrough (platform : DisconnectedPlatform) (quayRegistry : Unstructured) (hostname : string)
  : prog Unstructured :=
  passthroughHostname ← (if hostname == "" then
                           d ← getClusterIngressDomain;
                           mret (match d with Ok domain => quayHostnameIn quayRegistry domain | Err _ => "" end)
                         else mret hostname);
  _ ← (if passthroughHostname != "" then ensureQuayTLSCertificate platform passthroughHostname else mret None);
  _ ← ensureQuayPassthroughRoute platform quayRegistry;
  q ← ensureQuayComponentsUnmanaged quayRegistry;
  q ← ensureQuayGunicornTimeout (fst q);
  mret (fst q).

Definition keepQuay (platform : DisconnectedPlatform) (cc : ConnectedConfig) (managed : ManagedQuayConfig)
    (quayRegistry : Unstructured) : prog (DisconnectedPlatform * option error) :=
  h ← getQuayHostname quayRegistry;
  match h with
  | Err e => mret (platform, Some e)
  | Ok hostname =>
      b ← refreshBundle platform managed quayRegistry hostname;
      match b with
      | Some e => mret (platform, Some e)
      | None =>
          let newRegistry := hostname +:+ "/mirror" in
          p ← (if (hostname != "") && (cc_MirrorRegistry cc != newRegistry)
               then publishRegistry platform newRegistry
               else mret (platform, None));
          match p with
          | (platform, Some e) => mret (platform, Some e)
          | (platform, None) =>
              quayRegistry ← passThrough platform quayRegistry hostname;
              err ← (if vexOnly managed then configureClairVEX quayRegistry else mret None);
              mret (platform, err)
          end
      end
  end.

(** What the registry gets once it is created; errors go to the log. *)
Definition afterCreation (platform : DisconnectedPlatform) (managed : ManagedQuayConfig)
    (quayRegistry : Unstructured) (creds : option resolvedS3Credentials) (hostname : string)
  : prog (option error) :=
  _ ← (if useS3 managed then
         match creds with
         | Some creds => createOrUpdateQuayS3ConfigSecret quayRegistry creds hostname
         | None => Panic nilPointer
         end
       else ensureQuayCAInConfigBundle quayRegistry);
  _ ← ensureQuayPassthroughRoute platform quayRegistry;
  _ ← (if vexOnly managed then configureClairVEX quayRegistry else mret None);
  mret None.

Definition newQuay (replicaOverride : option Z) (managed : ManagedQuayConfig) : result Unstructured :=
  match SetNestedSlice [] (buildQuayComponents replicaOverride (negb (useS3 managed)) false false)
          componentsPath with
  | (_, Some e) => Err (Wrapf "failed to set QuayRegistry components" e)
  | (o, None) =>
      match SetNestedField o (JStr "mirror-operator-quay-config-bundle") ["spec"; "configBundleSecret"] with
      | (_, Some e) => Err (Wrapf "failed to set configBundleSecret" e)
      | (o, None) => Ok (unstructured_ quayRegistryGVK architectNamespace "mirror-operator-quay" o)
      end
  end.

Definition createQuay (platform : DisconnectedPlatform) (managed : ManagedQuayConfig) : prog (option error) :=
  c ← (if useS3 managed then s3Credentials platform managed else mret (Ok None));
  match c with
  | Err e => mret (Some e)
  | Ok creds =>
      if useS3 managed && negb (bool_decide (is_Some creds)) then mret None
      else
        replicaOverride ← resolveQuayReplicaOverride (mqc_Replicas managed);
        match newQuay replicaOverride managed with
        | Err e => mret (Some e)
        | Ok quayRegistry =>
            d ← getClusterIngressDomain;
            let hostname := match d with Ok domain => quayHostnameIn quayRegistry domain | Err _ => "" end in
            _ ← match d with Ok _ => ensureQuayTLSCertificate platform hostname | Err _ => mret None end;
            c ← Create KQuayRegistry quayRegistry;
            match c with
            | Err e => mret (Some (Wrapf "failed to create QuayRegistry" e))
            | Ok quayRegistry => afterCreation platform managed quayRegistry creds hostname
            end
        end
  end.

Definition reconcileManagedQuay (platform : DisconnectedPlatform) (cc : ConnectedConfig)
    (managed : ManagedQuayConfig) : prog (DisconnectedPlatform * option error) :=
  g ← Get KQuayRegistry quayKey;
  match g with
  | Ok quayRegistry => keepQuay platform cc managed quayRegistry
  | Err e =>
      if negb (IsNotFound e) then mret (platform, Some e)
      else err ← createQuay platform managed; mret (platform, err)
  end.

Definition reconcileQuayConfig (platform : DisconnectedPlatform)
  : prog (DisconnectedPlatform * option error) :=
  match dps_Connected (dp_Spec platform) with
  | None => mret (platform, None)
  | Some cc =>
      match cc_Quay cc with
      | None => mret (platform, None)
      | Some quayConfig =>
          if qic_ExternalURL quayConfig != "" then
            mret ((if cc_MirrorRegistry cc != qic_ExternalURL quayConfig
                   then setConnectedRegistry (qic_ExternalURL quayConfig) platform else platform), None)
          else
            match qic_Managed quayConfig with
            | Some managed =>
                if mqc_Enabled managed then reconcileManagedQuay platform cc managed
                else mret (platform, None)
            | None => mret (platform, None)
            end
      end
  end.
End Quay.
