(* ===== verification/Events.v ===== *)
(** What makes the platforms reconcile ([disconnectedplatform_controller.go]): the handlers of
    the events of secrets, collections, nodes and TaskRuns.  A handler returns the requests it
    adds to the queue; the one of TaskRuns adds none, it restarts the update service. *)
From S2P Require Import Prelude GoStrings K8s Json Api Kube Externals Helpers PlatformStatus PullSecrets.

(** An object of any kind ([client.Object]), and the type assertions on it. *)
Record AnyObject := mkAny { any_kind : kind; any_obj : obj any_kind }.

Definition as_kind (K : kind) (o : AnyObject) : option (obj K) :=
  match kind_eq_dec (any_kind o) K with
  | left e => Some (eq_rect _ obj (any_obj o) K e)
  | right _ => None
  end.
Definition as_unstructured (o : AnyObject) : option Unstructured :=
  match any_kind o as K return obj K -> option Unstructured with
  | KUnstructured _ => Some
  | _ => fun _ => None
  end (any_obj o).

Inductive watchEvent :=
| CreateEvent (o : AnyObject)
| UpdateEvent (old new : AnyObject)
| DeleteEvent (o : AnyObject)
| GenericEvent (o : AnyObject).

(** A request for every platform; none when they cannot be listed. *)
Definition triggerPlatformReconcile : prog (list NamespacedName) :=
  l ← List_ KDisconnectedPlatform None [];
  mret (match l with
        | Ok platforms => map (@key_of KDisconnectedPlatform) platforms
        | Err _ => []
        end).
Definition nothing : prog (list NamespacedName) := mret [].

Definition handleSecret (o : AnyObject) : prog (list NamespacedName) :=
  match as_kind KSecret o with
  | None => nothing
  | Some secret =>
      if bool_decide (key_of_meta (sec_Meta secret) = mkNN defaultPullSecretNS defaultPullSecretName) then triggerPlatformReconcile
      else nothing
  end.
Definition secretEventHandler (e : watchEvent) : prog (list NamespacedName) :=
  match e with UpdateEvent _ new => handleSecret new | _ => nothing end.

Definition collectionPipelineEventHandler (e : watchEvent) : prog (list NamespacedName) :=
  match e with
  | CreateEvent _ | DeleteEvent _ => triggerPlatformReconcile
  | UpdateEvent old new =>
      match as_kind KCollectionPipeline old, as_kind KCollectionPipeline new with
      | Some oldPipeline, Some newPipeline =>
          if collectionVersionComplete (cpst_Phase (cp_Status newPipeline)) &&
             (cpst_Phase (cp_Status oldPipeline) != cpst_Phase (cp_Status newPipeline))
          then triggerPlatformReconcile else nothing
      | _, _ => nothing
      end
  | GenericEvent _ => nothing
  end.

Definition hasMasterLabel (node : Node) : bool :=
  bool_decide (is_Some (om_Labels (node_Meta node) !! "node-role.kubernetes.io/master")).
Definition nodeReadyStatus (node : Node) : string :=
  match find_first (fun c => nc_Type c == NodeReady) (node_Conditions node) with
  | Some c => nc_Status c
  | None => "Unknown"
  end.
Definition nodeEventHandler (e : watchEvent) : prog (list NamespacedName) :=
  match e with
  | UpdateEvent old new =>
      match as_kind KNode old, as_kind KNode new with
      | Some oldNode, Some newNode =>
          if hasMasterLabel newNode && (nodeReadyStatus oldNode != nodeReadyStatus newNode)
          then triggerPlatformReconcile else nothing
      | _, _ => nothing
      end
  | DeleteEvent o =>
      match as_kind KNode o with
      | Some node => if hasMasterLabel node then triggerPlatformReconcile else nothing
      | None => nothing
      end
  | _ => nothing
  end.

Section Events.
Context {X : Externals}.

Definition taskSucceeded (c : json) : bool :=
  match as_map c with
  | Some cond => iface_is (jget cond "type") "Succeeded" && iface_is (jget cond "status") "True"
  | None => false
  end.
Definition taskRunSucceeded (u : Unstructured) : bool :=
  let '(conditions, found, _) := NestedSlice (u_Object u) ["status"; "conditions"] in
  (found : bool) && existsb taskSucceeded conditions.

Fixpoint restartPods (pods : list Pod) : prog unit :=
  match pods with
  | [] => mret tt
  | p :: rest => _ ← Delete KPod p; restartPods rest
  end.

(** The pods of the update service, so that they come back with the graph just mirrored. *)
Definition restartUpdateService : prog unit :=
  l ← List_ KPod (Some "openshift-update-service") [("app", "update-service-oc-mirror")];
  match l with
  | Err _ => mret tt
  | Ok pods => restartPods pods
  end.

Definition handleTaskRun (oldObj newObj : AnyObject) : prog unit :=
  match as_unstructured newObj with
  | None => mret tt
  | Some newU =>
      if default "" (om_Labels (u_Meta newU) !! "tekton.dev/pipelineTask") != "mirror-to-intermediate"
      then mret tt
      else
        match as_unstructured oldObj with
        | None => mret tt
        | Some oldU =>
            if taskRunSucceeded oldU || negb (taskRunSucceeded newU) then mret tt
            else restartUpdateService
        end
  end.

Definition taskRunEventHandler (e : watchEvent) : prog unit :=
  match e with UpdateEvent old new => handleTaskRun old new | _ => mret tt end.
End Events.
