(* ===== verification/UpdateService.v ===== *)
(** The update service of OpenShift ([ensureUpdateService], [ensurePipelineOSUSAccess] of
    [disconnectedplatform_controller.go]): the one UpdateService object, kept by the connected
    and by the airgapped platform, and the right of the pipelines to read it. *)
From S2P Require Import Prelude GoStrings K8s Json Api Kube Externals Helpers Operators Platform.
From S2P Require Import CABundles PullSecrets Quay ConnectedQuay.

Definition organization (name : string) : string := if name != "" then name else "mirror".

Definition updateServiceGVK : GroupVersionKind :=
  mkGVK "updateservice.operator.openshift.io" "v1" "UpdateService".
Definition updateServiceKey : NamespacedName := mkNN osusNamespace "update-service-oc-mirror".

(** The images of a registry, [base] being its host and organization. *)
Definition updateServiceSpec (base : string) : fields :=
  [("graphDataImage", JStr (base +:+ "/openshift/graph-image:latest"));
   ("releases", JStr (base +:+ "/openshift/release-images"));
   ("replicas", JInt 2)].

(** The organization of the managed Quay. *)
Definition quayOrganization (cc : ConnectedConfig) : string :=
  organization (default "" (mqc_OrganizationName <$> (cc_Quay cc ≫= qic_Managed))).

Definition osusReader : string := "mirror-operator-pipeline-osus-reader".
Definition rbacGVK (kind_ : string) : GroupVersionKind := mkGVK "rbac.authorization.k8s.io" "v1" kind_.

Definition osusReaderRole : Unstructured :=
  unstructured_ (rbacGVK "ClusterRole") "" osusReader
    [("rules", JList [JMap [("apiGroups", JList [JStr "updateservice.operator.openshift.io"]);
                            ("resources", JList [JStr "updateservices"]);
                            ("verbs", JList [JStr "get"; JStr "list"; JStr "watch"])]])].
Definition osusReaderBinding : Unstructured :=
  unstructured_ (rbacGVK "ClusterRoleBinding") "" osusReader
    [("subjects", JList [JMap [("kind", JStr "ServiceAccount"); ("name", JStr "pipeline");
                               ("namespace", JStr architectNamespace)]]);
     ("roleRef", JMap [("kind", JStr "ClusterRole"); ("name", JStr osusReader);
                       ("apiGroup", JStr "rbac.authorization.k8s.io")])].

(** An object of a dynamic kind that is created when it is missing. *)
Definition createUnlessFound (failure : string) (g : GroupVersionKind) (o : Unstructured) : prog (option error) :=
  e ← Get (KUnstructured g) (key_of_meta (u_Meta o));
  match e with
  | Ok _ => mret None
  | Err e =>
      if IsNotFound e then
        c ← Create (KUnstructured g) o; mret (option_map (Wrapf failure) (err_of c))
      else mret (Some e)
  end.

Section Service.
Context {X : Externals}.

(** Some field of [desired] does not print as in [current]. *)
Definition specDiffers (current desired : fields) : bool :=
  existsb (fun kv => FormatValue (jget current (fst kv)) != FormatValue (snd kv)) desired.

(** The object with the fields wanted; its errors say what it is for. *)
Definition keepUpdateService (what : string) (desired : fields) : prog (option error) :=
  g ← Get (KUnstructured updateServiceGVK) updateServiceKey;
  match g with
  | Ok existing =>
      if specDiffers (nested_map (u_Object existing) ["spec"]) desired then
        match SetNestedField (u_Object existing) (JMap desired) ["spec"] with
        | (_, Some e) => mret (Some e)
        | (o, None) =>
            u ← Update (KUnstructured updateServiceGVK) (existing <| u_Object := o |>);
            mret (option_map (Wrapf ("failed to update " +:+ what)) (err_of u))
        end
      else mret None
  | Err e =>
      if negb (IsNotFound e) then mret (Some e)
      else
        c ← Create (KUnstructured updateServiceGVK)
              (unstructured_ updateServiceGVK osusNamespace "update-service-oc-mirror"
                 [("spec", JMap desired)]);
        mret (option_map (Wrapf ("failed to create " +:+ what)) (err_of c))
  end.

(** Skipped until the address of the managed Quay is known. *)
Definition ensureUpdateService (platform : DisconnectedPlatform) : prog (option error) :=
  g ← Get KQuayRegistry quayKey;
  match g with
  | Err _ => mret None
  | Ok quayRegistry =>
      h ← getQuayHostname quayRegistry;
      match h with
      | Err _ => mret None
      | Ok quayHostname =>
          if quayHostname == "" then mret None
          else
            withConnected platform (fun cc =>
              keepUpdateService "UpdateService"
                (updateServiceSpec (quayHostname +:+ "/" +:+ quayOrganization cc)))
      end
  end.

Definition ensurePipelineOSUSAccess : prog (option error) :=
  orReturn (createUnlessFound ("failed to create ClusterRole " +:+ osusReader) (rbacGVK "ClusterRole") osusReaderRole)
    (createUnlessFound ("failed to create ClusterRoleBinding " +:+ osusReader) (rbacGVK "ClusterRoleBinding")
       osusReaderBinding).
End Service.
