(* ===== verification/KeycloakAdmin.v ===== *)
(** The administration interface of Keycloak as [disconnectedplatform_controller.go] uses it: the
    requests it sends, the token it asks for, the lists it decodes.  Every reply is arbitrary.  A
    function of this interface takes the host of Keycloak, the realm and the token, as in the
    source. *)
From S2P Require Import Prelude GoStrings K8s Json Api Kube Externals Helpers Platform PullSecrets Quay.

Definition adminURL (host rest : string) : string := "https://" +:+ host +:+ "/admin/realms" +:+ rest.
Definition clientsURL (host realm clientID : string) : string :=
  adminURL host ("/" +:+ realm +:+ "/clients?clientId=" +:+ clientID).
Definition clientURL (host realm uuid rest : string) : string :=
  adminURL host ("/" +:+ realm +:+ "/clients/" +:+ uuid +:+ rest).
Definition scopesURL (host realm : string) : string := adminURL host ("/" +:+ realm +:+ "/client-scopes").
Definition adminTokenURL (host : string) : string :=
  "https://" +:+ host +:+ "/realms/master/protocol/openid-connect/token".

Definition adminSecretKey : NamespacedName :=
  mkNN architectNamespace "mirror-operator-keycloak-initial-admin".
Definition passwordForm (user password : string) : list (string * string) :=
  [("username", user); ("password", password); ("grant_type", "password"); ("client_id", "admin-cli")].

Definition bearer (token : string) : string * string := ("Authorization", "Bearer " +:+ token).
Definition jsonType : string * string := ("Content-Type", "application/json").

(** ["status %d, body: %s"]. *)
Definition statusBody (rep : HttpReply) : string :=
  "status " +:+ itoa (hp_StatusCode rep) +:+ ", body: " +:+ hp_Body rep.
Definition statusIn (codes : list Z) (rep : HttpReply) : bool :=
  bool_decide (hp_StatusCode rep ∈ codes).

(** The last part of a path, of the header [Location] of what was created. *)
Definition lastSegment (location : string) : string := List.last (Split location "/") "".

(** [v, ok := m[k].(string); ok && v == s]. *)
Definition hasString (m : fields) (k s : string) : bool := iface_is (jget m k) s.
Definition named_in (name : string) (l : list fields) : bool := existsb (fun m => hasString m "name" name) l.

(** The configuration of a mapper that puts a constant claim into every token. *)
Definition claimConfig (claim value jsonType : string) : json :=
  JMap [("claim.name", JStr claim); ("claim.value", JStr value); ("id.token.claim", JStr "true");
        ("access.token.claim", JStr "true"); ("userinfo.token.claim", JStr "true");
        ("jsonType.label", JStr jsonType)].
Definition protocolMapper (name mapper : string) (extra : fields) (config : json) : json :=
  JMap ([("name", JStr name); ("protocol", JStr "openid-connect"); ("protocolMapper", JStr mapper)] ++
        extra ++ [("config", config)]).
Definition hardcodedClaim : string := "oidc-hardcoded-claim-mapper".
Definition noConsent : fields := [("consentRequired", JBool false)].
Definition emailMapper (name value : string) (extra : fields) : json :=
  protocolMapper name hardcodedClaim extra (claimConfig "email" value "String").
Definition emailVerifiedMapper (name : string) (extra : fields) : json :=
  protocolMapper name hardcodedClaim extra (claimConfig "email_verified" "true" "boolean").

Section Admin.
Context {X : Externals}.

(** A request for a URL that cannot be parsed is nil, and its header is then set. *)
Definition send (rq : HttpRequest) : prog (result HttpReply) :=
  if ParsesURL (rq_URL rq) then Call (CHttp rq) Ret else Panic nilPointer.

Definition bareRequest (method url token : string) : HttpRequest :=
  mkHttpRequest method url [bearer token] NoBody.
Definition getRequest : string -> string -> HttpRequest := bareRequest "GET".
Definition jsonRequest (method url token : string) (v : json) : HttpRequest :=
  mkHttpRequest method url [bearer token; jsonType] (TextBody (marshalText v)).

(** A request whose reply must have one of some codes. *)
Definition expect (rq : HttpRequest) (failure : string) (codes : list Z) : prog (result HttpReply) :=
  r ← send rq;
  mret (match r with
        | Err e => Err (Wrapf failure e)
        | Ok rep => if statusIn codes rep then Ok rep else Err (Errorf (failure +:+ ": " +:+ statusBody rep))
        end).
Definition expect_ (rq : HttpRequest) (failure : string) (codes : list Z) : prog (option error) :=
  r ← expect rq failure codes; mret (err_of r).

(** A list of objects; what a reply that is not one decodes to is used when [lenient]. *)
Definition getList (url token failure : string) (decodeFailure : option string) : prog (result (list fields)) :=
  r ← send (getRequest url token);
  mret (match r with
        | Err e => Err (Wrapf failure e)
        | Ok rep =>
            match json_Decode_maps (hp_Body rep), decodeFailure with
            | (_, Some e), Some msg => Err (Wrapf msg e)
            | (l, _), _ => Ok l
            end
        end).

(** [m["id"].(string)], which panics when there is no string. *)
Definition idOf {A} (m : fields) (k : string -> prog A) : prog A :=
  match as_string (jget m "id") with Some id => k id | None => Panic badAssertion end.

(** ** The token of the administrator *)

(** How the reply to the request for a token is read: whether its status is looked at, and how
    its body is decoded. *)
Record TokenPolicy := mkTokenPolicy {
  tp_checked : bool;
  tp_decode : string -> result (option fields);
  tp_withBody : bool;                             (* the body is part of the decoding error *)
  tp_nonEmpty : bool;
  tp_missing : fields -> string;
}.

Definition readToken (tp : TokenPolicy) (rep : HttpReply) : result string :=
  if tp_checked tp && negb (statusIn [200%Z] rep) then
    Err (Errorf ("failed to get admin token: " +:+ statusBody rep))
  else
    match tp_decode tp (hp_Body rep) with
    | Err e =>
        let e := Wrapf "failed to decode token response" e in
        Err (if tp_withBody tp then mkError (e_Reason e) (e_Msg e +:+ ", body: " +:+ hp_Body rep) else e)
    | Ok tokenResult =>
        let tokenResult := default [] tokenResult in
        match as_string (jget tokenResult "access_token") with
        | Some token => if tp_nonEmpty tp && (token == "") then Err (Errorf (tp_missing tp tokenResult)) else Ok token
        | None => Err (Errorf (tp_missing tp tokenResult))
        end
    end.

Definition adminToken (tp : TokenPolicy) (host user password : string) : prog (result string) :=
  r ← Call (CHttp (mkHttpRequest "POST" (adminTokenURL host)
                     [("Content-Type", "application/x-www-form-urlencoded")]
                     (FormBody (passwordForm user password)))) Ret;
  mret (match r with
        | Err e => Err (Wrapf "failed to get admin token" e)
        | Ok rep => readToken tp rep
        end).

(** The token for the administrator of the secret; [user] is used when the name is not read. *)
Definition tokenFromSecret (tp : TokenPolicy) (host failure : string) (user : option string)
  : prog (result string) :=
  s ← Get KSecret adminSecretKey;
  match s with
  | Err e => mret (Err (Wrapf failure e))
  | Ok adminSecret =>
      adminToken tp host (default (map_get (sec_Data adminSecret) "username") user)
        (map_get (sec_Data adminSecret) "password")
  end.

Definition printedToken (msg : string) (tokenResult : fields) : string :=
  msg +:+ " in response: " +:+ FormatValue (JMap tokenResult).
Definition plainToken (msg : string) (tokenResult : fields) : string := msg +:+ " in response".

Definition strictTokenPolicy : TokenPolicy :=
  mkTokenPolicy true json_Decode_object false true (plainToken "no access token").
End Admin.
