(* ===== verification/Keycloak.v ===== *)
(** The realm of the signing service in the managed Keycloak ([disconnectedplatform_controller.go]):
    the realm and its client with the claims its tokens carry, the secret of the client, and
    OpenShift as the provider of identities. *)
From S2P Require Import Prelude GoStrings K8s Json Api Kube Externals Helpers Platform PullSecrets Quay.
From S2P Require Import KeycloakAdmin.

Definition oidcSecretKey : NamespacedName :=
  mkNN architectNamespace "mirror-operator-keycloak-client-secret".

(** Adds a mapper unless it is there. *)
Definition mapperCodes : list Z := [201%Z; 204%Z].

Section Keycloak.
Context {X : Externals}.

Definition addMapper (present : bool) (url token : string) (mapper : json) (failure : string)
  : prog (option error) :=
  if present then mret None else expect_ (jsonRequest "POST" url token mapper) failure mapperCodes.

(** ** The secret of the client *)

(** The first client of a list; errors when it is empty or has no identifier. *)
Definition firstClient (clients : list fields) (notFound noID : string) : result string :=
  match clients with
  | [] => Err (Errorf notFound)
  | c :: _ => match as_string (jget c "id") with Some id => Ok id | None => Err (Errorf noID) end
  end.

(** The client secret in a reply. *)
Definition secretValue (rq : HttpRequest) (failure decodeFailure missing : string) : prog (result string) :=
  r ← send rq;
  mret (match r with
        | Err e => Err (Wrapf failure e)
        | Ok rep =>
            match json_Decode_object (hp_Body rep) with
            | Err e => Err (Wrapf decodeFailure e)
            | Ok secretResult =>
                let secretResult := default [] secretResult in
                match as_string (jget secretResult "value") with
                | Some v => Ok v
                | None => Err (Errorf (missing +:+ FormatValue (JMap secretResult)))
                end
            end
        end).

Definition clientSecret (host realm uuid token : string) : prog (result string) :=
  let secretURL := clientURL host realm uuid "/client-secret" in
  s ← secretValue (getRequest secretURL token) "failed to get client secret"
        "failed to decode secret response" "no secret value in response: ";
  match s with
  | Err e => mret (Err e)
  | Ok v =>
      if v == "will-be-replaced-by-controller" then
        secretValue (bareRequest "POST" secretURL token) "failed to regenerate client secret"
          "failed to decode regenerate response" "no secret value in regenerate response: "
      else mret (Ok v)
  end.

Definition storeClientSecret (v : string) : prog (option error) :=
  g ← Get KSecret oidcSecretKey;
  match g with
  | Err e =>
      if negb (IsNotFound e) then mret (Some (Wrapf "failed to get OIDC secret" e))
      else
        c ← Create KSecret
              (mkTypedSecret (meta0 <| om_Name := nn_Name oidcSecretKey |> <| om_Namespace := architectNamespace |>)
                 (Some {[ "clientSecret" := v ]}) SecretTypeOpaque);
        mret (option_map (Wrapf "failed to create OIDC secret") (err_of c))
  | Ok oidcSecret =>
      u ← Update KSecret (oidcSecret <| sec_Data ::= fun d => Some (<[ "clientSecret" := v ]> (default ∅ d)) |>);
      mret (option_map (Wrapf "failed to update OIDC secret") (err_of u))
  end.

Definition secretTokenPolicy : TokenPolicy :=
  mkTokenPolicy false json_Decode_object false false (printedToken "no access token").

Definition updateKeycloakClientSecret (keycloakHost clientID realm : string) : prog (option error) :=
  onOk (tokenFromSecret secretTokenPolicy keycloakHost "failed to get admin secret" (Some "admin")) (fun token =>
  onOk (getList (clientsURL keycloakHost realm clientID) token "failed to list clients"
          (Some "failed to decode clients response")) (fun clients =>
  onOk (mret (firstClient clients ("client " +:+ clientID +:+ " not found in realm " +:+ realm)
                "client id not found in response")) (fun uuid =>
  onOk (clientSecret keycloakHost realm uuid token) storeClientSecret))).

(** ** Mappers of the client *)

Definition mappersURL (host realm uuid : string) : string :=
  clientURL host realm uuid "/protocol-mappers/models".

Definition emailTokenPolicy : TokenPolicy :=
  mkTokenPolicy true json_Unmarshal_object true false (printedToken "no access_token").

Definition audienceMapper : json :=
  protocolMapper "audience-mapper" "oidc-audience-mapper" noConsent
    (JMap [("included.client.audience", JStr "trusted-artifact-signer"); ("id.token.claim", JStr "false");
           ("access.token.claim", JStr "true")]).

Definition configureKeycloakEmailMapper (keycloakHost clientID realm : string) : prog (option error) :=
  onOk (tokenFromSecret emailTokenPolicy keycloakHost "failed to get admin secret" (Some "admin")) (fun token =>
  onOk (getList (clientsURL keycloakHost realm clientID) token "failed to get clients"
          (Some "failed to decode clients response")) (fun clients =>
  onOk (mret (firstClient clients ("client " +:+ clientID +:+ " not found") "no id in client response")) (fun uuid =>
  let url := mappersURL keycloakHost realm uuid in
  onOk (getList url token "failed to get protocol mappers" (Some "failed to decode mappers response"))
    (fun mappers =>
  orReturn (addMapper (named_in "email-mapper" mappers) url token
              (emailMapper "email-mapper" "service-account-sigstore@keycloak.local" noConsent)
              "failed to create email protocol mapper")
 (orReturn (addMapper (named_in "email-verified-mapper" mappers) url token
              (emailVerifiedMapper "email-verified-mapper" noConsent)
              "failed to create email_verified protocol mapper")
 (addMapper (named_in "audience-mapper" mappers) url token audienceMapper
    "failed to create audience protocol mapper")))))).

(** ** The scope with the claim *)

Definition emailVerifiedScope : string := "email-verified-scope".

Definition getClientScopeIDByName (keycloakHost realm scopeName token : string) : prog (result string) :=
  l ← getList (scopesURL keycloakHost realm) token "failed to get client scopes"
        (Some "failed to decode client scopes");
  mret (match l with
        | Err e => Err e
        | Ok clientScopes =>
            Ok (match find_first (fun s => hasString s "name" scopeName &&
                                           bool_decide (is_Some (as_string (jget s "id")))) clientScopes with
                | Some s => default "" (as_string (jget s "id"))
                | None => ""
                end)
        end).

(** The identifier of the scope, which is created when it does not exist. *)
Definition emailScopeID (keycloakHost realm token : string) (clientScopes : list fields) : prog (result string) :=
  let create :=
    r ← expect (jsonRequest "POST" (scopesURL keycloakHost realm) token
                  (JMap [("name", JStr emailVerifiedScope);
                         ("description", JStr "Email verified claim for service account tokens");
                         ("protocol", JStr "openid-connect");
                         ("attributes", JMap [("include.in.token.scope", JStr "true")])]))
          "failed to create client scope" [201%Z];
    mret (match r with Err e => Err e | Ok rep => Ok (lastSegment (hp_Location rep)) end) in
  match find_first (fun s => hasString s "name" emailVerifiedScope) clientScopes with
  | Some scope => idOf scope (fun scopeID => if scopeID == "" then create else mret (Ok scopeID))
  | None => create
  end.

(** The scope built in would override the claim; whether it could be removed does not matter. *)
Definition removeEmailScope (keycloakHost realm uuid token : string) : prog unit :=
  b ← getClientScopeIDByName keycloakHost realm "email" token;
  match b with
  | Ok id =>
      if id != "" then
        _ ← send (bareRequest "DELETE" (clientURL keycloakHost realm uuid ("/default-client-scopes/" +:+ id)) token);
        mret tt
      else mret tt
  | Err _ => mret tt
  end.

Definition ensureEmailVerifiedClientScope (keycloakHost clientID realm uuid token : string)
  : prog (option error) :=
  onOk (getList (scopesURL keycloakHost realm) token "failed to get client scopes" None) (fun clientScopes =>
  onOk (emailScopeID keycloakHost realm token clientScopes) (fun scopeID =>
  let url := adminURL keycloakHost ("/" +:+ realm +:+ "/client-scopes/" +:+ scopeID +:+ "/protocol-mappers/models") in
  onOk (getList url token "failed to get scope mappers" None) (fun mappers =>
  orReturn (addMapper (named_in "email-scope-mapper" mappers) url token
              (emailMapper "email-scope-mapper" "service-account-trusted-artifact-signer@keycloak.local" [])
              "failed to create email scope mapper")
 (orReturn (addMapper (named_in "email-verified-scope-mapper" mappers) url token
              (emailVerifiedMapper "email-verified-scope-mapper" []) "failed to create scope mapper")
 (_ ← removeEmailScope keycloakHost realm uuid token;
  expect_ (bareRequest "PUT" (clientURL keycloakHost realm uuid ("/default-client-scopes/" +:+ scopeID)) token)
    "failed to assign client scope" [204%Z; 200%Z; 201%Z; 409%Z]))))).

(** ** The realm and the client *)

Definition realmTokenPolicy : TokenPolicy :=
  mkTokenPolicy true json_Unmarshal_object false false (printedToken "no access_token").

Definition ensureRealm (keycloakHost realm token : string) : prog (option error) :=
  onOk (getList (adminURL keycloakHost "") token "failed to list realms" None) (fun realms =>
    if existsb (fun r => hasString r "realm" realm) realms then mret None
    else
      expect_ (jsonRequest "POST" (adminURL keycloakHost "") token
                 (JMap [("realm", JStr realm); ("enabled", JBool true);
                        ("displayName", JStr "Trusted Artifact Signer")]))
        "failed to create realm" [201%Z]).

Definition signerClient (clientID : string) : json :=
  JMap [("clientId", JStr clientID); ("enabled", JBool true); ("publicClient", JBool false);
        ("serviceAccountsEnabled", JBool true); ("directAccessGrantsEnabled", JBool true);
        ("standardFlowEnabled", JBool false); ("redirectUris", JStrs []); ("webOrigins", JStrs []);
        ("defaultClientScopes", JStrs ["email"; "profile"]); ("optionalClientScopes", JStrs [])].

Definition ensureClient (keycloakHost realm clientID token : string) (k : string -> prog (option error))
  : prog (option error) :=
  onOk (getList (clientsURL keycloakHost realm clientID) token "failed to get client" None) (fun clients =>
    match clients with
    | [] =>
        onOk (expect (jsonRequest "POST" (adminURL keycloakHost ("/" +:+ realm +:+ "/clients")) token
                        (signerClient clientID)) "failed to create client" [201%Z])
          (fun rep => k (lastSegment (hp_Location rep)))
    | c :: _ => idOf c k
    end).

(** The mapper of the claim [email_verified]: its identifier, and whether it is of type boolean. *)
Definition isVerifiedMapper (m : fields) : bool := hasString m "name" "email-verified-mapper".
Definition verifiedMapperID (mappers : list fields) : string :=
  fold_left (fun id m => if isVerifiedMapper m then default id (as_string (jget m "id")) else id) mappers "".
Definition booleanClaim (m : fields) : bool :=
  match as_map (jget m "config") with
  | Some config => hasString config "jsonType.label" "boolean"
  | None => false
  end.
Definition verifiedMapperCorrect (mappers : list fields) : bool :=
  existsb (fun m => isVerifiedMapper m && booleanClaim m) mappers.

(** One with another type is replaced; the status of its deletion is not looked at. *)
Definition ensureVerifiedMapper (keycloakHost realm uuid token : string) (mappers : list fields)
  : prog (option error) :=
  let url := mappersURL keycloakHost realm uuid in
  let id := verifiedMapperID mappers in
  let correct := verifiedMapperCorrect mappers in
  orReturn (if (id != "") && negb correct then
              r ← send (bareRequest "DELETE" (url +:+ "/" +:+ id) token);
              mret (option_map (Wrapf "failed to delete incorrect email_verified mapper") (err_of r))
            else mret None)
    (addMapper (negb ((id == "") || negb correct)) url token (emailVerifiedMapper "email-verified-mapper" [])
       "failed to create email_verified mapper").

Definition configureKeycloakRealmAndClient (keycloakHost realm clientID : string) : prog (option error) :=
  onOk (tokenFromSecret realmTokenPolicy keycloakHost "failed to get admin secret" (Some "admin")) (fun token =>
  orReturn (ensureRealm keycloakHost realm token)
 (ensureClient keycloakHost realm clientID token (fun uuid =>
  let url := mappersURL keycloakHost realm uuid in
  onOk (getList url token "failed to get protocol mappers" None) (fun mappers =>
  orReturn (addMapper (named_in "email-mapper" mappers) url token
              (emailMapper "email-mapper" ("service-account-" +:+ clientID +:+ "@keycloak.local") noConsent)
              "failed to create email mapper")
 (orReturn (ensureVerifiedMapper keycloakHost realm uuid token mappers)
 (_ ← ensureEmailVerifiedClientScope keycloakHost clientID realm uuid token;
  updateKeycloakClientSecret keycloakHost clientID realm)))))).
End Keycloak.
