(* ===== verification/Postgres.v ===== *)
(** The PostgreSQL servers the operator runs for Keycloak and for the Trusted Profile Analyzer
    ([ensureManagedPostgreSQL], [ensureRHTPAPostgreSQL], [autoExpandPVC] of
    [disconnectedplatform_controller.go]). *)
From S2P Require Import Prelude GoStrings K8s Json Api Kube Externals Helpers Platform PullSecrets.

(** ** The objects of a server *)

Definition postgresMeta (server name : string) : ObjectMeta :=
  meta0 <| om_Name := name |> <| om_Namespace := architectNamespace |> <| om_Labels := {[ "app" := server ]} |>.

Definition postgresPVC (server : string) (size : Quantity) : PersistentVolumeClaim :=
  mkPVC (postgresMeta server (server +:+ "-data")) [ReadWriteOnce] (Some {[ ResourceStorage := size ]}) ∅ "".

Definition postgresContainer (env : list EnvVar) : PodContainer :=
  mkPodContainer "postgresql" "registry.redhat.io/rhel9/postgresql-15:latest" [] env
    [mkContainerPort "postgresql" 5432 ""] [mkVolumeMount "data" "/var/lib/pgsql/data" false] [] [].
Definition postgresStatefulSet (server : string) (env : list EnvVar) : StatefulSet :=
  mkStatefulSet (postgresMeta server server) server (Some 1%Z) {[ "app" := server ]} {[ "app" := server ]}
    (mkPodSpec "" "" ∅ [postgresContainer env] [mkVolume "data" (VolClaim (server +:+ "-data") false)]).
Definition postgresService (server : string) : Service :=
  mkService (postgresMeta server server) {[ "app" := server ]} [mkServicePort "postgresql" 5432 5432 ""] "None".

(** An object that is created when it is missing; other errors of the read are passed over. *)
Definition createAbsent (failure : string) (K : kind) (o : obj K) (present : obj K -> prog unit)
  : prog (option error) :=
  g ← Get K (key_of o);
  match g with
  | Err e =>
      if IsNotFound e then c ← Create K o; mret (option_map (Wrapf failure) (err_of c)) else mret None
  | Ok existing => _ ← present existing; mret None
  end.
Definition leave {A} (_ : A) : prog unit := mret tt.

(** ** Growing a claim *)

(** The pod does not run because of what it does. *)
Definition podCrashing (p : Pod) : bool :=
  (pod_Phase p == PodFailed) ||
  existsb (fun cs => bool_decide (cs_WaitingReason cs = Some "CrashLoopBackOff")) (pod_ContainerStatuses p).

(** The percentage in the output of [df], on its second line. *)
Definition usedPercent (stdout : string) : option Z :=
  match Split (TrimSpace stdout) newline with
  | _ :: line :: _ => Atoi (TrimSpace (TrimSuffix line "%"))
  | _ => None
  end.

Section Postgres.
Context {X : Externals}.

(** [resource.MustParse]. *)
Definition mustParse {A} (s : string) (k : Quantity -> prog A) : prog A :=
  match MustParse s with Some q => k q | None => Panic "cannot parse quantity" end.

(** How full the volume of a pod is; a crash counts as full. *)
Definition volumeUsage (pod : Pod) : prog (option Z) :=
  if podCrashing pod then mret (Some 100%Z)
  else if pod_Phase pod == PodRunning then
    x ← Call (CExecInPod (om_Namespace (pod_Meta pod)) (om_Name (pod_Meta pod)) "postgresql"
                ["df"; "--output=pcent"; "/var/lib/pgsql/data"] None) Ret;
    mret (match ex_NoExecutor x, ex_StreamError x with
          | None, None => usedPercent (ex_Stdout x)
          | _, _ => None
          end)
  else mret None.

(** Twice the capacity, but no more than the maximum. *)
Definition grownSize (currentCapacity maxSize : Quantity) : Quantity :=
  let newSize := (currentCapacity + currentCapacity)%Z in
  if (QuantityCmp newSize maxSize >? 0)%Z then maxSize else newSize.

(** The request is written to a map that may be nil. *)
Definition expandPVC (pvc : PersistentVolumeClaim) (newSize : Quantity) : prog unit :=
  match pvc_Requests pvc with
  | None => Panic "assignment to entry in nil map"
  | Some requests =>
      _ ← Update KPersistentVolumeClaim (pvc <| pvc_Requests := Some (<[ ResourceStorage := newSize ]> requests) |>);
      mret tt
  end.

Definition autoExpandPVC (pvc : PersistentVolumeClaim) (maxStorageSize : string) : prog unit :=
  mustParse maxStorageSize (fun maxSize =>
    let currentCapacity := default 0%Z (pvc_Capacity pvc !! ResourceStorage) in
    if (QuantityCmp currentCapacity maxSize >=? 0)%Z then mret tt
    else
      l ← List_ KPod (Some (om_Namespace (pvc_Meta pvc))) [("app", "rhtpa-postgresql")];
      match l with
      | Ok (pod :: _) =>
          u ← volumeUsage pod;
          match u with
          | Some pct => if (pct <? 80)%Z then mret tt else expandPVC pvc (grownSize currentCapacity maxSize)
          | None => mret tt
          end
      | _ => mret tt
      end).

(** ** The servers *)

Definition keycloakServer : string := "keycloak-postgresql".
Definition keycloakEnv : list EnvVar :=
  [envValue "POSTGRESQL_USER" "keycloak"; envValue "POSTGRESQL_PASSWORD" "keycloak-admin-password";
   envValue "POSTGRESQL_DATABASE" "keycloak"].

Definition ensureManagedPostgreSQL : prog (option error) :=
  mustParse "5Gi" (fun size =>
  orReturn (createAbsent "failed to create PostgreSQL PVC" KPersistentVolumeClaim (postgresPVC keycloakServer size) leave)
 (orReturn (createAbsent "failed to create PostgreSQL StatefulSet" KStatefulSet
              (postgresStatefulSet keycloakServer keycloakEnv) leave)
 (createAbsent "failed to create PostgreSQL Service" KService (postgresService keycloakServer) leave))).

(** Where a database is, and the account to use it with. *)
Record DatabaseAccess := mkDatabaseAccess {
  da_Host : string; da_Name : string; da_User : string; da_Password : string }.

Definition rhtpaServer : string := "rhtpa-postgresql".
Definition rhtpaEnv (password : string) : list EnvVar :=
  [envValue "POSTGRESQL_USER" "rhtpa"; envValue "POSTGRESQL_PASSWORD" password;
   envValue "POSTGRESQL_DATABASE" "rhtpadb"; envValue "POSTGRESQL_ADMIN_PASSWORD" "postgres"].
Definition rhtpaPassword : string := "rhtpa-db-password-" +:+ generateRandomString 16.
Definition rhtpaSecret : Secret :=
  mkSecret (meta0 <| om_Name := "rhtpa-db-credentials" |> <| om_Namespace := architectNamespace |>)
    (Some (list_to_map [("username", "rhtpa"); ("password", rhtpaPassword); ("database", "rhtpadb")])).

(** The password of the secret when there is one, else the one just generated. *)
Definition rhtpaDBPassword : prog (result string) :=
  g ← Get KSecret (key_of_meta (sec_Meta rhtpaSecret));
  match g with
  | Ok existing => mret (Ok (map_get (sec_Data existing) "password"))
  | Err e =>
      if IsNotFound e then
        c ← Create KSecret rhtpaSecret;
        mret (match c with
              | Err e => Err (Wrapf "failed to create TPA database secret" e)
              | Ok _ => Ok rhtpaPassword
              end)
      else mret (Ok rhtpaPassword)
  end.

Definition sizeOr (s d : string) : string := if s == "" then d else s.

Definition rhtpaObjects (storageSize maxStorageSize password : string) : prog (option error) :=
  mustParse storageSize (fun size =>
  orReturn (createAbsent "failed to create TPA PostgreSQL PVC" KPersistentVolumeClaim (postgresPVC rhtpaServer size)
              (fun pvc => autoExpandPVC pvc maxStorageSize))
 (orReturn (createAbsent "failed to create TPA PostgreSQL StatefulSet" KStatefulSet
              (postgresStatefulSet rhtpaServer (rhtpaEnv password)) leave)
 (createAbsent "failed to create TPA PostgreSQL Service" KService (postgresService rhtpaServer) leave))).

Definition ensureRHTPAPostgreSQL (storageSize maxStorageSize : string) : prog (result DatabaseAccess) :=
  p ← rhtpaDBPassword;
  match p with
  | Err e => mret (Err e)
  | Ok password =>
      e ← rhtpaObjects (sizeOr storageSize "50Gi") (sizeOr maxStorageSize "200Gi") password;
      mret (match e with
            | Some e => Err e
            | None => Ok (mkDatabaseAccess (rhtpaServer +:+ "." +:+ architectNamespace +:+ ".svc") "rhtpadb" "rhtpa"
                            password)
            end)
  end.
End Postgres.
