(* ===== verification/KeycloakOAuth.v ===== *)
(** OpenShift as the provider of identities of the managed Keycloak
    ([disconnectedplatform_controller.go]): the OAuthClient of the cluster, the provider of each
    realm, and the login flow that skips the review of profiles. *)
From S2P Require Import Prelude GoStrings K8s Json Api Kube Externals Helpers Platform PullSecrets Quay.
From S2P Require Import KeycloakAdmin.

Definition oauthClientGVK : GroupVersionKind := mkGVK "oauth.openshift.io" "v1" "OAuthClient".
Abbreviation KOAuthClient := (KUnstructured oauthClientGVK).
Definition providersURL (host realm : string) : string :=
  adminURL host ("/" +:+ realm +:+ "/identity-provider/instances").
Definition executionsURL (host realm : string) : string :=
  adminURL host ("/" +:+ realm +:+ "/authentication/flows/first%20broker%20login/executions").
Definition userInfoURL (apiServerURL : string) : string := apiServerURL +:+ "/apis/user.openshift.io/v1/users/~".
Definition nilMap : string := "assignment to entry in nil map".

(** ** The review of profiles *)

Definition reviewProfile (execution : fields) : bool :=
  hasString execution "displayName" "Review Profile" && negb (hasString execution "requirement" "DISABLED").

Section OAuth.
Context {X : Externals}.

(** The first execution that is not disabled yet is; the reply does not matter. *)
Definition configureRealmProfileSettings (keycloakHost realm token : string) : prog (option error) :=
  let url := executionsURL keycloakHost realm in
  r ← send (getRequest url token);
  match r with
  | Err e => mret (Some (Wrapf "failed to get authentication flow" e))
  | Ok rep =>
      if negb (statusIn [200%Z] rep) then
        mret (Some (Errorf ("failed to get authentication flow: status " +:+ itoa (hp_StatusCode rep))))
      else
        match json_Decode_maps (hp_Body rep) with
        | (_, Some e) => mret (Some (Wrapf "failed to decode executions" e))
        | (executions, None) =>
            match find_first reviewProfile executions with
            | Some execution =>
                _ ← send (jsonRequest "PUT" url token (JMap (jset execution "requirement" (JStr "DISABLED"))));
                mret None
            | None => mret None
            end
        end
  end.

(** ** The client of the cluster *)

Definition oauthClient (realm redirectURL : string) : Unstructured :=
  unstructured_ oauthClientGVK "" ("keycloak-" +:+ realm)
    [("secret", JStr (generateRandomString 32)); ("grantMethod", JStr "prompt");
     ("redirectURIs", JList [JStr redirectURL])].

(** The secret of the client, which is created when it does not exist. *)
Definition oauthClientSecret (keycloakHost realm : string) : prog (result string) :=
  let redirectURL := "https://" +:+ keycloakHost +:+ "/realms/" +:+ realm +:+ "/broker/openshift/endpoint" in
  g ← Get KOAuthClient (clusterKey ("keycloak-" +:+ realm));
  c ← match g with
      | Ok o => mret (Ok o)
      | Err e =>
          if IsNotFound e then
            c ← Create KOAuthClient (oauthClient realm redirectURL);
            mret (match c with Ok o => Ok o | Err e => Err (Wrapf "failed to create OAuthClient" e) end)
          else mret (Err (Wrapf "failed to check OAuthClient" e))
      end;
  mret (match c with
        | Err e => Err e
        | Ok o =>
            let clientSecret := nested_string (u_Object o) ["secret"] in
            if clientSecret == "" then Err (Errorf "OAuthClient secret is empty") else Ok clientSecret
        end).

(** ** The provider of a realm *)

(** The provider with the secret, and with the addresses of the cluster; [None]: it is nil or
    has no configuration, which panics. *)
Definition refreshedProvider (clientSecret apiServerURL : string) (existing : option fields) : prog fields :=
  match existing with
  | None => Panic nilMap
  | Some idp =>
      let idp' := jset idp "updateProfileFirstLoginMode" (JStr "off") in
      match as_map (jget idp' "config") with
      | None => Panic badAssertion
      | Some config =>
          let config := jset config "clientSecret" (JStr clientSecret) in
          let config := jset config "baseUrl" (JStr apiServerURL) in
          mret (jset idp' "config" (JMap (jset config "userInfoUrl" (JStr (userInfoURL apiServerURL)))))
      end
  end.

Definition updateProvider (keycloakHost realm apiServerURL token clientSecret : string) : prog (option error) :=
  let url := providersURL keycloakHost realm +:+ "/openshift" in
  r ← send (getRequest url token);
  match r with
  | Err e => mret (Some (Wrapf "failed to get identity provider" e))
  | Ok rep =>
      match json_Decode_object (hp_Body rep) with
      | Err e => mret (Some (Wrapf "failed to decode identity provider" e))
      | Ok existing =>
          idp ← refreshedProvider clientSecret apiServerURL existing;
          u ← send (jsonRequest "PUT" url token (JMap idp));
          match u with
          | Err e => mret (Some (Wrapf "failed to update identity provider" e))
          | Ok rep =>
              if negb (statusIn [200%Z; 204%Z] rep) then
                mret (Some (Errorf ("failed to update identity provider secret: " +:+ statusBody rep)))
              else _ ← configureRealmProfileSettings keycloakHost realm token; mret None
          end
      end
  end.

Definition openshiftProvider (realm apiServerURL clientSecret : string) : json :=
  JMap [("alias", JStr "openshift"); ("displayName", JStr "OpenShift"); ("providerId", JStr "openshift-v4");
        ("enabled", JBool true); ("trustEmail", JBool true);
        ("firstBrokerLoginFlowAlias", JStr "first broker login"); ("updateProfileFirstLoginMode", JStr "off");
        ("config", JMap [("baseUrl", JStr apiServerURL); ("clientId", JStr ("keycloak-" +:+ realm));
                         ("clientSecret", JStr clientSecret); ("defaultScope", JStr "user:full");
                         ("userInfoUrl", JStr (userInfoURL apiServerURL))])].

Definition addOpenShiftIdentityProvider (keycloakHost realm apiServerURL token : string) : prog (option error) :=
  let url := providersURL keycloakHost realm in
  onOk (getList url token "failed to list identity providers" (Some "failed to decode identity providers"))
    (fun idps =>
  onOk (oauthClientSecret keycloakHost realm) (fun clientSecret =>
  if existsb (fun idp => hasString idp "alias" "openshift") idps then
    updateProvider keycloakHost realm apiServerURL token clientSecret
  else
    orReturn (expect_ (jsonRequest "POST" url token (openshiftProvider realm apiServerURL clientSecret))
                "failed to create identity provider" [201%Z])
      (_ ← configureRealmProfileSettings keycloakHost realm token; mret None))).

(** Errors of one realm do not stop the other. *)
Fixpoint addToRealms (keycloakHost apiServerURL token : string) (realms : list string) : prog unit :=
  match realms with
  | [] => mret tt
  | realm :: rest =>
      _ ← addOpenShiftIdentityProvider keycloakHost realm apiServerURL token;
      addToRealms keycloakHost apiServerURL token rest
  end.

Definition configureOpenShiftOAuth (keycloakHost : string) : prog (option error) :=
  s ← Get KSecret adminSecretKey;
  match s with
  | Err e => mret (Some (Wrapf "failed to get Keycloak admin credentials" e))
  | Ok adminSecret =>
      i ← Get (KUnstructured gvkInfrastructure) (clusterKey "cluster");
      match i with
      | Err e => mret (Some (Wrapf "failed to get cluster infrastructure" e))
      | Ok infrastructure =>
          let apiServerURL := nested_string (u_Object infrastructure) ["status"; "apiServerURL"] in
          if apiServerURL == "" then mret (Some (Errorf "apiServerURL not found in cluster infrastructure"))
          else
            onOk (adminToken strictTokenPolicy keycloakHost (map_get (sec_Data adminSecret) "username")
                    (map_get (sec_Data adminSecret) "password")) (fun token =>
              _ ← addToRealms keycloakHost apiServerURL token ["trusted-artifact-signer"; "trustify"];
              mret None)
      end
  end.

(** ** A mapper of user names *)

Definition usernameMapper : json :=
  JMap [("name", JStr "username-mapper"); ("identityProviderAlias", JStr "openshift");
        ("identityProviderMapper", JStr "oidc-username-idp-mapper");
        ("config", JMap [("template", JStr "${CLAIM.preferred_username}")])].
Definition addOpenShiftAttributeMappers (keycloakHost realm token : string) : prog (option error) :=
  _ ← send (jsonRequest "POST" (providersURL keycloakHost realm +:+ "/openshift/mappers") token usernameMapper);
  mret None.
End OAuth.
