(* ===== verification/ManagedKeycloak.v ===== *)
(** The managed Keycloak of the signing service ([disconnectedplatform_controller.go]): its TLS
    secret, its database, the Keycloak object, and its realm once it is ready; its health, and
    its removal. *)
From S2P Require Import Prelude GoStrings K8s Json Api Kube Externals Helpers Operators Platform Health.
From S2P Require Import PullSecrets Quay ConnectedQuay KeycloakAdmin Keycloak KeycloakOAuth Postgres.

Definition keycloakRealmGVK : GroupVersionKind := mkGVK "k8s.keycloak.org" "v2alpha1" "KeycloakRealmImport".
Definition keycloakName : string := "mirror-operator-keycloak".
Definition keycloakKey : NamespacedName := mkNN architectNamespace keycloakName.
Definition realmImportKey : NamespacedName := mkNN architectNamespace "mirror-operator-keycloak-realm".

(** The configuration of a managed Keycloak that is enabled. *)
Definition enabledKeycloak (cc : ConnectedConfig) : option ManagedKeycloakConfig :=
  rhtas ← cc_RHTAS cc;
  oidc ← ric_OIDC rhtas;
  m ← roc_Managed oidc;
  if mkc_Enabled m then Some m else None.

(** ** The object *)

Definition secretRef (name key : string) : json := JMap [("name", JStr name); ("key", JStr key)].
Definition keycloakSpec (hostname tlsSecretName : string) : fields :=
  [("instances", JInt 1);
   ("hostname", JMap [("hostname", JStr hostname)]);
   ("http", JMap [("tlsSecret", JStr tlsSecretName)]);
   ("additionalOptions", JList
      [JMap [("name", JStr "KEYCLOAK_ADMIN"); ("value", JStr "admin")];
       JMap [("name", JStr "KEYCLOAK_ADMIN_PASSWORD");
             ("secret", secretRef "mirror-operator-keycloak-initial-admin" "password")];
       JMap [("name", JStr "truststore-paths"); ("value", JStr clusterCAFilePath)]]);
   ("db", JMap [("vendor", JStr "postgres"); ("host", JStr "keycloak-postgresql.mirror-operator-system.svc");
                ("port", JInt 5432); ("database", JStr "keycloak");
                ("usernameSecret", secretRef "keycloak-db-secret" "username");
                ("passwordSecret", secretRef "keycloak-db-secret" "password")]);
   ("unsupported", JMap [("podTemplate", JMap [("spec", JMap
      [("containers", JList [JMap [("volumeMounts", JList
          [JMap [("name", JStr clusterCAVolumeName); ("mountPath", JStr clusterCAMountPath);
                 ("readOnly", JBool true)]])]]);
       ("volumes", JList [JMap [("name", JStr clusterCAVolumeName);
          ("configMap", JMap [("name", JStr clusterCABundleName); ("optional", JBool true)])]])])])])].

Definition keycloakDBSecret : Secret :=
  mkSecret (meta0 <| om_Name := "keycloak-db-secret" |> <| om_Namespace := architectNamespace |>)
    (Some (list_to_map [("username", "keycloak"); ("password", "keycloak-admin-password")])).

Section Keycloak.
Context {X : Externals}.

(** A condition with a type, as the accessors read it. *)
Definition typedCondition (type_ : string) (c : json) : bool :=
  match as_map c with Some m => nested_string m ["type"] == type_ | None => false end.
Definition trueCondition (type_ : string) (c : json) : bool :=
  match as_map c with
  | Some m => (nested_string m ["type"] == type_) && (nested_string m ["status"] == "True")
  | None => false
  end.

(** The status of an object and its conditions, where they are found. *)
Definition statusOf (u : Unstructured) : option fields :=
  let '(status, found, _) := NestedMap (u_Object u) ["status"] in if (found : bool) then Some status else None.
Definition conditionsOf (status : fields) : option (list json) :=
  let '(conditions, found, _) := NestedSlice status ["conditions"] in
  if (found : bool) then Some conditions else None.
Definition isReady (kc : Unstructured) : bool :=
  match statusOf kc ≫= conditionsOf with
  | Some conditions => existsb (trueCondition "Ready") conditions
  | None => false
  end.

(** The secret with the certificate: the one configured, or one that is asked for. *)
Definition keycloakTLS (platform : DisconnectedPlatform) (m : ManagedKeycloakConfig) (hostname : string)
  : prog (result string) :=
  let configured := default "" (lor_Name <$> mkc_TLSSecret m) in
  if configured != "" then mret (Ok configured)
  else
      let name := "keycloak-tls" in
      t ← ensureKeycloakTLS platform hostname name;
      match t with
      | Some e => mret (Err (Wrapf "failed to ensure Keycloak TLS" e))
      | None =>
          s ← Get KSecret (mkNN architectNamespace name);
          mret (match s with
                | Ok _ => Ok name
                | Err e =>
                    Err (if IsNotFound e
                         then Errorf ("waiting for cert-manager to issue certificate: secret " +:+ quoted name +:+
                                      " not yet available")
                         else Wrapf "failed to check TLS secret" e)
                end)
      end.

(** The object is written at every reconcile. *)
Definition writeKeycloak (spec : fields) : prog (result Unstructured) :=
  g ← Get KKeycloak keycloakKey;
  match g with
  | Err e =>
      if negb (IsNotFound e) then mret (Err e)
      else
        c ← Create KKeycloak (unstructured_ keycloakGVK architectNamespace keycloakName [("spec", JMap spec)]);
        mret (match c with Ok kc => Ok kc | Err e => Err (Wrapf "failed to create Keycloak" e) end)
  | Ok kc =>
      u ← Update KKeycloak (kc <| u_Object ::= fun o => jset o "spec" (JMap spec) |>);
      mret (match u with Ok kc => Ok kc | Err e => Err (Wrapf "failed to update Keycloak" e) end)
  end.

(** The realm is configured through the API; an import of it is removed. *)
Definition configureKeycloak (hostname realm : string) : prog (option error) :=
  c ← configureKeycloakRealmAndClient hostname realm "trusted-artifact-signer";
  match c with
  | Some e => mret (Some (Wrapf "failed to configure Keycloak realm and client" e))
  | None =>
      _ ← configureOpenShiftOAuth hostname;
      g ← Get (KUnstructured keycloakRealmGVK) realmImportKey;
      match g with
      | Ok realmImport => _ ← Delete (KUnstructured keycloakRealmGVK) realmImport; mret None
      | Err _ => mret None
      end
  end.

Definition reconcileManagedKeycloak (platform : DisconnectedPlatform) : prog (option error) :=
  withConnected platform (fun cc =>
    match enabledKeycloak cc with
    | None => mret None
    | Some m =>
        i ← Get (KUnstructured gvkIngress) (clusterKey "cluster");
        match i with
        | Err e => mret (Some (Wrapf "failed to get cluster ingress" e))
        | Ok ingress =>
            let hostname := "keycloak." +:+ nested_string (u_Object ingress) ["spec"; "domain"] in
            onOk (keycloakTLS platform m hostname) (fun tlsSecretName =>
            p ← ensureManagedPostgreSQL;
            match p with
            | Some e => mret (Some (Wrapf "failed to ensure managed PostgreSQL" e))
            | None =>
                orReturn (createAbsent "failed to create Keycloak database secret" KSecret keycloakDBSecret leave)
               (onOk (writeKeycloak (keycloakSpec hostname tlsSecretName)) (fun kc =>
                if negb (isReady kc) then mret None else configureKeycloak hostname (realmName m)))
            end)
        end
    end).

(** ** Its health *)

Definition checkKeycloakHealth (platform : DisconnectedPlatform) : prog (option error) :=
  withConnected platform (fun cc =>
    match enabledKeycloak cc with
    | None => mret None
    | Some _ =>
        g ← Get KKeycloak keycloakKey;
        mret (match g with
              | Err e => Some (Wrapf "Keycloak resource not found" e)
              | Ok kc =>
                  match statusOf kc with
                  | None => Some (Errorf "Keycloak status not available yet")
                  | Some status =>
                      match conditionsOf status with
                      | None => Some (Errorf "Keycloak conditions not available yet")
                      | Some conditions =>
                          match find_first (typedCondition "Ready") conditions with
                          | None => Some (Errorf "Keycloak Ready condition not found")
                          | Some c =>
                              if trueCondition "Ready" c then None
                              else Some (Errorf ("Keycloak not ready: " +:+
                                                 nested_string (default [] (as_map c)) ["message"]))
                          end
                      end
                  end
              end)
    end).

(** ** Its removal *)

(** An object that is deleted without being read; errors are logged. *)
Definition deleteNamed (g : GroupVersionKind) (name : string) : prog unit :=
  _ ← Delete (KUnstructured g) (unstructured_ g architectNamespace name []); mret tt.

Definition deleteManagedKeycloak : prog unit :=
  _ ← deleteNamed keycloakRealmGVK "mirror-operator-keycloak-realm";
  _ ← deleteNamed keycloakGVK keycloakName;
  deleteNamed certificateGVK "keycloak-certificate".
End Keycloak.
