(* ===== verification/Signing.v ===== *)
(** The signing service, Red Hat Trusted Artifact Signer ([disconnectedplatform_controller.go]):
    the Securesign object, the root keys that are published once it is ready, and the
    configuration of keyless signing given to every collection. *)
From S2P Require Import Prelude GoStrings K8s GoTime Json Sha256 Api Kube Externals Helpers Operators Platform.
From S2P Require Import Health CABundles PullSecrets Quay ConnectedQuay KeycloakAdmin Keycloak ManagedKeycloak.

Definition securesignName : string := "mirror-operator-securesign".
Definition securesignKey : NamespacedName := mkNN architectNamespace securesignName.
Definition trustedCAKey : string := "rhtas.redhat.com/trusted-ca".

(** ** The Securesign object *)

Definition databaseConfig (db : RHTASDatabaseConfig) : fields :=
  [("host", JStr (rdc_Host db)); ("name", JStr (rdc_Name db))] ++
  (if (rdc_Port db >? 0)%Z then [("port", JInt (rdc_Port db))] else []) ++
  (if rdc_Username db != "" then [("username", JStr (rdc_Username db))] else []) ++
  (if rdc_Password db != "" then [("password", JStr (rdc_Password db))] else []).

Definition securesignSpec (issuerURL clientID oidcType : string) (db : option RHTASDatabaseConfig) : fields :=
  let database := match db with Some db => [("database", JMap (databaseConfig db))] | None => [] end in
  [("fulcio", JMap [("enabled", JBool true);
      ("certificate", JMap [("organizationName", JStr "Red Hat"); ("organizationEmail", JStr "rhtas@redhat.com")]);
      ("config", JMap [("OIDCIssuers", JList [JMap
         [("ClientID", JStr clientID); ("Issuer", JStr issuerURL); ("IssuerURL", JStr issuerURL);
          ("Type", JStr oidcType)]])])]);
   ("rekor", JMap (("enabled", JBool true) :: database));
   ("ctlog", JMap [("enabled", JBool true)]);
   ("trillian", JMap (("enabled", JBool true) :: database));
   ("tuf", JMap [("enabled", JBool true)])].

Definition hashString (s : string) : string := EncodeToString (take 8 (Sum256 s)).

(** The secret and the key of it where a key is kept; [""] when it is not known. *)
Definition SecretKey : Type := string * string.

(** ** The keys *)

Definition trustedRootMeta : ObjectMeta :=
  meta0 <| om_Name := "rhtas-trusted-root" |> <| om_Namespace := architectNamespace |>
        <| om_Labels := list_to_map [("app.kubernetes.io/name", "rhtas-trusted-root");
             ("app.kubernetes.io/part-of", "mirror-operator"); ("app.kubernetes.io/managed-by", "mirror-operator")] |>.
Definition trustedRoot (fulcio rekor tuf timestamp : string) : ConfigMap :=
  mkConfigMap trustedRootMeta
    (Some (list_to_map [("fulcio-root.pem", fulcio); ("rekor-public-key.pem", rekor); ("tuf-repository-url", tuf);
                        ("extraction-timestamp", timestamp)])).

(** The ConfigMap holds these keys. *)
Definition sameKeys (fulcio rekor tuf : string) (cm : ConfigMap) : bool :=
  (map_get (cm_Data cm) "fulcio-root.pem" == fulcio) && (map_get (cm_Data cm) "rekor-public-key.pem" == rekor) &&
  (map_get (cm_Data cm) "tuf-repository-url" == tuf).

Definition keysChanged (status : DisconnectedPlatformStatus) (fulcio rekor tuf : string) : bool :=
  match dpst_RHTASRootKeys status with
  | None => true
  | Some k => (rrk_FulcioRootHash k != hashString fulcio) || (rrk_RekorKeyHash k != hashString rekor) ||
              (rrk_TUFRepositoryURL k != tuf)
  end.

(** The keyless signing of a collection; what else its signing says is kept. *)
Definition withKeyless (k : KeylessSigningConfig) (p : CollectionPipeline) : CollectionPipeline :=
  p <| cp_Spec ::= fun s => s <| cps_Signing ::= fun g =>
    Some ((default (mkCosignSigningConfig None None None) g) <| csc_Keyless := Some k |>) |> |>.

Fixpoint updateCollections (k : KeylessSigningConfig) (pipelines : list CollectionPipeline) : prog unit :=
  match pipelines with
  | [] => mret tt
  | p :: rest => _ ← Update KCollectionPipeline (withKeyless k p); updateCollections k rest
  end.

Definition tufGVK : GroupVersionKind := mkGVK "rhtas.redhat.com" "v1alpha1" "Tuf".

(** An object that must be there. *)
Definition getWrapped (failure : string) (K : kind) (k : NamespacedName) : prog (result (obj K)) :=
  g ← Get K k;
  mret (match g with Ok o => Ok o | Err e => Err (Wrapf failure e) end).

Section Signing.
Context {X : Externals}.

(** The issuer, the client and the type of the tokens that are accepted. *)
Definition oidcOf (oidc : RHTASOIDCConfig) : prog (result (string * string * string)) :=
  match roc_Managed oidc with
  | Some m =>
      if mkc_Enabled m then
        i ← Get (KUnstructured gvkIngress) (clusterKey "cluster");
        mret (match i with
              | Err e => Err (Wrapf "failed to get cluster ingress" e)
              | Ok ingress =>
                  let domain := nested_string (u_Object ingress) ["spec"; "domain"] in
                  Ok ("https://keycloak." +:+ domain +:+ "/realms/" +:+ realmName m, "trusted-artifact-signer",
                      if roc_Type oidc == "" then "email" else roc_Type oidc)
              end)
      else mret (Ok (roc_Issuer oidc, roc_ClientID oidc, roc_Type oidc))
  | None => mret (Ok (roc_Issuer oidc, roc_ClientID oidc, roc_Type oidc))
  end.

Definition withTrustedCA (o : Unstructured) : Unstructured :=
  o <| u_Meta ::= fun om => om <| om_Annotations ::= <[ trustedCAKey := combinedCABundleName ]> |> |>.

Definition reconcileRHTASConfig (platform : DisconnectedPlatform) : prog (option error) :=
  withConnected platform (fun cc =>
    match cc_RHTAS cc with
    | None => mret None
    | Some cfg =>
        match ric_OIDC cfg with
        | None => mret None
        | Some oidc =>
            g ← Get KSecuresign securesignKey;
            match g with
            | Ok securesign =>
                if default "" (om_Annotations (u_Meta securesign) !! trustedCAKey) != combinedCABundleName then
                  _ ← Update KSecuresign (withTrustedCA securesign); mret None
                else mret None
            | Err e =>
                if negb (IsNotFound e) then mret (Some e)
                else
                  onOk (oidcOf oidc) (fun '(issuerURL, clientID, oidcType) =>
                    if (issuerURL == "") || (clientID == "") then
                      mret (Some (Errorf "OIDC issuer and clientID are required"))
                    else
                      c ← Create KSecuresign
                            (withTrustedCA (unstructured_ securesignGVK architectNamespace securesignName
                               [("spec", JMap (securesignSpec issuerURL clientID oidcType (ric_Database cfg)))]));
                      mret (err_of c))
            end
        end
    end).

Definition deleteRHTASConfig : prog unit :=
  _ ← deleteNamed securesignGVK securesignName;
  _ ← Delete KConfigMap
        (mkConfigMap (meta0 <| om_Name := "rhtas-trusted-root" |> <| om_Namespace := architectNamespace |>) None);
  mret tt.

(** ** The root keys *)

(** [status] with what is there only once the object is ready. *)
Definition readyStatus (securesign : Unstructured) : result fields :=
  let '(status, found, err) := NestedMap (u_Object securesign) ["status"] in
  if bool_decide (is_Some (err : option error)) || negb found then Err (Errorf "securesign status not available yet")
  else
    match conditionsOf status with
    | None => Err (Errorf "securesign conditions not available yet")
    | Some conditions =>
        if existsb (trueCondition "Ready") conditions then Ok status else Err (Errorf "securesign not ready yet")
    end.

Definition tufURLOf (status : fields) : result string :=
  let '(tufURL, found, _) := NestedString status ["tuf"; "url"] in
  if negb found || (tufURL == "") then Err (Errorf "TUF URL not found in Securesign status") else Ok tufURL.

(** The secrets of Fulcio and of Rekor; of entries with one name the last counts. *)
Definition addKeyRef (acc : SecretKey * SecretKey) (key : json) : SecretKey * SecretKey :=
  match as_map key with
  | None => acc
  | Some keyMap =>
      let keyName := nested_string keyMap ["name"] in
      let '(ref, found, _) := NestedMap keyMap ["secretRef"] in
      if negb found then acc
      else
        let sk := (nested_string ref ["name"], nested_string ref ["key"]) in
        if keyName == "fulcio_v1.crt.pem" then (sk, snd acc)
        else if keyName == "rekor.pub" then (fst acc, sk)
        else acc
  end.

Definition keyRefs (tuf : Unstructured) : result (SecretKey * SecretKey) :=
  match statusOf tuf with
  | None => Err (Errorf "TUF status not available yet")
  | Some tufStatus =>
      let '(keys, found, _) := NestedSlice tufStatus ["keys"] in
      if negb found then Err (Errorf "TUF keys not found in status")
      else
        let refs := fold_left addKeyRef keys (("", ""), ("", "")) in
        if (fst (fst refs) == "") || (fst (snd refs) == "") then
          Err (Errorf "Fulcio or Rekor secret references not found in TUF status")
        else Ok refs
  end.

Definition keyFrom (sk : SecretKey) (failure empty : string) : prog (result string) :=
  s ← Get KSecret (mkNN architectNamespace (fst sk));
  mret (match s with
        | Err e => Err (Wrapf failure e)
        | Ok secret =>
            let pem := map_get (sec_Data secret) (snd sk) in
            if pem == "" then Err (Errorf (empty +:+ " is empty in secret " +:+ fst sk)) else Ok pem
        end).

Definition publishKeys (fulcio rekor tuf : string) : prog (option error) :=
  now ← Now;
  let cm := trustedRoot fulcio rekor tuf (FormatRFC3339 UTCOffset now) in
  g ← Get KConfigMap (key_of_meta trustedRootMeta);
  match g with
  | Ok existing =>
      if sameKeys fulcio rekor tuf existing then mret None
      else
        u ← Update KConfigMap (cm <| cm_Meta ::= fun om =>
                                 om <| om_ResourceVersion := om_ResourceVersion (cm_Meta existing) |> |>);
        mret (option_map (Wrapf "failed to update RHTAS trusted root ConfigMap") (err_of u))
  | Err e =>
      if IsNotFound e then
        c ← Create KConfigMap cm;
        mret (option_map (Wrapf "failed to create RHTAS trusted root ConfigMap") (err_of c))
      else mret (Some e)
  end.

Definition recordKeys (platform : DisconnectedPlatform) (fulcio rekor tuf : string) : prog DisconnectedPlatform :=
  if keysChanged (dp_Status platform) fulcio rekor tuf then
    now ← Now;
    mret (platform <| dp_Status ::= fun s => s <| dpst_RHTASRootKeys := Some
            (mkRHTASRootKeysInfo "rhtas-trusted-root" (hashString fulcio) (hashString rekor) now tuf) |> |>)
  else mret platform.

(** The keys and the address of the repository, read from the objects of the service. *)
Definition readRootKeys : prog (result (string * string * string)) :=
  let? securesign := Get KSecuresign securesignKey in
  let? status := mret (readyStatus securesign) in
  let? tufURL := mret (tufURLOf status) in
  let? tuf := getWrapped "failed to get TUF resource" (KUnstructured tufGVK) securesignKey in
  let? refs := mret (keyRefs tuf) in
  let? fulcio := keyFrom (fst refs) "failed to get Fulcio secret" "Fulcio root CA" in
  let? rekor := keyFrom (snd refs) "failed to get Rekor secret" "Rekor public key" in
  mret (Ok (fulcio, rekor, tufURL)).

Definition extractRHTASRootKeys (platform : DisconnectedPlatform)
  : prog (DisconnectedPlatform * option error) :=
  k ← readRootKeys;
  match k with
  | Err e => mret (platform, Some e)
  | Ok (fulcio, rekor, tuf) =>
      e ← publishKeys fulcio rekor tuf;
      match e with
      | Some e => mret (platform, Some e)
      | None => platform ← recordKeys platform fulcio rekor tuf; mret (platform, None)
      end
  end.

(** ** Keyless signing *)

(** The addresses of Fulcio, Rekor and TUF in the status of the service. *)
Definition serviceURLs (securesign : Unstructured) : result (string * string * string) :=
  let '(status, found, err) := NestedMap (u_Object securesign) ["status"] in
  if bool_decide (is_Some (err : option error)) || negb found then Err (Errorf "Securesign status not available yet")
  else
    let url s := nested_string status [s; "url"] in
    if (url "fulcio" == "") || (url "rekor" == "") then
      Err (Errorf "Fulcio or Rekor URL not available in Securesign status")
    else Ok (url "fulcio", url "rekor", if url "tuf" == "" then "http://tuf.mirror-operator-system.svc" else url "tuf").

Definition keycloakHostname (kc : Unstructured) : result string :=
  let hostname := nested_string (u_Object kc) ["spec"; "hostname"; "hostname"] in
  if hostname == "" then Err (Errorf "Keycloak hostname not available") else Ok hostname.

(** The realm is the one configured, and empty when none is. *)
Definition keylessConfig (urls : string * string * string) (hostname realm : string) : KeylessSigningConfig :=
  let '(fulcioURL, rekorURL, tufURL) := urls in
  mkKeylessSigningConfig fulcioURL rekorURL tufURL ("https://" +:+ hostname +:+ "/realms/" +:+ realm)
    "trusted-artifact-signer" (Some (mkLocalRef "mirror-operator-keycloak-client-secret")).

Definition configureCollectionPipelineSigning (platform : DisconnectedPlatform) : prog (option error) :=
  withConnected platform (fun cc =>
    match enabledKeycloak cc with
    | None => mret None
    | Some m =>
        onOk (let? securesign := getWrapped "waiting for Securesign to be ready" KSecuresign securesignKey in
              let? urls := mret (serviceURLs securesign) in
              let? kc := getWrapped "waiting for Keycloak" KKeycloak keycloakKey in
              let? hostname := mret (keycloakHostname kc) in
              mret (Ok (urls, hostname))) (fun '(urls, hostname) =>
        let clientID := "trusted-artifact-signer" in
        orFail "failed to retrieve Keycloak client secret"
          (updateKeycloakClientSecret hostname clientID (mkc_Realm m))
       (orFail "failed to configure Keycloak email mapper"
          (configureKeycloakEmailMapper hostname clientID (mkc_Realm m))
       (l ← List_ KCollectionPipeline None [];
        match l with
        | Err e => mret (Some (Wrapf "failed to list CollectionPipelines" e))
        | Ok pipelines => _ ← updateCollections (keylessConfig urls hostname (mkc_Realm m)) pipelines; mret None
        end)))
    end).
End Signing.
