(* ===== verification/Trustify.v ===== *)
(** The realm of the Trusted Profile Analyzer in the managed Keycloak
    ([disconnectedplatform_controller.go]): its scopes, its two clients, the role of the account
    that uploads, and the addresses browsers may be sent back to. *)
From S2P Require Import Prelude GoStrings K8s Json Api Kube Externals Helpers Platform PullSecrets Quay.
From S2P Require Import KeycloakAdmin.

Definition tpaGVK : GroupVersionKind := mkGVK "rhtpa.io" "v1" "TrustedProfileAnalyzer".
Abbreviation KTPA := (KUnstructured tpaGVK).
Definition tpaName : string := "mirror-operator-trusted-profile-analyzer".
Definition tpaKey : NamespacedName := mkNN architectNamespace tpaName.
(** The kind [ensureTrustifyOIDCClient] lists has another group. *)
Definition chartTPAGVK : GroupVersionKind :=
  mkGVK "charts.trustification.dev" "v1alpha1" "TrustedProfileAnalyzer".
Definition networkIngressGVK : GroupVersionKind := mkGVK "networking.k8s.io" "v1" "Ingress".
Abbreviation KNetworkIngress := (KUnstructured networkIngressGVK).

Definition roleURL (host realm role : string) : string := adminURL host ("/" +:+ realm +:+ "/roles/" +:+ role).
Definition userRolesURL (host realm user : string) : string :=
  adminURL host ("/" +:+ realm +:+ "/users/" +:+ user +:+ "/role-mappings/realm").

(** ["%s - %s"]. *)
Definition statusText (rep : HttpReply) : string := hp_Status rep +:+ " - " +:+ hp_Body rep.
(** ["(status %d): %s"]. *)
Definition statusParen (rep : HttpReply) : string :=
  "(status " +:+ itoa (hp_StatusCode rep) +:+ "): " +:+ hp_Body rep.

Definition documentScope (name description : string) : json :=
  JMap [("name", JStr name); ("description", JStr description); ("protocol", JStr "openid-connect");
        ("attributes", JMap [("include.in.token.scope", JStr "true"); ("display.on.consent.screen", JStr "false")])].

Definition redirectTo (host : string) : json := JStrs ["https://" +:+ host +:+ "/*"].
(** What is put into a client that exists, and a new client. *)
Definition clientUpdate (host : string) (isPublic : bool) : json :=
  JMap [("redirectUris", redirectTo host); ("webOrigins", JStrs ["*"]); ("publicClient", JBool isPublic);
        ("serviceAccountsEnabled", JBool (negb isPublic)); ("directAccessGrantsEnabled", JBool (negb isPublic))].
Definition newClient (clientID host : string) (secret : option string) : json :=
  let isPublic := bool_decide (secret = None) in
  JMap ([("clientId", JStr clientID); ("enabled", JBool true); ("protocol", JStr "openid-connect");
         ("publicClient", JBool isPublic); ("standardFlowEnabled", JBool true);
         ("directAccessGrantsEnabled", JBool (negb isPublic)); ("serviceAccountsEnabled", JBool (negb isPublic));
         ("redirectUris", redirectTo host); ("webOrigins", JStrs ["*"])] ++
        match secret with Some s => [("secret", JStr s)] | None => [] end).

Definition managerRole : string := "trustify-manager".

Section Trustify.
Context {X : Externals}.

(** ** Scopes *)

Definition ensureScope (name description : string) (keycloakHost realm token : string) : prog (option error) :=
  let url := scopesURL keycloakHost realm in
  onOk (getList url token "failed to list client scopes" (Some "failed to decode client scopes")) (fun scopes =>
    if named_in name scopes then mret None
    else expect_ (jsonRequest "POST" url token (documentScope name description))
           "failed to create client scope" [201%Z]).
Definition ensureTrustifyReadOnlyScope : string -> string -> string -> prog (option error) :=
  ensureScope "read:document" "Read-only access to Trustify documents (advisories, SBOMs, etc.)".
Definition ensureTrustifyCreateScope : string -> string -> string -> prog (option error) :=
  ensureScope "create:document" "Write access to Trustify documents (create SBOMs, advisories, etc.)".

(** A request whose reply must have one of some codes, with another form of the message. *)
Definition expectText (text : HttpReply -> string) (rq : HttpRequest) (failure refused : string) (codes : list Z)
  : prog (result HttpReply) :=
  r ← send rq;
  mret (match r with
        | Err e => Err (Wrapf failure e)
        | Ok rep => if statusIn codes rep then Ok rep else Err (Errorf (refused +:+ text rep))
        end).
Definition jsonHeaders (rq : HttpRequest) : HttpRequest :=
  mkHttpRequest (rq_Method rq) (rq_URL rq) (rq_Headers rq ++ [jsonType]) (rq_Body rq).

Definition assignScopeToClient (keycloakHost realm uuid scopeName token : string) : prog (option error) :=
  onOk (let? rep := expectText statusText (jsonHeaders (getRequest (scopesURL keycloakHost realm) token))
                      "failed to list client scopes" "failed to list client scopes: " [200%Z] in
        mret (match json_Decode_maps (hp_Body rep) with
              | (_, Some e) => Err (Wrapf "failed to decode client scopes response" e)
              | (scopes, None) => Ok scopes
              end)) (fun scopes =>
  let assign scopeUUID :=
    if scopeUUID == "" then mret (Some (Errorf (scopeName +:+ " scope not found")))
    else
      r ← expectText statusText
            (jsonHeaders (bareRequest "PUT"
               (clientURL keycloakHost realm uuid ("/default-client-scopes/" +:+ scopeUUID)) token))
            "failed to assign scope to client" "failed to assign scope to client: " [204%Z; 200%Z];
      mret (err_of r) in
  match find_first (fun s => hasString s "name" scopeName) scopes with
  | Some scope => idOf scope assign
  | None => assign ""
  end).
Definition assignReadScopeToClient (keycloakHost realm uuid token : string) : prog (option error) :=
  assignScopeToClient keycloakHost realm uuid "read:document" token.

(** ** The role of the account that uploads *)

Definition ensureTrustifyManagerRole (keycloakHost realm token : string) : prog (option error) :=
  r ← send (getRequest (roleURL keycloakHost realm managerRole) token);
  match r with
  | Err e => mret (Some (Wrapf "failed to check for trustify-manager role" e))
  | Ok rep =>
      if (hp_StatusCode rep =? 200)%Z then mret None
      else if negb (hp_StatusCode rep =? 404)%Z then
        mret (Some (Errorf ("unexpected status checking role " +:+ statusParen rep)))
      else
        c ← expectText statusParen
              (jsonRequest "POST" (adminURL keycloakHost ("/" +:+ realm +:+ "/roles")) token
                 (JMap [("name", JStr managerRole);
                        ("description", JStr "Trustify manager role with full access to Trustify/TPA APIs for creating and managing documents");
                        ("composite", JBool false); ("clientRole", JBool false)]))
              "failed to create trustify-manager role" "failed to create role " [201%Z];
        mret (err_of c)
  end.

(** A role, as a reply describes it. *)
Definition getRole (keycloakHost realm role token decodeFailure : string) : prog (result fields) :=
  r ← send (getRequest (roleURL keycloakHost realm role) token);
  mret (match r with
        | Err e => Err (Wrapf "failed to get role" e)
        | Ok rep =>
            if (hp_StatusCode rep =? 404)%Z then Err (Errorf ("role not found: " +:+ role))
            else match json_Decode_object (hp_Body rep) with
                 | Err e => Err (Wrapf decodeFailure e)
                 | Ok m => Ok (default [] m)
                 end
        end).

Definition assignRoleToServiceAccountByClient (keycloakHost realm uuid role token : string) : prog (option error) :=
  orFail "failed to ensure trustify-manager role exists"
    (if role == managerRole then ensureTrustifyManagerRole keycloakHost realm token else mret None)
 (onOk (let? rep := expectText statusParen
                      (getRequest (clientURL keycloakHost realm uuid "/service-account-user") token)
                      "failed to get service account user" "failed to get service account user " [200%Z] in
        mret (match json_Decode_object (hp_Body rep) with
              | Err e => Err (Wrapf "failed to decode service account user" e)
              | Ok saUser =>
                  match as_string (jget (default [] saUser) "id") with
                  | Some id => Ok id
                  | None => Err (Errorf "service account user ID not found in response")
                  end
              end)) (fun userUUID =>
  onOk (getRole keycloakHost realm role token "failed to decode role") (fun r =>
  a ← expectText statusParen
        (jsonRequest "POST" (userRolesURL keycloakHost realm userUUID) token (JMaps [r]))
        "failed to assign role" "failed to assign role " [204%Z];
  mret (err_of a)))).

(** The same for an account given by its name; that it has the role is no error. *)
Definition assignRoleToServiceAccount (keycloakHost realm username role token : string) : prog (option error) :=
  onOk (getList (adminURL keycloakHost ("/" +:+ realm +:+ "/users?username=" +:+ username +:+ "&exact=true")) token
          "failed to get service account user" (Some "failed to decode users response")) (fun users =>
    match users with
    | [] => mret (Some (Errorf ("service account user not found: " +:+ username)))
    | user :: _ =>
        idOf user (fun userUUID =>
        onOk (getRole keycloakHost realm role token "failed to decode role response") (fun r =>
        idOf r (fun roleUUID =>
        a ← expectText statusText
              (jsonRequest "POST" (userRolesURL keycloakHost realm userUUID) token
                 (JMaps [[("id", JStr roleUUID); ("name", JStr role)]]))
              "failed to assign role" "failed to assign role: " [204%Z; 200%Z; 201%Z; 409%Z];
        mret (err_of a))))
    end).

(** ** The clients *)

(** The host of the first rule of an ingress. *)
Definition ruleHost (ingress : Unstructured) : option string :=
  let '(rules, found, _) := NestedSlice (u_Object ingress) ["spec"; "rules"] in
  match rules with
  | rule :: _ =>
      if (found : bool) then
        match as_map rule ≫= (fun m => as_string (jget m "host")) with
        | Some host => if host != "" then Some host else None
        | None => None
        end
      else None
  | [] => None
  end.
Definition ownedBy (owner : OwnerReference -> bool) (ingress : Unstructured) : bool :=
  existsb owner (om_OwnerReferences (u_Meta ingress)).

(** The first host of an ingress that is chosen. *)
Fixpoint firstHost (chosen : Unstructured -> bool) (ingresses : list Unstructured) : option string :=
  match ingresses with
  | [] => None
  | i :: rest =>
      match (if chosen i then ruleHost i else None) with
      | Some host => Some host
      | None => firstHost chosen rest
      end
  end.

(** The host of the application, where an ingress of it is found. *)
Definition appHost (appDomain : string) : prog string :=
  l ← List_ (KUnstructured chartTPAGVK) None [];
  match l with
  | Ok (tpa :: _) =>
      i ← List_ KNetworkIngress (Some (om_Namespace (u_Meta tpa))) [];
      mret (match i with
            | Ok ingresses =>
                default appDomain (firstHost (ownedBy (fun o => or_UID o == om_UID (u_Meta tpa))) ingresses)
            | Err _ => appDomain
            end)
  | _ => mret appDomain
  end.

(** The secret of a client, [""] when it cannot be read. *)
Definition readClientSecret (keycloakHost realm uuid token : string) : prog string :=
  r ← send (getRequest (clientURL keycloakHost realm uuid "/client-secret") token);
  mret (match r with
        | Ok rep =>
            match json_Decode_object (hp_Body rep) with
            | Ok m => default "" (as_string (jget (default [] m) "value"))
            | Err _ => ""
            end
        | Err _ => ""
        end).

(** A client that exists is updated, whatever the status of the reply; its identifier and secret. *)
Definition updateClient (keycloakHost realm host token : string) (isPublic : bool) (client : fields)
  : prog (result (string * string)) :=
  idOf client (fun uuid =>
    u ← send (jsonRequest "PUT" (clientURL keycloakHost realm uuid "") token (clientUpdate host isPublic));
    match u with
    | Err e => mret (Err (Wrapf "failed to update client" e))
    | Ok _ =>
        s ← if isPublic then mret "" else readClientSecret keycloakHost realm uuid token;
        mret (Ok (uuid, s))
    end).

(** A client that is created; its identifier is then looked up, [""] when that fails. *)
Definition createClient (keycloakHost realm clientID host token : string) (isPublic : bool)
  : prog (result (string * string)) :=
  let secret := if isPublic then None else Some (generateRandomString 32) in
  let? _ := expect (jsonRequest "POST" (adminURL keycloakHost ("/" +:+ realm +:+ "/clients")) token
                      (newClient clientID host secret)) "failed to create client" [201%Z] in
  r ← send (getRequest (clientsURL keycloakHost realm clientID) token);
  let secret := default "" secret in
  match r with
  | Ok rep =>
      match json_Decode_maps (hp_Body rep) with
      | (client :: _, None) => idOf client (fun uuid => mret (Ok (uuid, secret)))
      | _ => mret (Ok ("", secret))
      end
  | Err _ => mret (Ok ("", secret))
  end.

Definition cliSecret (clientSecret : string) : Secret :=
  mkSecret (meta0 <| om_Name := "rhtpa-oidc-cli-secret" |> <| om_Namespace := architectNamespace |>)
    (Some {[ "clientSecret" := clientSecret ]}).

(** Only the secret of the client [cli] is kept; [StringData] is merged into the data. *)
Definition storeCLISecret (clientID clientSecret : string) : prog (option error) :=
  if clientID != "cli" then mret None
  else
    g ← Get KSecret (key_of_meta (sec_Meta (cliSecret clientSecret)));
    match g with
    | Err e =>
        if IsNotFound e then
          c ← Create KSecret (cliSecret clientSecret);
          mret (option_map (Wrapf ("failed to create " +:+ clientID +:+ " client secret")) (err_of c))
        else mret None
    | Ok existing =>
        u ← Update KSecret (existing <| sec_Data ::= fun d => Some (<[ "clientSecret" := clientSecret ]> (default ∅ d)) |>);
        mret (option_map (Wrapf ("failed to update " +:+ clientID +:+ " client secret")) (err_of u))
    end.

Definition ensureTrustifyOIDCClient (keycloakHost realm clientID appDomain token : string) (isPublic : bool)
  : prog (option error) :=
  host ← appHost appDomain;
  onOk (getList (clientsURL keycloakHost realm clientID) token "failed to check client"
          (Some "failed to decode clients response")) (fun clients =>
  onOk (match clients with
        | client :: _ => updateClient keycloakHost realm host token isPublic client
        | [] => createClient keycloakHost realm clientID host token isPublic
        end) (fun '(uuid, clientSecret) =>
  _ ← if uuid != "" then assignReadScopeToClient keycloakHost realm uuid token else mret None;
  if negb isPublic && (clientSecret != "") then storeCLISecret clientID clientSecret else mret None)).

(** ** The realm *)

Definition assignToClient (keycloakHost realm clientID token : string) : prog unit :=
  l ← getList (clientsURL keycloakHost realm clientID) token "failed to get client UUID" (Some "failed to decode clients response");
  match l with
  | Ok (client :: _) =>
      idOf client (fun uuid =>
        _ ← assignReadScopeToClient keycloakHost realm uuid token;
        if clientID == "cli" then
          _ ← assignScopeToClient keycloakHost realm uuid "create:document" token;
          _ ← assignRoleToServiceAccountByClient keycloakHost realm uuid managerRole token;
          mret tt
        else mret tt)
  | _ => mret tt
  end.
Definition assignScopeToTrustifyClients (keycloakHost realm token : string) : prog (option error) :=
  _ ← assignToClient keycloakHost realm "frontend" token;
  _ ← assignToClient keycloakHost realm "cli" token;
  mret None.

Definition ensureTrustifyRealm (keycloakHost realm token : string) : prog (option error) :=
  r ← send (getRequest (adminURL keycloakHost ("/" +:+ realm)) token);
  match r with
  | Err e => mret (Some (Wrapf "failed to check realm" e))
  | Ok rep =>
      if (hp_StatusCode rep =? 404)%Z then
        expect_ (jsonRequest "POST" (adminURL keycloakHost "") token
                   (JMap [("realm", JStr realm); ("enabled", JBool true);
                          ("displayName", JStr "Trusted Profile Analyzer")]))
          "failed to create realm" [201%Z]
      else mret None
  end.

Definition ensureTrustifyRealmAndOIDC (keycloakHost realm appDomain : string) : prog (option error) :=
  onOk (tokenFromSecret strictTokenPolicy keycloakHost "failed to get Keycloak admin credentials" None) (fun token =>
  orReturn (ensureTrustifyRealm keycloakHost realm token)
 (_ ← ensureTrustifyReadOnlyScope keycloakHost realm token;
  _ ← ensureTrustifyCreateScope keycloakHost realm token;
  orFail "failed to create frontend OIDC client"
    (ensureTrustifyOIDCClient keycloakHost realm "frontend" appDomain token true)
 (orFail "failed to create CLI OIDC client"
    (ensureTrustifyOIDCClient keycloakHost realm "cli" appDomain token false) (mret None)))).

(** ** The addresses browsers may be sent back to *)

Definition redirectTokenPolicy : TokenPolicy :=
  mkTokenPolicy false json_Decode_object false false (plainToken "no access_token").

Definition serverIngress (tpa ingress : Unstructured) : bool :=
  ownedBy (fun o => (or_UID o == om_UID (u_Meta tpa)) && (or_Kind o == "TrustedProfileAnalyzer")) ingress &&
  Contains (om_Name (u_Meta ingress)) "server".

Definition serverHost : prog (result string) :=
  g ← Get KTPA tpaKey;
  match g with
  | Err e => mret (Err (Wrapf "failed to get TPA resource" e))
  | Ok tpa =>
      l ← List_ KNetworkIngress (Some architectNamespace) [];
      mret (match l with
            | Err e => Err (Wrapf "failed to list ingresses" e)
            | Ok ingresses =>
                match firstHost (serverIngress tpa) ingresses with
                | Some host => Ok host
                | None => Err (Errorf "RHTPA server ingress not found yet or hostname not set")
                end
            end)
  end.

Definition updateTrustifyRedirectURIs (keycloakHost realm clientID : string) : prog (option error) :=
  onOk serverHost (fun host =>
  onOk (tokenFromSecret redirectTokenPolicy keycloakHost "failed to get Keycloak admin credentials" (Some "admin"))
    (fun token =>
  onOk (getList (clientsURL keycloakHost realm clientID) token "failed to check client"
          (Some "failed to decode clients")) (fun clients =>
    match clients with
    | [] => mret (Some (Errorf ("client " +:+ clientID +:+ " not found in realm " +:+ realm)))
    | client :: _ =>
        idOf client (fun uuid =>
          r ← send (jsonRequest "PUT" (clientURL keycloakHost realm uuid "") token
                      (JMap [("redirectUris", redirectTo host); ("webOrigins", JStrs ["*"])]));
          mret (match r with
                | Err e => Some (Wrapf "failed to update client" e)
                | Ok rep => if statusIn [200%Z; 204%Z] rep then None
                            else Some (Errorf ("failed to update client redirect URIs: " +:+ statusBody rep))
                end))
    end))).
End Trustify.
