(* ===== verification/Artifacts.v ===== *)
(** Where collections put their artifacts ([disconnectedplatform_controller.go]): the bucket and
    the secret that describes it, the file server that would serve the volumes of completed
    collections, and the script that imports the Airgap Architect. *)
From S2P Require Import Prelude GoStrings K8s Json Api Kube Externals Helpers Platform PlatformStatus.
From S2P Require Import PullSecrets ConnectedQuay.

(** ** The bucket *)

Definition artifactsBucket : string := "collection-artifacts".
Definition bucketKey : NamespacedName := mkNN architectNamespace artifactsBucket.
Definition bucketSpec (name : string) : fields :=
  [("generateBucketName", JStr name); ("storageClassName", JStr "openshift-storage.noobaa.io")].

(** An entry that is put to a value when it has another one, and whether something was put. *)
Definition putEntry (k v : string) (d : gmap string string * bool) : gmap string string * bool :=
  if default "" (fst d !! k) != v then (<[k := v]> (fst d), true) else d.

(** What the secret of the bucket says of it, from the ConfigMap and the external endpoint. *)
Definition s3Entries (cm : option (gmap string string)) (s3Endpoint : string) (data : gmap string string)
  : gmap string string * bool :=
  let bucketName := map_get cm "BUCKET_NAME" in
  let region := map_get cm "BUCKET_REGION" in
  let d := (data, false) in
  let d := if bucketName != "" then putEntry "S3_BUCKET" bucketName d else d in
  let d := if s3Endpoint != "" then putEntry "S3_ENDPOINT" s3Endpoint d else d in
  putEntry "AWS_REGION" (if region == "" then "us-east-1" else region) d.

(** ** The file server *)

Definition usesClaim (claim : string) (v : Volume) : bool :=
  match vol_Source v with VolClaim c _ => c == claim | _ => false end.
Definition podActive (p : Pod) : bool := (pod_Phase p == PodRunning) || (pod_Phase p == PodPending).
Definition pvcInUse (claim : string) (pods : list Pod) : bool :=
  existsb (fun p => podActive p && existsb (usesClaim claim) (pod_Volumes p)) pods.

Definition artifactsPVCName (pipeline : CollectionPipeline) : string :=
  let spec := cp_Spec pipeline in
  if cps_Incremental spec && (cps_BaseVersion spec != "") then "collection-artifacts-" +:+ cps_BaseVersion spec
  else "collection-artifacts-" +:+ om_Name (cp_ObjectMeta pipeline).

Definition artifactVolume (pipeline : CollectionPipeline) : Volume :=
  mkVolume ("artifacts-" +:+ om_Name (cp_ObjectMeta pipeline)) (VolClaim (artifactsPVCName pipeline) true).
Definition artifactMount (pipeline : CollectionPipeline) : VolumeMount :=
  mkVolumeMount ("artifacts-" +:+ om_Name (cp_ObjectMeta pipeline))
    ("/opt/app-root/src/" +:+ om_Name (cp_ObjectMeta pipeline)) true.

(** The completed collections whose claim is bound and used by no pod. *)
Definition servable (pipeline : CollectionPipeline) : prog bool :=
  if negb (collectionVersionComplete (cpst_Phase (cp_Status pipeline))) then mret false
  else
    let claim := artifactsPVCName pipeline in
    g ← Get KPersistentVolumeClaim (mkNN architectNamespace claim);
    match g with
    | Err _ => mret false
    | Ok pvc =>
        if pvc_Phase pvc != ClaimBound then mret false
        else
          pods ← List_ KPod (Some architectNamespace) [];
          mret (match pods with Ok pods => negb (pvcInUse claim pods) | Err _ => true end)
    end.

Fixpoint servablePipelines (pipelines : list CollectionPipeline) : prog (list CollectionPipeline) :=
  match pipelines with
  | [] => mret []
  | pipeline :: rest =>
      s ← servable pipeline;
      l ← servablePipelines rest;
      mret (if (s : bool) then pipeline :: l else l)
  end.

Definition fileServerName : string := "artifact-fileserver".
Definition fileServerLabels : gmap string string := {[ "app" := fileServerName ]}.
Definition fileServerMeta : ObjectMeta :=
  meta0 <| om_Name := fileServerName |> <| om_Namespace := architectNamespace |>.

Definition fileServerDeployment (pipelines : list CollectionPipeline) : Deployment :=
  mkDeployment fileServerMeta (Some 1%Z) fileServerLabels fileServerLabels
    (mkPodSpec "" "" ∅
       [mkPodContainer "nginx" "registry.access.redhat.com/ubi9/nginx-122:latest" [] []
          [mkContainerPort "" 8080 "TCP"] (map artifactMount pipelines) [] []]
       (map artifactVolume pipelines)).
Definition fileServerService : Service :=
  mkService fileServerMeta fileServerLabels [mkServicePort "http" 8080 8080 "TCP"] "".
Definition fileServerRoute : Unstructured :=
  unstructured_ routeGVK architectNamespace fileServerName
    [("spec", JMap [("to", JMap [("kind", JStr "Service"); ("name", JStr fileServerName)]);
                    ("port", JMap [("targetPort", JStr "http")]);
                    ("tls", JMap [("termination", JStr "edge")])])].

(** [withMeta f o]: the object with its metadata mapped. *)
Definition versionOf (existing om : ObjectMeta) : ObjectMeta :=
  om <| om_ResourceVersion := om_ResourceVersion existing |>.

(** An object that is replaced, with the version that was read, or created. *)
Definition replaceOrCreate {K} (what : string) (adopt : obj K -> obj K -> obj K) (o : obj K)
  : prog (option error) :=
  g ← Get K (key_of o);
  match g with
  | Ok existing =>
      u ← Update K (adopt existing o);
      mret (option_map (Wrapf ("failed to update artifact fileserver " +:+ what)) (err_of u))
  | Err e =>
      if IsNotFound e then
        c ← Create K o;
        mret (option_map (Wrapf ("failed to create artifact fileserver " +:+ what)) (err_of c))
      else mret (Some e)
  end.

Section Artifacts.
Context {X : Externals}.

Definition reconcileArtifactsBucket (platform : DisconnectedPlatform) : prog (option error) :=
  g ← Get (KUnstructured obcGVK) bucketKey;
  match g with
  | Ok _ => mret None
  | Err e =>
      if negb (IsNotFound e) then mret (Some (Wrapf "failed to get ObjectBucketClaim" e))
      else
        let obc := unstructured_ obcGVK architectNamespace artifactsBucket
                     [("spec", JMap (bucketSpec artifactsBucket))] in
        c ← Create (KUnstructured obcGVK) (obc <| u_Meta ::= controlledBy platform |>);
        mret (option_map (Wrapf "failed to create ObjectBucketClaim") (err_of c))
  end.

(** The host of the external route of S3, when it has one. *)
Definition s3RouteHost : prog (option string) :=
  g ← Get (KUnstructured routeGVK) (mkNN "openshift-storage" "s3");
  mret (match g with
        | Err _ => None
        | Ok s3Route =>
            let '(host, found, _) := NestedString (u_Object s3Route) ["spec"; "host"] in
            if (found : bool) && (host != "") then Some host else None
        end).

Definition syncS3ConfigToSecret : prog (option error) :=
  c ← Get KConfigMap bucketKey;
  match c with
  | Err e => mret (if IsNotFound e then None
                   else Some (Wrapf "failed to get collection-artifacts ConfigMap" e))
  | Ok cm =>
      s ← Get KSecret bucketKey;
      match s with
      | Err e => mret (if IsNotFound e then None
                       else Some (Wrapf "failed to get collection-artifacts Secret" e))
      | Ok secret =>
          h ← if map_get (cm_Data cm) "BUCKET_HOST" == "s3.openshift-storage.svc" then s3RouteHost
              else mret None;
          let s3Endpoint := match h with Some host => "https://" +:+ host | None => "" end in
          let '(data, needsUpdate) := s3Entries (cm_Data cm) s3Endpoint (default ∅ (sec_Data secret)) in
          if (needsUpdate : bool) then
            u ← Update KSecret (secret <| sec_Data := Some data |>);
            mret (option_map (Wrapf "failed to update collection-artifacts Secret") (err_of u))
          else mret None
      end
  end.

Definition reconcileArtifactFileServer (platform : DisconnectedPlatform) : prog (option error) :=
  l ← List_ KCollectionPipeline (Some architectNamespace) [];
  match l with
  | Err e => mret (Some (Wrapf "failed to list CollectionPipelines" e))
  | Ok pipelines =>
      served ← servablePipelines pipelines;
      match served with
      | [] => mret None
      | _ =>
          orReturn (replaceOrCreate (K := KDeployment) "deployment"
                      (fun ex o => o <| dep_Meta ::= versionOf (dep_Meta ex) |>)
                      ((fileServerDeployment served) <| dep_Meta ::= controlledBy platform |>))
         (orReturn (replaceOrCreate (K := KService) "service"
                      (fun ex o => o <| svc_Meta ::= versionOf (svc_Meta ex) |>
                                     <| svc_ClusterIP := svc_ClusterIP ex |>)
                      (fileServerService <| svc_Meta ::= controlledBy platform |>))
         (replaceOrCreate (K := KUnstructured routeGVK) "route" withVersionOf
            (fileServerRoute <| u_Meta ::= controlledBy platform |>)))
      end
  end.

(** The script is embedded in the program when it is built. *)
Definition importScriptCM (ImportAirgapArchitectScript : string) : ConfigMap :=
  mkConfigMap (meta0 <| om_Name := "airgap-architect-import-script" |> <| om_Namespace := architectNamespace |>)
    (Some {[ "import-airgap-architect.sh" := ImportAirgapArchitectScript ]}).

Definition ensureImportScriptConfigMap (ImportAirgapArchitectScript : string) : prog (option error) :=
  let cm := importScriptCM ImportAirgapArchitectScript in
  g ← Get KConfigMap (key_of_meta (cm_Meta cm));
  match g with
  | Ok existing =>
      if map_get (cm_Data existing) "import-airgap-architect.sh" != ImportAirgapArchitectScript then
        u ← Update KConfigMap (existing <| cm_Data := cm_Data cm |>); mret (err_of u)
      else mret None
  | Err e =>
      if IsNotFound e then c ← Create KConfigMap cm; mret (err_of c) else mret (Some e)
  end.
End Artifacts.
