(* ===== verification/RHTPA.v ===== *)
(** The Trusted Profile Analyzer ([reconcileRHTPAConfig], [deleteRHTPAConfig],
    [buildRHTPAImportersMap] of [disconnectedplatform_controller.go]): its object, with its
    database, its bucket and its clients in Keycloak. *)
From S2P Require Import Prelude GoStrings K8s Json Api Kube Externals Helpers Operators Platform PullSecrets Quay.
From S2P Require Import ConnectedQuay KeycloakAdmin Postgres ManagedKeycloak Signing Trustify Artifacts.

Definition importer (name type_ : string) (enabled : bool) : fields :=
  if enabled then [(name, JMap [(type_, JMap [("disabled", JBool false)])])] else [].
Definition buildRHTPAImportersMap (importers : option RHTPAImportersConfig) : fields :=
  importer "redhat-csaf" "csaf" true ++
  match importers with
  | Some i => importer "redhat-sboms" "sbom" (tim_RedHatSBOMs i) ++ importer "cve" "cve" (tim_CVE i) ++
              importer "osv-github" "osv" (tim_OSVGitHub i)
  | None => []
  end.
Definition createImporters (importers : option RHTPAImportersConfig) : json :=
  JMap [("enabled", JBool true); ("importers", JMap (buildRHTPAImportersMap importers))].

(** ** The parts of the object *)

Definition caVolumes : json :=
  JList [JMap [("name", JStr clusterCAVolumeName); ("configMap", JMap [("name", JStr clusterCABundleName)])]].
Definition caVolumeMounts : json :=
  JList [JMap [("name", JStr clusterCAVolumeName); ("mountPath", JStr clusterCAMountPath); ("readOnly", JBool true)]].

Definition tpaBucket : string := "rhtpa-storage".
Definition tpaBucketKey : NamespacedName := mkNN architectNamespace tpaBucket.
Definition tpaStorage (cm : ConfigMap) (sec : Secret) (s3Endpoint : string) : json :=
  JMap [("type", JStr "s3"); ("bucket", JStr (map_get (cm_Data cm) "BUCKET_NAME")); ("region", JStr s3Endpoint);
        ("accessKey", JStr (map_get (sec_Data sec) "AWS_ACCESS_KEY_ID"));
        ("secretKey", JStr (map_get (sec_Data sec) "AWS_SECRET_ACCESS_KEY")); ("pathStyle", JBool true)].

Definition tpaOIDC (issuerURL : string) : json :=
  JMap [("clients", JMap
           [("frontend", JMap [("clientId", JStr "frontend")]);
            ("cli", JMap [("clientId", JStr "cli");
               ("clientSecret", JMap [("valueFrom", JMap [("secretKeyRef",
                  JMap [("name", JStr "rhtpa-oidc-cli-secret"); ("key", JStr "clientSecret")])])])])]);
        ("insecure", JBool false); ("loadUser", JBool true); ("issuerUrl", JStr issuerURL)].

Definition requests (cpu memory : string) : json :=
  JMap [("requests", JMap [("cpu", JStr cpu); ("memory", JStr memory)])].
Definition enabledModule : json := JMap [("enabled", JBool true); ("image", JMap [])].

Definition tpaSpec (appDomain issuerURL : string) (db : DatabaseAccess) (importers : option RHTPAImportersConfig)
    (storage : json) : fields :=
  [("appDomain", JStr appDomain);
   ("openshift", JMap [("useServiceCa", JBool true)]);
   ("tls", JMap [("additionalTrustAnchor", JStr clusterCAFilePath)]);
   ("extraVolumes", caVolumes);
   ("extraVolumeMounts", caVolumeMounts);
   ("database", JMap [("host", JStr (da_Host db)); ("name", JStr (da_Name db)); ("username", JStr (da_User db));
                      ("password", JStr (da_Password db))]);
   ("createDatabase", JMap [("enabled", JBool true); ("image", JMap []); ("name", JStr (da_Name db));
                            ("username", JStr "postgres"); ("password", JStr "postgres")]);
   ("migrateDatabase", enabledModule);
   ("modules", JMap
      [("createDatabase", enabledModule); ("migrateDatabase", enabledModule);
       ("importer", JMap [("enabled", JBool true); ("concurrency", JInt 1); ("replicas", JInt 1);
                          ("resources", requests "1" "8Gi")]);
       ("createImporters", createImporters importers);
       ("server", JMap [("enabled", JBool true); ("replicas", JInt 1); ("resources", requests "1" "8Gi")])])] ++
  (if issuerURL != "" then [("oidc", tpaOIDC issuerURL)] else []) ++
  [("storage", storage)].

(** An OIDC provider of its own, and a database of its own, where they are configured. *)
Definition ownIssuer (cfg : RHTPAInstallerConfig) : option string :=
  match tic_OIDC cfg with
  | Some o => if toc_Issuer o != "" then Some (toc_Issuer o) else None
  | None => None
  end.
Definition ownDatabase (cfg : RHTPAInstallerConfig) : option DatabaseAccess :=
  match tic_Database cfg with
  | Some d =>
      if (tdc_Host d != "") && (tdc_Host d != "postgres.example.com")
      then Some (mkDatabaseAccess (tdc_Host d) (tdc_Name d) (tdc_Username d) (tdc_Password d)) else None
  | None => None
  end.

Section RHTPA.
Context {X : Externals}.

(** ** An object that is configured *)

Definition nestedFound (m : fields) (path : list string) : option fields :=
  let '(r, found, _) := NestedMap m path in if (found : bool) then Some r else None.
Definition moduleEnabled (modules : fields) (name : string) : bool :=
  match nestedFound modules [name] with
  | Some m => let '(b, _, _) := NestedBool m ["enabled"] in b
  | None => false
  end.
(** It has OIDC, and creates and migrates its database. *)
Definition tpaConfigured (tpa : Unstructured) : bool :=
  match nestedFound (u_Object tpa) ["spec"; "oidc"] with
  | Some (_ :: _) =>
      match nestedFound (u_Object tpa) ["spec"; "modules"] with
      | Some modules => moduleEnabled modules "createDatabase" && moduleEnabled modules "migrateDatabase"
      | None => false
      end
  | _ => false
  end.

Definition lenientTokenPolicy : TokenPolicy :=
  mkTokenPolicy false json_Decode_object false true (plainToken "no access token").

(** Scopes, clients and their roles are put back; every error is logged and passed over. *)
Definition refreshClients (keycloakHost appDomain : string) : prog unit :=
  t ← tokenFromSecret lenientTokenPolicy keycloakHost "" None;
  match t with
  | Err _ => mret tt
  | Ok token =>
      _ ← ensureTrustifyReadOnlyScope keycloakHost "trustify" token;
      _ ← ensureTrustifyCreateScope keycloakHost "trustify" token;
      _ ← ensureTrustifyOIDCClient keycloakHost "trustify" "frontend" appDomain token true;
      _ ← ensureTrustifyOIDCClient keycloakHost "trustify" "cli" appDomain token false;
      _ ← assignScopeToTrustifyClients keycloakHost "trustify" token;
      mret tt
  end.

Definition refreshKeycloak : prog unit :=
  i ← Get (KUnstructured gvkIngress) (clusterKey "cluster");
  match i with
  | Err _ => mret tt
  | Ok ingress =>
      let domain := nested_string (u_Object ingress) ["spec"; "domain"] in
      let keycloakHost := "keycloak." +:+ domain in
      _ ← refreshClients keycloakHost ("rhtpa." +:+ domain);
      _ ← updateTrustifyRedirectURIs keycloakHost "trustify" "frontend";
      mret tt
  end.

(** The endpoint of S3: the external route, or the service. *)
Definition tpaEndpoint : prog string :=
  h ← s3RouteHost;
  mret ("https://" +:+ default "s3.openshift-storage.svc" h).

(** The storage, once the bucket is described by its ConfigMap and its Secret. *)
Definition refreshedStorage : prog (option json) :=
  c ← Get KConfigMap tpaBucketKey;
  match c with
  | Err _ => mret None
  | Ok cm =>
      s ← Get KSecret tpaBucketKey;
      match s with
      | Err _ => mret None
      | Ok sec => endpoint ← tpaEndpoint; mret (Some (tpaStorage cm sec endpoint))
      end
  end.

(** A field is set, and whether something could be set. *)
Definition setStep (acc : fields * bool) (pv : list string * json) : fields * bool :=
  match SetNestedField (fst acc) (snd pv) (fst pv) with
  | (o, None) => (o, true)
  | (o, Some _) => (o, snd acc)
  end.
Definition refreshedFields (storage : option json) (importers : option RHTPAImportersConfig)
  : list (list string * json) :=
  match storage with Some st => [(["spec"; "storage"], st)] | None => [] end ++
  [(["spec"; "modules"; "createImporters"], createImporters importers);
   (["spec"; "extraVolumes"], caVolumes);
   (["spec"; "extraVolumeMounts"], caVolumeMounts);
   (["spec"; "tls"; "additionalTrustAnchor"], JStr clusterCAFilePath)].

Definition refreshTPA (importers : option RHTPAImportersConfig) (tpa : Unstructured) : prog (option error) :=
  _ ← refreshKeycloak;
  storage ← refreshedStorage;
  let '(o, needsUpdate) := fold_left setStep (refreshedFields storage importers) (u_Object tpa, false) in
  if (needsUpdate : bool) then
    _ ← Update KTPA (tpa <| u_Object := RemoveNestedField o ["spec"; "extraEnv"] |>); mret None
  else mret None.

(** ** A new object *)

(** The issuer of tokens; the managed Keycloak gets the realm and the clients. *)
Definition tpaIssuer (cfg : RHTPAInstallerConfig) (domain : string) : prog (result string) :=
  match ownIssuer cfg with
  | Some issuer => mret (Ok issuer)
  | None =>
      let keycloakHost := "keycloak." +:+ domain in
      e ← ensureTrustifyRealmAndOIDC keycloakHost "trustify" ("rhtpa." +:+ domain);
      mret (match e with
            | Some e => Err (Wrapf "failed to configure TPA OIDC in Keycloak" e)
            | None => Ok ("https://" +:+ keycloakHost +:+ "/realms/trustify")
            end)
  end.

Definition tpaDatabase (cfg : RHTPAInstallerConfig) : prog (result DatabaseAccess) :=
  match ownDatabase cfg with
  | Some db => mret (Ok db)
  | None =>
      d ← ensureRHTPAPostgreSQL (tic_DatabaseStorageSize cfg) (tic_DatabaseMaxStorageSize cfg);
      mret (match d with
            | Err e => Err (Wrapf "failed to create managed PostgreSQL for TPA" e)
            | Ok db => Ok db
            end)
  end.

(** The bucket is claimed; until it is described that is an error. *)
Definition claimedStorage : prog (result json) :=
  e ← createAbsent "failed to create RHTPA storage OBC" (KUnstructured obcGVK)
        (unstructured_ obcGVK architectNamespace tpaBucket [("spec", JMap (bucketSpec tpaBucket))]) leave;
  match e with
  | Some e => mret (Err e)
  | None =>
      let? cm := getWrapped "failed to get RHTPA storage OBC ConfigMap" KConfigMap tpaBucketKey in
      let? sec := getWrapped "failed to get RHTPA storage OBC Secret" KSecret tpaBucketKey in
      endpoint ← tpaEndpoint;
      mret (Ok (tpaStorage cm sec endpoint))
  end.

Definition writeTPA (spec : fields) : prog (option error) :=
  let newTPA := unstructured_ tpaGVK architectNamespace tpaName [("spec", JMap spec)] in
  g ← Get KTPA tpaKey;
  match g with
  | Ok currentTPA => u ← Update KTPA (withVersionOf currentTPA newTPA); mret (err_of u)
  | Err e => if IsNotFound e then c ← Create KTPA newTPA; mret (err_of c) else mret (Some e)
  end.

Definition createTPA (cfg : RHTPAInstallerConfig) : prog (option error) :=
  onOk (getWrapped "failed to get cluster ingress" (KUnstructured gvkIngress) (clusterKey "cluster")) (fun ingress =>
  let domain := nested_string (u_Object ingress) ["spec"; "domain"] in
  onOk (tpaIssuer cfg domain) (fun issuerURL =>
  onOk (tpaDatabase cfg) (fun db =>
  onOk claimedStorage (fun storage =>
  orReturn (writeTPA (tpaSpec ("rhtpa." +:+ domain) issuerURL db (tic_Importers cfg) storage))
    (match ownIssuer cfg with
     | Some _ => mret None
     | None => _ ← updateTrustifyRedirectURIs ("keycloak." +:+ domain) "trustify" "frontend"; mret None
     end))))).

(** An object that lacks something is deleted and created again. *)
Definition reconcileRHTPAConfig (platform : DisconnectedPlatform) : prog (option error) :=
  withConnected platform (fun cc =>
    match cc_RHTPA cc with
    | None => mret None
    | Some cfg =>
        match tic_Storage cfg with
        | None => mret None
        | Some _ =>
            g ← Get KTPA tpaKey;
            match g with
            | Ok existingTPA =>
                if tpaConfigured existingTPA then refreshTPA (tic_Importers cfg) existingTPA
                else
                  d ← Delete KTPA existingTPA;
                  match d with
                  | Some e => mret (Some (Wrapf "failed to delete existing TPA for update" e))
                  | None => _ ← Sleep (2 * Second)%Z; createTPA cfg
                  end
            | Err e => if negb (IsNotFound e) then mret (Some e) else createTPA cfg
            end
        end
    end).

Definition deleteRHTPAConfig : prog unit := deleteNamed tpaGVK tpaName.
End RHTPA.
