(* ===== verification/Architect.v ===== *)
(** The Airgap Architect application ([disconnectedplatform_controller.go]): the Deployments,
    Services and Routes of its backend, frontend and console plugin, the account the backend
    runs with, and their removal. *)
From S2P Require Import Prelude GoStrings Sha256 K8s Json Api Kube Externals Helpers Operators Platform.
From S2P Require Import PullSecrets CABundles.

Definition architectPort : Z := 4000.
Definition frontendPort : Z := 5173.

Definition deploymentGVK : GroupVersionKind := mkGVK "apps" "v1" "Deployment".
Definition serviceGVK : GroupVersionKind := mkGVK "" "v1" "Service".
Definition consolePluginGVK : GroupVersionKind := mkGVK "console.openshift.io" "v1" "ConsolePlugin".
Definition roleGVK : GroupVersionKind := mkGVK "rbac.authorization.k8s.io" "v1" "Role".
Definition roleBindingGVK : GroupVersionKind := mkGVK "rbac.authorization.k8s.io" "v1" "RoleBinding".

Definition pullSecretVolumeName : string := "pull-secret".
Definition pullSecretMountPath : string := "/opt/app-root/src/.openshift".

(** ** Names and labels *)

(** The name of a resource: the hash of the platform's name when its name is too long. *)
Definition architectResourceName (platform : DisconnectedPlatform) (component : string) : string :=
  let name := om_Name (dp_ObjectMeta platform) in
  let baseName := "mo-" +:+ name +:+ "-" +:+ component in
  if (String.length baseName <=? 63)%nat then baseName
  else "mo-" +:+ EncodeToString (take 4 (Sum256 name)) +:+ "-" +:+ component.

Definition architectComponentLabels (component : string) : gmap string string :=
  {[ "app.kubernetes.io/name" := "airgap-architect-" +:+ component;
     "app.kubernetes.io/component" := component;
     "app.kubernetes.io/part-of" := "mirror-operator";
     "app.kubernetes.io/managed-by" := "mirror-operator" ]}.

(** An object of the application, in the namespace of the operator. *)
Definition architectObject (g : GroupVersionKind) (name : string) (labels : gmap string string)
    (o : fields) : Unstructured :=
  (unstructured_ g architectNamespace name o) <| u_Meta ::= fun om => om <| om_Labels := labels |> |>.
Definition inArchitectNamespace (name : string) : NamespacedName := mkNN architectNamespace name.

(** ** Containers *)

Definition containerBuilder : Type := string -> string -> gmap string string -> fields.

Definition probe (kind_ : string) (handler : fields) (delay period : Z) : string * json :=
  (kind_, JMap (handler ++
    [("initialDelaySeconds", JInt delay); ("periodSeconds", JInt period);
     ("failureThreshold", JInt 3); ("successThreshold", JInt 1); ("timeoutSeconds", JInt 1)])).
Definition tcpSocket (port : Z) : fields := [("tcpSocket", JMap [("port", JInt port)])].
Definition readOnlyMount (name path : string) : json :=
  JMap [("name", JStr name); ("mountPath", JStr path); ("readOnly", JBool true)].
Definition envVar (name value : string) : json := JMap [("name", JStr name); ("value", JStr value)].

Definition makeBackendContainerBuilder (githubTokenSecretName deploymentSide : string)
    (proxyEnvs : list fields) : containerBuilder := fun name image labels =>
  let env :=
    [envVar "DATA_DIR" "/data";
     envVar "NODE_ENV" "production";
     envVar "PULL_SECRET_FILE" (pullSecretMountPath +:+ "/" +:+ pullSecretKey);
     envVar "OPENSHIFT_OPERATOR_MANAGED" "true";
     envVar "DEPLOYMENT_SIDE" deploymentSide;
     envVar "S3_SECRET_NAME" "collection-artifacts";
     envVar "LOG_LEVEL" "debug";
     envVar "NODE_EXTRA_CA_CERTS" clusterCAFilePath;
     envVar "SSL_CERT_FILE" clusterCAFilePath;
     envVar "TLS_CERT_PATH" "/var/serving-cert/tls.crt";
     envVar "TLS_KEY_PATH" "/var/serving-cert/tls.key"] ++
    (if githubTokenSecretName != "" then
       [JMap [("name", JStr "GITHUB_TOKEN");
              ("valueFrom", JMap [("secretKeyRef",
                 JMap [("name", JStr githubTokenSecretName); ("key", JStr "token")])])]]
     else []) ++ map JMap proxyEnvs in
  [("name", JStr "airgap-architect-backend");
   ("image", JStr image);
   ("imagePullPolicy", JStr "Always");
   ("ports", JList [JMap [("containerPort", JInt architectPort); ("protocol", JStr "TCP")]]);
   ("env", JList env);
   ("volumeMounts", JList
     [JMap [("name", JStr "data"); ("mountPath", JStr "/data")];
      readOnlyMount pullSecretVolumeName pullSecretMountPath;
      readOnlyMount "tls-cert" "/var/serving-cert";
      readOnlyMount clusterCAVolumeName clusterCAMountPath]);
   probe "readinessProbe" (tcpSocket architectPort) 5 10;
   probe "livenessProbe" (tcpSocket architectPort) 15 20].

Definition frontendContainer (name image : string) (labels : gmap string string)
    (backendRouteHostname frontendRouteHostname : string) : fields :=
  let apiBase := if backendRouteHostname != "" then "https://" +:+ backendRouteHostname else "" in
  let envVars :=
    [envVar "NODE_ENV" "production"; envVar "OPENSHIFT_OPERATOR_MANAGED" "true"] ++
    (if apiBase != "" then [envVar "VITE_API_BASE" apiBase] else []) ++
    (if frontendRouteHostname != "" then [envVar "VITE_ALLOWED_HOSTS" frontendRouteHostname] else []) ++
    [envVar "NODE_EXTRA_CA_CERTS" clusterCAFilePath] in
  [("name", JStr "airgap-architect-frontend");
   ("image", JStr image);
   ("ports", JList [JMap [("containerPort", JInt frontendPort); ("protocol", JStr "TCP")]]);
   ("env", JList envVars);
   ("volumeMounts", JList
     [JMap [("name", JStr "data"); ("mountPath", JStr "/app/node_modules/.vite")];
      readOnlyMount clusterCAVolumeName clusterCAMountPath]);
   probe "readinessProbe" (tcpSocket frontendPort) 5 10;
   probe "livenessProbe" (tcpSocket frontendPort) 15 20].

Definition consolePluginContainer (name image : string) (labels : gmap string string) : fields :=
  let httpGet := [("httpGet", JMap [("path", JStr "/plugin-manifest.json"); ("port", JInt 9001);
                                    ("scheme", JStr "HTTPS")])] in
  [("name", JStr "plugin");
   ("image", JStr image);
   ("imagePullPolicy", JStr "Always");
   ("ports", JList [JMap [("containerPort", JInt 9001); ("name", JStr "https"); ("protocol", JStr "TCP")]]);
   ("volumeMounts", JList [readOnlyMount "serving-cert" "/var/serving-cert"]);
   ("resources", JMap
     [("requests", JMap [("cpu", JStr "100m"); ("memory", JStr "128Mi")]);
      ("limits", JMap [("cpu", JStr "500m"); ("memory", JStr "256Mi")])]);
   probe "livenessProbe" httpGet 5 10;
   probe "readinessProbe" httpGet 5 10].

(** ** Deployments *)

Definition secretVolume (name secret : string) : json :=
  JMap [("name", JStr name); ("secret", JMap [("secretName", JStr secret)])].

Definition architectDeploymentSpec (name image : string) (replicas : Z) (labels : gmap string string)
    (pullSecretName pullSecretNamespace : string) (buildContainer : containerBuilder) : fields :=
  let component := default "" (labels !! "app.kubernetes.io/component") in
  let volumes :=
    [JMap [("name", JStr "data"); ("emptyDir", JMap [])]] ++
    (if (component == "backend") && (pullSecretName != "") then
       [secretVolume pullSecretVolumeName pullSecretName] else []) ++
    (if component == "backend" then [secretVolume "tls-cert" (name +:+ "-cert")] else []) ++
    (if component == "console-plugin" then
       [secretVolume "serving-cert" "airgap-architect-plugin-cert"] else []) ++
    (if (component == "backend") || (component == "frontend") then
       [JMap [("name", JStr clusterCAVolumeName);
              ("configMap", JMap [("name", JStr clusterCABundleName); ("optional", JBool true)])]]
     else []) in
  let podSpec :=
    [("containers", JList [JMap (buildContainer name image labels)]); ("volumes", JList volumes)] ++
    (if component == "backend" then [("serviceAccountName", JStr "airgap-architect-backend")] else []) in
  [("replicas", JInt replicas);
   ("selector", JMap [("matchLabels", JMap
      [("app.kubernetes.io/name", JStr ("airgap-architect-" +:+ component));
       ("app.kubernetes.io/component", JStr component)])]);
   ("template", JMap
      [("metadata", JMap [("labels", JMap (labelFields labels))]);
       ("spec", JMap podSpec)])].

Definition architectDeployment (name image : string) (replicas : Z) (labels : gmap string string)
    (pullSecretName pullSecretNamespace : string) (buildContainer : containerBuilder) : Unstructured :=
  architectObject deploymentGVK name labels
    [("spec", JMap (architectDeploymentSpec name image replicas labels pullSecretName
                      pullSecretNamespace buildContainer))].

Definition architectBackendDeployment := architectDeployment.
Definition architectFrontendDeployment (name image : string) (replicas : Z) (labels : gmap string string)
    (backendRouteHostname frontendRouteHostname : string) : Unstructured :=
  architectDeployment name image replicas labels "" ""
    (fun name image labels => frontendContainer name image labels backendRouteHostname frontendRouteHostname).
Definition consolePluginDeployment (name image : string) (replicas : Z) (labels : gmap string string)
    (pullSecretName pullSecretNamespace : string) : Unstructured :=
  architectDeployment name image replicas labels pullSecretName pullSecretNamespace consolePluginContainer.

Section Architect.
Context {X : Externals}.

(** Whether a deployment is as wanted.  Only the replicas and, of the first container, the
    image, the environment, the mounts and the probes are looked at; comparing the images
    panics when both are maps or both are slices.  The reason goes to the log. *)
Definition deploymentsEqual (existing desired : fields) : option bool :=
  if negb (nested_int64 existing ["replicas"] =? nested_int64 desired ["replicas"])%Z then Some false
  else
    let existingContainers := nested_slice existing ["template"; "spec"; "containers"] in
    let desiredContainers := nested_slice desired ["template"; "spec"; "containers"] in
    if negb (length existingContainers =? length desiredContainers)%nat then Some false
    else
      match existingContainers, desiredContainers with
      | e :: _, d :: _ =>
          let e := default [] (as_map e) in
          let d := default [] (as_map d) in
          let same k := marshalText (jget e k) == marshalText (jget d k) in
          match iface_eqb (jget e "image") (jget d "image") with
          | None => None
          | Some false => Some false
          | Some true =>
              Some (same "env" && same "volumeMounts" && same "readinessProbe" && same "livenessProbe")
          end
      | _, _ => Some true
      end.

Definition uncomparable : string := "comparing uncomparable type".

Definition updateArchitectDeployment (platform : DisconnectedPlatform) (name image : string) (replicas : Z)
    (labels : gmap string string) (pullSecretName pullSecretNamespace : string)
    (buildContainer : containerBuilder) : prog (option error) :=
  g ← Get (KUnstructured deploymentGVK) (inArchitectNamespace name);
  match g with
  | Err e => mret (Some e)
  | Ok existing =>
      let desired := architectDeployment name image replicas labels pullSecretName pullSecretNamespace
                       buildContainer in
      let update :=
        u ← Update (KUnstructured deploymentGVK) (setOwnerReference (withVersionOf existing desired) platform);
        mret (err_of u) in
      let '(existingSpec, found, err) := NestedMap (u_Object existing) ["spec"] in
      match err with
      | Some e => mret (Some (Wrapf "failed to get existing spec" e))
      | None =>
          if found : bool then
            match deploymentsEqual existingSpec
                    (architectDeploymentSpec name image replicas labels pullSecretName
                       pullSecretNamespace buildContainer) with
            | None => Panic uncomparable
            | Some true => mret None
            | Some false => update
            end
          else update
      end
  end.

(** The deployment is updated when it exists and created, with its owner, when it does not. *)
Definition ensureArchitectDeployment (platform : DisconnectedPlatform) (name image : string) (replicas : Z)
    (labels : gmap string string) (pullSecretName pullSecretNamespace : string)
    (buildContainer : containerBuilder) (newDep : Unstructured) : prog (option error) :=
  g ← Get (KUnstructured deploymentGVK) (inArchitectNamespace name);
  match g with
  | Ok _ => updateArchitectDeployment platform name image replicas labels pullSecretName
              pullSecretNamespace buildContainer
  | Err e =>
      if negb (IsNotFound e) then mret (Some e)
      else c ← Create (KUnstructured deploymentGVK) (setOwnerReference newDep platform); mret (err_of c)
  end.

Definition ensureArchitectBackend (platform : DisconnectedPlatform) (name image : string) (replicas : Z)
    (labels : gmap string string) (pullSecretName pullSecretNamespace : string) : prog (option error) :=
  let githubTokenSecretName :=
    default "" (lor_Name <$> (dps_Architect (dp_Spec platform) ≫= aac_GitHubTokenSecret)) in
  let deploymentSide := if dps_Mode (dp_Spec platform) == "airgapped" then "disconnected" else "connected" in
  p ← getClusterProxy;
  let '(httpProxy, httpsProxy, noProxy) := p in
  let containerBuilder := makeBackendContainerBuilder githubTokenSecretName deploymentSide
                            (proxyEnvVarsUnstructured httpProxy httpsProxy noProxy) in
  ensureArchitectDeployment platform name image replicas labels pullSecretName pullSecretNamespace
    containerBuilder
    (architectBackendDeployment name image replicas labels pullSecretName pullSecretNamespace containerBuilder).

Definition ensureArchitectFrontend (platform : DisconnectedPlatform) (name image : string) (replicas : Z)
    (labels : gmap string string) (backendRouteHostname frontendRouteHostname : string)
  : prog (option error) :=
  ensureArchitectDeployment platform name image replicas labels "" ""
    (fun name image labels => frontendContainer name image labels backendRouteHostname frontendRouteHostname)
    (architectFrontendDeployment name image replicas labels backendRouteHostname frontendRouteHostname).

Definition ensureConsolePlugin (platform : DisconnectedPlatform) (name image : string) (replicas : Z)
    (labels : gmap string string) (pullSecretName pullSecretNamespace : string) : prog (option error) :=
  ensureArchitectDeployment platform name image replicas labels pullSecretName pullSecretNamespace
    consolePluginContainer
    (consolePluginDeployment name image replicas labels pullSecretName pullSecretNamespace).

(** ** Services *)

Definition servingCertAnnotation : string := "service.beta.openshift.io/serving-cert-secret-name".

Definition architectService (name : string) (port : Z) (labels : gmap string string) (enableTLS : bool)
  : Unstructured :=
  let portName := if enableTLS then "https" else "http" in
  let svc := architectObject serviceGVK name labels [] in
  let svc :=
    if enableTLS then
      svc <| u_Meta ::= fun om => om <| om_Annotations := {[ servingCertAnnotation := name +:+ "-cert" ]} |> |>
    else svc in
  svc <| u_Object ::= fun o =>
    set_field ["spec"; "selector"] (JMap (labelFields labels))
      (fst (SetNestedSlice (set_field ["spec"; "type"] (JStr "ClusterIP") o)
         [JMap [("name", JStr portName); ("port", JInt port); ("protocol", JStr "TCP");
                ("targetPort", JInt port)]]
         ["spec"; "ports"])) |>.

Definition serviceTLS (name : string) : bool :=
  (name == "airgap-architect-plugin") || Contains name "airgap-architect-backend".

Definition ensureArchitectService (platform : DisconnectedPlatform) (name : string) (port : Z)
    (labels : gmap string string) : prog (option error) :=
  let svc := architectService name port labels (serviceTLS name) in
  g ← Get (KUnstructured serviceGVK) (inArchitectNamespace name);
  match g with
  | Ok existing =>
      u ← Update (KUnstructured serviceGVK) (setOwnerReference (withVersionOf existing svc) platform);
      mret (err_of u)
  | Err e =>
      if negb (IsNotFound e) then mret (Some e)
      else c ← Create (KUnstructured serviceGVK) (setOwnerReference svc platform); mret (err_of c)
  end.

(** ** Routes *)

Definition architectRoute (routeName : string) (routeCfg : option RouteConfig) (frontendServiceName : string)
  : Unstructured :=
  let host := default "" (rtc_Host <$> routeCfg) in
  let configured := default "" (tlc_Termination <$> (routeCfg ≫= rtc_TLS)) in
  let termination := if configured != "" then configured else "edge" in
  (architectObject routeGVK routeName
    {[ "app.kubernetes.io/name" := "airgap-architect";
       "app.kubernetes.io/part-of" := "mirror-operator";
       "app.kubernetes.io/managed-by" := "mirror-operator" ]} [])
  <| u_Object ::= fun o =>
    let o := set_field ["spec"; "to"; "kind"] (JStr "Service") o in
    let o := set_field ["spec"; "to"; "name"] (JStr frontendServiceName) o in
    let o := set_field ["spec"; "port"; "targetPort"] (JStr "http") o in
    let o := if host != "" then set_field ["spec"; "host"] (JStr host) o else o in
    let o := set_field ["spec"; "tls"; "termination"] (JStr termination) o in
    set_field ["spec"; "tls"; "insecureEdgeTerminationPolicy"] (JStr "Redirect") o |>.

Definition updateArchitectRoute (platform : DisconnectedPlatform) (routeName : string)
    (routeCfg : option RouteConfig) (frontendServiceName : string) : prog (option error) :=
  g ← Get (KUnstructured routeGVK) (inArchitectNamespace routeName);
  match g with
  | Err e => mret (Some e)
  | Ok existing =>
      u ← Update (KUnstructured routeGVK)
            (setOwnerReference
               (withVersionOf existing (architectRoute routeName routeCfg frontendServiceName)) platform);
      mret (err_of u)
  end.

Definition ensureArchitectRoute (platform : DisconnectedPlatform) (routeName : string)
    (routeCfg : option RouteConfig) (frontendServiceName : string) : prog (option error) :=
  g ← Get (KUnstructured routeGVK) (inArchitectNamespace routeName);
  match g with
  | Ok _ => updateArchitectRoute platform routeName routeCfg frontendServiceName
  | Err e =>
      if negb (IsNotFound e) then mret (Some e)
      else
        c ← Create (KUnstructured routeGVK)
              (setOwnerReference (architectRoute routeName routeCfg frontendServiceName) platform);
        mret (err_of c)
  end.

Definition getRouteHostname (route : Unstructured) : string :=
  let '(host, found, _) := NestedString (u_Object route) ["spec"; "host"] in
  if found && (host != "") then host
  else
    let '(ingress, found, _) := NestedSlice (u_Object route) ["status"; "ingress"] in
    match found, ingress with
    | true, i :: _ =>
        match as_map i with
        | Some ingressMap =>
            let '(host, found, _) := NestedString ingressMap ["host"] in
            if found && (host != "") then host else ""
        | None => ""
        end
    | _, _ => ""
    end.

(** ** The console plugin *)

Definition consolePluginSpec (pluginName backendServiceName caCert : string) : fields :=
  [("displayName", JStr "Airgap Architect");
   ("backend", JMap
      [("type", JStr "Service");
       ("service", JMap
          ([("name", JStr pluginName); ("namespace", JStr architectNamespace); ("port", JInt 9001);
            ("basePath", JStr "/")] ++
           (if caCert != "" then [("caCertificate", JStr caCert)] else [])))]);
   ("proxy", JList
      [JMap [("alias", JStr "backend");
             ("authorization", JStr "None");
             ("endpoint", JMap
                [("type", JStr "Service");
                 ("service", JMap [("name", JStr backendServiceName); ("namespace", JStr architectNamespace);
                                   ("port", JInt 4000)])])]])].

Definition getServiceCACert : prog (result string) :=
  g ← Get KConfigMap (mkNN "openshift-service-ca" "signing-cabundle");
  mret (match g with
        | Err e => Err (Wrapf "failed to get signing-cabundle ConfigMap" e)
        | Ok configMap =>
            match default ∅ (cm_Data configMap) !! "ca-bundle.crt" with
            | Some caCert => Ok caCert
            | None => Err (Errorf "ca-bundle.crt not found in ConfigMap")
            end
        end).

(** Without a certificate the plugin is left with an insecure connection. *)
Definition updateConsolePluginCR (platform : DisconnectedPlatform) (consolePlugin : Unstructured)
    (pluginName : string) : prog (option error) :=
  ca ← getServiceCACert;
  let caCertContent := match ca with Ok cert => cert | Err _ => "" end in
  let desiredSpec :=
    consolePluginSpec pluginName (architectResourceName platform "airgap-architect-backend") caCertContent in
  let currentSpec := nested_map (u_Object consolePlugin) ["spec"] in
  let currentCert :=
    nested_string (u_Object consolePlugin) ["spec"; "backend"; "service"; "caCertificate"] in
  if (currentCert == caCertContent)
     && (FormatValue (JMap currentSpec) == FormatValue (JMap desiredSpec)) then mret None
  else
    u ← Update (KUnstructured consolePluginGVK)
          (consolePlugin <| u_Object ::= fun o => jset o "spec" (JMap desiredSpec) |>);
    mret (err_of u).

Definition ensureConsolePluginCR (platform : DisconnectedPlatform) (pluginName : string)
  : prog (option error) :=
  g ← Get (KUnstructured consolePluginGVK) (mkNN "" pluginName);
  match g with
  | Ok consolePlugin => updateConsolePluginCR platform consolePlugin pluginName
  | Err e =>
      if negb (IsNotFound e) then mret (Some e)
      else
        c ← Create (KUnstructured consolePluginGVK)
              (unstructured_ consolePluginGVK "" pluginName
                 [("spec", JMap (consolePluginSpec pluginName
                     (architectResourceName platform "airgap-architect-backend") ""))]);
        mret (err_of c)
  end.

(** ** The account of the backend *)

Definition architectSA : string := "airgap-architect-backend".
Definition architectSALabels : gmap string string :=
  {[ "app.kubernetes.io/name" := "airgap-architect";
     "app.kubernetes.io/component" := "backend";
     "app.kubernetes.io/part-of" := "mirror-operator";
     "app.kubernetes.io/managed-by" := "mirror-operator" ]}.

Definition policyRule (apiGroups resources verbs : list string) : json :=
  JMap [("apiGroups", JList (map JStr apiGroups)); ("resources", JList (map JStr resources));
        ("verbs", JList (map JStr verbs))].

Definition architectRules : list json :=
  [policyRule ["mirror.mirror.mathianasj.github.com"]
     ["collectionpipelines"; "mirrorimports"; "disconnectedplatforms"]
     ["get"; "list"; "watch"; "create"; "update"; "patch"; "delete"];
   policyRule ["mirror.mirror.mathianasj.github.com"]
     ["collectionpipelines/status"; "mirrorimports/status"; "disconnectedplatforms/status"]
     ["get"; "list"; "watch"];
   policyRule [""] ["configmaps"; "secrets"] ["get"; "list"; "watch"];
   policyRule [""] ["persistentvolumeclaims"] ["get"; "list"; "create"; "delete"];
   policyRule [""] ["pods"] ["get"; "list"; "create"; "delete"];
   policyRule [""] ["services"] ["get"; "create"; "delete"]].

Definition architectServiceAccount : ServiceAccount :=
  mkServiceAccount
    (meta0 <| om_Name := architectSA |> <| om_Namespace := architectNamespace |>
           <| om_Labels := architectSALabels |>) [].
Definition architectRole : Unstructured :=
  architectObject roleGVK architectSA architectSALabels (fst (SetNestedSlice [] architectRules ["rules"])).
Definition architectRoleBinding : Unstructured :=
  architectObject roleBindingGVK architectSA architectSALabels
    (set_field ["roleRef"]
       (JMap [("kind", JStr "Role"); ("name", JStr architectSA);
              ("apiGroup", JStr "rbac.authorization.k8s.io")])
       (fst (SetNestedSlice []
          [JMap [("kind", JStr "ServiceAccount"); ("name", JStr architectSA);
                 ("namespace", JStr architectNamespace)]] ["subjects"]))).

(** Errors of the reads other than "not found" are passed over. *)
Definition createMissing (K : kind) (o : obj K) (msg : string) : prog (option error) :=
  g ← Get K (key_of o);
  match g with
  | Err e => if IsNotFound e then c ← Create K o; mret (option_map (Wrapf msg) (err_of c)) else mret None
  | Ok _ => mret None
  end.

Definition ensureArchitectRole : prog (option error) :=
  g ← Get (KUnstructured roleGVK) (key_of_meta (u_Meta architectRole));
  match g with
  | Err e =>
      if IsNotFound e then
        c ← Create (KUnstructured roleGVK) architectRole;
        mret (option_map (Wrapf "failed to create Role") (err_of c))
      else mret None
  | Ok existingRole =>
      u ← Update (KUnstructured roleGVK) (withVersionOf existingRole architectRole);
      mret (option_map (Wrapf "failed to update Role") (err_of u))
  end.

Definition ensureArchitectServiceAccount : prog (option error) :=
  orReturn (createMissing KServiceAccount architectServiceAccount "failed to create ServiceAccount")
    (orReturn ensureArchitectRole
       (createMissing (KUnstructured roleBindingGVK) architectRoleBinding "failed to create RoleBinding")).

(** ** Removal *)

Definition deleteResource (g : GroupVersionKind) (name : string) : prog (option error) :=
  r ← Get (KUnstructured g) (inArchitectNamespace name);
  match r with
  | Err e => mret (if IsNotFound e then None else Some e)
  | Ok o => Delete (KUnstructured g) o
  end.

(** The resources of a disabled application; errors are dropped. *)
Fixpoint deleteResources (l : list (GroupVersionKind * string)) : prog (option error) :=
  match l with
  | [] => mret None
  | (g, name) :: rest => _ ← deleteResource g name; deleteResources rest
  end.

Definition architectResources (platform : DisconnectedPlatform) : list (GroupVersionKind * string) :=
  let backendName := architectResourceName platform "airgap-architect-backend" in
  let frontendName := architectResourceName platform "airgap-architect-frontend" in
  [(deploymentGVK, backendName); (deploymentGVK, frontendName);
   (serviceGVK, backendName); (serviceGVK, frontendName);
   (routeGVK, "airgap-architect"); (routeGVK, "airgap-architect-api")].

Definition deleteArchitectResources (platform : DisconnectedPlatform) : prog (option error) :=
  deleteResources (architectResources platform).

(** Deletes without reading first; errors go to the log. *)
Fixpoint deleteBlindly (l : list Unstructured) : prog (option error) :=
  match l with
  | [] => mret None
  | o :: rest => _ ← Delete (KUnstructured (u_GVK o)) o; deleteBlindly rest
  end.

Definition deleteConsolePluginResources : prog (option error) :=
  let pluginName := "airgap-architect-plugin" in
  deleteBlindly
    [unstructured_ consolePluginGVK "" pluginName [];
     unstructured_ serviceGVK architectNamespace pluginName [];
     unstructured_ deploymentGVK architectNamespace pluginName []].

Definition deleteArchitectFrontendResources (platform : DisconnectedPlatform) : prog (option error) :=
  let frontendName := architectResourceName platform "airgap-architect-frontend" in
  deleteBlindly
    [unstructured_ serviceGVK architectNamespace frontendName [];
     unstructured_ deploymentGVK architectNamespace frontendName [];
     unstructured_ routeGVK architectNamespace "airgap-architect" []].

(** ** The reconcile *)

(** The host of a route: the configured one, with a prefix, or what the route says. *)
Definition routeHostname (routeCfg : option RouteConfig) (prefix routeName : string) : prog string :=
  g ← Get (KUnstructured routeGVK) (inArchitectNamespace routeName);
  let host := default "" (rtc_Host <$> routeCfg) in
  mret (match g with
        | Ok route => if host != "" then prefix +:+ host else getRouteHostname route
        | Err _ => ""
        end).

Definition deploymentComponent (name : string) : ComponentStatus :=
  mkComponentStatus name "Running" "Deployment" "apps" architectNamespace "" None.

Definition withComponent (name : string) (platform : DisconnectedPlatform) : DisconnectedPlatform :=
  platform <| dp_Status ::= fun s => s <| dpst_Components ::= fun l => l ++ [deploymentComponent name] |> |>.

(** [if err := p; err != nil { return err }] in a function that changes the platform. *)
Definition guard (platform : DisconnectedPlatform) (p : prog (option error))
    (q : prog (DisconnectedPlatform * option error)) : prog (DisconnectedPlatform * option error) :=
  r ← p;
  match r with
  | Some e => mret (platform, Some e)
  | None => q
  end.

Definition consolePluginEnabled (cfg : AirgapArchitectConfig) : bool :=
  match aac_ConsolePlugin cfg with None => true | Some c => cpc_Enabled c end.

Definition reconcileArchitectFrontend (r : DisconnectedPlatformReconciler) (platform : DisconnectedPlatform)
    (cfg : AirgapArchitectConfig) (frontendImage : string) (replicas : Z)
    (backendRouteHostname frontendRouteHostname : string) : prog (DisconnectedPlatform * option error) :=
  let pluginEnabled := consolePluginEnabled cfg in
  if (frontendImage != "") && (negb pluginEnabled || (aac_FrontendImage cfg != "")) then
    let frontendName := architectResourceName platform "airgap-architect-frontend" in
    let frontendLabels := architectComponentLabels "frontend" in
    guard platform (ensureArchitectFrontend platform frontendName frontendImage replicas frontendLabels
                      backendRouteHostname frontendRouteHostname)
      (guard platform (ensureArchitectService platform frontendName frontendPort frontendLabels)
         (mret (withComponent "airgap-architect-frontend" platform, None)))
  else if pluginEnabled && (aac_FrontendImage cfg == "") then
    _ ← deleteArchitectFrontendResources platform; mret (platform, None)
  else mret (platform, None).

Definition consolePluginImageOf (r : DisconnectedPlatformReconciler) (cfg : AirgapArchitectConfig) : string :=
  let image := default "" (cpc_Image <$> aac_ConsolePlugin cfg) in
  let image := if image == "" then dpr_ArchitectConsolePluginImage r else image in
  if image == "" then
    envOrDefault "RELATED_IMAGE_ARCHITECT_CONSOLE_PLUGIN"
      "quay.io/mathianasj/openshift-airgap-architect-console-plugin:latest"
  else image.

Definition reconcileConsolePlugin (r : DisconnectedPlatformReconciler) (platform : DisconnectedPlatform)
    (cfg : AirgapArchitectConfig) (replicas : Z) (pullSecretName pullSecretNamespace : string)
  : prog (DisconnectedPlatform * option error) :=
  if consolePluginEnabled cfg then
    let pluginName := "airgap-architect-plugin" in
    let pluginLabels := architectComponentLabels "console-plugin" in
    guard platform (ensureConsolePlugin platform pluginName (consolePluginImageOf r cfg) replicas pluginLabels
                      pullSecretName pullSecretNamespace)
      (guard platform (ensureArchitectService platform pluginName 9001 pluginLabels)
         (guard platform (ensureConsolePluginCR platform pluginName)
            (_ ← enableConsolePluginInOperator pluginName;
             mret (withComponent "airgap-architect-console-plugin" platform, None))))
  else _ ← deleteConsolePluginResources; mret (platform, None).

Definition reconcileArchitect (r : DisconnectedPlatformReconciler) (platform : DisconnectedPlatform)
  : prog (DisconnectedPlatform * option error) :=
  match dps_Architect (dp_Spec platform) with
  | None => err ← deleteArchitectResources platform; mret (platform, err)
  | Some cfg =>
      if negb (aac_Enabled cfg) then err ← deleteArchitectResources platform; mret (platform, err)
      else
        let replicas := if (0 <? aac_Replicas cfg)%Z then aac_Replicas cfg else 1%Z in
        let frontendImage :=
          if aac_FrontendImage cfg == "" then dpr_ArchitectFrontendImage r else aac_FrontendImage cfg in
        let backendImage :=
          if aac_BackendImage cfg == "" then dpr_ArchitectBackendImage r else aac_BackendImage cfg in
        let '(pullSecretName, pullSecretNamespace) := getPullSecretReference (Some cfg) in
        guard platform (ensurePullSecret r pullSecretName pullSecretNamespace)
          (_ ← ensureClusterCABundle;
           guard platform ensureArchitectServiceAccount
             (let backendName := architectResourceName platform "airgap-architect-backend" in
              let backendLabels := architectComponentLabels "backend" in
              guard platform (ensureArchitectBackend platform backendName backendImage replicas backendLabels
                                pullSecretName pullSecretNamespace)
                (guard platform (ensureArchitectService platform backendName architectPort backendLabels)
                   (guard platform (ensureArchitectRoute platform "airgap-architect" (aac_Route cfg)
                                      (architectResourceName platform "airgap-architect-frontend"))
                      (frontendRouteHostname ← routeHostname (aac_Route cfg) "" "airgap-architect";
                       guard platform (ensureArchitectRoute platform "airgap-architect-api" (aac_Route cfg)
                                         backendName)
                         (backendRouteHostname ← routeHostname (aac_Route cfg) "api-" "airgap-architect-api";
                          f ← reconcileArchitectFrontend r platform cfg frontendImage replicas
                                backendRouteHostname frontendRouteHostname;
                          match f with
                          | (platform, Some e) => mret (platform, Some e)
                          | (platform, None) =>
                              c ← reconcileConsolePlugin r platform cfg replicas pullSecretName
                                    pullSecretNamespace;
                              match c with
                              | (platform, Some e) => mret (platform, Some e)
                              | (platform, None) =>
                                  mret (withComponent "airgap-architect-backend" platform, None)
                              end
                          end))))))
  end.
End Architect.
