(* ===== verification/ArchitectProps.v ===== *)
(** Properties of the Airgap Architect: the names of its resources, how its objects fit
    together, when its deployments are rolled out, and what disabling it removes. *)
From S2P Require Import Prelude GoStrings Sha256 K8s Json Api Kube Externals Nested Helpers Operators Platform.
From S2P Require Import PullSecrets CABundles Instances Samples Ensure Architect.

(** ** Names *)

Lemma length_resourceName platform component :
  String.length (architectResourceName platform component) =
    let n := (String.length (om_Name (dp_ObjectMeta platform)) + String.length component + 4)%nat in
    if (n <=? 63)%nat then n else (String.length component + 12)%nat.
Proof.
  unfold architectResourceName. cbv zeta. rewrite !length_app_str. simpl (String.length "mo-").
  simpl (String.length "-").
  replace (3 + _)%nat with
    (String.length (om_Name (dp_ObjectMeta platform)) + String.length component + 4)%nat by lia.
  destruct (_ <=? 63)%nat; rewrite !length_app_str; [simpl (String.length _); lia|].
  rewrite length_EncodeToString, length_take, length_Sum256. simpl. lia.
Qed.

Lemma resourceName_suffix platform component :
  HasSuffix (architectResourceName platform component) component = true.
Proof.
  unfold architectResourceName. destruct (_ <=? 63)%nat; rewrite <- !app_str_assoc; apply HasSuffix_app.
Qed.

Lemma list_ascii_app s t :
  list_ascii_of_string (s +:+ t) = list_ascii_of_string s ++ list_ascii_of_string t.
Proof. induction s as [|a s IH]; simpl; [done|by f_equal]. Qed.

(** The names of the resources are names Kubernetes accepts: with a component of at most
    51 characters, which those of the source are, a name has at most 63.  It is the readable
    one when that fits and has the hash of the platform's name else, and the backend and the
    frontend of a platform never share a name. *)
Theorem architect_names (platform : DisconnectedPlatform) :
  let name := om_Name (dp_ObjectMeta platform) in
  (forall component, (String.length component <= 51)%nat ->
     (String.length (architectResourceName platform component) <= 63)%nat) /\
  (forall component, (String.length name + String.length component <= 59)%nat ->
     architectResourceName platform component = "mo-" +:+ name +:+ "-" +:+ component) /\
  (forall component, (59 < String.length name + String.length component)%nat ->
     architectResourceName platform component =
       "mo-" +:+ EncodeToString (take 4 (Sum256 name)) +:+ "-" +:+ component) /\
  architectResourceName platform "airgap-architect-backend" <>
    architectResourceName platform "airgap-architect-frontend".
Proof.
  cbv zeta. set (name := om_Name (dp_ObjectMeta platform)).
  assert (Hn : forall component,
    String.length ("mo-" +:+ name +:+ "-" +:+ component)
      = (String.length name + String.length component + 4)%nat).
  { intros component. rewrite !length_app_str. simpl. lia. }
  split_and!.
  - intros component H. rewrite length_resourceName. cbv zeta. destruct (Nat.leb_spec (String.length (om_Name (dp_ObjectMeta platform)) + String.length component + 4) 63); lia.
  - intros component H. unfold architectResourceName. fold name. rewrite Hn.
    destruct (Nat.leb_spec (String.length name + String.length component + 4) 63); [done|lia].
  - intros component H. unfold architectResourceName. fold name. rewrite Hn.
    destruct (Nat.leb_spec (String.length name + String.length component + 4) 63); [lia|done].
  - intros E. assert (H1 := resourceName_suffix platform "airgap-architect-backend").
    assert (H2 := resourceName_suffix platform "airgap-architect-frontend").
    rewrite E in H1. apply HasSuffix_inv in H1 as [t1 H1], H2 as [t2 H2]. rewrite H1 in H2.
    assert (Hr := f_equal (fun s => rev (list_ascii_of_string s)) H2). cbv beta in Hr.
    rewrite !list_ascii_app, !rev_app_distr in Hr. simpl in Hr. congruence.
Qed.

(** ** How the objects fit together *)

Section Wiring.
Context {X : Externals} `{!ExternalsLaws X}.

(** The labels of the pods of a deployment, and the labels it selects them by. *)
Definition podLabels (dep : Unstructured) : option (option json) :=
  walk (u_Object dep) ["spec"; "template"; "metadata"; "labels"].
Definition matchLabels (dep : Unstructured) : fields :=
  default [] (mjoin (walk (u_Object dep) ["spec"; "selector"; "matchLabels"]) ≫= as_map).

(** The containers and the volumes of its pods. *)
Definition podPart (dep : Unstructured) (part : string) : list json :=
  default [] (mjoin (walk (u_Object dep) ["spec"; "template"; "spec"; part]) ≫= as_list).
Definition containerPorts (dep : Unstructured) : list json :=
  concat (map (fun c => map (fun p => jget (default [] (as_map p)) "containerPort")
                          (default [] (as_list (jget (default [] (as_map c)) "ports"))))
            (podPart dep "containers")).

(** The ports of a service, as the program reads them. *)
Definition servicePorts (svc : Unstructured) : list fields :=
  omap as_map (nested_slice (u_Object svc) ["spec"; "ports"]).

(** A service and a deployment fit: the service selects the pods of the deployment, which
    selects them too, and sends to the port its container listens on. *)
Definition fits (svc dep : Unstructured) : Prop :=
  podLabels dep = Some (Some (JMap (labelFields (om_Labels (u_Meta dep))))) /\
  walk (u_Object svc) ["spec"; "selector"] = podLabels dep /\
  (forall kv, In kv (matchLabels dep) -> In kv (labelFields (om_Labels (u_Meta dep)))) /\
  map (fun p => jget p "targetPort") (servicePorts svc) = containerPorts dep.

(** The secret the service's certificate is written to is a volume of the pods. *)
Definition certified (svc dep : Unstructured) : Prop :=
  exists secret volume, om_Annotations (u_Meta svc) !! servingCertAnnotation = Some secret /\
    In (secretVolume volume secret) (podPart dep "volumes").

(** A route reaches a service: it is for it, and names one of its ports. *)
Definition reaches (route svc : Unstructured) : bool :=
  (nested_string (u_Object route) ["spec"; "to"; "name"] == om_Name (u_Meta svc))
  && existsb (fun p => iface_is (jget p "name")
                         (nested_string (u_Object route) ["spec"; "port"; "targetPort"]))
       (servicePorts svc).

Lemma service_fields name port labels tls :
  u_Object (architectService name port labels tls) =
  set_fields
    [(["spec"; "type"], JStr "ClusterIP");
     (["spec"; "ports"], JList
        [JMap [("name", JStr (if tls then "https" else "http")); ("port", JInt port);
               ("protocol", JStr "TCP"); ("targetPort", JInt port)]]);
     (["spec"; "selector"], JMap (labelFields labels))] [].
Proof.
  unfold architectService, set_fields. cbn [fold_left fst snd u_Object set]. rewrite SetNestedSlice_field.
  by destruct tls.
Qed.

Lemma service_ports name port labels (tls : bool) :
  servicePorts (architectService name port labels tls) =
  [[("name", JStr (if tls then "https" else "http")); ("port", JInt port); ("protocol", JStr "TCP");
    ("targetPort", JInt port)]].
Proof.
  unfold servicePorts, nested_slice.
  rewrite (NestedSlice_at _ _
    [JMap [("name", JStr (if tls then "https" else "http")); ("port", JInt port);
           ("protocol", JStr "TCP"); ("targetPort", JInt port)]]); [done| |done].
  rewrite service_fields. apply fresh_field; [done|done|simpl; tauto].
Qed.

Lemma service_selector name port labels tls :
  walk (u_Object (architectService name port labels tls)) ["spec"; "selector"]
  = Some (Some (JMap (labelFields labels))).
Proof. rewrite service_fields. apply fresh_field; [done|done|simpl; tauto]. Qed.

Lemma labelFields_In (labels : gmap string string) k v :
  labels !! k = Some v -> In (k, JStr v) (labelFields labels).
Proof.
  intros H. unfold labelFields. apply in_map_iff. exists (k, v). split; [done|].
  by apply list_elem_of_In, elem_of_map_to_list.
Qed.

(** Every deployment with its service, for a component and a container on one port. *)
Lemma architect_fits component name image replicas ps psn b port tls :
  let labels := architectComponentLabels component in
  map (fun p => jget (default [] (as_map p)) "containerPort")
    (default [] (as_list (jget (b name image labels) "ports"))) = [JInt port] ->
  fits (architectService name port labels tls)
    (architectDeployment name image replicas labels ps psn b).
Proof.
  cbv zeta. intros Hp. set (labels := architectComponentLabels component) in *. unfold fits. split_and!.
  - reflexivity.
  - rewrite service_selector. reflexivity.
  - intros kv H. unfold matchLabels, architectDeployment in H.
    cbn [u_Object architectObject unstructured_ set] in H. cbn in H.
    destruct H as [<-|[<-|[]]]; apply labelFields_In; reflexivity.
  - rewrite service_ports. unfold containerPorts, podPart, architectDeployment.
    cbn [u_Object architectObject unstructured_ set]. cbn. rewrite app_nil_r. by rewrite Hp.
Qed.

Definition routeFields (routeCfg : option RouteConfig) (service : string) : list (list string * json) :=
  let host := default "" (rtc_Host <$> routeCfg) in
  let configured := default "" (tlc_Termination <$> (routeCfg ≫= rtc_TLS)) in
  [(["spec"; "to"; "kind"], JStr "Service");
   (["spec"; "to"; "name"], JStr service);
   (["spec"; "port"; "targetPort"], JStr "http")] ++
  (if host != "" then [(["spec"; "host"], JStr host)] else []) ++
  [(["spec"; "tls"; "termination"], JStr (if configured != "" then configured else "edge"));
   (["spec"; "tls"; "insecureEdgeTerminationPolicy"], JStr "Redirect")].

Lemma route_fields name routeCfg service :
  u_Object (architectRoute name routeCfg service) = set_fields (routeFields routeCfg service) [].
Proof.
  unfold architectRoute, routeFields, set_fields. cbn [u_Object architectObject unstructured_ set].
  by destruct (default "" (rtc_Host <$> routeCfg) != "").
Qed.

Lemma route_string name routeCfg service path v :
  In (path, JStr v) (routeFields routeCfg service) ->
  nested_string (u_Object (architectRoute name routeCfg service)) path = v.
Proof.
  intros H. unfold nested_string. rewrite (NestedString_at _ _ v); [done|]. rewrite route_fields.
  apply fresh_field; [| |done]; unfold routeFields; by destruct (default "" (rtc_Host <$> routeCfg) != "").
Qed.

Lemma reaches_spec name routeCfg service port labels tls :
  reaches (architectRoute name routeCfg service) (architectService service port labels tls) = negb tls.
Proof.
  unfold reaches. rewrite service_ports.
  rewrite (route_string _ _ _ ["spec"; "to"; "name"] service) by (simpl; tauto).
  rewrite (route_string _ _ _ ["spec"; "port"; "targetPort"] "http") by (simpl; tauto).
  replace (om_Name _) with service by (by destruct tls). rewrite str_eqb_refl. by destruct tls.
Qed.

Lemma serviceTLS_backend platform :
  serviceTLS (architectResourceName platform "airgap-architect-backend") = true.
Proof.
  unfold serviceTLS. apply orb_true_iff. right. apply Contains_spec.
  destruct (HasSuffix_inv _ _ (resourceName_suffix platform "airgap-architect-backend")) as [t ->].
  exists t, "". by rewrite app_str_nil_r.
Qed.

(** C33: The objects of the application fit together.  Each service selects the pods of its own
    deployment, which selects them too, and sends to the port of its container; the
    certificates the services of the backend and of the plugin ask for are volumes of their
    pods; the selectors differ by component.  The route of the frontend reaches its service
    unless the platform's name makes that one secure.  The route of the API never reaches
    the backend: it names the port http, which is called https on a secure service. *)
Theorem architect_wiring (platform : DisconnectedPlatform) image replicas ps psn token side proxies
    api allowed routeCfg :
  let bn := architectResourceName platform "airgap-architect-backend" in
  let fn := architectResourceName platform "airgap-architect-frontend" in
  let pn := "airgap-architect-plugin" in
  let labels := architectComponentLabels in
  let backendSvc := architectService bn architectPort (labels "backend") (serviceTLS bn) in
  let frontendSvc := architectService fn frontendPort (labels "frontend") (serviceTLS fn) in
  let pluginSvc := architectService pn 9001 (labels "console-plugin") (serviceTLS pn) in
  let backend := architectBackendDeployment bn image replicas (labels "backend") ps psn
                   (makeBackendContainerBuilder token side proxies) in
  let plugin := consolePluginDeployment pn image replicas (labels "console-plugin") ps psn in
  (fits backendSvc backend /\
   fits frontendSvc (architectFrontendDeployment fn image replicas (labels "frontend") api allowed) /\
   fits pluginSvc plugin) /\
  (certified backendSvc backend /\ certified pluginSvc plugin) /\
  (forall c1 c2, labels c1 = labels c2 -> c1 = c2) /\
  reaches (architectRoute "airgap-architect" routeCfg fn) frontendSvc = negb (serviceTLS fn) /\
  reaches (architectRoute "airgap-architect-api" routeCfg bn) backendSvc = false.
Proof.
  cbv zeta. split_and!.
  - by apply architect_fits.
  - by apply architect_fits.
  - by apply architect_fits.
  - rewrite serviceTLS_backend. exists (architectResourceName platform "airgap-architect-backend" +:+ "-cert"), "tls-cert".
    split; [reflexivity|].
    unfold podPart, architectBackendDeployment, architectDeployment.
    cbn [u_Object architectObject unstructured_ set]. cbn.
    destruct (ps == ""); [right; left; reflexivity|right; right; left; reflexivity].
  - exists "airgap-architect-plugin-cert", "serving-cert". split; [reflexivity|]. right; left; reflexivity.
  - intros c1 c2 E. assert (H := f_equal (lookup "app.kubernetes.io/component") E).
    vm_compute in H. congruence.
  - apply reaches_spec.
  - rewrite reaches_spec, serviceTLS_backend. done.
Qed.
End Wiring.

(** ** Rolling out a change *)

Section Rollout.
Context {X : Externals} `{!ExternalsLaws X}.

(** What a container builder of the application gives. *)
Definition builds (b : fields) (image : string) : Prop :=
  copyable (JMap b) = true /\ jget b "image" = JStr image.

Lemma copyable_map m : copyable (JMap m) = forallb (fun kv => copyable (snd kv)) m.
Proof. done. Qed.
Lemma copyable_list l : copyable (JList l) = forallb copyable l.
Proof. done. Qed.

Lemma copyable_labels labels : copyable (JMap (labelFields labels)) = true.
Proof. rewrite copyable_map. apply forallb_forall. intros kv [p [<- _]]%in_map_iff. done. Qed.

Lemma copyable_spec name image replicas labels ps psn b :
  copyable (JMap (b name image labels)) = true ->
  copyable (JMap (architectDeploymentSpec name image replicas labels ps psn b)) = true.
Proof.
  intros H. unfold architectDeploymentSpec. cbv zeta. set (component := default "" (labels !! _)).
  assert (Hl := copyable_labels labels). revert H Hl.
  generalize (JMap (b name image labels)) (JMap (labelFields labels)). intros B L HB HL.
  repeat (rewrite ?copyable_map, ?copyable_list, ?forallb_app, ?HB, ?HL; cbn [forallb snd]).
  destruct (component == "backend"), (component == "console-plugin"), (component == "frontend"), (ps != "");
    reflexivity.
Qed.

Lemma nested_containers name image replicas labels ps psn b :
  copyable (JMap (b name image labels)) = true ->
  nested_slice (architectDeploymentSpec name image replicas labels ps psn b) ["template"; "spec"; "containers"]
  = [JMap (b name image labels)].
Proof.
  intros H. unfold nested_slice.
  rewrite (NestedSlice_at _ _ [JMap (b name image labels)]); [done|reflexivity|].
  rewrite copyable_list. cbn [forallb]. by rewrite H.
Qed.

Lemma nested_replicas name image replicas labels ps psn b :
  nested_int64 (architectDeploymentSpec name image replicas labels ps psn b) ["replicas"] = replicas.
Proof. unfold nested_int64. by rewrite (NestedInt64_at _ _ replicas). Qed.

Definition sameText (b1 b2 : fields) (k : string) : bool :=
  marshalText (jget b1 k) == marshalText (jget b2 k).

(** A deployment is as wanted: its replicas, and of its only container the image, and the texts of
    the environment, the mounts and the probes. *)
Definition wantedContainer (c b : fields) (image : string) : bool :=
  match jget c "image" with JStr i => i == image | _ => false end &&
  forallb (sameText c b) ["env"; "volumeMounts"; "readinessProbe"; "livenessProbe"].
Definition asWanted (spec b : fields) (image : string) (replicas : Z) : bool :=
  (nested_int64 spec ["replicas"] =? replicas)%Z &&
  match nested_slice spec ["template"; "spec"; "containers"] with
  | [c] => wantedContainer (default [] (as_map c)) b image
  | _ => false
  end.

Lemma deploymentsEqual_wanted spec name image replicas labels ps psn b :
  builds (b name image labels) image ->
  deploymentsEqual spec (architectDeploymentSpec name image replicas labels ps psn b) =
  Some (asWanted spec (b name image labels) image replicas).
Proof.
  intros [Hc Hi]. unfold deploymentsEqual, asWanted. rewrite nested_replicas, nested_containers by done.
  destruct (_ =? replicas)%Z; [|done]. destruct (nested_slice spec _) as [|c [|c' l]]; [done| |done].
  unfold wantedContainer. set (e := default [] (as_map c)).
  cbn [negb andb length Nat.eqb as_map default]. cbv zeta. unfold default, from_option, id. rewrite Hi.
  assert (E : iface_eqb (jget e "image") (JStr image) =
              Some match jget e "image" with JStr i => i == image | _ => false end) by (by destruct (jget e "image")).
  rewrite E. destruct (match jget e "image" with JStr _ => _ | _ => _ end); [|done].
  cbn [andb forallb]. unfold sameText. by rewrite andb_true_r, !andb_assoc.
Qed.

(** The specification of another deployment of the application. *)
Lemma asWanted_built name0 image0 r0 labels0 ps0 psn0 b0 b image r :
  builds (b0 name0 image0 labels0) image0 ->
  asWanted (architectDeploymentSpec name0 image0 r0 labels0 ps0 psn0 b0) b image r =
  ((r0 =? r)%Z && (image0 == image) &&
   forallb (sameText (b0 name0 image0 labels0) b) ["env"; "volumeMounts"; "readinessProbe"; "livenessProbe"]).
Proof.
  intros [Hc Hi]. unfold asWanted, wantedContainer. rewrite nested_replicas, nested_containers by done.
  cbn [as_map default]. unfold default, from_option, id. by rewrite Hi, andb_assoc.
Qed.

(** C34: When a deployment is replaced.  The deployment that is read is left alone exactly when it
    is as wanted: it has the replicas, and one container, with the image and, compared as JSON
    text, the environment, the mounts and the probes that are wanted, whatever else the server or
    others put into it.  Otherwise, and when it has no specification, it is replaced by one
    update, at the resource version that was read.  Of a deployment the program wrote itself
    nothing else counts, so that one written for another pull secret is as wanted, with the
    volume of the old one.  An unreadable deployment ends in an error, and nothing panics. *)
Theorem architect_rollout platform name image replicas labels ps psn b tr o
    (Hb : builds (b name image labels) image)
    (H : exec (updateArchitectDeployment platform name image replicas labels ps psn b) tr o) :
  (exists (g : result Unstructured) rest,
    tr = Ev (CGet (KUnstructured deploymentGVK) (inArchitectNamespace name)) g :: rest /\
    match g with
    | Err e => rest = [] /\ o = Done (Some e)
    | Ok existing =>
        let replaced := exists u : result Unstructured,
          rest = [Ev (CUpdate (KUnstructured deploymentGVK)
                    (setOwnerReference (withVersionOf existing
                       (architectDeployment name image replicas labels ps psn b)) platform)) u] /\
          o = Done (err_of u) in
        match NestedMap (u_Object existing) ["spec"] with
        | (_, _, Some e) => rest = [] /\ o = Done (Some (Wrapf "failed to get existing spec" e))
        | (_, false, None) => replaced
        | (spec, true, None) =>
            if asWanted spec (b name image labels) image replicas then rest = [] /\ o = Done None else replaced
        end
    end) /\
  forall image0 replicas0 labels0 ps0 psn0 b0, builds (b0 name image0 labels0) image0 ->
    asWanted (architectDeploymentSpec name image0 replicas0 labels0 ps0 psn0 b0) (b name image labels) image replicas =
    ((replicas0 =? replicas)%Z && (image0 == image) &&
     forallb (sameText (b0 name image0 labels0) (b name image labels))
       ["env"; "volumeMounts"; "readinessProbe"; "livenessProbe"]).
Proof.
  split; [|intros; by apply asWanted_built].
  apply exec_call_bind in H as (g & rest & -> & H). exists g, rest. split; [done|].
  destruct g as [existing|e]; [|by apply exec_inv in H]. cbv zeta in *.
  assert (Hu : forall t, exec (u ← Update (KUnstructured deploymentGVK)
                  (setOwnerReference (withVersionOf existing
                     (architectDeployment name image replicas labels ps psn b)) platform); mret (err_of u)) t o ->
    exists u : result Unstructured,
      t = [Ev (CUpdate (KUnstructured deploymentGVK)
                (setOwnerReference (withVersionOf existing
                   (architectDeployment name image replicas labels ps psn b)) platform)) u] /\ o = Done (err_of u)).
  { intros t (u & t' & -> & Ht)%exec_call_bind. apply exec_inv in Ht as [-> ->]. eauto. }
  destruct (NestedMap (u_Object existing) ["spec"]) as [[spec found] [e|]]; [by destruct found; apply exec_inv in H|].
  destruct found; [|by apply Hu]. rewrite deploymentsEqual_wanted in H by done.
  destruct (asWanted _ _ _ _); [by apply exec_inv in H|by apply Hu].
Qed.

(** The builders of the source. *)
Lemma copyable_proxies httpProxy httpsProxy noProxy :
  forallb copyable (map JMap (proxyEnvVarsUnstructured httpProxy httpsProxy noProxy)) = true.
Proof.
  unfold proxyEnvVarsUnstructured. destruct (_ && _); [done|]. generalize (proxyPairs httpProxy httpsProxy noProxy).
  intros l. induction l as [|[k v] l IH]; simpl; [done|]. by destruct (v != "").
Qed.

Lemma backend_builds token side httpProxy httpsProxy noProxy name image labels :
  builds (makeBackendContainerBuilder token side (proxyEnvVarsUnstructured httpProxy httpsProxy noProxy)
            name image labels) image.
Proof.
  split; [|done]. assert (H := copyable_proxies httpProxy httpsProxy noProxy). revert H.
  unfold makeBackendContainerBuilder. generalize (map JMap (proxyEnvVarsUnstructured httpProxy httpsProxy noProxy)).
  intros l Hl. cbv zeta. rewrite copyable_map. cbn [forallb snd]. rewrite !copyable_list, !forallb_app, Hl.
  by destruct (token != "").
Qed.
Lemma frontend_builds api allowed name image labels :
  builds (frontendContainer name image labels api allowed) image.
Proof.
  split; [|done]. unfold frontendContainer. cbv zeta.
  by destruct (api != ""); simpl; destruct (allowed != "").
Qed.
Lemma plugin_builds name image labels : builds (consolePluginContainer name image labels) image.
Proof. done. Qed.
End Rollout.

(** ** Disabling the application *)

(** The resources read one after the other, each deleted when it is there. *)
Inductive removed : list (GroupVersionKind * string) -> trace -> Prop :=
| removed_nil : removed [] []
| removed_missing g name l e tr :
    removed l tr ->
    removed ((g, name) :: l) (Ev (CGet (KUnstructured g) (inArchitectNamespace name)) (Err e) :: tr)
| removed_deleted g name l o d tr :
    removed l tr ->
    removed ((g, name) :: l)
      (Ev (CGet (KUnstructured g) (inArchitectNamespace name)) (Ok o) ::
       Ev (CDelete (KUnstructured g) o) d :: tr).

Lemma deleteResources_exec l tr o :
  exec (deleteResources l) tr o -> o = Done None /\ removed l tr.
Proof.
  revert tr; induction l as [|[g name] l IH]; intros tr H.
  { apply exec_inv in H as [-> ->]. split; [done|constructor]. }
  apply exec_bind in H as [(m & H & ->)|(r & t1 & t2 & H1 & H & ->)].
  - apply exec_call_bind in H as (gr & t & -> & H).
    destruct gr as [x|e]; [|by apply exec_inv in H as [_ [=]]].
    apply exec_inv in H as (d & t' & -> & H). by apply exec_inv in H as [_ [=]].
  - destruct (IH _ H) as [-> Hr]. split; [done|].
    apply exec_call_bind in H1 as (gr & t & -> & H1). destruct gr as [x|e].
    + apply exec_inv in H1 as (d & t' & -> & H1). apply exec_inv in H1 as [-> _]. by constructor.
    + apply exec_inv in H1 as [-> _]. by constructor.
Qed.

(** An object is one of the resources. *)
Definition among (l : list (GroupVersionKind * string)) (K : kind) (o : obj K) : bool :=
  existsb (fun gn => bool_decide (K = KUnstructured (fst gn)) && has_key (inArchitectNamespace (snd gn)) o) l.

Lemma set_objs_other s K K' (l : list (obj K)) : K <> K' -> set_objs s K l K' = s K'.
Proof. intros H. unfold set_objs. by destruct (kind_eq_dec K K'). Qed.

Lemma filter_true {A} (p : A -> bool) l : (forall x, In x l -> p x = true) -> List.filter p l = l.
Proof.
  induction l as [|x l IH]; simpl; intros H; [done|]. rewrite H by by left. f_equal. apply IH. intros y Hy.
  apply H. by right.
Qed.

Lemma filter_filter_and {A} (p q : A -> bool) l :
  List.filter p (List.filter q l) = List.filter (fun x => q x && p x) l.
Proof.
  induction l as [|x l IH]; simpl; [done|]. destruct (q x); simpl; [|done].
  destruct (p x); by rewrite IH.
Qed.

Lemma deleteResource_store g name s :
  snd (run (deleteResource g name) s) =
    match find_first (has_key (inArchitectNamespace name)) (st_objs s (KUnstructured g)) with
    | Some o => with_objs s (KUnstructured g)
                  (List.filter (fun o' => negb (has_key (key_of o) o')) (st_objs s (KUnstructured g)))
    | None => s
    end.
Proof. unfold deleteResource. simpl. by destruct (find_first _ _). Qed.

Lemma deleteResource_returns g name s :
  exists tr r, run (deleteResource g name) s = (tr, Done r, snd (run (deleteResource g name) s)).
Proof.
  unfold deleteResource. simpl. destruct (find_first _ _); simpl; [eauto|].
  eexists _, _. reflexivity.
Qed.

Lemma deleteResource_run g name s K :
  st_objs (snd (run (deleteResource g name) s)) K =
    List.filter (fun o => negb (among [(g, name)] K o)) (st_objs s K).
Proof.
  rewrite deleteResource_store. set (KU := KUnstructured g). set (key := inArchitectNamespace name).
  assert (Hne : K <> KU -> forall o, among [(g, name)] K o = false).
  { intros Hk o. unfold among. simpl. by rewrite bool_decide_eq_false_2. }
  destruct (find_first (has_key key) (st_objs s KU)) as [o|] eqn:E.
  - apply find_first_Some in E as [_ E]. apply has_key_spec in E. cbn [with_objs st_objs].
    destruct (decide (K = KU)) as [->|Hk].
    + rewrite set_objs_same. apply filter_ext. intros x. unfold among. cbn [existsb fst snd].
      rewrite bool_decide_eq_true_2 by done. by rewrite E, orb_false_r.
    + rewrite set_objs_other by congruence. symmetry. apply filter_true. intros x _. by rewrite (Hne Hk).
  - symmetry. apply filter_true. intros x Hx. destruct (decide (K = KU)) as [->|Hk]; [|by rewrite (Hne Hk)].
    unfold among. cbn [existsb fst snd]. rewrite bool_decide_eq_true_2 by done.
    apply (proj1 (find_first_None _ _) E) in Hx. fold key. by rewrite Hx.
Qed.

Lemma deleteResources_run l s K :
  st_objs (snd (run (deleteResources l) s)) K =
    List.filter (fun o => negb (among l K o)) (st_objs s K).
Proof.
  revert s; induction l as [|[g name] l IH]; intros s; [by rewrite filter_true|].
  cbn [deleteResources]. rewrite run_bind. destruct (deleteResource_returns g name s) as (tr & r & ->).
  rewrite (surjective_pairing (run _ _)), (surjective_pairing (fst (run _ _))). cbn [snd]. rewrite IH, deleteResource_run, filter_filter_and.
  apply filter_ext. intros o. cbn [among existsb]. unfold among. cbn [existsb fst snd].
  by rewrite orb_false_r, negb_orb.
Qed.

(** Disabling the application.  When the platform does not ask for it the reconcile reads
    the six resources of the backend and of the frontend and deletes those that are there,
    reports no error, and leaves the platform as it is.  On a server that does what it is
    told these are gone afterwards and every other object is still there, the deployment of
    the console plugin included. *)
Theorem architect_disabled {X : Externals} r platform :
  match dps_Architect (dp_Spec platform) with Some cfg => aac_Enabled cfg = false | None => True end ->
  (forall tr o, exec (reconcileArchitect r platform) tr o ->
     o = Done (platform, None) /\ removed (architectResources platform) tr) /\
  (forall s K, st_objs (snd (run (reconcileArchitect r platform) s)) K =
     List.filter (fun o => negb (among (architectResources platform) K o)) (st_objs s K)) /\
  (forall dep, key_of (K := KUnstructured deploymentGVK) dep = inArchitectNamespace "airgap-architect-plugin" ->
     among (architectResources platform) (KUnstructured deploymentGVK) dep = false).
Proof.
  intros Hoff.
  assert (E : reconcileArchitect r platform =
    (err ← deleteResources (architectResources platform); mret (platform, err))).
  { unfold reconcileArchitect. destruct (dps_Architect _) as [cfg|]; [|done]. by rewrite Hoff. }
  rewrite E. split_and!.
  - intros tr o [(m & H & ->)|(err & t1 & t2 & H1 & H & ->)]%exec_bind.
    + by destruct (deleteResources_exec _ _ _ H) as [[=] _].
    + apply deleteResources_exec in H1 as [[= ->] H1]. apply exec_inv in H as [-> ->].
      by rewrite app_nil_r.
  - intros s K. rewrite <- deleteResources_run, run_bind.
    destruct (run (deleteResources (architectResources platform)) s) as [[tr [a|m]] s1]; done.
  - intros dep Hk. unfold among, architectResources. cbn [existsb fst snd].
    assert (Hn : forall component, component = "airgap-architect-backend" \/ component = "airgap-architect-frontend" ->
      has_key (K := KUnstructured deploymentGVK)
        (inArchitectNamespace (architectResourceName platform component)) dep = false).
    { intros component Hc. apply not_true_iff_false. rewrite has_key_spec, Hk. intros [= Hp].
      assert (Hs := resourceName_suffix platform component). rewrite <- Hp in Hs.
      by destruct Hc as [->| ->]. }
    rewrite !Hn by tauto. rewrite !andb_false_r. reflexivity.
Qed.

(** ** Witnesses *)

Definition architectPlatform (cfg : option AirgapArchitectConfig) : DisconnectedPlatform :=
  mkDisconnectedPlatform (mkTypeMeta "mirror/v1" "DisconnectedPlatform") (sampleMeta "" "platform")
    (mkDisconnectedPlatformSpec "connected" None None cfg None)
    (mkDisconnectedPlatformStatus "" [] None [] None [] [] None).
Definition architectConfig : AirgapArchitectConfig :=
  mkAirgapArchitectConfig true "" "" None 0 None None None.
Definition architectReconciler : DisconnectedPlatformReconciler :=
  mkPlatformReconciler "oc-mirror:v2" "front:1" "back:1" "plugin:1" "skopeo:1" "ubi9:1" "ubi9-minimal:1"
    true true true.

(** A platform with a long name. *)
Definition longPlatform : DisconnectedPlatform :=
  (architectPlatform None)
    <| dp_ObjectMeta ::= fun om => om <| om_Name := "a-platform-with-a-name-that-is-rather-long" |> |>.
Lemma architect_names_witness :
  architectResourceName longPlatform "airgap-architect-backend" = "mo-cdad66af-airgap-architect-backend" /\
  (String.length (architectResourceName longPlatform "airgap-architect-backend") <= 63)%nat.
Proof.
  split; [vm_compute; reflexivity|].
  destruct (architect_names longPlatform) as [H _]. apply H. simpl. lia.
Defined.

(** A store with the deployments of the backend and of the console plugin. *)
Definition architectStore : store :=
  with_objs emptyStore (KUnstructured deploymentGVK)
    [architectObject deploymentGVK "mo-platform-airgap-architect-backend" ∅ [];
     architectObject deploymentGVK "airgap-architect-plugin" ∅ []].

Lemma architect_disabled_witness :
  let s := snd (run (reconcileArchitect (X := sampleX) architectReconciler (architectPlatform None)) architectStore) in
  st_objs s (KUnstructured deploymentGVK) = [architectObject deploymentGVK "airgap-architect-plugin" ∅ []] /\
  removed (architectResources (architectPlatform None))
    (traceOf (reconcileArchitect (X := sampleX) architectReconciler (architectPlatform None)) architectStore).
Proof.
  split; [vm_compute; reflexivity|].
  destruct (architect_disabled (X := sampleX) architectReconciler (architectPlatform None) I) as [H _].
  eapply H. apply traceOf_exec.
Defined.

(** The plugin was deployed for another pull secret; the server set the defaults of the container
    and reports a status. *)
Definition pluginLabels : gmap string string := architectComponentLabels "console-plugin".
Definition withDefaults (name image : string) (labels : gmap string string) : fields :=
  consolePluginContainer name image labels ++
  [("terminationMessagePath", JStr "/dev/termination-log"); ("terminationMessagePolicy", JStr "File")].
Definition storedPlugin (container : containerBuilder) : Unstructured :=
  architectObject deploymentGVK "plugin" pluginLabels
    [("spec", JMap (architectDeploymentSpec "plugin" "plugin:1" 1 pluginLabels "old-secret" "" container ++
                    [("revisionHistoryLimit", JInt 10)]));
     ("status", JMap [("availableReplicas", JInt 1)])].
Definition pluginUpdate : prog (option error) :=
  updateArchitectDeployment (X := sampleX) (architectPlatform None) "plugin" "plugin:1" 1 pluginLabels
    "new-secret" "" consolePluginContainer.
Definition pluginStore (container : containerBuilder) : store :=
  with_objs emptyStore (KUnstructured deploymentGVK) [storedPlugin container].

(** What the first call of a trace got. *)
Definition firstGot (tr : trace) : option Unstructured :=
  match tr with Ev (CGet (KUnstructured _) _) (Ok o) :: _ => Some o | _ => None end.

Lemma architect_rollout_witness :
  exists rest,
    traceOf pluginUpdate (pluginStore withDefaults) =
      Ev (CGet (KUnstructured deploymentGVK) (inArchitectNamespace "plugin")) (Ok (storedPlugin withDefaults)) :: rest /\
    rest = [] /\ outcomeOf pluginUpdate (pluginStore withDefaults) = Done None.
Proof.
  assert (Ef : firstGot (traceOf pluginUpdate (pluginStore withDefaults)) = Some (storedPlugin withDefaults))
    by (vm_compute; reflexivity).
  destruct (architect_rollout (X := sampleX) (architectPlatform None) "plugin" "plugin:1" 1 pluginLabels
    "new-secret" "" consolePluginContainer _ _ (plugin_builds _ _ _)
    (traceOf_exec pluginUpdate (pluginStore withDefaults))) as [([existing|e] & rest & E & H) _];
    rewrite E in Ef; [|discriminate Ef].
  injection Ef as ->. exists rest. split; [exact E|]. vm_compute in H. exact H.
Defined.

(** With the defaults the server sets in probes the texts differ: the deployment is replaced at
    every reconcile although nothing changed. *)
Definition defaultedProbe (k : string) (b : fields) : fields :=
  jset b k (match jget b k with
            | JMap p => JMap (p ++ [("timeoutSeconds", JInt 1); ("successThreshold", JInt 1); ("failureThreshold", JInt 3)])
            | v => v
            end).
Definition withProbeDefaults (name image : string) (labels : gmap string string) : fields :=
  defaultedProbe "readinessProbe" (defaultedProbe "livenessProbe" (consolePluginContainer name image labels)).
Example defaulted_probe_rolled_out :
  length (writes (traceOf pluginUpdate (pluginStore withProbeDefaults))) = 1.
Proof. vm_compute. reflexivity. Qed.

(** The application on a new cluster: its components, and what every later run writes again
    although nothing changed.  With the console plugin and no image for the frontend, each
    run creates the route of the frontend and deletes it again. *)
Definition architectRun : prog (DisconnectedPlatform * option error) :=
  reconcileArchitect (X := sampleX) architectReconciler (architectPlatform (Some architectConfig)).
Definition newCluster : store :=
  with_objs emptyStore KSecret
    [mkSecret (sampleMeta "openshift-config" "pull-secret")
       (Some {[ pullSecretKey := json_text (JMap [("auths", JMap [])]) ]})].

Definition written (c : call) : string :=
  match c with
  | CCreate (KUnstructured g) o => "create " +:+ g_Kind g +:+ " " +:+ om_Name (u_Meta o)
  | CUpdate (KUnstructured g) o => "update " +:+ g_Kind g +:+ " " +:+ om_Name (u_Meta o)
  | CCreate _ o => "create " +:+ om_Name (meta o)
  | CUpdate _ o => "update " +:+ om_Name (meta o)
  | CDelete (KUnstructured g) o => "delete " +:+ g_Kind g +:+ " " +:+ om_Name (u_Meta o)
  | _ => "other"
  end.

Example architect_rewrites :
  let s := snd (run architectRun newCluster) in
  match outcomeOf architectRun newCluster with
  | Done (p, None) => map cst_Name (dpst_Components (dp_Status p))
  | _ => []
  end = ["airgap-architect-console-plugin"; "airgap-architect-backend"] /\
  map written (writes (traceOf architectRun s)) =
    ["update Role airgap-architect-backend"; "update Service mo-platform-airgap-architect-backend";
     "create Route airgap-architect"; "update Route airgap-architect-api";
     "delete Service mo-platform-airgap-architect-frontend";
     "delete Deployment mo-platform-airgap-architect-frontend";
     "delete Route airgap-architect"; "update Service airgap-architect-plugin"].
Proof. vm_compute. split; reflexivity. Qed.

Lemma architect_wiring_witness :
  let platform := architectPlatform (Some architectConfig) in
  let bn := architectResourceName platform "airgap-architect-backend" in
  let fn := architectResourceName platform "airgap-architect-frontend" in
  reaches (X := sampleX) (architectRoute (X := sampleX) "airgap-architect" None fn)
    (architectService (X := sampleX) fn frontendPort (architectComponentLabels "frontend") (serviceTLS fn)) = true /\
  reaches (X := sampleX) (architectRoute (X := sampleX) "airgap-architect-api" None bn)
    (architectService (X := sampleX) bn architectPort (architectComponentLabels "backend") (serviceTLS bn)) = false /\
  architectComponentLabels "backend" <> architectComponentLabels "frontend".
Proof.
  cbv zeta.
  destruct (architect_wiring (X := sampleX) (architectPlatform (Some architectConfig)) "image" 1
              "pull-secret" "" "" "connected" [] "" "" None) as (_ & _ & Hl & Hf & Hb).
  split; [exact Hf|]. split; [exact Hb|]. intros E. discriminate (Hl _ _ E).
Defined.
