(* ===== verification/Airgapped.v ===== *)
(** The platform on an airgapped cluster ([disconnectedplatform_airgapped.go]): Quay on local
    storage, the credentials of the registry, the scanner of the import path, the update
    service, Advanced Cluster Management, and the reconcile that puts them in order.  The host
    inventory is in HostInventory. *)
From S2P Require Import Prelude GoStrings K8s Json Api Kube Externals Helpers Operators Platform.
From S2P Require Import CABundles PullSecrets PipelineScripts Pipelines Quay UpdateService.

(** [platform.Spec.Airgapped], dereferenced without a test. *)
Definition withAirgapped {A} (platform : DisconnectedPlatform) (k : AirgappedConfig -> prog A) : prog A :=
  match dps_Airgapped (dp_Spec platform) with
  | Some ac => k ac
  | None => Panic nilPointer
  end.
Definition setMirrorRegistry (registry : string) (platform : DisconnectedPlatform) : DisconnectedPlatform :=
  platform <| dp_Spec ::= fun s => s <| dps_Airgapped ::= fmap (fun ac => ac <| ac_MirrorRegistry := registry |>) |> |>.

Definition addComponent (c : ComponentStatus) (platform : DisconnectedPlatform) : DisconnectedPlatform :=
  platform <| dp_Status ::= fun s => s <| dpst_Components ::= fun l => snoc l c |> |>.

(** The host of [host/organization]. *)
Definition registryHostOf (mirrorRegistry : string) : string :=
  match index_opt mirrorRegistry "/" with
  | Some (S n) => take_str (S n) mirrorRegistry
  | _ => mirrorRegistry
  end.

(** ** The import scanner: its script *)

Definition scannerScript : string := bq "#!/bin/bash
set -euo pipefail

echo `Scanning ${IMPORT_PATH} for new bundles...`

# List all .tar and .tar.gz files in the import path
shopt -s nullglob
bundles=(`${IMPORT_PATH}`/*.tar `${IMPORT_PATH}`/*.tar.gz)

if [ ${#bundles[@]} -eq 0 ]; then
  echo `No bundles found in ${IMPORT_PATH}`
  exit 0
fi

for bundle in `${bundles[@]}`; do
  filename=$(basename `$bundle`)
  # Sanitize filename for use as CR name
  cr_name=`import-$(echo `$filename` | sed 's/[^a-zA-Z0-9-]/-/g' | tr '[:upper:]' '[:lower:]' | sed 's/--*/-/g' | sed 's/-$//' | cut -c1-63)`

  # Check if MirrorImport CR already exists
  if oc get mirrorimport `$cr_name` -n `${NAMESPACE}` &>/dev/null; then
    echo `MirrorImport $cr_name already exists, skipping`
    continue
  fi

  # Extract imageset-config.yaml from bundle for the import Job
  imagesetconfig=``
  tmpdir=$(mktemp -d)
  if tar -xf `$bundle` -C `$tmpdir` imageset-config.yaml 2>/dev/null; then
    imagesetconfig=$(cat `$tmpdir/imageset-config.yaml`)
  fi
  rm -rf `$tmpdir`

  echo `Creating MirrorImport for $filename`
  cat <<EOFI | oc apply -f -
apiVersion: mirror.mirror.mathianasj.github.com/v1
kind: MirrorImport
metadata:
  name: ${cr_name}
  namespace: ${NAMESPACE}
spec:
  imageSetConfig: |
$(echo `$imagesetconfig` | sed 's/^/    /')
  bundle:
    pvc: ${IMPORT_PVC}
    filename: ${filename}
  targetRegistry:
    url: ${TARGET_REGISTRY}
  publish:
    catalogSource: true
    imageContentSourcePolicy: true
EOFI
done

echo `Import scan complete`
".

Section Airgapped.
Context {X : Externals}.

(** ** Quay *)

Definition quayConfigSecretName : string := "mirror-operator-quay-config-bundle".

Definition localStorageConfig : fields :=
  [("DISTRIBUTED_STORAGE_CONFIG", JMap
     [("default", JList [JStr "LocalStorage"; JMap [("storage_path", JStr "/datastorage/registry")]])]);
   ("DISTRIBUTED_STORAGE_DEFAULT_LOCATIONS", JList []);
   ("DISTRIBUTED_STORAGE_PREFERENCE", JList [JStr "default"]);
   ("FEATURE_STORAGE_REPLICATION", JBool false);
   ("MAXIMUM_LAYER_SIZE", JStr "20G")].

Definition createAirgappedQuayConfigSecret (platform : DisconnectedPlatform) : prog (option error) :=
  g ← Get KSecret (mkNN architectNamespace quayConfigSecretName);
  match g with
  | Ok _ => mret None
  | Err e =>
      if negb (IsNotFound e) then mret (Some e)
      else
        match yaml_Marshal_map localStorageConfig with
        | Err e => mret (Some (Wrapf "failed to marshal Quay config" e))
        | Ok configYAML =>
            c ← Create KSecret
                  (mkTypedSecret
                     (controlledBy platform
                        (meta0 <| om_Name := quayConfigSecretName |> <| om_Namespace := architectNamespace |>))
                     (Some {[ "config.yaml" := configYAML ]}) SecretTypeOpaque);
            mret (err_of c)
        end
  end.

(** The registry of the platform is the managed Quay; it is written to the stored platform. *)
Definition updateMirrorRegistry (platform : DisconnectedPlatform) (newRegistry : string)
  : prog (DisconnectedPlatform * option error) :=
  g ← Get KDisconnectedPlatform (key_of_meta (dp_ObjectMeta platform));
  match g with
  | Err e => mret (platform, Some (Wrapf "failed to refetch platform for mirrorRegistry update" e))
  | Ok latest =>
      withAirgapped latest (fun _ =>
        u ← Update KDisconnectedPlatform (setMirrorRegistry newRegistry latest);
        mret (match u with
              | Err e => (platform, Some (Wrapf "failed to update mirrorRegistry" e))
              | Ok _ => (setMirrorRegistry newRegistry platform, None)
              end))
  end.

Definition quayComponent : ComponentStatus :=
  mkComponentStatus "quay-registry" "Running" "QuayRegistry" "quay.redhat.com" architectNamespace "" None.

Definition configureAirgappedQuay (platform : DisconnectedPlatform) (ac : AirgappedConfig)
    (quayConfig : AirgappedQuayConfig) (quayRegistry : Unstructured)
  : prog (DisconnectedPlatform * option error) :=
  h ← getQuayHostname quayRegistry;
  match h with
  | Err e => mret (platform, Some e)
  | Ok hostname =>
      let newRegistry := hostname +:+ "/" +:+ organization (aqc_OrganizationName quayConfig) in
      p ← (if (hostname != "") && (ac_MirrorRegistry ac != newRegistry)
           then updateMirrorRegistry platform newRegistry
           else mret (platform, None));
      match p with
      | (platform, Some e) => mret (platform, Some e)
      | (platform, None) =>
          _ ← (if match aqc_Clair quayConfig with Some c => clc_UseRedHatVEXOnly c | None => false end
               then configureClairVEX quayRegistry else mret None);
          _ ← ensureQuayGunicornTimeout quayRegistry;
          mret (addComponent quayComponent platform, None)
      end
  end.

Definition createAirgappedQuay (platform : DisconnectedPlatform) (quayConfig : AirgappedQuayConfig)
  : prog (option error) :=
  orFail "failed to create airgapped Quay config secret" (createAirgappedQuayConfigSecret platform)
    (replicaOverride ← resolveQuayReplicaOverride (aqc_Replicas quayConfig);
     match SetNestedSlice [] (buildQuayComponents replicaOverride false true true) componentsPath with
     | (_, Some e) => mret (Some (Wrapf "failed to set QuayRegistry components" e))
     | (o, None) =>
         match SetNestedField o (JStr quayConfigSecretName) ["spec"; "configBundleSecret"] with
         | (_, Some e) => mret (Some (Wrapf "failed to set configBundleSecret" e))
         | (o, None) =>
             c ← Create KQuayRegistry
                   (unstructured_ quayRegistryGVK architectNamespace "mirror-operator-quay" o);
             mret (option_map (Wrapf "failed to create airgapped QuayRegistry") (err_of c))
         end
     end).

Definition reconcileAirgappedQuay (platform : DisconnectedPlatform)
  : prog (DisconnectedPlatform * option error) :=
  withAirgapped platform (fun ac =>
    match ac_Quay ac with
    | None => mret (platform, None)
    | Some quayConfig =>
        if negb (aqc_Enabled quayConfig) then mret (platform, None)
        else
          g ← Get KQuayRegistry quayKey;
          match g with
          | Ok quayRegistry => configureAirgappedQuay platform ac quayConfig quayRegistry
          | Err e =>
              if negb (IsNotFound e) then mret (platform, Some e)
              else err ← createAirgappedQuay platform quayConfig; mret (platform, err)
          end
    end).

Definition ensureAirgappedRegistryCredentials (r : DisconnectedPlatformReconciler)
    (platform : DisconnectedPlatform) : prog (option error) :=
  withAirgapped platform (fun ac =>
    match ac_RegistryCredentials ac, ac_Quay ac with
    | Some _, _ | None, None => mret None
    | None, Some quay =>
        if negb (aqc_Enabled quay) then mret None
        else
          g ← Get KQuayRegistry quayKey;
          match g with
          | Err e => mret (if IsNotFound e then None else Some e)
          | Ok quayRegistry =>
              h ← getQuayHostname quayRegistry;
              match h with
              | Ok hostname =>
                  if hostname == "" then mret None
                  else
                    let orgName := organization (aqc_OrganizationName quay) in
                    t ← ensureQuayRobotViaPython r orgName "mirroroperator";
                    match t with
                    | Err e => mret (Some (Wrapf "failed to ensure Quay robot account" e))
                    | Ok robotToken =>
                        _ ← saveQuayRobotCredentials (orgName +:+ "+mirroroperator") robotToken;
                        mret None
                    end
              | Err _ => mret None
              end
          end
    end).

(** ** The import scanner *)

Definition scannerSA : string := "import-bundle-scanner".
Definition importJobSA : string := "mirror-import-job".
Definition named_ (name : string) : ObjectMeta :=
  meta0 <| om_Name := name |> <| om_Namespace := architectNamespace |>.

(** An object that is created when it is missing; that it appeared meanwhile is no error, and
    other errors of the read are passed over. *)
Definition createIfMissing (K : kind) (o : obj K) : prog (option error) :=
  g ← Get K (key_of o);
  match g with
  | Err e =>
      if IsNotFound e then
        c ← Create K o;
        mret (match c with Err e => if IsAlreadyExists e then None else Some e | Ok _ => None end)
      else mret None
  | Ok _ => mret None
  end.

(** The same for a role, whose rules are put back when it exists. *)
Definition ensureRole (K : kind) (withRules : obj K -> obj K) (role : obj K) : prog (option error) :=
  g ← Get K (key_of role);
  match g with
  | Err e =>
      if IsNotFound e then
        c ← Create K role;
        mret (match c with Err e => if IsAlreadyExists e then None else Some e | Ok _ => None end)
      else mret None
  | Ok existing => u ← Update K (withRules existing); mret (err_of u)
  end.

Definition scannerRules : list PolicyRule :=
  [mkPolicyRule ["mirror.mirror.mathianasj.github.com"] ["mirrorimports"] ["get"; "list"; "create"]].
Definition setRules (rules : list PolicyRule) (role : Role) : Role := role <| role_Rules := rules |>.

Definition ensureImportScannerRBAC (platform : DisconnectedPlatform) : prog (option error) :=
  let om := controlledBy platform (named_ scannerSA) in
  orReturn (createIfMissing KServiceAccount (mkServiceAccount om []))
    (orReturn (ensureRole KRole (setRules scannerRules) (mkRole om scannerRules))
       (createIfMissing KRoleBinding
          (mkRoleBinding om [mkSubject "ServiceAccount" scannerSA architectNamespace]
             (mkRoleRef "rbac.authorization.k8s.io" "Role" scannerSA)))).

Definition importJobRules : list PolicyRule :=
  [mkPolicyRule ["config.openshift.io"] ["imagedigestmirrorsets"; "imagetagmirrorsets"]
     ["get"; "create"; "update"; "patch"];
   mkPolicyRule ["operators.coreos.com"] ["catalogsources"] ["get"; "create"; "update"; "patch"]].

Definition ensureImportJobRBAC (platform : DisconnectedPlatform) : prog (option error) :=
  let om := meta0 <| om_Name := importJobSA |> in
  orReturn (createIfMissing KServiceAccount
              (mkServiceAccount (controlledBy platform (named_ importJobSA)) []))
    (orReturn (ensureRole KClusterRole (setRules importJobRules) (mkRole om importJobRules))
       (createIfMissing KClusterRoleBinding
          (mkRoleBinding om [mkSubject "ServiceAccount" importJobSA architectNamespace]
             (mkRoleRef "rbac.authorization.k8s.io" "ClusterRole" importJobSA)))).

Definition scannerScriptCM : ConfigMap :=
  mkConfigMap (named_ "import-scanner-script") (Some {[ "scan-imports.sh" := scannerScript ]}).

Definition ensureImportScannerScript (platform : DisconnectedPlatform) : prog (option error) :=
  g ← Get KConfigMap (key_of_meta (cm_Meta scannerScriptCM));
  match g with
  | Ok existing =>
      if map_get (cm_Data existing) "scan-imports.sh" != scannerScript then
        u ← Update KConfigMap (existing <| cm_Data := cm_Data scannerScriptCM |>); mret (err_of u)
      else mret None
  | Err e =>
      if IsNotFound e then
        c ← Create KConfigMap (scannerScriptCM <| cm_Meta ::= controlledBy platform |>); mret (err_of c)
      else mret (Some e)
  end.

Definition scannerContainer (platform : DisconnectedPlatform) (ac : AirgappedConfig) : PodContainer :=
  let importPath := ac_ImportPath ac in
  mkPodContainer "scanner" "registry.redhat.io/openshift4/ose-cli:latest"
    ["/bin/bash"; "/scripts/scan-imports.sh"]
    [envValue "IMPORT_PATH" importPath; envValue "NAMESPACE" architectNamespace;
     envValue "PLATFORM_NAME" (om_Name (dp_ObjectMeta platform));
     envValue "TARGET_REGISTRY" (ac_MirrorRegistry ac); envValue "IMPORT_PVC" "import-data"]
    []
    [mkVolumeMount "import-path" importPath true; mkVolumeMount "scanner-script" "/scripts" false]
    [("cpu", "100m"); ("memory", "128Mi")] [("cpu", "500m"); ("memory", "256Mi")].

Definition scannerCronJob (platform : DisconnectedPlatform) (ac : AirgappedConfig) (schedule : string)
  : CronJob :=
  mkCronJob (controlledBy platform (named_ "import-bundle-scanner")) schedule (Some 3%Z) (Some 3%Z) (Some 1%Z)
    (mkPodSpec scannerSA "Never" {[ "mirror-operator.io/import-node" := "true" ]}
       [scannerContainer platform ac]
       [mkVolume "import-path" (VolHostPath (ac_ImportPath ac));
        mkVolume "scanner-script" (VolConfigMap "import-scanner-script" (Some 493%Z))]).

Definition ensureScannerCronJob (platform : DisconnectedPlatform) (ac : AirgappedConfig) (schedule : string)
  : prog (option error) :=
  g ← Get KCronJob (mkNN architectNamespace "import-bundle-scanner");
  match g with
  | Ok existing =>
      if cj_Schedule existing != schedule then
        u ← Update KCronJob (existing <| cj_Schedule := schedule |>);
        mret (option_map (Wrapf "failed to update import scanner CronJob") (err_of u))
      else mret None
  | Err e =>
      if negb (IsNotFound e) then mret (Some e)
      else
        c ← Create KCronJob (scannerCronJob platform ac schedule);
        mret (option_map (Wrapf "failed to create import scanner CronJob") (err_of c))
  end.

Definition reconcileImportScanner (platform : DisconnectedPlatform) : prog (option error) :=
  withAirgapped platform (fun ac =>
    let schedule := if ac_ImportScanSchedule ac != "" then ac_ImportScanSchedule ac else "*/30 * * * *" in
    orFail "failed to ensure import scanner RBAC" (ensureImportScannerRBAC platform)
    (orFail "failed to ensure import job RBAC" (ensureImportJobRBAC platform)
    (orFail "failed to ensure import scanner script" (ensureImportScannerScript platform)
    (ensureScannerCronJob platform ac schedule)))).

(** ** The update service *)

(** The registry host with the organization of Quay. *)
Definition airgappedBase (ac : AirgappedConfig) : string :=
  registryHostOf (ac_MirrorRegistry ac) +:+ "/" +:+ organization (default "" (aqc_OrganizationName <$> ac_Quay ac)).

Definition ensureAirgappedUpdateService (platform : DisconnectedPlatform) : prog (option error) :=
  withAirgapped platform (fun ac =>
    if ac_MirrorRegistry ac == "" then mret None
    else keepUpdateService "airgapped UpdateService" (updateServiceSpec (airgappedBase ac))).

(** ** Advanced Cluster Management *)

Definition acmNamespace : string := "open-cluster-management".
Definition mchGVK : GroupVersionKind :=
  mkGVK "operator.open-cluster-management.io" "v1" "MultiClusterHub".
Definition mchKey : NamespacedName := mkNN acmNamespace "multiclusterhub".

(** [copyPullSecretToOSUS] with another namespace. *)
Definition ensureACMPullSecret : prog (option error) :=
  s ← Get KSecret (mkNN architectNamespace "pull-secret");
  match s with
  | Err e => mret (Some (Wrapf ("failed to get pull-secret from " +:+ architectNamespace) e))
  | Ok source =>
      g ← Get KSecret (mkNN acmNamespace "pull-secret");
      match g with
      | Ok existing =>
          if map_get (sec_Data existing) pullSecretKey != map_get (sec_Data source) pullSecretKey then
            u ← Update KSecret (existing <| sec_Data := sec_Data source |>); mret (err_of u)
          else mret None
      | Err e =>
          if IsNotFound e then
            c ← Create KSecret
                  (mkTypedSecret (meta0 <| om_Name := "pull-secret" |> <| om_Namespace := acmNamespace |>)
                     (sec_Data source) (sec_Type source));
            mret (err_of c)
          else mret (Some e)
      end
  end.

Definition mchComponent (status : string) : ComponentStatus :=
  mkComponentStatus "multiclusterhub" status "MultiClusterHub" "operator.open-cluster-management.io"
    acmNamespace "" None.

Definition mchSpec (ac : AirgappedConfig) (acm : AirgappedACMConfig) : fields :=
  let hub := acm_MultiClusterHub acm in
  let pullSecret :=
    match hub ≫= mch_ImagePullSecret, ac_RegistryCredentials ac with
    | Some ref, _ => lor_Name ref
    | None, Some ref => lor_Name ref
    | None, None => "pull-secret"
    end in
  [("imagePullSecret", JStr pullSecret)] ++
  match hub with
  | Some h =>
      (if mch_CustomCAConfigMap h != "" then [("customCAConfigmap", JStr (mch_CustomCAConfigMap h))] else []) ++
      (if mch_DisableHubSelfManagement h then [("disableHubSelfManagement", JBool true)] else [])
  | None => []
  end.

Definition ensureMultiClusterHub (platform : DisconnectedPlatform) (ac : AirgappedConfig)
    (acm : AirgappedACMConfig) : prog (DisconnectedPlatform * option error) :=
  g ← Get (KUnstructured mchGVK) mchKey;
  match g with
  | Ok existing =>
      let phase := nested_string (u_Object existing) ["status"; "phase"] in
      mret (addComponent (mchComponent (if phase == "Running" then "Running" else "Installing")) platform, None)
  | Err e =>
      if negb (IsNotFound e) then mret (platform, Some e)
      else
        c ← Create (KUnstructured mchGVK)
              (unstructured_ mchGVK acmNamespace "multiclusterhub" [("spec", JMap (mchSpec ac acm))]);
        mret (match c with
              | Err e => (platform, Some (Wrapf "failed to create MultiClusterHub" e))
              | Ok _ => (addComponent (mchComponent "Installing") platform, None)
              end)
  end.

Definition acmOperator : operatorDef :=
  mkOperatorDef "advanced-cluster-management" "advanced-cluster-management" "" "" "" acmNamespace.

(** Whether the hub is running, asked once more. *)
Definition mchRunning : prog bool :=
  g ← Get (KUnstructured mchGVK) mchKey;
  mret (match g with
        | Ok mch => nested_string (u_Object mch) ["status"; "phase"] == "Running"
        | Err _ => false
        end).

(** The hub comes after the operator is installed. *)
Definition awaitMultiClusterHub (platform : DisconnectedPlatform) (ac : AirgappedConfig)
    (acm : AirgappedACMConfig) : prog (DisconnectedPlatform * (bool * option error)) :=
  _ ← ensureACMPullSecret;
  h ← ensureMultiClusterHub platform ac acm;
  match h with
  | (platform, Some e) => mret (platform, (false, Some (Wrapf "failed to ensure MultiClusterHub" e)))
  | (platform, None) => ready ← mchRunning; mret (platform, (ready, None))
  end.

Definition reconcileAirgappedACM (platform : DisconnectedPlatform) (ac : AirgappedConfig)
    (acm : AirgappedACMConfig) : prog (DisconnectedPlatform * (bool * option error)) :=
  i ← discoverPackageInfo (od_pkg acmOperator);
  match i with
  | Err _ => mret (platform, (false, None))
  | Ok (catalog, catalogNS, channel) =>
      let op := acmOperator <| od_catalog := catalog |> <| od_catalogNS := catalogNS |>
                            <| od_channel := channel |> in
      err ← orFail "namespace for ACM" (ensureNamespace (od_ns op))
              (orFail "operatorgroup for ACM" (ensureOperatorGroup op)
                 (orFail "subscription for ACM" (ensureSubscription op (acm_Subscription acm)) (mret None)));
      match err with
      | Some e => mret (platform, (false, Some e))
      | None =>
          csvPhase ← csvStatus op;
          let platform := addComponent (subscriptionComponent op (orInstalling csvPhase)) platform in
          if csvPhase != "Succeeded" then mret (platform, (false, None))
          else awaitMultiClusterHub platform ac acm
      end
  end.

Definition provisioningGVK : GroupVersionKind := mkGVK "metal3.io" "v1alpha1" "Provisioning".

Definition ensureProvisioningConfiguration : prog (option error) :=
  g ← Get (KUnstructured provisioningGVK) (mkNN "" "provisioning-configuration");
  match g with
  | Ok existing =>
      let provNet := nested_string (u_Object existing) ["spec"; "provisioningNetwork"] in
      let '(watchAll, _, _) := NestedBool (u_Object existing) ["spec"; "watchAllNamespaces"] in
      if (provNet != "Disabled") || negb watchAll then
        match SetNestedField (u_Object existing) (JStr "Disabled") ["spec"; "provisioningNetwork"] with
        | (_, Some e) => mret (Some e)
        | (o, None) =>
            match SetNestedField o (JBool true) ["spec"; "watchAllNamespaces"] with
            | (_, Some e) => mret (Some e)
            | (o, None) =>
                u ← Update (KUnstructured provisioningGVK) (existing <| u_Object := o |>);
                mret (option_map (Wrapf "failed to update Provisioning configuration") (err_of u))
            end
        end
      else mret None
  | Err e =>
      if negb (IsNotFound e) then mret (Some e)
      else
        c ← Create (KUnstructured provisioningGVK)
              (unstructured_ provisioningGVK "" "provisioning-configuration"
                 [("spec", JMap [("provisioningNetwork", JStr "Disabled"); ("watchAllNamespaces", JBool true)])]);
        mret (option_map (Wrapf "failed to create Provisioning configuration") (err_of c))
  end.

(** Errors are dropped: they go to the log. *)
Definition deleteAirgappedACM : prog (option error) :=
  _ ← Delete (KUnstructured mchGVK) (unstructured_ mchGVK acmNamespace "multiclusterhub" []);
  _ ← Delete KSubscription (unstructured_ subscriptionGVK acmNamespace
                              "mirror-operator-advanced-cluster-management" []);
  mret None.
End Airgapped.
