(* ===== verification/HostInventory.v ===== *)
(** The host inventory of an airgapped cluster ([disconnectedplatform_airgapped.go]): the
    mirror configuration, the images and the discovery environment of the assisted
    installer, and what its nodes require of signatures.  At the end, the reconcile of the
    airgapped platform. *)
From S2P Require Import Prelude GoStrings Base64 K8s Json Api Kube Externals Helpers Operators Platform.
From S2P Require Import Registry PullSecrets Pipelines Quay Airgapped.

(** [platform.Spec.Airgapped.ACM], dereferenced without a test. *)
Definition withACM {A} (platform : DisconnectedPlatform) (k : AirgappedConfig -> AirgappedACMConfig -> prog A)
  : prog A :=
  withAirgapped platform (fun ac =>
    match ac_ACM ac with
    | Some acm => k ac acm
    | None => Panic nilPointer
    end).

(** A field of [hostInv], which may be a nil pointer. *)
Definition withInventory {A} (hostInv : option HostInventoryConfig) (k : HostInventoryConfig -> prog A)
  : prog A :=
  match hostInv with
  | Some hi => k hi
  | None => Panic nilPointer
  end.

Definition enabledInventory (ac : AirgappedConfig) : option HostInventoryConfig :=
  match ac_ACM ac with
  | Some acm => match acm_HostInventory acm with
                | Some hi => if hic_Enabled hi then Some hi else None
                | None => None
                end
  | None => None
  end.

Definition archOrDefault (arch : string) : string := if arch == "" then "x86_64" else arch.

(** ** The mirrors of the assisted installer *)

Record mirrorEntry := mkMirrorEntry {
  me_source : string;
  me_mirrors : list string;
  me_digestOnly : bool;
}.
#[export] Instance eta_mirrorEntry : Eta mirrorEntry := fun r =>
  mkMirrorEntry (me_source r) (me_mirrors r) (me_digestOnly r).

Definition isInstallSafe (source : string) : bool :=
  match SplitN source "/" 2 with
  | host :: path :: _ =>
      if path == "" then false
      else negb (((host == "docker.io") || (host == "index.docker.io")) && negb (Contains path "/"))
  | _ => false
  end.

Definition addMirror (mirrors : list string) (m : string) : list string :=
  if containsString mirrors m then mirrors else snoc mirrors m.

(** [seen] and [orderedSources] together: the entries in the order of their sources. *)
Fixpoint addEntry (source : string) (mirrors : list string) (digestOnly : bool)
    (seen : list mirrorEntry) : list mirrorEntry :=
  match seen with
  | [] => [mkMirrorEntry source mirrors digestOnly]
  | e :: rest =>
      if me_source e == source
      then e <| me_mirrors := fold_left addMirror mirrors (me_mirrors e) |> :: rest
      else e :: addEntry source mirrors digestOnly rest
  end.

(** Quay as another mirror; the path of the source is kept. *)
Definition quayMirror (registryHost source : string) : string :=
  match SplitN source "/" 2 with
  | [_; path] => registryHost +:+ "/" +:+ path
  | _ => registryHost
  end.
Definition withQuayMirror (registryHost : string) (e : mirrorEntry) : mirrorEntry :=
  e <| me_mirrors := addMirror (me_mirrors e) (quayMirror registryHost (me_source e)) |>.

(** The text of the file is written with [^] for the double quote. *)
Definition mirrorText (m : string) : string := dq "
  [[registry.mirror]]
    location = ^" +:+ m +:+ dq "^
".
Definition entryText (e : mirrorEntry) : string := dq "
[[registry]]
  prefix = ^^
  location = ^" +:+ me_source e +:+ dq "^
  mirror-by-digest-only = " +:+ (if me_digestOnly e then "true" else "false") +:+ newline +:+
  Join (map mirrorText (me_mirrors e)) "".
Definition registriesConf (entries : list mirrorEntry) : string :=
  dq "unqualified-search-registries = [^registry.access.redhat.com^, ^docker.io^]
" +:+ Join (map entryText entries) "".

(** ** The signature policy of the discovery image *)

Record policyEntry := mkPolicyEntry { pe_keyData : string; pe_scopes : list string }.
Record mirrorMapping := mkMirrorMapping { mm_mirror : string; mm_source : string }.

Definition sigstoreSigned (keyData : string) (identity : fields) : json :=
  JList [JMap [("type", JStr "sigstoreSigned"); ("keyData", JStr keyData); ("signedIdentity", JMap identity)]].
Definition scopePolicy (keyData : string) : json :=
  sigstoreSigned keyData [("type", JStr "matchRepoDigestOrExact")].
Definition mirrorPolicy (keyData mirror scope : string) : json :=
  sigstoreSigned keyData
    [("type", JStr "remapIdentity"); ("prefix", JStr mirror); ("signedPrefix", JStr scope)].
Definition insecureAcceptAnything : json := JList [JMap [("type", JStr "insecureAcceptAnything")]].

(** The loop both files share: an entry for each scope and each mirror of it. *)
Definition addScope (ofScope : json) (ofMirror : string -> json) (mappings : list mirrorMapping)
    (d : fields) (scope : string) : fields :=
  fold_left (fun d mm => if mm_source mm == scope then jset d (mm_mirror mm) (ofMirror (mm_mirror mm)) else d)
    mappings (jset d scope ofScope).

Definition dockerTransport (policies : list policyEntry) (mappings : list mirrorMapping) : fields :=
  jset (fold_left (fun d pol =>
          fold_left (fun d scope =>
            addScope (scopePolicy (pe_keyData pol)) (fun m => mirrorPolicy (pe_keyData pol) m scope)
              mappings d scope)
            (pe_scopes pol) d) policies []) "" insecureAcceptAnything.

Definition policyJSON (transport : fields) : fields :=
  [("default", insecureAcceptAnything);
   ("transports", JMap [("atomic", JMap transport); ("docker", JMap transport);
                        ("docker-daemon", JMap [("", insecureAcceptAnything)])])].

Definition attachments : json := JMap [("use-sigstore-attachments", JBool true)].
Definition dockerEntries (policies : list policyEntry) (mappings : list mirrorMapping) : fields :=
  fold_left (fun d pol =>
    fold_left (addScope attachments (fun _ => attachments) mappings) (pe_scopes pol) d) policies [].

Definition overrideFile (path data : string) : json :=
  JMap [("path", JStr path); ("mode", JInt 420); ("overwrite", JBool true);
        ("contents", JMap [("source", JStr ("data:text/plain;charset=utf-8;base64," +:+ StdEncodeToString data))])].

Definition ignitionConfig (policy registriesD : string) : fields :=
  [("ignition", JMap [("version", JStr "3.2.0")]);
   ("storage", JMap [("files", JList
      [overrideFile "/etc/containers/policy.json" policy;
       overrideFile "/etc/containers/registries.d/sigstore-registries.yaml" registriesD])])].

Definition toStringInterfaceMap (m : gmap string string) : fields := labelFields m.

Section Inventory.
Context {X : Externals}.

(** ** The RHCOS server *)

Definition rhcosName : string := "rhcos-server".
Definition rhcosMeta (platform : DisconnectedPlatform) : ObjectMeta := controlledBy platform (named_ rhcosName).

Definition rhcosDeployment (platform : DisconnectedPlatform) (image : string) : Deployment :=
  let labels := {[ "app" := rhcosName ]} in
  mkDeployment (rhcosMeta platform) (Some 1%Z) labels labels
    (mkPodSpec "" "" ∅
       [mkPodContainer "nginx" image [] [] [mkContainerPort "" 8080 "TCP"] [] [("cpu", "100m"); ("memory", "128Mi")] []] []).

Definition rhcosService (platform : DisconnectedPlatform) : Service :=
  mkService (rhcosMeta platform) {[ "app" := rhcosName ]} [mkServicePort "http" 8080 8080 "TCP"] "".

(** [existing.Spec.Template.Spec.Containers[0].Image = image]. *)
Definition setImage (image : string) (d : Deployment) : Deployment :=
  d <| dep_PodSpec ::= fun s => s <| ps_Containers ::= fun l =>
    match l with
    | c :: rest => c <| pc_Image := image |> :: rest
    | [] => []
    end |> |>.

Definition rhcosImage (platform : DisconnectedPlatform) (ac : AirgappedConfig) (hi : HostInventoryConfig)
    (version : string) : prog (result string) :=
  let imageAt host := host +:+ "/rhcos-server:" +:+ version in
  if hic_RHCOSImage hi != "" then mret (Ok (hic_RHCOSImage hi))
  else match ac_MirrorRegistryConfig ac with
       | Some _ =>
           a ← GetRegistryAddress platform;
           mret (match a with
                 | Err e => Err (Wrapf "resolving mirror registry address for RHCOS image" e)
                 | Ok addr => Ok (imageAt addr)
                 end)
       | None => mret (Ok (imageAt (ac_MirrorRegistry ac)))
       end.

Definition ensureRHCOSDeployment (platform : DisconnectedPlatform) (image : string) : prog (option error) :=
  g ← Get KDeployment (mkNN architectNamespace rhcosName);
  match g with
  | Ok existing =>
      match ps_Containers (dep_PodSpec existing) with
      | [] => Panic "runtime error: index out of range [0] with length 0"
      | c :: _ =>
          if pc_Image c != image then
            u ← Update KDeployment (setImage image existing);
            mret (option_map (Wrapf "failed to update RHCOS server deployment") (err_of u))
          else mret None
      end
  | Err e =>
      if IsNotFound e then
        c ← Create KDeployment (rhcosDeployment platform image);
        mret (option_map (Wrapf "failed to create RHCOS server deployment") (err_of c))
      else mret (Some e)
  end.

Definition ensureRHCOSService (platform : DisconnectedPlatform) : prog (option error) :=
  g ← Get KService (mkNN architectNamespace rhcosName);
  match g with
  | Ok _ => mret None
  | Err e =>
      if IsNotFound e then
        c ← Create KService (rhcosService platform);
        mret (option_map (Wrapf "failed to create RHCOS server service") (err_of c))
      else mret (Some e)
  end.

Definition reconcileRHCOSServer (platform : DisconnectedPlatform) : prog (option error) :=
  withAirgapped platform (fun ac =>
    if ac_MirrorRegistry ac == "" then mret None
    else
      match enabledInventory ac with
      | None => mret None
      | Some hi =>
          match hic_Versions hi with
          | [] => mret None
          | v :: _ =>
              if hiv_OpenshiftVersion v == "" then mret None
              else
                i ← rhcosImage platform ac hi (hiv_OpenshiftVersion v);
                match i with
                | Err e => mret (Some e)
                | Ok image => orReturn (ensureRHCOSDeployment platform image) (ensureRHCOSService platform)
                end
          end
      end).

(** ** The mirror configuration *)

(** One entry of a mirror set. *)
Definition addMirrorsOf (digestOnly : bool) (seen : list mirrorEntry) (entry : json) : list mirrorEntry :=
  match as_map entry with
  | None => seen
  | Some e =>
      let source := nested_string e ["source"] in
      if (source == "") || negb (isInstallSafe source) then seen
      else let '(mirrorsRaw, _, _) := NestedStringSlice e ["mirrors"] in
           addEntry source mirrorsRaw digestOnly seen
  end.
Definition addMirrorSet (field : string) (digestOnly : bool) (seen : list mirrorEntry) (set : Unstructured)
  : list mirrorEntry :=
  fold_left (addMirrorsOf digestOnly) (nested_slice (u_Object set) ["spec"; field]) seen.

Definition gvkITMS : GroupVersionKind := mkGVK "config.openshift.io" "v1" "ImageTagMirrorSet".

(** A list that cannot be read counts as empty. *)
Definition listOrNil (g : GroupVersionKind) : prog (list Unstructured) :=
  r ← List_ (KUnstructured g) None [];
  mret (match r with Ok l => l | Err _ => [] end).

Definition mirrorEntries (registryHost : string) (idms itms : list Unstructured) : list mirrorEntry :=
  let seen := fold_left (addMirrorSet "imageDigestMirrors" true) idms [] in
  let seen := fold_left (addMirrorSet "imageTagMirrors" false) itms seen in
  map (withQuayMirror registryHost) seen.

Definition caFrom (K : string) (s : option (gmap string string)) : option string :=
  let ca := map_get s K in if ca != "" then Some ca else None.

(** The first key of a secret that is set, or what follows. *)
Definition orElseSecret (name key : string) (rest : prog string) : prog string :=
  g ← Get KSecret (mkNN architectNamespace name);
  match match g with Ok s => caFrom key (sec_Data s) | Err _ => None end with
  | Some ca => mret ca
  | None => rest
  end.

Definition userCABundle : prog string :=
  g ← Get KConfigMap (mkNN "openshift-config" "user-ca-bundle");
  mret (match g with
        | Ok cm => default "" (caFrom "ca-bundle.crt" (cm_Data cm))
        | Err _ => ""
        end).

Definition getMirrorRegistryCA (platform : DisconnectedPlatform) : prog string :=
  withAirgapped platform (fun ac =>
    if match ac_Quay ac with Some quay => aqc_Enabled quay | None => false end then
      orElseSecret quayConfigSecretName "ssl.cert"
        (orElseSecret "mirror-operator-quay-quay-ssl" "tls.crt" userCABundle)
    else userCABundle).

Definition mceNamespace : string := "multicluster-engine".
Definition mirrorConfigName : string := "assisted-installer-mirror-config".
Definition mirrorConfigMap (caBundlePEM conf : string) : ConfigMap :=
  mkConfigMap
    (meta0 <| om_Name := mirrorConfigName |> <| om_Namespace := mceNamespace |>
           <| om_Labels := {[ "app" := "assisted-service" ]} |>)
    (Some (<["registries.conf" := conf]> {[ "ca-bundle.crt" := caBundlePEM ]})).

Definition writeMirrorConfig (cm : ConfigMap) : prog (option error) :=
  g ← Get KConfigMap (key_of_meta (cm_Meta cm));
  match g with
  | Ok existing =>
      if (map_get (cm_Data existing) "ca-bundle.crt" != map_get (cm_Data cm) "ca-bundle.crt") ||
         (map_get (cm_Data existing) "registries.conf" != map_get (cm_Data cm) "registries.conf") then
        u ← Update KConfigMap
              (existing <| cm_Data := cm_Data cm |>
                        <| cm_Meta ::= fun om => om <| om_Labels := om_Labels (cm_Meta cm) |> |>);
        mret (option_map (Wrapf "failed to update assisted-installer-mirror-config") (err_of u))
      else mret None
  | Err e =>
      if IsNotFound e then
        c ← Create KConfigMap cm;
        mret (option_map (Wrapf "failed to create assisted-installer-mirror-config") (err_of c))
      else mret (Some e)
  end.

Definition ensureAssistedInstallerMirrorConfig (platform : DisconnectedPlatform) : prog (option error) :=
  withAirgapped platform (fun ac =>
    if ac_MirrorRegistry ac == "" then mret None
    else
      caBundlePEM ← getMirrorRegistryCA platform;
      idms ← listOrNil gvkIDMS;
      itms ← listOrNil gvkITMS;
      let conf := registriesConf (mirrorEntries (registryHostOf (ac_MirrorRegistry ac)) idms itms) in
      orFail "failed to ensure multicluster-engine namespace" (ensureNamespace mceNamespace)
        (writeMirrorConfig (mirrorConfigMap caBundlePEM conf))).

(** ** The agent service *)

Definition gvkAgentServiceConfig : GroupVersionKind :=
  mkGVK "agent-install.openshift.io" "v1beta1" "AgentServiceConfig".

Definition osImage (rhcosServerURL : string) (v : HostInventoryVersion) : json :=
  let arch := archOrDefault (hiv_CpuArchitecture v) in
  JMap [("openshiftVersion", JStr (hiv_OpenshiftVersion v)); ("cpuArchitecture", JStr arch);
        ("rootFSUrl", JStr (rhcosServerURL +:+ "/rhcos-live-rootfs." +:+ arch +:+ ".img"));
        ("url", JStr (rhcosServerURL +:+ "/rhcos-live." +:+ arch +:+ ".iso"));
        ("version", JStr (hiv_OpenshiftVersion v))].

Definition buildStorage (storageClass size : string) : json :=
  JMap ([("accessModes", JList [JStr "ReadWriteOnce"]);
         ("resources", JMap [("requests", JMap [("storage", JStr size)])])] ++
        (if storageClass != "" then [("storageClassName", JStr storageClass)] else [])).

Definition agentServiceSpec (hi : HostInventoryConfig) (rhcosServerURL : string) : fields :=
  let storage := buildStorage (hic_StorageClass hi) in
  [("databaseStorage", storage (orDefault (hic_DatabaseStorageSize hi) "200Gi"));
   ("filesystemStorage", storage (orDefault (hic_FilesystemStorageSize hi) "200Gi"));
   ("imageStorage", storage (orDefault (hic_ImageStorageSize hi) "100Gi"));
   ("mirrorRegistryRef", JMap [("name", JStr mirrorConfigName)]);
   ("osImages", JList (map (osImage rhcosServerURL) (hic_Versions hi)))].

Definition ensureAgentServiceConfig (platform : DisconnectedPlatform) (rhcosServerURL : string)
  : prog (option error) :=
  withACM platform (fun _ acm =>
    g ← Get (KUnstructured gvkAgentServiceConfig) (mkNN "" "agent");
    match g with
    | Ok _ => mret None
    | Err e =>
        if negb (IsNotFound e) then mret (Some e)
        else withInventory (acm_HostInventory acm) (fun hi =>
          c ← Create (KUnstructured gvkAgentServiceConfig)
                (unstructured_ gvkAgentServiceConfig "" "agent"
                   [("spec", JMap (agentServiceSpec hi rhcosServerURL))]);
          mret (option_map (Wrapf "failed to create AgentServiceConfig") (err_of c)))
    end).

(** ** The images of the versions *)

Definition gvkClusterImageSet : GroupVersionKind := mkGVK "hive.openshift.io" "v1" "ClusterImageSet".
Definition imageSetName (v : HostInventoryVersion) : string :=
  "openshift-" +:+ ReplaceAll (hiv_OpenshiftVersion v) "." "-".
Definition releaseImageOf (registryHost : string) (v : HostInventoryVersion) : string :=
  registryHost +:+ "/openshift/release-images:" +:+ hiv_OpenshiftVersion v +:+ "-" +:+
  archOrDefault (hiv_CpuArchitecture v).

Definition clusterImageSet (registryHost : string) (v : HostInventoryVersion) : Unstructured :=
  mkUnstructured gvkClusterImageSet
    (meta0 <| om_Name := imageSetName v |> <| om_Labels := {[ "visible" := "true" ]} |>)
    [("spec", JMap [("releaseImage", JStr (releaseImageOf registryHost v))])].

Fixpoint createImageSets (registryHost : string) (versions : list HostInventoryVersion)
  : prog (option error) :=
  match versions with
  | [] => mret None
  | v :: rest =>
      g ← Get (KUnstructured gvkClusterImageSet) (mkNN "" (imageSetName v));
      match g with
      | Ok _ => createImageSets registryHost rest
      | Err e =>
          if negb (IsNotFound e) then mret (Some e)
          else
            c ← Create (KUnstructured gvkClusterImageSet) (clusterImageSet registryHost v);
            match c with
            | Err e => mret (Some (Wrapf ("failed to create ClusterImageSet " +:+ imageSetName v) e))
            | Ok _ => createImageSets registryHost rest
            end
      end
  end.

Definition ensureClusterImageSets (platform : DisconnectedPlatform) : prog (option error) :=
  withAirgapped platform (fun ac =>
    match enabledInventory ac with
    | None => mret None
    | Some hi =>
        if ac_MirrorRegistry ac == "" then mret None
        else createImageSets (registryHostOf (ac_MirrorRegistry ac)) (hic_Versions hi)
    end).

(** ** The ignition of the discovery image *)

Definition gvkClusterImagePolicy : GroupVersionKind :=
  mkGVK "config.openshift.io" "v1" "ClusterImagePolicy".

Definition policyOf (cip : Unstructured) : list policyEntry :=
  let keyData := nested_string (u_Object cip) ["spec"; "policy"; "rootOfTrust"; "publicKey"; "keyData"] in
  let '(scopesRaw, _, _) := NestedStringSlice (u_Object cip) ["spec"; "scopes"] in
  match scopesRaw with
  | [] => []
  | _ => if keyData == "" then [] else [mkPolicyEntry keyData scopesRaw]
  end.

Definition mappingsOf (idms : Unstructured) : list mirrorMapping :=
  concat (map (fun entry =>
    match as_map entry with
    | None => []
    | Some e =>
        let source := nested_string e ["source"] in
        let '(mirrors, _, _) := NestedStringSlice e ["mirrors"] in
        map (fun m => mkMirrorMapping m source) mirrors
    end) (nested_slice (u_Object idms) ["spec"; "imageDigestMirrors"])).

(** The two files and the configuration around them; a text that cannot be produced gives
    none. *)
Definition ignitionText (policies : list policyEntry) (mappings : list mirrorMapping) : string :=
  match json_Marshal (JMap (policyJSON (dockerTransport policies mappings))) with
  | Err _ => ""
  | Ok policyBytes =>
      match yaml_Marshal_map [("docker", JMap (dockerEntries policies mappings))] with
      | Err _ => ""
      | Ok registriesDBytes =>
          match json_Marshal (JMap (ignitionConfig policyBytes registriesDBytes)) with
          | Err _ => ""
          | Ok ignitionBytes => ignitionBytes
          end
      end
  end.

Definition buildIgnitionConfigOverride : prog string :=
  cips ← listOrNil gvkClusterImagePolicy;
  let policies := concat (map policyOf cips) in
  match policies with
  | [] => mret ""
  | _ =>
      idms ← listOrNil gvkIDMS;
      mret (ignitionText policies (concat (map mappingsOf idms)))
  end.

(** ** The discovery environment *)

Definition gvkInfraEnv : GroupVersionKind := mkGVK "agent-install.openshift.io" "v1beta1" "InfraEnv".
Definition infraEnvName : string := "mirror-operator-infraenv".

(** [if v != "" { spec[k] = v }]. *)
Definition optField (k v : string) : fields := if v != "" then [(k, JStr v)] else [].

Definition proxyField (proxy : string * string * string) : fields :=
  let '(httpProxy, httpsProxy, noProxy) := proxy in
  if (httpProxy != "") || (httpsProxy != "") || (noProxy != "") then
    [("proxy", JMap (optField "httpProxy" httpProxy ++ optField "httpsProxy" httpsProxy ++
                     optField "noProxy" noProxy))]
  else [].

(** The fields in the order in which they are assigned. *)
Definition infraEnvSpec (cfg : InfraEnvConfig) (version sshKey : string)
    (proxy : string * string * string) (caBundle ignitionOverride : string) : fields :=
  [("pullSecretRef", JMap [("name", JStr "pull-secret")])] ++
  optField "osImageVersion" version ++
  [("cpuArchitecture", JStr (archOrDefault (iec_CpuArchitecture cfg)));
   ("imageType", JStr (if iec_ImageType cfg == "" then "full-iso" else iec_ImageType cfg))] ++
  optField "sshAuthorizedKey" sshKey ++
  proxyField proxy ++
  match iec_AdditionalNTPSources cfg with
  | [] => []
  | sources => [("additionalNTPSources", JList (map JStr sources))]
  end ++
  optField "additionalTrustBundle" caBundle ++
  [("mirrorRegistryRef", JMap [("name", JStr mirrorConfigName); ("namespace", JStr mceNamespace)])] ++
  (if (iec_NetworkType cfg == "static") && negb (bool_decide (iec_NMStateConfigLabels cfg = ∅)) then
     [("nmStateConfigLabelSelector",
       JMap [("matchLabels", JMap (toStringInterfaceMap (iec_NMStateConfigLabels cfg)))])]
   else []) ++
  optField "ignitionConfigOverride" ignitionOverride.

Definition createInfraEnv (platform : DisconnectedPlatform) (cfg : InfraEnvConfig) (ns : string)
  : prog (option error) :=
  version ← getClusterVersion;
  sshKey ← (if iec_SSHAuthorizedKey cfg == "" then getClusterSSHKey else mret (iec_SSHAuthorizedKey cfg));
  proxy ← getClusterProxy;
  caBundle ← getMirrorRegistryCA platform;
  ignitionOverride ← buildIgnitionConfigOverride;
  c ← Create (KUnstructured gvkInfraEnv)
        (unstructured_ gvkInfraEnv ns infraEnvName
           [("spec", JMap (infraEnvSpec cfg version sshKey proxy caBundle ignitionOverride))]);
  mret (option_map (Wrapf "failed to create InfraEnv") (err_of c)).

Definition ensureInfraEnv (platform : DisconnectedPlatform) : prog (option error) :=
  withACM platform (fun _ acm => withInventory (acm_HostInventory acm) (fun hi =>
    match hic_InfraEnv hi with
    | None => mret None
    | Some cfg =>
        if negb (iec_Enabled cfg) then mret None
        else
          let ns := if iec_Namespace cfg == "" then architectNamespace else iec_Namespace cfg in
          g ← Get (KUnstructured gvkInfraEnv) (mkNN ns infraEnvName);
          match g with
          | Ok _ => mret None
          | Err e => if negb (IsNotFound e) then mret (Some e) else createInfraEnv platform cfg ns
          end
    end)).

Definition credentialName : string := "mirror-operator-credential".

(** [StringData] is merged into the data by the server. *)
Definition credentialSecret (name ns pullSecretJSON sshPublicKey baseDomain : string) : Secret :=
  mkTypedSecret
    (meta0 <| om_Name := name |> <| om_Namespace := ns |>
           <| om_Labels := <["cluster.open-cluster-management.io/credentials" := ""]>
                {[ "cluster.open-cluster-management.io/type" := "hostinventory" ]} |>)
    (Some (<["pullSecret" := pullSecretJSON]> (<["ssh-publickey" := sshPublicKey]>
             {[ "baseDomain" := baseDomain ]}))) SecretTypeOpaque.

Definition ensureACMCredential (platform : DisconnectedPlatform) : prog (option error) :=
  withACM platform (fun _ acm => withInventory (acm_HostInventory acm) (fun hi =>
    match hic_Credential hi with
    | None => mret None
    | Some cfg =>
        if negb (crc_Enabled cfg) then mret None
        else
          let name := if crc_Name cfg == "" then credentialName else crc_Name cfg in
          let ns := if crc_Namespace cfg == "" then mceNamespace else crc_Namespace cfg in
          g ← Get KSecret (mkNN ns name);
          match g with
          | Ok _ => mret None
          | Err e =>
              if negb (IsNotFound e) then mret (Some e)
              else
                s ← Get KSecret (mkNN architectNamespace "pull-secret");
                match s with
                | Err e => mret (Some (Wrapf "failed to get pull-secret for ACM credential" e))
                | Ok source =>
                    let explicit := match hic_InfraEnv hi with
                                    | Some ie => iec_SSHAuthorizedKey ie
                                    | None => ""
                                    end in
                    sshPublicKey ← (if explicit == "" then getClusterSSHKey else mret explicit);
                    c ← Create KSecret
                          (credentialSecret name ns (map_get (sec_Data source) pullSecretKey) sshPublicKey
                             (crc_BaseDomain cfg));
                    mret (option_map (Wrapf "failed to create ACM credential") (err_of c))
                end
          end
    end)).

(** ** Removal *)

(** Errors are dropped: they go to the log. *)
Definition deleteHostInventoryResources : prog () :=
  _ ← Delete (KUnstructured gvkInfraEnv) (unstructured_ gvkInfraEnv architectNamespace infraEnvName []);
  _ ← Delete (KUnstructured gvkAgentServiceConfig) (unstructured_ gvkAgentServiceConfig "" "agent" []);
  _ ← Delete KDeployment (mkDeployment (named_ rhcosName) None ∅ ∅ (mkPodSpec "" "" ∅ [] []));
  _ ← Delete KService (mkService (named_ rhcosName) ∅ [] "");
  _ ← Delete KConfigMap
        (mkConfigMap (meta0 <| om_Name := mirrorConfigName |> <| om_Namespace := mceNamespace |>) None);
  _ ← Delete KSecret
        (mkSecret (meta0 <| om_Name := credentialName |> <| om_Namespace := mceNamespace |>) None);
  mret ().

(** ** The airgapped platform *)

Definition reconcileMirrorRegistry (platform : DisconnectedPlatform) : prog (option error) :=
  Reconcile platform.

(** [if err := p; err != nil { needsRequeue = true }], then what follows. *)
Definition orRequeue {A} (p : prog (option error)) (needsRequeue : bool) (k : bool -> prog A) : prog A :=
  r ← p; k (needsRequeue || bool_decide (is_Some r)).

Definition inventoryComponent : ComponentStatus :=
  mkComponentStatus "host-inventory" "Configured" "AgentServiceConfig" "agent-install.openshift.io" "" "" None.

Definition rhcosServerURL : string := "http://rhcos-server." +:+ architectNamespace +:+ ".svc:8080".

Definition reconcileHostInventory (platform : DisconnectedPlatform) (n : bool)
  : prog (DisconnectedPlatform * bool) :=
  orRequeue (ensureAssistedInstallerMirrorConfig platform) n (fun n =>
  orRequeue (reconcileRHCOSServer platform) n (fun n =>
  orRequeue (ensureAgentServiceConfig platform rhcosServerURL) n (fun n =>
  orRequeue (ensureClusterImageSets platform) n (fun n =>
  orRequeue (ensureInfraEnv platform) n (fun n =>
  orRequeue (ensureACMCredential platform) n (fun n =>
  mret (addComponent inventoryComponent platform, n))))))).

(** ACM and what it brings; whether the rest may be reconciled, and whether to come back. *)
Definition airgappedACM (platform : DisconnectedPlatform) (ac : AirgappedConfig)
  : prog (DisconnectedPlatform * bool * bool) :=
  match ac_ACM ac with
  | Some acm =>
      if acm_Enabled acm then
        a ← reconcileAirgappedACM platform ac acm;
        let '(platform, (mchReady, err)) := a in
        if negb mchReady then mret (platform, false, true)
        else
          orRequeue ensureProvisioningConfiguration (bool_decide (is_Some err)) (fun n =>
            match enabledInventory ac with
            | Some _ => h ← reconcileHostInventory platform n; mret (fst h, true, snd h)
            | None => mret (platform, true, n)
            end)
      else mret (platform, true, false)
  | None => mret (platform, true, false)
  end.

(** What waits for ACM. *)
Definition airgappedComponents (r : DisconnectedPlatformReconciler) (platform : DisconnectedPlatform)
    (ac : AirgappedConfig) (n : bool) : prog (DisconnectedPlatform * bool) :=
  orRequeue (match ac_MirrorRegistryConfig ac with
             | Some _ => reconcileMirrorRegistry platform
             | None => mret None
             end) n (fun n =>
  q ← reconcileAirgappedQuay platform;
  let platform := fst q in
  let n := n || bool_decide (is_Some (snd q)) in
  orRequeue (ensureAirgappedRegistryCredentials r platform) n (fun n =>
  orRequeue (if ac_ImportPath ac != "" then reconcileImportScanner platform else mret None) n (fun n =>
  orRequeue (ensureAirgappedUpdateService platform) n (fun n =>
  orRequeue (if dpr_TektonAvailable r then reconcileImportPipelineTemplate r platform else mret None) n (fun n =>
  mret (platform, n)))))).

Definition reconcileAirgapped (r : DisconnectedPlatformReconciler) (platform : DisconnectedPlatform)
  : prog (DisconnectedPlatform * (bool * option error)) :=
  withAirgapped platform (fun ac =>
    a ← airgappedACM platform ac;
    let '(platform, proceed, n) := a in
    if negb proceed then mret (platform, (n, None))
    else c ← airgappedComponents r platform ac n; mret (fst c, (snd c, None))).
End Inventory.
