(* ===== verification/PlatformReconciler.v ===== *)
(** The reconcile of a platform ([Reconcile], [cleanup] of [disconnectedplatform_controller.go]):
    the parts of the other files in their order, with what stops it, what is passed over, what is
    reported and when it is called again. *)
From S2P Require Import Prelude GoStrings K8s Json Api Kube Externals Helpers Operators PlatformStatus Platform.
From S2P Require Import CABundles PullSecrets Pipelines Quay ConnectedQuay Architect Airgapped HostInventory.
From S2P Require Import UpdateService ManagedKeycloak Signing RHTPA Artifacts.

Definition platformFinalizer : string := "mirror.mathianasj.github.com/platform-finalizer".
Definition dp_Finalizers (p : DisconnectedPlatform) : list string := om_Finalizers (dp_ObjectMeta p).
Definition withPlatformFinalizers (p : DisconnectedPlatform) (f : list string -> list string)
  : DisconnectedPlatform :=
  p <| dp_ObjectMeta ::= fun om => om <| om_Finalizers ::= f |> |>.
Definition withPhase (phase : string) (p : DisconnectedPlatform) : DisconnectedPlatform :=
  withStatus p (fun s => s <| dpst_Phase := phase |>).

#[export] Instance Condition_eq_dec : EqDecision Condition.
Proof. solve_decision. Defined.
#[export] Instance CollectionInfo_eq_dec : EqDecision CollectionInfo.
Proof. solve_decision. Defined.
#[export] Instance ImportInfo_eq_dec : EqDecision ImportInfo.
Proof. solve_decision. Defined.
#[export] Instance ComponentStatus_eq_dec : EqDecision ComponentStatus.
Proof. solve_decision. Defined.
#[export] Instance RHTASRootKeysInfo_eq_dec : EqDecision RHTASRootKeysInfo.
Proof. solve_decision. Defined.
#[export] Instance DisconnectedPlatformStatus_eq_dec : EqDecision DisconnectedPlatformStatus.
Proof. solve_decision. Defined.

Definition isCRDNotFoundError (err : error) : bool := Contains (e_Msg err) "no matches for kind".

(** A component of the namespace of the operator that is reported as running. *)
Definition running (name kind_ group : string) : ComponentStatus :=
  mkComponentStatus name "Running" kind_ group architectNamespace "" None.
Definition addRunning (l : list ComponentStatus) (p : DisconnectedPlatform) : DisconnectedPlatform :=
  withStatus p (fun s => s <| dpst_Components ::= fun c => c ++ l |>).
Definition componentSucceeded (name : string) (p : DisconnectedPlatform) : bool :=
  existsb (fun c => (cst_Name c == name) && (cst_Status c == "Succeeded")) (dpst_Components (dp_Status p)).

Definition retryInterval : Duration := (30 * Second)%Z.

(** The reconcile ends here: the phase Error and, with a reason, the condition are written. *)
Definition failPhase {A} (p : DisconnectedPlatform) : prog (step A) :=
  exit_status_update KDisconnectedPlatform (withPhase PlatformPhaseError p).
Definition failReason {A} (after : Result) (reason : string) (e : error) (p : DisconnectedPlatform)
  : prog (step A) :=
  p ← setErrorCondition (withPhase PlatformPhaseError p) reason (e_Msg e);
  u ← StatusUpdate KDisconnectedPlatform p;
  mret (Exit (after, err_of u)).

(** An error that is logged, and the component that is reported without one. *)
Definition reported (l : list ComponentStatus) (e : option error) (p : DisconnectedPlatform) : DisconnectedPlatform :=
  match e with None => addRunning l p | Some _ => p end.
Definition missingCRD (e : option error) : bool :=
  match e with Some e => isCRDNotFoundError e | None => false end.

(** The managed Quay is enabled; the update service is not disabled. *)
Definition managedQuayEnabled (cc : ConnectedConfig) : bool :=
  match cc_Quay cc ≫= qic_Managed with Some m => mqc_Enabled m | None => false end.
Definition osusEnabled (cc : ConnectedConfig) : bool :=
  match cc_Operators cc ≫= ocf_OSUS with Some o => negb (olm_Disabled o) | None => true end.

Section Reconciler.
Context {X : Externals} (ImportAirgapArchitectScript : string).

(** ** The removal *)

Definition cleanup (platform : DisconnectedPlatform) : prog reconcile_out :=
  if containsString (dp_Finalizers platform) platformFinalizer then
    e ← deleteArchitectResources platform;
    match e with
    | Some e => fail_with e
    | None =>
        _ ← deleteManagedKeycloak;
        _ ← deleteRHTASConfig;
        _ ← deleteRHTPAConfig;
        _ ← deleteAirgappedACM;
        return_update KDisconnectedPlatform
          (withPlatformFinalizers platform (fun l => removeString l platformFinalizer))
    end
  else done.

(** ** What comes first *)

Definition reconcileOperators (platform : DisconnectedPlatform) : prog (step DisconnectedPlatform) :=
  if dps_Mode (dp_Spec platform) == PlatformModeConnected then
    r ← reconcileSubscriptions platform;
    match snd r with
    | Some _ => failPhase (fst r)
    | None => mret (Next (fst r))
    end
  else mret (Next platform).

Definition ensureBundles : prog unit :=
  _ ← ensureClusterCABundle;
  _ ← ensureOwnSubscriptionConfig;
  _ ← ensureCombinedCABundle;
  mret tt.

Definition architectStep (r : DisconnectedPlatformReconciler) (platform : DisconnectedPlatform)
  : prog (step DisconnectedPlatform) :=
  a ← reconcileArchitect r platform;
  match snd a with
  | Some e => failReason Result0 "ArchitectReconcileFailed" e (fst a)
  | None => mret (Next (fst a))
  end.

Definition keycloakStep (platform : DisconnectedPlatform) : prog (step DisconnectedPlatform) :=
  if componentSucceeded "rhbk-operator" platform then
    e ← reconcileManagedKeycloak platform;
    match e with
    | Some e => failReason (RequeueAfter retryInterval) "ManagedKeycloakFailed" e platform
    | None =>
        let platform := addRunning [running "keycloak" "Keycloak" "k8s.keycloak.org";
                                    running "keycloak-postgresql" "StatefulSet" "apps"] platform in
        h ← checkKeycloakHealth platform;
        match h with
        | Some e => failReason (RequeueAfter retryInterval) "KeycloakNotHealthy" e platform
        | None => mret (Next platform)
        end
    end
  else mret (Next platform).

(** ** What is passed over when it fails *)

Definition signingStep (platform : DisconnectedPlatform) : prog DisconnectedPlatform :=
  e ← reconcileRHTASConfig platform;
  let platform := reported [running "securesign" "Securesign" "rhtas.redhat.com"] e platform in
  k ← extractRHTASRootKeys platform;
  let platform := fst k in
  _ ← configureCollectionPipelineSigning platform;
  h ← performRHTASHealthChecks platform;
  platform ← match h with
             | Some e => updateDegradedCondition platform "RHTASHealthCheckFailed" (e_Msg e)
             | None => clearDegradedCondition platform "RHTASHealthCheckFailed"
             end;
  s ← updateStatusFromSecuresignHealth platform;
  mret (fst s).

Definition rhtpaStep (platform : DisconnectedPlatform) : prog (DisconnectedPlatform * bool) :=
  match dps_Connected (dp_Spec platform) ≫= cc_RHTPA with
  | Some _ =>
      e ← reconcileRHTPAConfig platform;
      mret (reported [running "trusted-profile-analyzer" "TrustedProfileAnalyzer" "rhtpa.io";
                      running "rhtpa-postgresql" "StatefulSet" "apps"] e platform, missingCRD e)
  | None => mret (platform, false)
  end.

(** An error, or the wish to be called again. *)
Definition wants (o : bool * option error) : bool := bool_decide (is_Some (snd o)) || fst o.

Definition airgappedStep (r : DisconnectedPlatformReconciler) (platform : DisconnectedPlatform)
  : prog (DisconnectedPlatform * bool) :=
  if (dps_Mode (dp_Spec platform) == PlatformModeAirgapped) &&
     bool_decide (is_Some (dps_Airgapped (dp_Spec platform))) then
    s ← reconcileAirgappedSubscriptions platform;
    a ← reconcileAirgapped r (fst s);
    mret (fst a, wants (snd s) || wants (snd a))
  else mret (platform, false).

Definition quayStep (r : DisconnectedPlatformReconciler) (platform : DisconnectedPlatform)
  : prog (DisconnectedPlatform * bool) :=
  q ← reconcileQuayConfig platform;
  let '(platform, e) := q in
  withConnected platform (fun cc =>
    let platform := match e with
                    | None => if managedQuayEnabled cc then addRunning [quayComponent] platform else platform
                    | Some _ => platform
                    end in
    _ ← ensureAWSLoadBalancerTimeout;
    c ← if managedQuayEnabled cc then ensureQuayCredentials r else mret None;
    mret (platform, missingCRD e || missingCRD c)).

Definition updateServiceStep (r : DisconnectedPlatformReconciler) (platform : DisconnectedPlatform) : prog unit :=
  withConnected platform (fun cc =>
    if osusEnabled cc then
      _ ← ensureOSUSPullSecret r;
      _ ← ensureUpdateService platform;
      _ ← ensurePipelineOSUSAccess;
      mret tt
    else mret tt).

Definition artifactsStep (r : DisconnectedPlatformReconciler) (platform : DisconnectedPlatform)
  : prog (DisconnectedPlatform * bool) :=
  b ← reconcileArtifactsBucket platform;
  let platform := reported [running "collection-artifacts" "ObjectBucketClaim" "objectbucket.io"] b platform in
  _ ← syncS3ConfigToSecret;
  _ ← ensureImportScriptConfigMap ImportAirgapArchitectScript;
  t ← reconcileCollectionPipelineTemplate r platform;
  mret (reported [running "collection-pipeline-template" "Pipeline" "tekton.dev"] t platform, missingCRD t).

Definition connectedStep (r : DisconnectedPlatformReconciler) (platform : DisconnectedPlatform)
  : prog (DisconnectedPlatform * bool) :=
  if (dps_Mode (dp_Spec platform) == PlatformModeConnected) &&
     bool_decide (is_Some (dps_Connected (dp_Spec platform))) then
    q ← quayStep r platform;
    _ ← updateServiceStep r (fst q);
    a ← artifactsStep r (fst q);
    mret (fst a, snd q || snd a)
  else mret (platform, false).

(** ** The reconcile *)

Definition selfComponent : ComponentStatus :=
  mkComponentStatus "disconnected-platform" "Running" "DisconnectedPlatform"
    "mirror.mirror.mathianasj.github.com" "" "" None.

(** The status is written when it changed, and only then the wishes are looked at. *)
Definition finishReconcile (originalStatus : DisconnectedPlatformStatus) (platform : DisconnectedPlatform)
    (airgappedRequeue crdMissing : bool) : prog reconcile_out :=
  if decide (originalStatus = dp_Status platform) then done
  else
    u ← StatusUpdate KDisconnectedPlatform platform;
    let again := if airgappedRequeue || crdMissing then RequeueAfter retryInterval else Result0 in
    mret (match u with
          | Err e => if IsConflict e then (again, None) else (Result0, Some e)
          | Ok _ => (again, None)
          end).

(** What comes after the steps that can end the reconcile. *)
Definition reconcileRest (r : DisconnectedPlatformReconciler) (originalStatus : DisconnectedPlatformStatus)
    (signingImages : bool) (platform : DisconnectedPlatform) : prog reconcile_out :=
  platform ← if signingImages then signingStep platform else mret platform;
  t ← rhtpaStep platform;
  a ← airgappedStep r (fst t);
  c ← connectedStep r (fst a);
  platform ← aggregateCollections (fst c);
  platform ← aggregateImports platform;
  platform ← setReadyCondition (addRunning [selfComponent] platform) "ReconciliationSucceeded"
               "All components reconciled successfully";
  finishReconcile originalStatus platform (snd a) (snd t || snd c).

Definition reconcilePlatform (r : DisconnectedPlatformReconciler) (original : DisconnectedPlatform)
  : prog reconcile_out :=
  let platform := withStatus original (fun s => s <| dpst_Phase := PlatformPhaseReady |> <| dpst_Components := [] |>) in
  let! platform := reconcileOperators platform in
  (_ ← ensureBundles;
   let! platform := architectStep r platform in
   let signingImages := componentSucceeded "trusted-artifact-signer" platform in
   let! platform := keycloakStep platform in
   reconcileRest r (dp_Status original) signingImages platform).

Definition Reconcile (r : DisconnectedPlatformReconciler) (req : NamespacedName) : prog reconcile_out :=
  g ← Get KDisconnectedPlatform req;
  match g with
  | Err e => if IsNotFound e then done else fail_with e
  | Ok platform =>
      if negb (IsZero (om_DeletionTimestamp (dp_ObjectMeta platform))) then cleanup platform
      else if negb (containsString (dp_Finalizers platform) platformFinalizer) then
        return_update KDisconnectedPlatform (withPlatformFinalizers platform (fun l => snoc l platformFinalizer))
      else reconcilePlatform r platform
  end.
End Reconciler.
