(* ===== verification/Startup.v ===== *)
(** The entry point ([main.go]): the flags and the images, the watches of each controller
    ([SetupWithManager]), the order in which the manager is set up, and the controllers that are
    registered later, when their kinds appear.  The manager and the API discovery are calls
    with arbitrary answers. *)
From S2P Require Import Prelude GoStrings K8s Json Api Kube Externals Helpers Platform Health.
From S2P Require Import CollectionBuild ImportController PullSecrets Architect Events.

(** ** Flags *)

(** What [main] reads from the command line. *)
Record Flags := mkFlags {
  fl_MetricsAddr : string;
  fl_ProbeAddr : string;
  fl_EnableLeaderElection : bool;
  fl_SecureMetrics : bool;
  fl_EnableHTTP2 : bool;
  fl_MirrorImage : string;
  fl_ArchitectFrontendImage : string;
  fl_ArchitectBackendImage : string;
  fl_ArchitectConsolePluginImage : string;
  fl_SkopeoImage : string;
  fl_UBI9Image : string;
  fl_UBI9MinimalImage : string;
}.
#[export] Instance eta_Flags : Eta Flags := fun r =>
  mkFlags (fl_MetricsAddr r) (fl_ProbeAddr r) (fl_EnableLeaderElection r) (fl_SecureMetrics r)
    (fl_EnableHTTP2 r) (fl_MirrorImage r) (fl_ArchitectFrontendImage r) (fl_ArchitectBackendImage r)
    (fl_ArchitectConsolePluginImage r) (fl_SkopeoImage r) (fl_UBI9Image r) (fl_UBI9MinimalImage r).

(** [os.Getenv] gives the empty string for a variable that is not set. *)
Definition envOrDefault (getenv : string -> string) (key fallback : string) : string :=
  if getenv key != "" then getenv key else fallback.

Definition defaultFlags (getenv : string -> string) : Flags :=
  mkFlags "0" ":8081" false true false
    (envOrDefault getenv "RELATED_IMAGE_OC_MIRROR" "quay.io/mathianasj/oc-mirror:v2")
    (envOrDefault getenv "RELATED_IMAGE_ARCHITECT_FRONTEND"
       "quay.io/mathianasj/openshift-airgap-architect-frontend:latest")
    (envOrDefault getenv "RELATED_IMAGE_ARCHITECT_BACKEND"
       "quay.io/mathianasj/openshift-airgap-architect-backend:latest")
    (envOrDefault getenv "RELATED_IMAGE_ARCHITECT_CONSOLE_PLUGIN"
       "quay.io/mathianasj/openshift-airgap-architect-console-plugin:latest")
    (envOrDefault getenv "RELATED_IMAGE_SKOPEO" "quay.io/skopeo/stable:v1.22.2-immutable")
    (envOrDefault getenv "RELATED_IMAGE_UBI9" "registry.access.redhat.com/ubi9/ubi:latest")
    (envOrDefault getenv "RELATED_IMAGE_UBI9_MINIMAL" "registry.access.redhat.com/ubi9/ubi-minimal:latest").

(** A flag that the command line sets; of two settings the last counts. *)
Inductive setting :=
| metrics_bind_address (s : string) | health_probe_bind_address (s : string)
| leader_elect (b : bool) | metrics_secure (b : bool) | enable_http2 (b : bool)
| mirror_image (s : string) | architect_frontend_image (s : string) | architect_backend_image (s : string)
| architect_console_plugin_image (s : string) | skopeo_image (s : string) | ubi9_image (s : string)
| ubi9_minimal_image (s : string).
Definition setFlag (f : Flags) (s : setting) : Flags :=
  match s with
  | metrics_bind_address s => f <| fl_MetricsAddr := s |>
  | health_probe_bind_address s => f <| fl_ProbeAddr := s |>
  | leader_elect b => f <| fl_EnableLeaderElection := b |>
  | metrics_secure b => f <| fl_SecureMetrics := b |>
  | enable_http2 b => f <| fl_EnableHTTP2 := b |>
  | mirror_image s => f <| fl_MirrorImage := s |>
  | architect_frontend_image s => f <| fl_ArchitectFrontendImage := s |>
  | architect_backend_image s => f <| fl_ArchitectBackendImage := s |>
  | architect_console_plugin_image s => f <| fl_ArchitectConsolePluginImage := s |>
  | skopeo_image s => f <| fl_SkopeoImage := s |>
  | ubi9_image s => f <| fl_UBI9Image := s |>
  | ubi9_minimal_image s => f <| fl_UBI9MinimalImage := s |>
  end.
Definition parseFlags (getenv : string -> string) (line : list setting) : Flags :=
  fold_left setFlag line (defaultFlags getenv).

(** ** The options of the manager *)

(** The configuration of TLS is what a server offers to speak, [NextProtos]. *)
Definition TLSOpt : Type := list string -> list string.
Definition disableHTTP2 : TLSOpt := fun _ => ["http/1.1"].
Definition tlsOpts (f : Flags) : list TLSOpt := if negb (fl_EnableHTTP2 f) then [disableHTTP2] else [].

Record MetricsOptions := mkMetricsOptions {
  mto_BindAddress : string;
  mto_SecureServing : bool;
  mto_Filtered : bool;              (* WithAuthenticationAndAuthorization *)
  mto_TLSOpts : list TLSOpt;
}.
Record ManagerOptions := mkManagerOptions {
  mgo_Metrics : MetricsOptions;
  mgo_WebhookTLSOpts : list TLSOpt;
  mgo_HealthProbeBindAddress : string;
  mgo_LeaderElection : bool;
  mgo_LeaderElectionID : string;
  mgo_TaskRunNamespaces : option (list string);   (* those whose TaskRuns are cached *)
}.
Definition metricsServerOptions (f : Flags) : MetricsOptions :=
  mkMetricsOptions (fl_MetricsAddr f) (fl_SecureMetrics f) (fl_SecureMetrics f) (tlsOpts f).
Definition managerOptions (f : Flags) (tektonAvailable : bool) : ManagerOptions :=
  mkManagerOptions (metricsServerOptions f) (tlsOpts f) (fl_ProbeAddr f) (fl_EnableLeaderElection f)
    "5ac9daef.mirror.mathianasj.github.com"
    (if tektonAvailable then Some ["mirror-operator-system"] else None).

(** ** The controllers *)

(** The handlers of events, and what a controller is told of: its own kind, the kinds of objects
    it owns, and kinds whose events a handler turns into requests. *)
Inductive handler := SecretHandler | CollectionHandler | NodeHandler | TaskRunHandler.
Record Builder := mkBuilder {
  bl_For : kind;
  bl_Owns : list kind;
  bl_Watches : list (kind * handler);
}.

Definition taskRunGVK : GroupVersionKind := mkGVK "tekton.dev" "v1" "TaskRun".
Definition platformBuilder (tektonAvailable : bool) : Builder :=
  mkBuilder KDisconnectedPlatform
    ([KUnstructured deploymentGVK; KUnstructured serviceGVK; KUnstructured routeGVK] ++
     (if tektonAvailable then [KUnstructured pipelineGVK] else []))
    ((if tektonAvailable then [(KUnstructured taskRunGVK, TaskRunHandler)] else []) ++
     [(KSecret, SecretHandler); (KCollectionPipeline, CollectionHandler); (KNode, NodeHandler)]).
Definition collectionBuilder : Builder := mkBuilder KCollectionPipeline [KPipelineRun; KJob] [].
Definition importBuilder : Builder := mkBuilder KMirrorImport [KPipelineRun] [].
Definition bootstrapBuilder : Builder := mkBuilder KClusterBootstrap [] [].
Definition healthBuilder : Builder := mkBuilder KSecuresign [] [].

Inductive controller :=
| PlatformController (r : DisconnectedPlatformReconciler)
| CollectionController (r : CollectionPipelineReconciler)
| MirrorImportController (r : MirrorImportReconciler)
| BootstrapController
| HealthController.
Definition builderOf (c : controller) : Builder :=
  match c with
  | PlatformController r => platformBuilder (dpr_TektonAvailable r)
  | CollectionController _ => collectionBuilder
  | MirrorImportController _ => importBuilder
  | BootstrapController => bootstrapBuilder
  | HealthController => healthBuilder
  end.
(** The name it is logged with. *)
Definition controllerName (c : controller) : string :=
  match c with
  | PlatformController _ => "DisconnectedPlatform"
  | CollectionController _ => "CollectionPipeline"
  | MirrorImportController _ => "MirrorImport"
  | BootstrapController => "ClusterBootstrap"
  | HealthController => "RHTASHealthCheck"
  end.

Definition platformReconciler (f : Flags) (tektonAvailable : bool) : DisconnectedPlatformReconciler :=
  mkPlatformReconciler (fl_MirrorImage f) (fl_ArchitectFrontendImage f) (fl_ArchitectBackendImage f)
    (fl_ArchitectConsolePluginImage f) (fl_SkopeoImage f) (fl_UBI9Image f) (fl_UBI9MinimalImage f)
    true true tektonAvailable.
Definition collectionController (f : Flags) : controller :=
  CollectionController (mkCollectionReconciler (fl_MirrorImage f)).
Definition importController (f : Flags) : controller :=
  MirrorImportController (mkImportReconciler (fl_MirrorImage f)).

(** ** Setting up the manager *)

(** A group of kinds that is waited for, and the controller that needs it
    ([registerWhenCRDAvailable]). *)
Record watcher := mkWatcher { wt_Group : string; wt_Controller : controller }.

Inductive setupCall :=
| LoadConfig                              (* ctrl.GetConfigOrDie *)
| NewForConfig                            (* kubernetes.NewForConfig *)
| Discover (groupVersion : string)        (* ServerResourcesForGroupVersion *)
| NewManager (o : ManagerOptions)
| SetupWithManager (c : controller)
| AddRunnable (w : watcher)
| AddHealthzCheck (name : string)
| AddReadyzCheck (name : string)
| Start.

(** Every call fails or succeeds; the process ends with a status. *)
Inductive startup :=
| Exited (status : Z)
| Do (c : setupCall) (k : option error -> startup).

(** A failure is logged and ends the process. *)
Definition orExit (c : setupCall) (next : startup) : startup :=
  Do c (fun e => match e with Some _ => Exited 1 | None => next end).
(** [isAPIGroupAvailable]. *)
Definition ifAvailable (groupVersion : string) (k : bool -> startup) : startup :=
  Do (Discover groupVersion) (fun e => k (match e with Some _ => false | None => true end)).

Definition tektonGroup : string := "tekton.dev/v1".
Definition securesignGroup : string := "rhtas.redhat.com/v1alpha1".

(** A controller whose kinds are there is registered; for another a watcher is. *)
Definition registerWhen (available : bool) (w : watcher) (next : startup) : startup :=
  if available then orExit (SetupWithManager (wt_Controller w)) next else orExit (AddRunnable w) next.

Definition main (f : Flags) : startup :=
  orExit LoadConfig
 (orExit NewForConfig
 (ifAvailable tektonGroup (fun tektonAvailable =>
  ifAvailable securesignGroup (fun securesignAvailable =>
  orExit (NewManager (managerOptions f tektonAvailable))
 (orExit (SetupWithManager (PlatformController (platformReconciler f tektonAvailable)))
 (registerWhen tektonAvailable (mkWatcher tektonGroup (collectionController f))
 (registerWhen tektonAvailable (mkWatcher tektonGroup (importController f))
 (orExit (SetupWithManager BootstrapController)
 (registerWhen securesignAvailable (mkWatcher securesignGroup HealthController)
 (orExit (AddHealthzCheck "healthz")
 (orExit (AddReadyzCheck "readyz")
 (orExit Start (Exited 0))))))))))))).

(** ** The manager that runs *)

(** One turn of the loop of a watcher: the process is stopped, or its ticker fires; then the
    discovery answers, and the registration where it is reached. *)
Inductive turn :=
| Stopped
| Ticked (available : bool) (setup : option error).
Inductive verdict := Again | Over (registered : bool).
Definition watcherTurn (t : turn) : verdict :=
  match t with
  | Stopped => Over false
  | Ticked false _ => Again
  | Ticked true (Some _) => Again
  | Ticked true None => Over true
  end.

(** The controllers that are registered, the watchers that still wait, and the groups that were
    found. *)
Record manager := mkManager {
  mg_Registered : list controller;
  mg_Waiting : list watcher;
  mg_Found : list string;
}.
Definition foundBy (w : watcher) (t : turn) : list string :=
  match t with Ticked true _ => [wt_Group w] | _ => [] end.
Inductive managerStep (t : turn) : manager -> manager -> Prop :=
| step_again reg pre w post found :
    watcherTurn t = Again ->
    managerStep t (mkManager reg (pre ++ w :: post) found) (mkManager reg (pre ++ w :: post) (found ++ foundBy w t))
| step_over reg pre w post found registered :
    watcherTurn t = Over registered ->
    managerStep t (mkManager reg (pre ++ w :: post) found)
      (mkManager (if registered : bool then reg ++ [wt_Controller w] else reg) (pre ++ post)
                 (found ++ foundBy w t)).

(** ** Handling an event *)

Section Handling.
Context {X : Externals}.

(** The requests a handler adds to the queue; the one of TaskRuns adds none. *)
Definition handleEvent (h : handler) (e : watchEvent) : prog (list NamespacedName) :=
  match h with
  | SecretHandler => secretEventHandler e
  | CollectionHandler => collectionPipelineEventHandler e
  | NodeHandler => nodeEventHandler e
  | TaskRunHandler => _ ← taskRunEventHandler e; mret []
  end.
(** The handlers of a controller for the events of a kind. *)
Definition handlersFor (b : Builder) (K : kind) : list handler :=
  map snd (filter (fun kh => bool_decide (fst kh = K)) (bl_Watches b)).
End Handling.
