(* ===== verification/ArtifactProps.v ===== *)
(** What the update service and the artifacts of collections are kept as. *)
From S2P Require Import Prelude GoStrings K8s Json Api Kube Externals Helpers Nested Samples Instances Ensure.
From S2P Require Import Operators Platform CABundles PullSecrets Quay ConnectedQuay UpdateService.

(** ** The update service *)

Section Service.
Context {X : Externals} `{!ExternalsLaws X}.

Definition specAsWanted (current desired : fields) : bool := negb (specDiffers current desired).

(** The object with the images of [base], as an instance of the contract of Ensure. *)
Definition updateSpec (what base : string) : ensure_spec (KUnstructured updateServiceGVK) :=
  let desired := updateServiceSpec base in
  @mkEnsure (KUnstructured updateServiceGVK) updateServiceKey
    (fun o => specAsWanted (nested_map (u_Object o) ["spec"]) desired)
    (fun o => o <| u_Object := set_field ["spec"] (JMap desired) (u_Object o) |>)
    (unstructured_ updateServiceGVK osusNamespace "update-service-oc-mirror" [("spec", JMap desired)])
    (Wrapf ("failed to update " +:+ what)) (Wrapf ("failed to create " +:+ what)).

Lemma updateService_same base : specAsWanted (updateServiceSpec base) (updateServiceSpec base) = true.
Proof. unfold specAsWanted, specDiffers, updateServiceSpec. cbn. by rewrite !str_eqb_refl. Qed.

#[export] Instance update_converges what base : Converges (updateSpec what base).
Proof.
  constructor; try done.
  - intros o. cbn [es_ok es_fix updateSpec]. unfold nested_map. cbn [u_Object set].
    rewrite (NestedMap_at _ _ (updateServiceSpec base)); [by rewrite updateService_same|by apply set_field_at|done].
  - cbn [es_ok es_new updateSpec unstructured_ u_Object]. unfold nested_map.
    rewrite (NestedMap_at _ _ (updateServiceSpec base)); [by rewrite updateService_same|done|done].
Qed.

Lemma keepUpdateService_refines what base :
  refines (updateSpec what base) (keepUpdateService what (updateServiceSpec base)).
Proof.
  unfold keepUpdateService. set (desired := updateServiceSpec base).
  assert (Hs : forall o, SetNestedField o (JMap desired) ["spec"] = (set_field ["spec"] (JMap desired) o, None))
    by (intros; by apply set_field_ok).
  refine_go; try (match goal with H : SetNestedField _ _ _ = _ |- _ => rewrite Hs in H; simplify_eq end).
  all: try match goal with H : specDiffers ?c ?d = _ |- _ =>
             apply (f_equal negb) in H; cbn [negb] in H; change (negb (specDiffers c d)) with (specAsWanted c d) in H end.
  all: refine_leaf (updateSpec what base).
Qed.
End Service.
