(* ===== verification/AirgappedProps.v ===== *)
(** Properties of the airgapped platform: what waits for the hub, when the platform comes
    back, the mirrors the assisted installer gets, what its nodes require of signatures,
    and what is put back when it is not as wanted. *)
From S2P Require Import Prelude GoStrings K8s Json Api Kube Externals Nested Helpers Operators Platform.
From S2P Require Import Ensure Samples Instances OperatorProps PullSecrets Pipelines Quay Airgapped HostInventory UpdateService ArtifactProps.

(** ** The hub comes first *)

(** What is assumed of the server: an object that is read has the key it was read with. *)
Definition answers (e : event) : Prop :=
  match e with
  | Ev (CGet K k) (Ok o) => key_of (o : obj K) = k
  | _ => True
  end.

(** A call that writes in the namespace of ACM only, or creates that namespace. *)
Definition in_acm (c : call) : Prop :=
  match c with
  | CCreate K o | CUpdate K o => om_Namespace (meta o) = acmNamespace \/ key_of o = mkNN "" acmNamespace
  | CStatusUpdate _ _ | CDelete _ _ | CPostForm _ _ | CHttp _ | CExecInPod _ _ _ _ _ => False
  | _ => True
  end.

Definition acm_only (tr : trace) : Prop := Forall answers tr -> calls in_acm tr.

#[export] Instance acm_only_prop : TraceProp acm_only.
Proof.
  split; [by intros _; constructor|]. intros t1 t2 H1 H2 H. apply Forall_app in H as [? ?].
  apply (tp_app (S := calls in_acm)); auto.
Qed.

Section ACM.
Context {X : Externals}.

Lemma acm_only_in c r : in_acm c -> acm_only [Ev c r].
Proof. intros H _. by repeat constructor. Qed.
#[local] Hint Extern 1 (acm_only [_]) => (apply acm_only_in; cbn; auto; fail) : always.
Ltac acm_go := always_go; try (apply acm_only_in; cbn; auto; fail).

Lemma acm_namespace : always acm_only (ensureNamespace acmNamespace).
Proof. unfold ensureNamespace. acm_go. Qed.
#[local] Hint Resolve acm_namespace : always.
Lemma acm_group op : od_ns op = acmNamespace -> always acm_only (ensureOperatorGroup op).
Proof. intros H. unfold ensureOperatorGroup. acm_go. Qed.

(** The leaves of a read followed by a write of the object that was read. *)
Ltac acm_leaf :=
  let HR := fresh "HR" in
  intros HR; repeat constructor; cbn; apply Forall_inv in HR; cbn in HR;
  unfold key_of, key_of_meta in HR; by injection HR as ->.

Lemma acm_bundle : always acm_only (ensureClusterCABundleInNamespace acmNamespace).
Proof. unfold ensureClusterCABundleInNamespace. cbv zeta. unfold always. wp_go; acm_leaf. Qed.
#[local] Hint Resolve acm_namespace acm_group acm_bundle : always.

Lemma acm_pull_secret : always acm_only ensureACMPullSecret.
Proof.
  unfold ensureACMPullSecret. apply always_bind; [exact _|acm_go|]. intros [source|e]; [|acm_go].
  unfold always. wp_go; acm_leaf.
Qed.

Lemma acm_ca_bundle sub :
  om_Namespace (u_Meta sub) = acmNamespace -> always acm_only (ensureSubscriptionCABundle sub).
Proof. intros H. unfold ensureSubscriptionCABundle, getClusterCABundleData. rewrite H. acm_go. Qed.

(** A read whose object is handed on. *)
Lemma acm_get {A} K k (f : result (obj K) -> prog A) :
  (forall o : obj K, key_of o = k -> always acm_only (f (Ok o))) ->
  (forall e, always acm_only (f (Err e))) -> always acm_only (Get K k ≫= f).
Proof.
  intros Ho He r. apply wp_exec. intros tr o Hx HR. apply Forall_cons in HR as [Hk HR].
  constructor; [done|]. destruct r as [x|e].
  - exact (always_exec _ _ _ _ (Ho x Hk) Hx HR).
  - exact (always_exec _ _ _ _ (He e) Hx HR).
Qed.

Lemma acm_subscription op cfg : od_ns op = acmNamespace -> always acm_only (ensureSubscription op cfg).
Proof.
  intros H. unfold ensureSubscription, getClusterProxy, getClusterCABundleData, orFail, createSubscription.
  apply acm_get; [|rewrite H; intros e; acm_go].
  intros sub Hk. apply always_bind; [exact _| |intros ?; acm_go]. apply acm_ca_bundle.
  rewrite <- H. exact (f_equal nn_Namespace Hk).
Qed.
#[local] Hint Resolve acm_pull_secret acm_subscription : always.

Lemma acm_hub platform ac acm : always acm_only (ensureMultiClusterHub platform ac acm).
Proof. unfold ensureMultiClusterHub. acm_go. Qed.
#[local] Hint Resolve acm_hub : always.

Lemma acm_await platform ac acm : always acm_only (awaitMultiClusterHub platform ac acm).
Proof. unfold awaitMultiClusterHub, mchRunning. acm_go. Qed.
#[local] Hint Resolve acm_await : always.

Lemma acm_reconcile platform ac acm : always acm_only (reconcileAirgappedACM platform ac acm).
Proof. unfold reconcileAirgappedACM, discoverPackageInfo, csvStatus, orFail. acm_go. Qed.

(** ACM counts as ready after the hub was read and is running. *)
Definition hub_running (e : event) : Prop :=
  exists mch : Unstructured,
    e = Ev (CGet (KUnstructured mchGVK) mchKey) (Ok mch) /\
    nested_string (u_Object mch) ["status"; "phase"] = "Running".

Lemma await_ready platform ac acm tr platform' err :
  exec (awaitMultiClusterHub platform ac acm) tr (Done (platform', (true, err))) ->
  exists t e, tr = (snoc t e) /\ hub_running e.
Proof.
  unfold awaitMultiClusterHub. intros H.
  apply exec_bind in H as [(m & _ & [=])|(u & t1 & t2 & _ & H & ->)].
  apply exec_bind in H as [(m & _ & [=])|([p1 [e|]] & t3 & t4 & _ & H & ->)].
  { by apply exec_inv in H as [_ [=]]. }
  unfold mchRunning in H. apply exec_bind in H as [(m & _ & [=])|(ready & t5 & t6 & H5 & H6 & ->)].
  apply exec_inv in H6 as [-> [= _ Hready _]]. subst ready. apply exec_call_bind in H5 as (g & t & -> & H).
  apply exec_inv in H as [-> Hr]. injection Hr as Hr. destruct g as [mch|e]; [|done].
  exists (t1 ++ t3), (Ev (CGet (KUnstructured mchGVK) mchKey) (Ok mch)). split.
  - rewrite app_nil_r, <- !app_assoc. done.
  - exists mch. split; [done|]. by apply String.eqb_eq.
Qed.

Lemma acm_ready platform ac acm tr platform' err :
  exec (reconcileAirgappedACM platform ac acm) tr (Done (platform', (true, err))) ->
  exists t e, tr = (snoc t e) /\ hub_running e.
Proof.
  unfold reconcileAirgappedACM. intros H.
  apply exec_bind in H as [(m & _ & [=])|([[[c n] ch]|e] & t1 & t2 & _ & H & ->)];
    [|by apply exec_inv in H as [_ [=]]].
  apply exec_bind in H as [(m & _ & [=])|([e|] & t3 & t4 & _ & H & ->)].
  { by apply exec_inv in H as [_ [=]]. }
  apply exec_bind in H as [(m & _ & [=])|(phase & t5 & t6 & _ & H & ->)].
  cbv zeta in H. destruct (phase != "Succeeded"); [by apply exec_inv in H as [_ [=]]|].
  apply await_ready in H as (t & e & -> & He). exists (t1 ++ t3 ++ t5 ++ t), e. split; [|done].
  rewrite <- !app_assoc. done.
Qed.

#[local] Hint Resolve returns_namespace returns_group returns_subscription : always.
Lemma returns_await platform ac acm : returns (awaitMultiClusterHub platform ac acm).
Proof. unfold awaitMultiClusterHub, ensureACMPullSecret, ensureMultiClusterHub, mchRunning. returns_go. Qed.
#[local] Hint Resolve returns_await : always.
Lemma returns_acm platform ac acm : returns (reconcileAirgappedACM platform ac acm).
Proof. unfold reconcileAirgappedACM, discoverPackageInfo, csvStatus. returns_go. Qed.

(** C24: When ACM is enabled nothing else comes before its hub.  Until a read finds the hub
    running, every write is in the namespace of ACM (or creates it), nothing is deleted and no
    command is run; and a reconcile that does not find it running ends there, without an error,
    and asks to be called again. *)
Theorem airgapped_waits_for_hub (r : DisconnectedPlatformReconciler) (platform : DisconnectedPlatform)
    (ac : AirgappedConfig) (acm : AirgappedACMConfig) tr o
    (Hac : dps_Airgapped (dp_Spec platform) = Some ac)
    (Hacm : ac_ACM ac = Some acm) (Hon : acm_Enabled acm = true)
    (He : exec (reconcileAirgapped r platform) tr o) (HR : Forall answers tr) :
  (calls in_acm tr /\ exists platform', o = Done (platform', (true, None))) \/
  (exists t1 e t2, tr = t1 ++ e :: t2 /\ calls in_acm t1 /\ hub_running e).
Proof.
  unfold reconcileAirgapped, withAirgapped, airgappedACM in He. rewrite Hac, Hacm, Hon in He.
  apply exec_assoc in He.
  apply exec_bind_returns in He as ([p1 [ready err]] & t1 & t2 & -> & H1 & H2); [|apply returns_acm].
  apply Forall_app in HR as [HR1 _]. pose proof (always_exec _ _ _ _ (acm_reconcile _ _ _) H1 HR1) as Hin.
  destruct ready; cbn [negb] in H2.
  - right. destruct (acm_ready _ _ _ _ _ _ H1) as (t & e & -> & He). exists t, e, t2.
    split_and!; [by rewrite <- app_assoc|by apply Forall_app in Hin as [Hin _]|done].
  - left. apply exec_bind in H2 as [(m & H & _)|(a & t3 & t4 & H & H2 & ->)];
      apply exec_inv in H as [-> [=]]. subst a. apply exec_inv in H2 as [-> ->].
    rewrite app_nil_r. eauto.
Qed.
End ACM.

(** ** When the platform comes back *)

Section Requeue.
Context {X : Externals}.

(** A step of the reconcile that ran, and returned no error. *)
Definition went {A} (p : prog A) (a : A) (tr : trace) : Prop :=
  exists t1 t2 t3, tr = t1 ++ t2 ++ t3 /\ exec p t2 (Done a).
Abbreviation succeeded p tr := (went p None tr).

Lemma went_here {A} (p : prog A) a t1 t2 : exec p t1 (Done a) -> went p a (t1 ++ t2).
Proof. intros H. exists [], t1, t2. done. Qed.
Lemma went_later {A} (p : prog A) a t1 t2 : went p a t2 -> went p a (t1 ++ t2).
Proof. intros (x & y & z & -> & H). exists (t1 ++ x), y, z. by rewrite <- app_assoc. Qed.
Lemma went_before {A} (p : prog A) a t1 t2 : went p a t1 -> went p a (t1 ++ t2).
Proof. intros (x & y & z & -> & H). exists x, y, (z ++ t2). by rewrite <- !app_assoc. Qed.
#[local] Hint Resolve went_here went_later went_before : core.

(** A step whose error is turned into the request to come back. *)
Lemma exec_orRequeue {A} p n (k : bool -> prog A) tr x :
  exec (orRequeue p n k) tr (Done x) ->
  exists r t1 t2, tr = t1 ++ t2 /\ exec p t1 (Done r) /\
    exec (k (n || bool_decide (is_Some r))) t2 (Done x).
Proof.
  unfold orRequeue. intros [(m & _ & [=])|(r & t1 & t2 & H1 & H2 & ->)]%exec_bind. eauto 10.
Qed.

Lemma requeue_false n (r : option error) : n || bool_decide (is_Some r) = false -> n = false /\ r = None.
Proof. intros [-> H]%orb_false_iff. split; [done|]. destruct r; [done|done]. Qed.

(** Takes the steps of a chain of [orRequeue] apart. *)
Ltac requeue_step H :=
  let r := fresh "r" in let t1 := fresh "t" in let t2 := fresh "t" in let Hr := fresh "Hr" in
  apply exec_orRequeue in H as (r & t1 & t2 & -> & Hr & H); cbv beta in H.
Ltac requeue_flags H :=
  repeat lazymatch type of H with
  | _ || bool_decide (is_Some _) = false =>
      let E := fresh "E" in apply requeue_false in H as [H E]; subst
  end.

Lemma inventory_steps platform n tr platform' :
  exec (reconcileHostInventory platform n) tr (Done (platform', false)) ->
  n = false /\ platform' = addComponent inventoryComponent platform /\
  succeeded (ensureAssistedInstallerMirrorConfig platform) tr /\
  succeeded (reconcileRHCOSServer platform) tr /\
  succeeded (ensureAgentServiceConfig platform rhcosServerURL) tr /\
  succeeded (ensureClusterImageSets platform) tr /\
  succeeded (ensureInfraEnv platform) tr /\ succeeded (ensureACMCredential platform) tr.
Proof.
  unfold reconcileHostInventory. intros H. do 6 requeue_step H.
  apply exec_inv in H as [-> [= -> Hn]]. symmetry in Hn. requeue_flags Hn.
  split_and!; auto 10.
Qed.

Lemma components_steps r platform ac n tr platform' :
  exec (airgappedComponents r platform ac n) tr (Done (platform', false)) ->
  n = false /\
  (ac_MirrorRegistryConfig ac <> None -> succeeded (reconcileMirrorRegistry platform) tr) /\
  went (reconcileAirgappedQuay platform) (platform', None) tr /\
  succeeded (ensureAirgappedRegistryCredentials r platform') tr /\
  (ac_ImportPath ac <> "" -> succeeded (reconcileImportScanner platform') tr) /\
  succeeded (ensureAirgappedUpdateService platform') tr /\
  (dpr_TektonAvailable r = true -> succeeded (reconcileImportPipelineTemplate r platform') tr).
Proof.
  unfold airgappedComponents. intros H. requeue_step H.
  apply exec_bind in H as [(m & _ & [=])|([p1 e1] & t3 & t4 & Hq & H & ->)]. cbn [fst snd] in H.
  do 4 requeue_step H.
  apply exec_inv in H as [-> [= -> Hn]]. symmetry in Hn. requeue_flags Hn.
  split_and!; auto 10.
  - intros Hm. destruct (ac_MirrorRegistryConfig ac); [auto|done].
  - intros Hi. destruct (ac_ImportPath ac == "") eqn:E; [by apply String.eqb_eq in E|cbn in *; auto 10].
  - intros Ht. rewrite Ht in *. auto 10.
Qed.

(** The steps only add to the status of the platform. *)
Definition same_spec (platform platform' : DisconnectedPlatform) : Prop :=
  dp_Spec platform' = dp_Spec platform /\ dp_ObjectMeta platform' = dp_ObjectMeta platform.

Lemma hub_same_spec platform ac acm tr platform' err :
  exec (ensureMultiClusterHub platform ac acm) tr (Done (platform', err)) -> same_spec platform platform'.
Proof.
  unfold ensureMultiClusterHub. intros H. apply exec_call_bind in H as (g & t & -> & H).
  destruct g as [x|e]; [by apply exec_inv in H as [_ [= -> _]]|].
  destruct (negb (IsNotFound e)); [by apply exec_inv in H as [_ [= -> _]]|].
  apply exec_call_bind in H as (c & t' & -> & H). by destruct c; apply exec_inv in H as [_ [= -> _]].
Qed.

Lemma acm_same_spec platform ac acm tr platform' x :
  exec (reconcileAirgappedACM platform ac acm) tr (Done (platform', x)) -> same_spec platform platform'.
Proof.
  unfold reconcileAirgappedACM. intros H.
  apply exec_bind in H as [(m & _ & [=])|([[[c n] ch]|e] & t1 & t2 & _ & H & ->)];
    [|by apply exec_inv in H as [_ [= -> _]]].
  apply exec_bind in H as [(m & _ & [=])|([e|] & t3 & t4 & _ & H & ->)].
  { by apply exec_inv in H as [_ [= -> _]]. }
  apply exec_bind in H as [(m & _ & [=])|(phase & t5 & t6 & _ & H & ->)].
  cbv zeta in H. destruct (phase != "Succeeded"); [by apply exec_inv in H as [_ [= -> _]]|].
  unfold awaitMultiClusterHub in H.
  apply exec_bind in H as [(m & _ & [=])|(u & t7 & t8 & _ & H & ->)].
  apply exec_bind in H as [(m & _ & [=])|([p1 [e|]] & t9 & t10 & Hh & H & ->)];
    apply hub_same_spec in Hh as Hs.
  { by apply exec_inv in H as [_ [= -> _]]. }
  apply exec_bind in H as [(m & _ & [=])|(ready & t11 & t12 & _ & H & ->)].
  by apply exec_inv in H as [_ [= -> _]].
Qed.

(** ACM, when it is enabled, is done: its hub runs, and what depends on it succeeded. *)
Definition acm_done (platform : DisconnectedPlatform) (ac : AirgappedConfig) (tr : trace) : Prop :=
  (exists e, In e tr /\ hub_running e) /\ succeeded ensureProvisioningConfiguration tr /\
  (enabledInventory ac <> None ->
   exists p, same_spec platform p /\
     succeeded (ensureAssistedInstallerMirrorConfig p) tr /\ succeeded (reconcileRHCOSServer p) tr /\
     succeeded (ensureAgentServiceConfig p rhcosServerURL) tr /\ succeeded (ensureClusterImageSets p) tr /\
     succeeded (ensureInfraEnv p) tr /\ succeeded (ensureACMCredential p) tr).

Lemma acm_steps platform ac tr platform' proceed :
  exec (airgappedACM platform ac) tr (Done (platform', proceed, false)) ->
  proceed = true /\ same_spec platform platform' /\
  (forall acm, ac_ACM ac = Some acm -> acm_Enabled acm = true -> acm_done platform ac tr).
Proof.
  unfold airgappedACM. intros H.
  destruct (ac_ACM ac) as [acm|] eqn:Ea; [|by apply exec_inv in H as [_ [= -> ->]]].
  destruct (acm_Enabled acm) eqn:Eon; [|apply exec_inv in H as [_ [= -> ->]];
    split_and!; [done|done|intros ? [= <-]; congruence]].
  apply exec_bind in H as [(m & _ & [=])|([p1 [ready err]] & t1 & t2 & Ha & H & ->)].
  apply acm_same_spec in Ha as Hs. destruct ready; cbn [negb] in H; [|by apply exec_inv in H as [_ [=]]].
  apply acm_ready in Ha as (t & e & -> & He).
  assert (Hrun : forall rest, exists e', In e' ((snoc t e) ++ rest) /\ hub_running e').
  { intros rest. exists e. split; [|done]. rewrite <- app_assoc. apply in_or_app. right. by left. }
  requeue_step H. destruct (enabledInventory ac) as [hi|] eqn:Ei.
  - apply exec_bind in H as [(m & _ & [=])|([p2 n2] & t3 & t4 & Hi & H & ->)].
    apply exec_inv in H as [-> [= -> -> <-]]. apply inventory_steps in Hi as (Hn & -> & Hi).
    requeue_flags Hn. split_and!; [done|done|]. intros acm' _ _. unfold acm_done. split_and!; [done|auto 10|].
    intros _. exists p1. destruct Hi as (? & ? & ? & ? & ? & ?). split_and!; auto 10.
  - apply exec_inv in H as [-> [= -> -> Hn]]. symmetry in Hn. requeue_flags Hn.
    split_and!; [done|done|]. intros acm' _ _. unfold acm_done. split_and!; [done|auto 10|congruence].
Qed.

(** C25: A reconcile of an airgapped platform never fails: every error of its steps becomes the
    request to be called again.  And no error is lost: a reconcile that does not ask to be
    called again ran every step that the platform configures, and each returned without an
    error, the hub of ACM having been found running. *)
Theorem airgapped_requeues (r : DisconnectedPlatformReconciler) (platform platform' : DisconnectedPlatform)
    (ac : AirgappedConfig) tr n err
    (Hac : dps_Airgapped (dp_Spec platform) = Some ac)
    (He : exec (reconcileAirgapped r platform) tr (Done (platform', (n, err)))) :
  err = None /\
  (n = false ->
   (forall acm, ac_ACM ac = Some acm -> acm_Enabled acm = true -> acm_done platform ac tr) /\
   exists p, same_spec platform p /\
     (ac_MirrorRegistryConfig ac <> None -> succeeded (reconcileMirrorRegistry p) tr) /\
     went (reconcileAirgappedQuay p) (platform', None) tr /\
     succeeded (ensureAirgappedRegistryCredentials r platform') tr /\
     (ac_ImportPath ac <> "" -> succeeded (reconcileImportScanner platform') tr) /\
     succeeded (ensureAirgappedUpdateService platform') tr /\
     (dpr_TektonAvailable r = true -> succeeded (reconcileImportPipelineTemplate r platform') tr)).
Proof.
  unfold reconcileAirgapped, withAirgapped in He. rewrite Hac in He.
  apply exec_bind in He as [(m & _ & [=])|([[p1 proceed] n1] & t1 & t2 & Ha & H & ->)].
  destruct proceed; cbn [negb] in H.
  - apply exec_bind in H as [(m & _ & [=])|([p2 n2] & t3 & t4 & Hc & H & ->)].
    apply exec_inv in H as [-> [= -> -> ->]]. split; [done|]. cbn. intros ->.
    apply components_steps in Hc as (-> & ? & ? & ? & ? & ? & ?).
    apply acm_steps in Ha as (_ & Hs & Hacm). split.
    + intros acm Hs1 Hs2. destruct (Hacm acm Hs1 Hs2) as ((e & Hin & Hr) & Hp & Hi). unfold acm_done. split_and!; auto.
      * exists e. split; [apply in_or_app; by left|done].
      * intros Hinv. destruct (Hi Hinv) as (q & ? & ? & ? & ? & ? & ? & ?). exists q. split_and!; auto 10.
    + exists p1. split_and!; auto 10.
  - apply exec_inv in H as [-> [= -> -> ->]]. split; [done|]. intros ->.
    by apply acm_steps in Ha as [[=] _].
Qed.
End Requeue.

(** ** The mirrors of the assisted installer *)

Section Mirrors.
Context {X : Externals}.

(** What the sets declare for sources that can be installed from: in order, the source, its
    mirrors, and whether the set is one of digests. *)
Record declared := mkDeclared { d_source : string; d_mirrors : list string; d_digest : bool }.

Definition declaredBy (digestOnly : bool) (entry : json) : list declared :=
  match as_map entry with
  | None => []
  | Some e =>
      let source := nested_string e ["source"] in
      if (source == "") || negb (isInstallSafe source) then []
      else let '(mirrors, _, _) := NestedStringSlice e ["mirrors"] in [mkDeclared source mirrors digestOnly]
  end.
Definition declaredIn (field : string) (digestOnly : bool) (sets : list Unstructured) : list declared :=
  concat (map (fun set => concat (map (declaredBy digestOnly) (nested_slice (u_Object set) ["spec"; field]))) sets).

Definition addDeclared (seen : list mirrorEntry) (d : declared) : list mirrorEntry :=
  addEntry (d_source d) (d_mirrors d) (d_digest d) seen.

Lemma addMirrorSets_declared field digestOnly sets seen :
  fold_left (addMirrorSet field digestOnly) sets seen =
  fold_left addDeclared (declaredIn field digestOnly sets) seen.
Proof.
  unfold declaredIn. rewrite fold_left_concat, fold_left_map. apply fold_left_same. intros a set.
  unfold addMirrorSet. rewrite fold_left_concat, fold_left_map. apply fold_left_same. intros b entry.
  unfold addMirrorsOf, declaredBy. destruct (as_map entry) as [e|]; [|done].
  destruct (_ || _); [done|]. by destruct (NestedStringSlice e ["mirrors"]) as [[ms ?] ?].
Qed.

(** The entry of a source. *)
Definition entryOf (source : string) (es : list mirrorEntry) : option mirrorEntry :=
  find_first (fun e => me_source e == source) es.

(** What the entry should be: the mirrors of the first declaration of the source, then those
    of the others that are not there; digests only as the first says. *)
Definition merged (source : string) (ds : list declared) : option mirrorEntry :=
  match List.filter (fun d => d_source d == source) ds with
  | [] => None
  | d :: rest =>
      Some (mkMirrorEntry source (fold_left (fun ms d' => fold_left addMirror (d_mirrors d') ms) rest (d_mirrors d))
              (d_digest d))
  end.

Lemma entryOf_addEntry s ms d seen s' :
  entryOf s' (addEntry s ms d seen) =
  if s == s' then Some (match entryOf s seen with
                        | Some e => e <| me_mirrors := fold_left addMirror ms (me_mirrors e) |>
                        | None => mkMirrorEntry s ms d
                        end)
  else entryOf s' seen.
Proof.
  unfold entryOf. induction seen as [|e seen IH]; simpl.
  - by destruct (s == s').
  - destruct (me_source e == s) eqn:E; simpl.
    + apply String.eqb_eq in E. subst s. by destruct (me_source e == s').
    + rewrite IH. destruct (me_source e == s') eqn:E2; [|done].
      apply String.eqb_eq in E2. subst s'. destruct (s == me_source e) eqn:E3; [|done].
      apply String.eqb_eq in E3. subst s. by rewrite str_eqb_refl in E.
Qed.

Lemma entryOf_merged ds s : entryOf s (fold_left addDeclared ds []) = merged s ds.
Proof.
  induction ds as [|d ds IH] using rev_ind; [done|].
  rewrite fold_left_app. simpl. unfold addDeclared at 1. rewrite entryOf_addEntry. unfold merged in *.
  rewrite List.filter_app. simpl. destruct (d_source d == s) eqn:E.
  - apply String.eqb_eq in E. rewrite E, IH.
    destruct (List.filter _ ds) as [|d0 rest]; simpl; [done|]. by rewrite fold_left_app.
  - by rewrite app_nil_r.
Qed.

Lemma sources_addEntry s ms d seen x :
  In x (map me_source (addEntry s ms d seen)) <-> x = s \/ In x (map me_source seen).
Proof.
  induction seen as [|e seen IH]; simpl; [intuition|].
  destruct (me_source e == s) eqn:E; simpl; [apply String.eqb_eq in E; intuition congruence|intuition].
Qed.

Lemma NoDup_addEntry s ms d seen :
  List.NoDup (map me_source seen) -> List.NoDup (map me_source (addEntry s ms d seen)).
Proof.
  induction seen as [|e seen IH]; simpl; [repeat constructor; simpl; tauto|].
  intros H. inversion H; subst. destruct (me_source e == s) eqn:E; simpl; constructor; auto.
  rewrite sources_addEntry. intros [Hs|?]; [by rewrite Hs, str_eqb_refl in E|done].
Qed.

Lemma NoDup_declared ds : List.NoDup (map me_source (fold_left addDeclared ds [])).
Proof.
  induction ds as [|d ds IH] using rev_ind; [constructor|]. rewrite fold_left_app. by apply NoDup_addEntry.
Qed.

Lemma entryOf_In es e : List.NoDup (map me_source es) -> In e es -> entryOf (me_source e) es = Some e.
Proof.
  unfold entryOf. induction es as [|x es IH]; simpl; [done|]. intros H [->|Hin].
  - by rewrite str_eqb_refl.
  - inversion H; subst. destruct (me_source x == me_source e) eqn:E; [|auto].
    apply String.eqb_eq in E. exfalso. rewrite E in *. auto using in_map.
Qed.

Lemma In_addMirror l m x : In x (addMirror l m) <-> x = m \/ In x l.
Proof.
  unfold addMirror. destruct (containsString l m) eqn:E.
  - apply containsString_In in E. intuition congruence.
  - rewrite in_app_iff. simpl. intuition.
Qed.

Lemma In_addMirrors ms l x : In x (fold_left addMirror ms l) <-> In x l \/ In x ms.
Proof.
  revert l; induction ms as [|m ms IH]; intros l; simpl; [tauto|]. rewrite IH, In_addMirror. intuition.
Qed.

Lemma In_allMirrors (rest : list declared) l x :
  In x (fold_left (fun ms d' => fold_left addMirror (d_mirrors d') ms) rest l) <->
  In x l \/ exists d, In d rest /\ In x (d_mirrors d).
Proof.
  revert l; induction rest as [|d rest IH]; intros l; simpl; [split; [tauto|intros [?|(? & [] & _)]; done]|].
  rewrite IH, In_addMirrors. split.
  - intros [[?|?]|(d' & ? & ?)]; eauto 6.
  - intros [?|(d' & [->|?] & ?)]; eauto 6.
Qed.

Lemma filter_source_In s ds d :
  In d (List.filter (fun d => d_source d == s) ds) <-> In d ds /\ d_source d = s.
Proof. rewrite List.filter_In, String.eqb_eq. done. Qed.

Lemma merged_spec s ds e :
  merged s ds = Some e ->
  me_source e = s /\ (forall m, In m (me_mirrors e) <-> exists d, In d ds /\ d_source d = s /\ In m (d_mirrors d)).
Proof.
  unfold merged. destruct (List.filter _ ds) as [|d0 rest] eqn:E; [done|]. intros [= <-]. split; [done|].
  intros m. cbn [me_mirrors]. rewrite In_allMirrors.
  assert (Hf : forall d, In d (d0 :: rest) <-> In d ds /\ d_source d = s).
  { intros d. rewrite <- E. apply filter_source_In. }
  split.
  - intros [?|(d & Hd & ?)].
    + destruct (Hf d0) as [[? ?] _]; [by left|]. eauto.
    + destruct (Hf d) as [[? ?] _]; [by right|]. eauto.
  - intros (d & H1 & H2 & ?). destruct (proj2 (Hf d) (conj H1 H2)) as [->|?]; eauto.
Qed.

Lemma merged_digest s D T e :
  Forall (fun d => d_digest d = true) D -> Forall (fun d => d_digest d = false) T ->
  merged s (D ++ T) = Some e -> (me_digestOnly e = true <-> exists d, In d D /\ d_source d = s).
Proof.
  rewrite !List.Forall_forall. intros HD HT. unfold merged. rewrite List.filter_app.
  destruct (List.filter _ D) as [|d0 rest] eqn:E; simpl.
  - destruct (List.filter _ T) as [|d0 rest] eqn:E2; [done|]. intros [= <-]. cbn.
    assert (In d0 T) as HdT by (apply (filter_source_In s); rewrite E2; by left).
    rewrite (HT _ HdT). split; [done|]. intros (d & ? & ?).
    by assert (In d []) by (rewrite <- E; by apply filter_source_In).
  - intros [= <-]. cbn. assert (In d0 D /\ d_source d0 = s) as [Hd Hs] by (apply filter_source_In; rewrite E; by left).
    rewrite (HD _ Hd). split; [eauto|done].
Qed.

Lemma declaredIn_spec field b sets d :
  In d (declaredIn field b sets) ->
  d_digest d = b /\ d_source d <> "" /\ isInstallSafe (d_source d) = true.
Proof.
  unfold declaredIn. intros (l & Hl & Hd)%in_concat. apply in_map_iff in Hl as (set & <- & _).
  apply in_concat in Hd as (l & Hl & Hd). apply in_map_iff in Hl as (entry & <- & _).
  unfold declaredBy in Hd. destruct (as_map entry) as [e|]; [|done].
  destruct (_ || _) eqn:E; [done|]. apply orb_false_iff in E as [E1 E2].
  destruct (NestedStringSlice e ["mirrors"]) as [[ms ?] ?]. destruct Hd as [<-|[]]. cbn.
  apply negb_false_iff in E2. split_and!; [done|by apply String.eqb_neq|done].
Qed.

(** C26: The mirrors the assisted installer gets.  There is one entry for each source that some
    mirror set of the cluster declares and that can be installed from; its mirrors are those
    declared for the source, in whatever sets, and the one of Quay with the path of the source.
    It is of digests only exactly when a digest set declares the source: a tag set that declares
    it too is then in vain, its mirrors are never asked for a tag. *)
Theorem installer_mirrors (registryHost : string) (idms itms : list Unstructured) :
  let D := declaredIn "imageDigestMirrors" true idms in
  let T := declaredIn "imageTagMirrors" false itms in
  let es := mirrorEntries registryHost idms itms in
  List.NoDup (map me_source es) /\
  (forall s, In s (map me_source es) <-> exists d, In d (D ++ T) /\ d_source d = s) /\
  (forall e, In e es -> me_source e <> "" /\ isInstallSafe (me_source e) = true) /\
  (forall e m, In e es -> (In m (me_mirrors e) <->
     m = quayMirror registryHost (me_source e) \/
     exists d, In d (D ++ T) /\ d_source d = me_source e /\ In m (d_mirrors d))) /\
  (forall e, In e es -> (me_digestOnly e = true <-> exists d, In d D /\ d_source d = me_source e)).
Proof.
  cbv zeta. set (D := declaredIn _ true idms). set (T := declaredIn _ false itms).
  unfold mirrorEntries. cbv zeta. rewrite !addMirrorSets_declared, <- fold_left_app. fold D T.
  set (seen := fold_left addDeclared (D ++ T) []).
  assert (Hsrc : map me_source (map (withQuayMirror registryHost) seen) = map me_source seen).
  { rewrite map_map. apply map_ext. done. }
  assert (Hnd : List.NoDup (map me_source seen)) by apply NoDup_declared.
  assert (Hin : forall e, In e seen -> merged (me_source e) (D ++ T) = Some e).
  { intros e He. rewrite <- entryOf_merged. by apply entryOf_In. }
  assert (Hsafe : forall d, In d (D ++ T) -> d_source d <> "" /\ isInstallSafe (d_source d) = true).
  { intros d [Hd|Hd]%in_app_or; by apply declaredIn_spec in Hd as (_ & ? & ?). }
  assert (Hsources : forall s, In s (map me_source seen) <-> exists d, In d (D ++ T) /\ d_source d = s).
  { intros s. split.
    - intros (e & <- & He)%in_map_iff. pose proof (Hin e He) as Hm. unfold merged in Hm.
      destruct (List.filter _ _) as [|d rest] eqn:E; [done|]. exists d. apply filter_source_In. rewrite E. by left.
    - intros (d & Hd & Hs). pose proof (entryOf_merged (D ++ T) s) as Hm. fold seen in Hm. unfold merged in Hm.
      destruct (List.filter _ _) as [|d0 rest] eqn:E.
      + exfalso. assert (In d []) by (rewrite <- E; by apply filter_source_In). done.
      + apply find_first_Some in Hm as [H1 H2]. apply String.eqb_eq in H2. rewrite <- H2. by apply in_map. }
  split_and!; [by rewrite Hsrc|by rewrite Hsrc| | |].
  - intros e (e0 & <- & He)%in_map_iff. change (me_source (withQuayMirror registryHost e0)) with (me_source e0).
    destruct (proj1 (Hsources (me_source e0)) (in_map _ _ _ He)) as (d & Hd & <-). by apply Hsafe.
  - intros e m (e0 & <- & He)%in_map_iff. cbn -[quayMirror]. rewrite In_addMirror.
    apply Hin, merged_spec in He as [_ He]. by rewrite He.
  - intros e (e0 & <- & He)%in_map_iff. apply Hin in He.
    change (me_source (withQuayMirror registryHost e0)) with (me_source e0).
    change (me_digestOnly (withQuayMirror registryHost e0)) with (me_digestOnly e0). eapply merged_digest; [| |exact He];
      apply List.Forall_forall; intros d Hd; by apply declaredIn_spec in Hd as (? & _).
Qed.
End Mirrors.

(** ** What the nodes require of signatures *)

(** A key stands for a scope: it is the scope, or a mirror of a source that is the scope. *)
Definition mirrors_of (mappings : list mirrorMapping) (scope k : string) : Prop :=
  exists mm, In mm mappings /\ mm_source mm = scope /\ mm_mirror mm = k.
Definition covers (mappings : list mirrorMapping) (scope k : string) : Prop :=
  k = scope \/ mirrors_of mappings scope k.

Lemma mirrors_of_snoc l mm scope k :
  mirrors_of (snoc l mm) scope k <-> mirrors_of l scope k \/ (mm_source mm = scope /\ mm_mirror mm = k).
Proof.
  unfold mirrors_of. setoid_rewrite in_app_iff. simpl. split.
  - intros (m & [?|[<-|[]]] & ? & ?); [left; by exists m|by right].
  - intros [(m & ? & ? & ?)|[? ?]]; [exists m; auto|exists mm; auto].
Qed.
Lemma mirrors_of_nil scope k : ~ mirrors_of [] scope k.
Proof. by intros (? & [] & _). Qed.

(** What a key of the result is bound to: the last entry that was written, or what was there. *)
Definition bound (d : fields) (k : string) (v : json) : Prop := jhas d k = true /\ jget d k = v.

Lemma bound_jset d k v k' v' :
  bound (jset d k v) k' v' <-> (k = k' /\ v = v') \/ (k <> k' /\ bound d k' v').
Proof.
  unfold bound. rewrite jhas_jset. destruct (k == k') eqn:E.
  - apply String.eqb_eq in E. subst. rewrite jget_jset_eq. simpl. intuition congruence.
  - apply String.eqb_neq in E. rewrite jget_jset_ne by done. simpl. intuition congruence.
Qed.

Section Scope.
Context (ofScope : json) (ofMirror : string -> json) (mappings : list mirrorMapping).

Lemma addMirrorsOf_bound l d scope k v :
  bound (fold_left (fun d mm => if mm_source mm == scope then jset d (mm_mirror mm) (ofMirror (mm_mirror mm)) else d) l d) k v ->
  (mirrors_of l scope k /\ v = ofMirror k) \/ (~ mirrors_of l scope k /\ bound d k v).
Proof.
  induction l as [|mm l IH] using rev_ind; [intros H; right; split; [apply mirrors_of_nil|done]|].
  rewrite fold_left_app, mirrors_of_snoc. simpl. destruct (mm_source mm == scope) eqn:E.
  - apply String.eqb_eq in E. intros [[<- <-]|[Hne H]]%bound_jset; [left; auto|].
    apply IH in H as [[? ->]|[Hn ?]]; [auto|]. right. split; [intros [?|[_ ?]]; congruence|done].
  - apply String.eqb_neq in E. intros [[? ->]|[Hn ?]]%IH; [auto|].
    right. split; [intros [?|[? _]]; congruence|done].
Qed.

Lemma addScope_bound d scope k v :
  bound (addScope ofScope ofMirror mappings d scope) k v ->
  (mirrors_of mappings scope k /\ v = ofMirror k) \/ (k = scope /\ v = ofScope) \/
  (~ covers mappings scope k /\ bound d k v).
Proof.
  unfold addScope, covers. intros [?|[Hn [[<- <-]|[Hne ?]]%bound_jset]]%addMirrorsOf_bound; [auto|auto|].
  right. right. split; [|done]. intros [->|?]; done.
Qed.

Lemma addScope_has d scope k :
  jhas (addScope ofScope ofMirror mappings d scope) k = true <-> covers mappings scope k \/ jhas d k = true.
Proof.
  unfold addScope, covers. generalize mappings. intros l. induction l as [|mm l IH] using rev_ind.
  - simpl. rewrite jhas_jset, orb_true_iff, String.eqb_eq. pose proof (mirrors_of_nil scope k). intuition.
  - rewrite fold_left_app, mirrors_of_snoc. simpl. destruct (mm_source mm == scope) eqn:E.
    + rewrite jhas_jset, orb_true_iff, IH, !String.eqb_eq in *. intuition.
    + apply String.eqb_neq in E. rewrite IH. intuition.
Qed.
End Scope.

(** The scopes, each with its policy, in the order in which they are written. *)
Definition scopesOf (policies : list policyEntry) : list (policyEntry * string) :=
  concat (map (fun pol => map (pair pol) (pe_scopes pol)) policies).

Lemma fold_scopes {A} (f : A -> policyEntry -> string -> A) policies d :
  fold_left (fun d pol => fold_left (fun d scope => f d pol scope) (pe_scopes pol) d) policies d =
  fold_left (fun d ps => f d (fst ps) (snd ps)) (scopesOf policies) d.
Proof.
  unfold scopesOf. rewrite fold_left_concat, fold_left_map. apply fold_left_same. intros a pol.
  by rewrite fold_left_map.
Qed.

Lemma scopesOf_In policies pol scope :
  In (pol, scope) (scopesOf policies) <-> In pol policies /\ In scope (pe_scopes pol).
Proof.
  unfold scopesOf. rewrite in_concat. split.
  - intros (l & (p & <- & Hp)%in_map_iff & (s & [= <- <-] & Hs)%in_map_iff). done.
  - intros [Hp Hs]. exists (map (pair pol) (pe_scopes pol)). split; by apply in_map_iff; eauto.
Qed.

Section Scopes.
Context (ofScope : policyEntry -> json) (ofMirror : policyEntry -> string -> string -> json).
Context (mappings : list mirrorMapping).

Definition addPolicy (d : fields) (ps : policyEntry * string) : fields :=
  addScope (ofScope (fst ps)) (fun m => ofMirror (fst ps) m (snd ps)) mappings d (snd ps).

Lemma addPolicies_has l d k :
  jhas (fold_left addPolicy l d) k = true <->
  (exists ps, In ps l /\ covers mappings (snd ps) k) \/ jhas d k = true.
Proof.
  revert d; induction l as [|ps l IH]; intros d; simpl.
  - split; [auto|intros [(? & [] & _)|?]; done].
  - rewrite IH. unfold addPolicy. rewrite addScope_has. split.
    + intros [(q & ? & ?)|[?|?]]; eauto 6.
    + intros [(q & [->|?] & ?)|?]; eauto 6.
Qed.

Lemma addPolicies_bound l d k v :
  bound (fold_left addPolicy l d) k v ->
  (exists ps, In ps l /\ ((mirrors_of mappings (snd ps) k /\ v = ofMirror (fst ps) k (snd ps)) \/
                          (k = snd ps /\ v = ofScope (fst ps)))) \/ bound d k v.
Proof.
  revert d; induction l as [|ps l IH]; intros d; simpl; [auto|].
  intros [(q & ? & ?)|[?|[?|[_ ?]]]%addScope_bound]%IH; eauto 8.
Qed.
End Scopes.

(** C27: What the nodes that are discovered require of signatures.  An image is accepted without
    one unless its place is a scope of an image policy with a key, or a mirror of such a scope;
    there the key is required, in the identity of the scope for a mirror, and the place is made to
    look for signatures beside the images.  A mirror of a source that is only within a scope, and
    is not the scope itself, is not among them: what is pulled through it is not verified. *)
Theorem signature_policy (policies : list policyEntry) (mappings : list mirrorMapping) :
  let d := dockerTransport policies mappings in
  let covered k := exists pol scope, In pol policies /\ In scope (pe_scopes pol) /\ covers mappings scope k in
  jget d "" = insecureAcceptAnything /\
  (forall k, k <> "" -> (jhas d k = true <-> covered k)) /\
  (forall k, jhas (dockerEntries policies mappings) k = true <-> covered k) /\
  (forall k, k <> "" -> covered k -> exists pol scope,
     In pol policies /\ In scope (pe_scopes pol) /\
     ((k = scope /\ jget d k = scopePolicy (pe_keyData pol)) \/
      (mirrors_of mappings scope k /\ jget d k = mirrorPolicy (pe_keyData pol) k scope))).
Proof.
  cbv zeta. unfold dockerTransport, dockerEntries.
  rewrite (fold_scopes (fun d pol scope => addScope (scopePolicy (pe_keyData pol))
             (fun m => mirrorPolicy (pe_keyData pol) m scope) mappings d scope)).
  rewrite (fold_scopes (fun d _ scope => addScope attachments (fun _ => attachments) mappings d scope)).
  pose (of1 := fun pol => scopePolicy (pe_keyData pol)).
  pose (of2 := fun pol m scope => mirrorPolicy (pe_keyData pol) m scope).
  set (d := fold_left (fun d ps => addScope (scopePolicy (pe_keyData (fst ps))) _ mappings d (snd ps)) _ _).
  assert (Hd : d = fold_left (addPolicy of1 of2 mappings) (scopesOf policies) []) by reflexivity. clearbody d.
  assert (Hcov : forall k, (exists ps, In ps (scopesOf policies) /\ covers mappings (snd ps) k) <->
    exists pol scope, In pol policies /\ In scope (pe_scopes pol) /\ covers mappings scope k).
  { intros k. split.
    - intros ([pol scope] & [? ?]%scopesOf_In & ?). eauto 6.
    - intros (pol & scope & H1 & H2 & ?). exists (pol, scope). split; [by apply scopesOf_In|done]. }
  assert (Hhas : forall k, k <> "" ->
    (jhas (jset d "" insecureAcceptAnything) k = true <->
     exists pol scope, In pol policies /\ In scope (pe_scopes pol) /\ covers mappings scope k)).
  { intros k Hk. rewrite jhas_jset, str_eqb_ne by done. cbn [orb].
    rewrite Hd, addPolicies_has, Hcov. split; [by intros [?|[=]]|auto]. }
  split_and!.
  - apply jget_jset_eq.
  - exact Hhas.
  - intros k. rewrite <- Hcov. etransitivity;
      [apply (addPolicies_has (fun _ => attachments) (fun _ _ _ => attachments))|].
    split; [by intros [?|[=]]|auto].
  - intros k Hk Hc. apply Hhas in Hc; [|done].
    rewrite jhas_jset, str_eqb_ne in Hc by done. rewrite jget_jset_ne by done. cbn [orb] in Hc. rewrite Hd in *.
    destruct (addPolicies_bound of1 of2 mappings (scopesOf policies) [] k _ (conj Hc eq_refl))
      as [([pol scope] & [? ?]%scopesOf_In & Hb)|[[=] _]].
    exists pol, scope. split_and!; [done|done|]. destruct Hb as [[? Hv]|[? Hv]]; [right|left]; split; done.
Qed.

(** ** What is put back *)

(** The script of the scanner, its CronJob, the mirror configuration and the update service, as
    instances of the contract of Ensure. *)
Section Kept.
Context {X : Externals} `{!ExternalsLaws X}.

Definition scriptSpec (platform : DisconnectedPlatform) : ensure_spec KConfigMap :=
  @mkEnsure KConfigMap (key_of_meta (cm_Meta scannerScriptCM))
    (fun cm => map_get (cm_Data cm) "scan-imports.sh" == scannerScript)
    (fun cm => cm <| cm_Data := cm_Data scannerScriptCM |>)
    (scannerScriptCM <| cm_Meta ::= controlledBy platform |>) noWrap noWrap.

Definition cronSpec (platform : DisconnectedPlatform) (ac : AirgappedConfig) (schedule : string)
  : ensure_spec KCronJob :=
  @mkEnsure KCronJob (mkNN architectNamespace "import-bundle-scanner")
    (fun cj => cj_Schedule cj == schedule) (fun cj => cj <| cj_Schedule := schedule |>)
    (scannerCronJob platform ac schedule)
    (Wrapf "failed to update import scanner CronJob") (Wrapf "failed to create import scanner CronJob").

Definition mirrorConfigSpec (ca conf : string) : ensure_spec KConfigMap :=
  let cm := mirrorConfigMap ca conf in
  @mkEnsure KConfigMap (key_of_meta (cm_Meta cm))
    (fun o => (map_get (cm_Data o) "ca-bundle.crt" == ca) && (map_get (cm_Data o) "registries.conf" == conf))
    (fun o => o <| cm_Data := cm_Data cm |> <| cm_Meta ::= fun om => om <| om_Labels := om_Labels (cm_Meta cm) |> |>)
    cm (Wrapf "failed to update assisted-installer-mirror-config")
    (Wrapf "failed to create assisted-installer-mirror-config").

Lemma mirrorConfig_data ca conf :
  map_get (cm_Data (mirrorConfigMap ca conf)) "ca-bundle.crt" = ca /\
  map_get (cm_Data (mirrorConfigMap ca conf)) "registries.conf" = conf.
Proof. split; vm_compute; reflexivity. Qed.

#[export] Instance script_converges platform : Converges (scriptSpec platform).
Proof. constructor; try done; intros; apply str_eqb_refl. Qed.
#[export] Instance cron_converges platform ac schedule : Converges (cronSpec platform ac schedule).
Proof. constructor; try done; intros; apply str_eqb_refl. Qed.
#[export] Instance mirrorConfig_converges ca conf : Converges (mirrorConfigSpec ca conf).
Proof.
  destruct (mirrorConfig_data ca conf) as [H1 H2]. constructor; try done.
  - intros o. cbn [es_ok es_fix mirrorConfigSpec]. cbv zeta.
    change (cm_Data (set cm_Meta _ _)) with (cm_Data (mirrorConfigMap ca conf)). by rewrite H1, H2, !str_eqb_refl.
  - cbn [es_ok es_new mirrorConfigSpec]. by rewrite H1, H2, !str_eqb_refl.
Qed.
(** C28: The objects of the airgapped platform that are kept as wanted: whatever the server
    answers, each of four functions reads its object, leaves it alone when it is as wanted, else
    writes or creates it, and does nothing else; on a server that does what it is told, a second
    run changes nothing.  They are the script of the import scanner, its CronJob, the mirror
    configuration of the assisted installer and the update service.  Of the CronJob only the
    schedule is kept: a registry or a path that changes later does not reach the scanner. *)
Theorem airgapped_kept (platform : DisconnectedPlatform) (ac : AirgappedConfig) (schedule ca conf : string)
    (s : store)
    (Hac : dps_Airgapped (dp_Spec platform) = Some ac) (Hm : ac_MirrorRegistry ac <> "") :
  refines (scriptSpec platform) (ensureImportScannerScript platform) /\
  refines (cronSpec platform ac schedule) (ensureScannerCronJob platform ac schedule) /\
  refines (mirrorConfigSpec ca conf) (writeMirrorConfig (mirrorConfigMap ca conf)) /\
  refines (updateSpec "airgapped UpdateService" (airgappedBase ac)) (ensureAirgappedUpdateService platform) /\
  settles_on s (ensureImportScannerScript platform) /\
  settles_on s (ensureScannerCronJob platform ac schedule) /\
  settles_on s (writeMirrorConfig (mirrorConfigMap ca conf)) /\
  settles_on s (ensureAirgappedUpdateService platform) /\
  (forall cj, cj_PodSpec (es_fix (cronSpec platform ac schedule) cj) = cj_PodSpec cj).
Proof.
  assert (H1 : refines (scriptSpec platform) (ensureImportScannerScript platform)).
  { unfold ensureImportScannerScript. refine_go; refine_leaf (scriptSpec platform). }
  assert (H2 : refines (cronSpec platform ac schedule) (ensureScannerCronJob platform ac schedule)).
  { unfold ensureScannerCronJob. refine_go; refine_leaf (cronSpec platform ac schedule). }
  assert (H3 : refines (mirrorConfigSpec ca conf) (writeMirrorConfig (mirrorConfigMap ca conf))).
  { destruct (mirrorConfig_data ca conf) as [E1 E2]. unfold writeMirrorConfig. rewrite E1, E2.
    refine_go; try match goal with H : negb _ || negb _ = _ |- _ => rewrite <- negb_andb in H end;
      refine_leaf (mirrorConfigSpec ca conf). }
  assert (H4 : refines (updateSpec "airgapped UpdateService" (airgappedBase ac)) (ensureAirgappedUpdateService platform)).
  { unfold ensureAirgappedUpdateService, withAirgapped. rewrite Hac, str_eqb_ne by done. apply keepUpdateService_refines. }
  split_and!; try done.
  - by apply (refines_settles_on (scriptSpec platform)).
  - by apply (refines_settles_on (cronSpec platform ac schedule)).
  - by apply (refines_settles_on (mirrorConfigSpec ca conf)).
  - by apply (refines_settles_on (updateSpec "airgapped UpdateService" (airgappedBase ac))).
Qed.
End Kept.

(** ** Witnesses *)

(** The in-memory server answers with the object of the key. *)
Lemma served_answers tr s s1 : served tr s s1 -> Forall answers tr.
Proof.
  revert s; induction tr as [|[c r] tr IH]; intros s H; [constructor|]. cbn [served] in H.
  destruct (handle c s) as [r' s'] eqn:E. destruct H as [-> H]. constructor; [|eauto].
  destruct c; try done. unfold handle, memory_server in E. injection E as <- <-. cbn.
  destruct (find_first _ _) as [o|] eqn:Ef; [|done]. apply find_first_Some in Ef as [_ Ef]. by apply has_key_spec.
Qed.

Definition sampleACM : AirgappedACMConfig := mkAirgappedACMConfig true None None None.
Definition sampleAirgappedConfig : AirgappedConfig :=
  mkAirgappedConfig false "registry.local/mirror" false "" "" None None (Some sampleACM) None None "" None.
Definition sampleAirgappedPlatform : DisconnectedPlatform :=
  mkDisconnectedPlatform (mkTypeMeta "" "") (sampleMeta "" "platform")
    (mkDisconnectedPlatformSpec PlatformModeAirgapped None (Some sampleAirgappedConfig) None None)
    (mkDisconnectedPlatformStatus "" [] None [] None [] [] None).
Definition sampleAirgappedReconciler : DisconnectedPlatformReconciler :=
  mkPlatformReconciler "oc-mirror:v2" "front:1" "back:1" "plugin:1" "skopeo:1" "ubi9:1" "ubi9-minimal:1"
    true true false.

(** A cluster where the operator of ACM is installed and its hub is in some phase. *)
Definition hubStore (phase : string) : store :=
  let named_in g ns name o := unstructured_ g ns name o in
  let s := with_objs emptyStore (KUnstructured packageManifestGVK)
    [named_in packageManifestGVK "openshift-marketplace" "advanced-cluster-management"
       [("status", JMap [("catalogSource", JStr "cs-redhat"); ("catalogSourceNamespace", JStr "openshift-marketplace");
                         ("defaultChannel", JStr "release-2.12")])]] in
  let s := with_objs s KSubscription
    [named_in subscriptionGVK acmNamespace "mirror-operator-advanced-cluster-management"
       [("status", JMap [("currentCSV", JStr "acm.v2.12")])]] in
  let s := with_objs s (KUnstructured csvGVK)
    [named_in csvGVK acmNamespace "acm.v2.12" [("status", JMap [("phase", JStr "Succeeded")])]] in
  let s := with_objs s KSecret
    [mkSecret (sampleMeta architectNamespace "pull-secret") (Some {[ pullSecretKey := "{}" ]})] in
  with_objs s (KUnstructured mchGVK)
    [named_in mchGVK acmNamespace "multiclusterhub" [("status", JMap [("phase", JStr phase)])]].

Abbreviation sampleAirgapped := (reconcileAirgapped (X := sampleX) sampleAirgappedReconciler sampleAirgappedPlatform).

Lemma airgapped_waits_for_hub_witness :
  (exists c, In c (writes (traceOf sampleAirgapped (hubStore "Running"))) /\ ~ in_acm c) /\
  exists t1 e t2, traceOf sampleAirgapped (hubStore "Running") = t1 ++ e :: t2 /\ calls in_acm t1 /\ hub_running (X := sampleX) e.
Proof.
  assert (Hw : exists c, In c (writes (traceOf sampleAirgapped (hubStore "Running"))) /\ ~ in_acm c).
  { eexists. split; [vm_compute; do 3 right; left; reflexivity|]. intros [H|H]; discriminate. }
  split; [exact Hw|].
  destruct (airgapped_waits_for_hub (X := sampleX) sampleAirgappedReconciler sampleAirgappedPlatform
              sampleAirgappedConfig sampleACM _ _ eq_refl eq_refl eq_refl
              (traceOf_exec sampleAirgapped (hubStore "Running"))
              (served_answers _ _ _ (run_served sampleAirgapped (hubStore "Running")))) as [[Hc _]|H]; [|exact H].
  exfalso. destruct Hw as (c & Hin & Hn). apply Hn. unfold writes in Hin.
  apply list_elem_of_In, list_elem_of_filter in Hin as [_ Hin]. apply list_elem_of_In, in_map_iff in Hin as (ev & <- & Hev).
  unfold calls in Hc. rewrite List.Forall_forall in Hc. by apply Hc.
Defined.

Definition airgappedResult : DisconnectedPlatform :=
  addComponent (mchComponent "Running")
    (addComponent (subscriptionComponent
       (acmOperator <| od_catalog := "cs-redhat" |> <| od_catalogNS := "openshift-marketplace" |>
                    <| od_channel := "release-2.12" |>) "Succeeded") sampleAirgappedPlatform).

Lemma airgapped_requeues_witness :
  outcomeOf sampleAirgapped (hubStore "Running") = Done (airgappedResult, (false, None)) /\
  acm_done (X := sampleX) sampleAirgappedPlatform sampleAirgappedConfig (traceOf sampleAirgapped (hubStore "Running")).
Proof.
  assert (E : outcomeOf sampleAirgapped (hubStore "Running") = Done (airgappedResult, (false, None)))
    by (vm_compute; reflexivity).
  split; [exact E|]. pose proof (traceOf_exec sampleAirgapped (hubStore "Running")) as He. rewrite E in He.
  destruct (airgapped_requeues (X := sampleX) sampleAirgappedReconciler sampleAirgappedPlatform _ sampleAirgappedConfig _ _ _ eq_refl He) as [_ H].
  destruct (H eq_refl) as [Ha _]. exact (Ha sampleACM eq_refl eq_refl).
Defined.

(** A source in a digest set and in a tag set, and one that cannot be installed from. *)
Definition sampleMirrors (l : list string) : json := JList (map JStr l).
Definition sampleIDMS : Unstructured :=
  unstructured_ Registry.gvkIDMS "" "digests" [("spec", JMap [("imageDigestMirrors", JList
    [JMap [("source", JStr "quay.io/org/app"); ("mirrors", sampleMirrors ["a.local/app"])];
     JMap [("source", JStr "docker.io/amazon"); ("mirrors", sampleMirrors ["a.local/amazon"])]])])].
Definition sampleITMS : Unstructured :=
  unstructured_ gvkITMS "" "tags" [("spec", JMap [("imageTagMirrors", JList
    [JMap [("source", JStr "quay.io/org/app"); ("mirrors", sampleMirrors ["b.local/app"; "a.local/app"])]])])].

Lemma installer_mirrors_witness :
  mirrorEntries (X := sampleX) "quay.local" [sampleIDMS] [sampleITMS] =
    [mkMirrorEntry "quay.io/org/app" ["a.local/app"; "b.local/app"; "quay.local/org/app"] true] /\
  In "b.local/app" (me_mirrors (mkMirrorEntry "quay.io/org/app" ["a.local/app"; "b.local/app"; "quay.local/org/app"] true)).
Proof.
  assert (E : mirrorEntries (X := sampleX) "quay.local" [sampleIDMS] [sampleITMS] =
    [mkMirrorEntry "quay.io/org/app" ["a.local/app"; "b.local/app"; "quay.local/org/app"] true])
    by (vm_compute; reflexivity).
  split; [exact E|].
  destruct (installer_mirrors (X := sampleX) "quay.local" [sampleIDMS] [sampleITMS]) as (_ & _ & _ & H & _).
  rewrite E in H. apply (H _ "b.local/app"); [by left|]. right.
  exists (mkDeclared "quay.io/org/app" ["b.local/app"; "a.local/app"] false).
  split; [vm_compute; do 1 right; by left|split; [reflexivity|by left]].
Defined.

Lemma signature_policy_witness :
  let d := dockerTransport [mkPolicyEntry "key" ["quay.io/org"]]
             [mkMirrorMapping "a.local/org" "quay.io/org"; mkMirrorMapping "a.local/app" "quay.io/org/app"] in
  jget d "a.local/org" = mirrorPolicy "key" "a.local/org" "quay.io/org" /\ jhas d "a.local/app" = false.
Proof.
  cbv zeta. set (ps := [mkPolicyEntry "key" ["quay.io/org"]]). set (ms := [mkMirrorMapping "a.local/org" _; _]).
  destruct (signature_policy ps ms) as (_ & Hhas & _ & Hkey). split.
  - destruct (Hkey "a.local/org") as (pol & scope & [<-|[]] & [<-|[]] & [[[=] _]|[_ H]]); [done| |exact H].
    exists (mkPolicyEntry "key" ["quay.io/org"]), "quay.io/org". split; [by left|]. split; [by left|]. right.
    exists (mkMirrorMapping "a.local/org" "quay.io/org"). split; [by left|done].
  - destruct (jhas _ "a.local/app") eqn:E; [|done]. apply Hhas in E; [|done].
    destruct E as (pol & scope & [<-|[]] & [<-|[]] & [[=]|(mm & [<-|[<-|[]]] & [=] & [=])]).
Defined.

Lemma airgapped_kept_witness :
  settles_on emptyStore (ensureAirgappedUpdateService (X := sampleX) sampleAirgappedPlatform) /\
  outcomeOf (ensureAirgappedUpdateService (X := sampleX) sampleAirgappedPlatform) emptyStore = Done None.
Proof.
  destruct (airgapped_kept (X := sampleX) sampleAirgappedPlatform sampleAirgappedConfig "*/30 * * * *" "" "" emptyStore
              eq_refl ltac:(discriminate)) as (_ & _ & _ & _ & _ & _ & _ & H & _).
  split; [exact H|exact (proj1 H)].
Defined.
