(* ===== verification/QuayProps.v ===== *)
(** Properties of the managed Quay: what the platform changes in the registry settles. *)
From S2P Require Import Prelude GoStrings K8s Json Api Kube Externals Nested Helpers Operators Platform.
From S2P Require Import CABundles PullSecrets Instances Samples Ensure Quay ConnectedQuay.

Lemma walk_jset_ne c k v k' : k <> k' -> walk (jset c k v) [k'] = walk c [k'].
Proof. intros H. simpl. by rewrite jhas_jset, str_eqb_ne, jget_jset_ne by done. Qed.

Section Components.
Context {X : Externals} `{!ExternalsLaws X}.

(** ** The variables of the registry *)

Lemma envNames_app l1 l2 : envNames (l1 ++ l2) = envNames l1 ++ envNames l2.
Proof. unfold envNames. apply omap_app. Qed.

Definition varName (d : fields) : string := default "" (as_string (jget d "name")).

Lemma varName_In d l : In d desiredEnvVars -> In (JMap d) l -> In (varName d) (envNames l).
Proof.
  intros Hd. induction l as [|v l IH]; [done|]. intros [->|Hin].
  - unfold envNames, varName. cbn [omap list_omap]. destruct Hd as [<-|[<-|[]]]; by left.
  - change (v :: l) with ([v] ++ l). rewrite envNames_app. apply in_or_app. auto.
Qed.

Lemma missing_none l : missingEnvVars (l ++ missingEnvVars l) = [].
Proof.
  unfold missingEnvVars at 1. destruct (List.filter _ desiredEnvVars) as [|d rest] eqn:E; [done|].
  exfalso. assert (Hd : In d (d :: rest)) by by left. rewrite <- E in Hd.
  apply List.filter_In in Hd as [Hd Hn]. apply negb_true_iff in Hn.
  fold (varName d) in Hn. enough (H : containsString (envNames (l ++ missingEnvVars l)) (varName d) = true) by congruence.
  apply containsString_In.
  rewrite envNames_app. apply in_or_app. destruct (containsString (envNames l) (varName d)) eqn:Ec.
  - left. by apply containsString_In.
  - right. apply varName_In; [done|]. unfold missingEnvVars. apply in_map, List.filter_In.
    split; [done|]. unfold varName in Ec. by rewrite Ec.
Qed.

(** A component with more variables: the other fields and the variables it had are the same. *)
Definition componentEnv (c : fields) : list json := nested_slice c ["overrides"; "env"].
Definition grown (v v' : json) : Prop :=
  v' = v \/ exists c c', v = JMap c /\ v' = JMap c' /\
    (forall k, k <> "overrides" -> walk c' [k] = walk c [k]) /\
    exists more, componentEnv c' = componentEnv c ++ more.

Lemma withEnv_component c overrides more :
  copyable (JMap c) = true -> forallb copyable more = true ->
  (jget c "overrides" = JNil /\ overrides = [] \/ jget c "overrides" = JMap overrides) ->
  let c' := jset c "overrides" (JMap (jset overrides "env" (JList (componentEnv c ++ more)))) in
  copyable (JMap c') = true /\ (forall k, k <> "overrides" -> walk c' [k] = walk c [k]) /\
  componentEnv c' = componentEnv c ++ more.
Proof.
  intros Hc Hm Ho c'.
  assert (Henv : forallb copyable (componentEnv c) = true).
  { unfold componentEnv. rewrite nested_slice_walk by done. assert (H := copyable_walk c ["overrides"; "env"]).
    destruct (walk c _) as [[[]|]|]; try done. exact (H _ Hc eq_refl). }
  assert (Hov : copyable (JMap overrides) = true).
  { destruct Ho as [[_ ->]|Ho]; [done|]. rewrite <- Ho. apply copyable_get; [done|].
    destruct (jhas c "overrides") eqn:E; [done|]. by rewrite jget_absent in Ho. }
  assert (Hc' : copyable (JMap c') = true).
  { apply copyable_jset; [done|]. apply copyable_jset; [done|].
    cbn [copyable]. by rewrite forallb_app, Henv, Hm. }
  split_and!; [done|intros k Hk; by apply walk_jset_ne|].
  unfold componentEnv at 1. rewrite nested_slice_walk by done. unfold c'. simpl.
  by rewrite jhas_jset, str_eqb_refl, jget_jset_eq, jhas_jset, str_eqb_refl, jget_jset_eq.
Qed.

Lemma missing_copyable l : forallb copyable (missingEnvVars l) = true.
Proof.
  unfold missingEnvVars. apply forallb_forall. intros v (d & <- & Hd)%in_map_iff.
  apply List.filter_In in Hd as [[<-|[<-|[]]] _]; done.
Qed.

Lemma withEnvVars_settles l l' :
  forallb copyable l = true -> withEnvVars l = Changed l' ->
  withEnvVars l' = Unchanged /\ Forall2 grown l l' /\ forallb copyable l' = true.
Proof.
  revert l'; induction l as [|v l IH]; intros l' Hc H; [done|].
  cbn [forallb] in Hc. apply andb_true_iff in Hc as [Hv Hc]. cbn [withEnvVars] in H.
  assert (Hsame : consChange v (withEnvVars l) = Changed l' ->
    exists l2, withEnvVars l = Changed l2 /\ l' = v :: l2).
  { destruct (withEnvVars l); try done. intros [= <-]. eauto. }
  assert (Hrefl : forall l, Forall2 grown l l) by (intros l0; induction l0; constructor; [by left|done]).
  destruct (as_map v) as [c|] eqn:Ev.
  - assert (v = JMap c) as -> by (destruct v; try done; by injection Ev as ->).
    destruct (nested_string c ["kind"] != "quay") eqn:Ek.
    + destruct (Hsame H) as (l2 & E2 & ->). destruct (IH _ Hc E2) as (H1 & H2 & H3).
      cbn [withEnvVars as_map]. rewrite Ek, H1. split_and!; [done|constructor; [by left|done]|].
      cbn [forallb]. by rewrite Hv.
    + clear Hsame. fold (componentEnv c) in H. destruct (missingEnvVars (componentEnv c)) as [|m more] eqn:Em; [done|].
      assert (Hmc := missing_copyable (componentEnv c)). rewrite Em in Hmc.
      set (change o := JMap (jset c "overrides" (JMap (jset o "env" (JList (componentEnv c ++ m :: more)))))).
      assert (exists o, (jget c "overrides" = JNil /\ o = [] \/ jget c "overrides" = JMap o) /\ l' = change o :: l)
        as (o & Ho & ->).
      { destruct (jget c "overrides") eqn:Eo; try done; injection H as <-; [exists []; auto|eauto]. }
      destruct (withEnv_component c o (m :: more) Hv Hmc Ho) as (H1 & H2 & H3).
      cbn [withEnvVars]. unfold change at 1. cbn [as_map].
      rewrite nested_string_walk, H2, <- nested_string_walk, Ek by done.
      fold (componentEnv (jset c "overrides" (JMap (jset o "env" (JList (componentEnv c ++ m :: more)))))).
      rewrite H3, <- Em, missing_none. split_and!; [done| |].
      * constructor; [|done]. right. eexists c, _. split_and!; [done|done|done|]. rewrite <- Em in H3 |- *. eauto.
      * cbn [forallb]. unfold change. by rewrite H1, Hc.
  - destruct (Hsame H) as (l2 & E2 & ->). destruct (IH _ Hc E2) as (H1 & H2 & H3).
    cbn [withEnvVars]. rewrite Ev, H1. split_and!; [done|constructor; [by left|done]|].
    cbn [forallb]. by rewrite Hv.
Qed.

(** ** The components that are no longer managed *)

Definition componentKind (c : fields) : string := nested_string c ["kind"].

Lemma unmanaged_spec v v' :
  unmanaged v = Some v' ->
  exists c, v = JMap c /\ v' = JMap (jset c "managed" (JBool false)) /\
    (componentKind c = "route" \/ componentKind c = "tls") /\ bool_at (walk c ["managed"]) = true.
Proof.
  unfold unmanaged, componentKind. destruct (as_map v) as [c|] eqn:Ev; [|done].
  assert (v = JMap c) as -> by (destruct v; try done; by injection Ev as ->). cbv zeta.
  destruct ((_ == "route") || (_ == "tls")) eqn:Ek; [|done].
  pose proof (nested_bool_walk c ["managed"]) as Hb. destruct (NestedBool c ["managed"]) as [[b ?] ?].
  cbn [fst] in Hb. subst b. destruct (bool_at (walk c ["managed"])) eqn:Eb; [|done]. intros [= <-].
  exists c. apply orb_true_iff in Ek. rewrite !String.eqb_eq in Ek. done.
Qed.

(** Whether a component is still to be changed is read off its kind and its flag. *)
Lemma unmanaged_of c :
  unmanaged (JMap c) =
  let kind_ := string_at (walk c ["kind"]) in
  if ((kind_ == "route") || (kind_ == "tls")) && bool_at (walk c ["managed"])
  then Some (JMap (jset c "managed" (JBool false))) else None.
Proof.
  unfold unmanaged. cbn [as_map]. cbv zeta. rewrite nested_string_walk. destruct (_ || _); [|done].
  pose proof (nested_bool_walk c ["managed"]) as Hb. destruct (NestedBool c ["managed"]) as [[b ?] ?].
  cbn [fst] in Hb. by subst b.
Qed.

Lemma unmanaged_done v : unmanaged (default v (unmanaged v)) = None.
Proof.
  destruct (unmanaged v) as [v'|] eqn:E; [|done].
  apply unmanaged_spec in E as (c & -> & -> & _). change (unmanaged (JMap (jset c "managed" (JBool false))) = None). rewrite unmanaged_of. cbv zeta.
  simpl (walk _ ["managed"]). rewrite jhas_jset, str_eqb_refl, jget_jset_eq. simpl. by rewrite andb_false_r.
Qed.

Lemma unmanaged_grown v v' : grown v v' -> unmanaged v = None -> unmanaged v' = None.
Proof.
  intros [->|(c & c' & -> & -> & Hw & _)] H; [done|]. rewrite unmanaged_of in *. cbv zeta in *.
  rewrite (Hw "kind"), (Hw "managed") by done. by destruct (_ && _).
Qed.

Lemma copyable_unmanaged v : copyable v = true -> copyable (default v (unmanaged v)) = true.
Proof.
  intros Hv. destruct (unmanaged v) as [v'|] eqn:E; [|done].
  apply unmanaged_spec in E as (c & -> & -> & _). by apply copyable_jset.
Qed.

(** ** The registry settles *)

(** The components of a registry are a list of values that were decoded. *)
Definition has_components (q : Unstructured) (l : list json) : Prop :=
  walk (u_Object q) componentsPath = Some (Some (JList l)) /\ forallb copyable l = true.
Definition settled (l : list json) : Prop :=
  existsb (fun c => match unmanaged c with Some _ => true | None => false end) l = false /\
  withEnvVars l = Unchanged.

(** What is assumed of the server: the reply to an update that succeeds has the components that
    were sent.  The metadata, the status and every other field are the server's. *)
Definition componentsAt (q : Unstructured) : option (option json) := walk (u_Object q) componentsPath.
Definition echoes (e : event) : Prop :=
  match e with
  | Ev (CUpdate (KUnstructured _) o) (Ok o') => componentsAt o' = componentsAt o
  | _ => True
  end.

Lemma put_components_exec q l tr q' err :
  forallb copyable l = true -> settable (u_Object q) componentsPath = true ->
  exec (putComponents q l) tr (Done (q', err)) -> Forall echoes tr -> has_components q' l.
Proof.
  intros Hc Hs H HR. unfold putComponents in H. rewrite SetNestedSlice_field, set_field_ok in H by done.
  cbv zeta in H. apply exec_call_bind in H as (u & t & -> & H).
  apply Forall_inv in HR. cbn in HR.
  assert (Hq : has_components (q <| u_Object := set_field componentsPath (JList l) (u_Object q) |>) l).
  { split; [by apply set_field_at|done]. }
  destruct u as [stored|e]; apply exec_inv in H as [_ [= -> _]]; [|done].
  exact (conj (eq_trans HR (proj1 Hq)) Hc).
Qed.

Lemma components_settable q l : has_components q l -> settable (u_Object q) componentsPath = true.
Proof.
  intros [H _]. unfold componentsPath in *. simpl in *. destruct (jhas _ "spec"); [|done].
  by destruct (jget _ "spec").
Qed.

Lemma components_read q l : has_components q l -> NestedSlice (u_Object q) componentsPath = (l, true, None).
Proof. intros [H Hc]. by apply NestedSlice_at. Qed.

Lemma put_components_calls q l tr o :
  exec (putComponents q l) tr o -> (length (writes tr) <= 1)%nat.
Proof.
  unfold putComponents. destruct (SetNestedSlice _ _ _) as [m [e|]]; intros H.
  - apply exec_inv in H as [-> _]. simpl. lia.
  - apply exec_call_bind in H as (u & t & -> & H). apply exec_inv in H as [-> _]. simpl. lia.
Qed.

Lemma unmanaged_exec q l tr q' err :
  has_components q l -> exec (ensureQuayComponentsUnmanaged q) tr (Done (q', err)) -> Forall echoes tr ->
  has_components q' (map (fun c => default c (unmanaged c)) l) /\ (length (writes tr) <= 1)%nat.
Proof.
  intros Hq H HR. unfold ensureQuayComponentsUnmanaged in H. rewrite (components_read _ _ Hq) in H.
  destruct (existsb _ l) eqn:E.
  - split; [|by apply put_components_calls in H].
    eapply put_components_exec; [|by eapply components_settable|exact H|exact HR].
    apply forallb_forall. intros v (c & <- & Hin)%in_map_iff. destruct Hq as [_ Hc].
    rewrite forallb_forall in Hc. apply copyable_unmanaged. auto.
  - apply exec_inv in H as [-> [= -> _]]. split; [|simpl; lia].
    replace (map _ l) with l; [done|]. rewrite existsb_false in E. clear -E.
    induction l as [|c l IH]; simpl; [done|]. pose proof (E c (or_introl eq_refl)) as Ec.
    rewrite <- IH; [|intros; apply E; by right]. by destruct (unmanaged c).
Qed.

Lemma gunicorn_exec q l tr q' err :
  has_components q l -> exec (ensureQuayGunicornTimeout q) tr (Done (q', err)) -> Forall echoes tr ->
  exists l', has_components q' l' /\ withEnvVars l' = Unchanged /\ Forall2 grown l l' /\
    (length (writes tr) <= 1)%nat.
Proof.
  intros Hq H HR. unfold ensureQuayGunicornTimeout in H. rewrite (components_read _ _ Hq) in H.
  destruct (withEnvVars l) as [|l'|] eqn:E; [| |by apply exec_inv in H as [_ [=]]].
  - apply exec_inv in H as [-> [= -> _]]. exists l. split_and!; [done|done| |simpl; lia].
    clear. induction l; constructor; [by left|done].
  - destruct (withEnvVars_settles l l' (proj2 Hq) E) as (H1 & H2 & H3). exists l'.
    split_and!; [|done|done|by apply put_components_calls in H].
    eapply put_components_exec; [exact H3|by eapply components_settable|exact H|exact HR].
Qed.

(** C29: What the platform changes in the registry of Quay settles.  From any registry with
    components, releasing the route and the TLS of the operator and then giving the registry its
    variables takes at most two updates, after which nothing is left to change: run again, the two
    functions make no call.  Of a component only the flag of a released one and the variables of
    the one of kind quay change, and the variables it had are kept.  Of the server it is assumed
    that the reply to a successful update has the components that were sent; a failed update,
    too, leaves them in the object at hand. *)
Theorem quay_settles (q q1 q2 : Unstructured) (l : list json) t1 t2 e1 e2
    (Hq : has_components q l)
    (H1 : exec (ensureQuayComponentsUnmanaged q) t1 (Done (q1, e1)))
    (H2 : exec (ensureQuayGunicornTimeout q1) t2 (Done (q2, e2)))
    (HR : Forall echoes (t1 ++ t2)) :
  exists l', has_components q2 l' /\
    Forall2 (fun v v' => grown (default v (unmanaged v)) v') l l' /\
    (length (writes t1) + length (writes t2) <= 2)%nat /\
    (forall tr o, exec (ensureQuayComponentsUnmanaged q2) tr o -> tr = [] /\ o = Done (q2, None)) /\
    (forall tr o, exec (ensureQuayGunicornTimeout q2) tr o -> tr = [] /\ o = Done (q2, None)).
Proof.
  apply Forall_app in HR as [HR1 HR2]. destruct (unmanaged_exec _ _ _ _ _ Hq H1 HR1) as [Hq1 Hw1].
  destruct (gunicorn_exec _ _ _ _ _ Hq1 H2 HR2) as (l' & Hq2 & Hs & Hg & Hw2).
  exists l'. split_and!; [done| |lia| |].
  { clear -Hg. revert l' Hg. induction l as [|c l IH]; intros l' Hg; inversion Hg; subst; constructor; auto. }
  - intros tr o H. unfold ensureQuayComponentsUnmanaged in H. rewrite (components_read _ _ Hq2) in H.
    assert (E : existsb (fun c => match unmanaged c with Some _ => true | None => false end) l' = false).
    { clear -Hg ExternalsLaws0. revert l' Hg. induction l as [|c l IH]; intros l' Hg; inversion Hg; subst; [done|].
      cbn [existsb]. match goal with Hc : grown _ ?y |- _ => rewrite (unmanaged_grown _ y Hc (unmanaged_done c)) end. cbn [orb]. by apply IH. }
    rewrite E in H. by apply exec_inv in H.
  - intros tr o H. unfold ensureQuayGunicornTimeout in H. rewrite (components_read _ _ Hq2), Hs in H.
    by apply exec_inv in H.
Qed.
End Components.

(** ** Witnesses *)

Definition sampleComponents : list json :=
  [JMap [("kind", JStr "route"); ("managed", JBool true)]; JMap [("kind", JStr "quay"); ("managed", JBool true)]].
Definition sampleQuay : Unstructured :=
  unstructured_ quayRegistryGVK architectNamespace "mirror-operator-quay"
    [("spec", JMap [("components", JList sampleComponents)])].
Definition sampleQuayStore : store := with_objs emptyStore KQuayRegistry [sampleQuay].

(** A server that gives what is updated a resource version and a status. *)
Definition stamp (q : Unstructured) : Unstructured :=
  q <| u_Meta ::= fun m => m <| om_ResourceVersion := om_ResourceVersion m +:+ "1" |> |>
    <| u_Object ::= fun o => jset o "status" (JMap [("lastUpdate", JStr "now")]) |>.
Definition stamping_server : Server store := fun c s =>
  match c return reply c * store with
  | CUpdate (KUnstructured g) o => memory_server (CUpdate (KUnstructured g) (stamp o)) s
  | c => memory_server c s
  end.
Lemma stamp_components q : componentsAt (stamp q) = componentsAt q.
Proof.
  unfold componentsAt, stamp, componentsPath. cbn [u_Object set].
  cbn [walk]. by rewrite jhas_jset, jget_jset_ne by done.
Qed.
Lemma stamping_echoes {A} (p : prog A) s : Forall echoes (fst (fst (run (H := stamping_server) p s))).
Proof.
  revert s; induction p as [a|m|c k IH]; intros s; cbn [run]; [constructor..|].
  assert (Hc : echoes (Ev c (fst (stamping_server c s)))).
  { destruct c; try done. destruct K; try done.
    unfold stamping_server, memory_server. destruct (update_first _ _ _); [apply stamp_components|done]. }
  unfold handle. destruct (stamping_server c s) as [r s1]. specialize (IH r s1).
  destruct (run (H := stamping_server) (k r) s1) as [[tr o] s2]. by constructor.
Qed.

Definition releasedComponents : list json :=
  [JMap [("kind", JStr "route"); ("managed", JBool false)]; JMap [("kind", JStr "quay"); ("managed", JBool true)]].
Definition settledComponents : list json :=
  [JMap [("kind", JStr "route"); ("managed", JBool false)];
   JMap [("kind", JStr "quay"); ("managed", JBool true);
         ("overrides", JMap [("env", JList (map JMap desiredEnvVars))])]].
Definition stampedQuay (version : string) (components : list json) : Unstructured :=
  (unstructured_ quayRegistryGVK architectNamespace "mirror-operator-quay"
     [("spec", JMap [("components", JList components)]); ("status", JMap [("lastUpdate", JStr "now")])])
    <| u_Meta ::= fun m => m <| om_ResourceVersion := version |> |>.
Definition releasedQuay : Unstructured := stampedQuay "1" releasedComponents.
Definition settledQuay : Unstructured := stampedQuay "11" settledComponents.

Abbreviation sampleRelease := (ensureQuayComponentsUnmanaged (X := sampleX) sampleQuay).
Abbreviation sampleTimeout := (ensureQuayGunicornTimeout (X := sampleX) releasedQuay).

Definition onStamping {A} (p : prog A) : trace * outcome A := fst (run (H := stamping_server) p sampleQuayStore).
Lemma quay_settles_witness :
  snd (onStamping sampleRelease) = Done (releasedQuay, None) /\
  snd (onStamping sampleTimeout) = Done (settledQuay, None) /\
  forall tr o, exec (ensureQuayComponentsUnmanaged (X := sampleX) settledQuay) tr o ->
    tr = [] /\ o = Done (settledQuay, None).
Proof.
  assert (E1 : snd (onStamping sampleRelease) = Done (releasedQuay, None)) by (vm_compute; reflexivity).
  assert (E2 : snd (onStamping sampleTimeout) = Done (settledQuay, None)) by (vm_compute; reflexivity).
  split; [exact E1|]. split; [exact E2|].
  pose proof (run_exec (H := stamping_server) sampleRelease sampleQuayStore) as H1.
  fold (onStamping sampleRelease) in H1. rewrite E1 in H1.
  pose proof (run_exec (H := stamping_server) sampleTimeout sampleQuayStore) as H2.
  fold (onStamping sampleTimeout) in H2. rewrite E2 in H2.
  assert (Hq : has_components sampleQuay sampleComponents) by (split; reflexivity).
  destruct (quay_settles (X := sampleX) sampleQuay releasedQuay settledQuay sampleComponents _ _ _ _ Hq H1 H2)
    as (l' & _ & _ & _ & H & _); [|exact H].
  apply Forall_app. split; apply stamping_echoes.
Defined.
