(* ===== verification/PostgresProps.v ===== *)
(** The claims of the managed PostgreSQL servers grow within bounds. *)
From S2P Require Import Prelude GoStrings K8s Json Api Kube Externals Helpers Samples Instances Platform PullSecrets Postgres.

Section Growth.
Context {X : Externals} `{!ExternalsLaws X}.

(** What the volume holds now, and what is asked for. *)
Definition capacityOf (pvc : PersistentVolumeClaim) : Quantity := default 0%Z (pvc_Capacity pvc !! ResourceStorage).
Definition asked (pvc : PersistentVolumeClaim) : option Quantity := pvc_Requests pvc ≫= (.!! ResourceStorage).

Lemma grownSize_min c m : grownSize c m = Z.min (c + c) m.
Proof.
  unfold grownSize, Quantity in *. cbv zeta. destruct (_ >? 0)%Z eqn:E.
  - apply Z.gtb_lt, Z.lt_gt in E. apply (QuantityCmp_gt (c + c)%Z m) in E. lia.
  - destruct (Z.le_gt_cases (c + c)%Z m) as [|H]; [lia|]. apply Z.lt_gt, (QuantityCmp_gt (c + c)%Z m) in H. lia.
Qed.
Lemma volumeUsage_reads pod : always (calls reads) (volumeUsage pod).
Proof. unfold volumeUsage. always_go; by repeat constructor. Qed.

(** C31: A volume grows to twice its capacity and never past the maximum.  Whatever the cluster
    answers, growing a claim writes at most one object: the claim itself, of a volume below the
    maximum, with nothing changed but the size asked for, and that is the smaller of twice the
    capacity and the maximum; so it is more than the capacity (where there is any), and at most
    the maximum. *)
Theorem autoExpandPVC_bounds pvc maxStorageSize maxSize tr o
    (Hm : MustParse maxStorageSize = Some maxSize) (H : exec (autoExpandPVC pvc maxStorageSize) tr o) :
  writes tr = [] \/
  exists pvc', writes tr = [CUpdate KPersistentVolumeClaim pvc'] /\ (capacityOf pvc < maxSize)%Z /\
    asked pvc' = Some (Z.min (2 * capacityOf pvc) maxSize) /\
    ((0 < capacityOf pvc)%Z -> (capacityOf pvc < default 0 (asked pvc') <= maxSize)%Z) /\
    (pvc' <| pvc_Requests := pvc_Requests pvc |>) = pvc /\
    forall r, r <> ResourceStorage -> pvc_Requests pvc' ≫= (.!! r) = pvc_Requests pvc ≫= (.!! r).
Proof.
  unfold autoExpandPVC, mustParse in H. rewrite Hm in H. fold (capacityOf pvc) in H.
  destruct (_ >=? 0)%Z eqn:Ec; [apply exec_inv in H as [-> _]; by left|].
  apply exec_call_bind in H as (l & t & -> & H).
  destruct l as [[|pod rest]|e]; try (apply exec_inv in H as [-> _]; by left).
  pose proof (volumeUsage_reads pod) as Hr.
  apply exec_bind in H as [(m & H & _)|(u & t1 & t2 & H1 & H & ->)].
  { left. apply (always_exec _ _ _ _ Hr) in H. change (writes t = []). by apply writes_reads. }
  apply (always_exec _ _ _ _ Hr) in H1. apply writes_reads in H1.
  change (writes (Ev _ _ :: t1 ++ t2)) with (writes (t1 ++ t2)). rewrite writes_app, H1. cbn [app].
  destruct u as [pct|]; [|apply exec_inv in H as [-> _]; by left].
  destruct (_ <? _)%Z; [apply exec_inv in H as [-> _]; by left|].
  unfold expandPVC in H. destruct (pvc_Requests pvc) as [rs|] eqn:Er; [|apply exec_inv in H as [-> _]; by left].
  right. apply exec_call_bind in H as (u & t & -> & H). apply exec_inv in H as [-> _]. eexists. split; [done|].
  rewrite Z.geb_leb in Ec. apply Z.leb_gt, (QuantityCmp_lt (capacityOf pvc) maxSize) in Ec.
  split; [exact Ec|]. rewrite grownSize_min. unfold asked. cbn [pvc_Requests set mbind option_bind].
  rewrite lookup_insert. destruct (decide _); [|done]. split; [f_equal; lia|]. split; [cbn; lia|]. split.
  - destruct pvc; cbn in *; congruence.
  - intros r Hn. by rewrite lookup_insert_ne.
Qed.
End Growth.

Section Witness.
#[local] Existing Instance sampleX.

(** A claim of a volume of 50Gi, and a server that keeps crashing. *)
Definition fullPVC : PersistentVolumeClaim :=
  mkPVC (postgresMeta rhtpaServer "rhtpa-postgresql-data") [ReadWriteOnce] (Some {[ ResourceStorage := gibibytes 50 ]})
    {[ ResourceStorage := gibibytes 50 ]} ClaimBound.
Definition crashingStore : store :=
  with_objs (with_objs emptyStore KPersistentVolumeClaim [fullPVC]) KPod
    [mkPod (sampleMeta architectNamespace "rhtpa-postgresql-0") PodRunning
       [mkContainerStatus 9 (Some "CrashLoopBackOff")] [] []].

(** It is asked to be doubled, with a maximum of 200Gi, and stops at a maximum of 50Gi. *)
Lemma autoExpandPVC_bounds_witness :
  length (writes (traceOf (autoExpandPVC fullPVC "200Gi") crashingStore)) = 1 /\
  writes (traceOf (autoExpandPVC fullPVC "50Gi") crashingStore) = [] /\
  exists pvc', writes (traceOf (autoExpandPVC fullPVC "200Gi") crashingStore) =
                 [CUpdate KPersistentVolumeClaim pvc'] /\
    asked pvc' = Some (gibibytes 100) /\ (gibibytes 50 < default 0 (asked pvc') <= gibibytes 200)%Z.
Proof.
  split; [vm_compute; reflexivity|]. split; [vm_compute; reflexivity|].
  destruct (autoExpandPVC_bounds (X := sampleX) fullPVC "200Gi" (gibibytes 200) _ _ ltac:(vm_compute; reflexivity)
              (traceOf_exec (autoExpandPVC fullPVC "200Gi") crashingStore)) as [H|(pvc' & H & _ & Ha & Hb & _)].
  - apply (f_equal length) in H. vm_compute in H. discriminate.
  - exists pvc'. split; [exact H|]. split; [exact Ha|]. apply Hb. vm_compute. reflexivity.
Defined.
End Witness.
