(* ===== verification/SigningProps.v ===== *)
(** The root keys of the signing service: what is published is what was read. *)
From S2P Require Import Prelude GoStrings K8s Json Sha256 Api Kube Externals Helpers Samples Instances Platform.
From S2P Require Import Health PullSecrets Quay KeycloakAdmin ManagedKeycloak Signing.

Section Keys.
Context {X : Externals}.

(** The root certificate, the public key and the address that the objects of the service give:
    a ready Securesign object, the secrets its repository of keys refers to. *)
Definition keyRead (tr : trace) (sk : SecretKey) (pem : string) : Prop :=
  exists s, In (Ev (CGet KSecret (mkNN architectNamespace (fst sk))) (Ok s)) tr /\
    pem = map_get (sec_Data s) (snd sk) /\ pem <> "".
Definition keysRead (tr : trace) (fulcio rekor tuf : string) : Prop :=
  exists securesign status repository refs,
    In (Ev (CGet KSecuresign securesignKey) (Ok securesign)) tr /\
    readyStatus securesign = Ok status /\ tufURLOf status = Ok tuf /\
    In (Ev (CGet (KUnstructured tufGVK) securesignKey) (Ok repository)) tr /\
    keyRefs repository = Ok refs /\ keyRead tr (fst refs) fulcio /\ keyRead tr (snd refs) rekor.

(** The ConfigMap holds them: it did when it was read, and nothing is written; or it held others,
    and is updated; or there was none, and it is created. *)
Definition trustedRootKey : NamespacedName := key_of_meta trustedRootMeta.
Definition holdsKeys (fulcio rekor tuf : string) (cm : ConfigMap) : Prop :=
  sameKeys fulcio rekor tuf cm = true /\ key_of (K := KConfigMap) cm = trustedRootKey.
Inductive keysPublished (tr : trace) (fulcio rekor tuf : string) : Prop :=
| keys_kept cm :
    In (Ev (CGet KConfigMap trustedRootKey) (Ok cm)) tr -> sameKeys fulcio rekor tuf cm = true ->
    writes tr = [] -> keysPublished tr fulcio rekor tuf
| keys_updated old cm stored :
    In (Ev (CGet KConfigMap trustedRootKey) (Ok old)) tr -> sameKeys fulcio rekor tuf old = false ->
    writes tr = [CUpdate KConfigMap cm] -> In (Ev (CUpdate KConfigMap cm) (Ok stored)) tr -> holdsKeys fulcio rekor tuf cm -> keysPublished tr fulcio rekor tuf
| keys_created e cm stored :
    In (Ev (CGet KConfigMap trustedRootKey) (Err e)) tr -> IsNotFound e = true ->
    writes tr = [CCreate KConfigMap cm] -> In (Ev (CCreate KConfigMap cm) (Ok stored)) tr -> holdsKeys fulcio rekor tuf cm -> keysPublished tr fulcio rekor tuf.

(** The status records their hashes, and nothing else of the platform changes. *)
Definition keysRecorded (p p' : DisconnectedPlatform) (fulcio rekor tuf : string) : Prop :=
  (exists k, dpst_RHTASRootKeys (dp_Status p') = Some k /\ rrk_FulcioRootHash k = hashString fulcio /\
     rrk_RekorKeyHash k = hashString rekor /\ rrk_TUFRepositoryURL k = tuf) /\
  p' <| dp_Status ::= fun s => s <| dpst_RHTASRootKeys := dpst_RHTASRootKeys (dp_Status p) |> |> = p.

Lemma exec_rbind {A B} (p : prog (result A)) (k : A -> prog (result B)) tr b :
  exec (rbind p k) tr (Done (Ok b)) ->
  exists a t1 t2, tr = t1 ++ t2 /\ exec p t1 (Done (Ok a)) /\ exec (k a) t2 (Done (Ok b)).
Proof.
  unfold rbind. intros [(m & _ & [=])|([a|e] & t1 & t2 & H1 & H2 & ->)]%exec_bind; [eauto 10|].
  apply exec_inv in H2 as [_ [=]].
Qed.
Lemma exec_getWrapped failure K k tr o :
  exec (getWrapped failure K k) tr (Done (Ok o)) -> tr = [Ev (CGet K k) (Ok o)].
Proof.
  unfold getWrapped. intros (g & t & -> & H)%exec_call_bind. apply exec_inv in H as [-> [= H]]. by destruct g; simplify_eq.
Qed.
Lemma exec_Get K k tr o : exec (Get K k) tr (Done (Ok o)) -> tr = [Ev (CGet K k) (Ok o)].
Proof. intros (g & t & -> & H)%exec_inv. by apply exec_inv in H as [-> [= ->]]. Qed.
Lemma exec_mret {A} (a b : A) tr : exec (mret a) tr (Done b) -> tr = [] /\ a = b.
Proof. by intros [-> [= ->]]%exec_inv. Qed.
Lemma exec_keyFrom sk failure empty tr pem :
  exec (keyFrom sk failure empty) tr (Done (Ok pem)) -> keyRead tr sk pem.
Proof.
  unfold keyFrom. intros (g & t & -> & H)%exec_call_bind. apply exec_mret in H as [-> H].
  destruct g as [s|]; [|done]. destruct (_ == "") eqn:E; [done|]. injection H as <-.
  exists s. split; [by left|]. split; [done|]. by apply String.eqb_neq.
Qed.

Lemma keyRead_app t1 t t2 sk pem : keyRead t sk pem -> keyRead (t1 ++ t ++ t2) sk pem.
Proof. intros (s & H & Hp). exists s. split; [|exact Hp]. rewrite !in_app_iff. tauto. Qed.
Lemma keyRead_cons e t sk pem : keyRead t sk pem -> keyRead (e :: t) sk pem.
Proof. intros (s & H & Hp). exists s. split; [by right|exact Hp]. Qed.

Lemma readRootKeys_spec tr fulcio rekor tuf :
  exec readRootKeys tr (Done (Ok (fulcio, rekor, tuf))) -> keysRead tr fulcio rekor tuf.
Proof.
  unfold readRootKeys. intros (securesign & t1 & r1 & -> & ->%exec_Get & H)%exec_rbind.
  apply exec_rbind in H as (status & t2 & r2 & -> & [-> Hs]%exec_mret & H).
  apply exec_rbind in H as (url & t3 & r3 & -> & [-> Hu]%exec_mret & H).
  apply exec_rbind in H as (rep & t4 & r4 & -> & ->%exec_getWrapped & H).
  apply exec_rbind in H as (refs & t5 & r5 & -> & [-> Hk]%exec_mret & H).
  apply exec_rbind in H as (f & t6 & r6 & -> & Hf%exec_keyFrom & H).
  apply exec_rbind in H as (r & t7 & r7 & -> & Hr%exec_keyFrom & H).
  apply exec_mret in H as [-> [= -> -> ->]]. cbn [app]. exists securesign, status, rep, refs.
  repeat split; [by left|done|done|by right; left|done| |].
  - apply keyRead_cons, keyRead_cons, (keyRead_app [] t6), Hf.
  - apply keyRead_cons, keyRead_cons, (keyRead_app t6 t7 []), Hr.
Qed.

Lemma readRootKeys_writes tr x : exec readRootKeys tr (Done x) -> writes tr = [].
Proof.
  intros H. apply writes_reads. revert H. apply always_exec.
  unfold readRootKeys, rbind, getWrapped, keyFrom. always_go; by repeat constructor.
Qed.
Lemma keysRead_app t1 t2 fulcio rekor tuf : keysRead t1 fulcio rekor tuf -> keysRead (t1 ++ t2) fulcio rekor tuf.
Proof.
  intros (o & st & rep & refs & H1 & H2 & H3 & H4 & H5 & Hf & Hr). exists o, st, rep, refs.
  apply (keyRead_app []) with (t2 := t2) in Hf, Hr. cbn [app] in *. rewrite !in_app_iff. tauto.
Qed.
Lemma keysPublished_app t1 t t2 fulcio rekor tuf :
  writes t1 = [] -> writes t2 = [] -> keysPublished t fulcio rekor tuf -> keysPublished (t1 ++ t ++ t2) fulcio rekor tuf.
Proof.
  intros W1 W2 H. assert (Hw : writes (t1 ++ t ++ t2) = writes t)
    by (by rewrite !writes_app, W1, W2, app_nil_r).
  assert (Hin : forall e, In e t -> In e (t1 ++ t ++ t2)) by (intros e; rewrite !in_app_iff; tauto).
  destruct H as [cm H Hs E|old cm st H Hs E Hi Hc|e cm st H He E Hi Hc]; rewrite <- Hw in E.
  - by eapply keys_kept; [apply Hin| |].
  - by eapply keys_updated; [apply Hin| | |apply Hin|].
  - by eapply keys_created; [apply Hin| | |apply Hin|].
Qed.

Lemma trustedRoot_same fulcio rekor tuf now : sameKeys fulcio rekor tuf (trustedRoot fulcio rekor tuf now) = true.
Proof. unfold sameKeys, trustedRoot, map_get. cbn. by rewrite !str_eqb_refl. Qed.

Lemma publishKeys_spec fulcio rekor tuf tr :
  exec (publishKeys fulcio rekor tuf) tr (Done None) -> keysPublished tr fulcio rekor tuf.
Proof.
  unfold publishKeys. intros (now & t & -> & H)%exec_call_bind. cbv zeta in H.
  apply exec_call_bind in H as (g & t' & -> & H). destruct g as [cm|e].
  - destruct (sameKeys _ _ _ cm) eqn:E.
    + apply exec_mret in H as [-> _]. by eapply keys_kept; [right; left| |].
    + apply exec_call_bind in H as (u & t & -> & H). apply exec_mret in H as [-> H]. destruct u as [st|]; [|done].
      eapply keys_updated; [right; left; reflexivity|exact E|reflexivity|do 2 right; left; reflexivity|].
      split; [apply trustedRoot_same|done].
  - destruct (IsNotFound e) eqn:E; [|by apply exec_mret in H as [_ [=]]].
    apply exec_call_bind in H as (u & t & -> & H). apply exec_mret in H as [-> H]. destruct u as [st|]; [|done].
    eapply keys_created; [right; left; reflexivity|exact E|reflexivity|do 2 right; left; reflexivity|].
    split; [apply trustedRoot_same|done].
Qed.

Lemma recordKeys_spec p fulcio rekor tuf tr p' :
  exec (recordKeys p fulcio rekor tuf) tr (Done p') -> keysRecorded p p' fulcio rekor tuf /\ writes tr = [].
Proof.
  unfold recordKeys, keysChanged, keysRecorded. destruct p as [tm om sp st]; cbn [dp_Status].
  intros H. destruct (dpst_RHTASRootKeys st) as [k|] eqn:Ek.
  - destruct (_ || _) eqn:E in H.
    + apply exec_call_bind in H as (now & t & -> & H). apply exec_mret in H as [-> <-].
      split; [|done]. split; [by eexists|]. destruct st; cbn in *; by rewrite Ek.
    + apply exec_mret in H as [-> <-]. apply orb_false_iff in E as [[Ef Er]%orb_false_iff Et].
      apply negb_false_iff, String.eqb_eq in Ef, Er, Et. split; [|done]. split; [by exists k|].
      destruct st; cbn in *; by rewrite Ek.
  - apply exec_call_bind in H as (now & t & -> & H). apply exec_mret in H as [-> <-].
    split; [|done]. split; [by eexists|]. destruct st; cbn in *; by rewrite Ek.
Qed.

(** C14: The published root keys are those of the signing service.  A run that reports no error
    has read a ready Securesign object and the secrets its TUF repository refers to, and the
    root certificate and the public key in them are not empty; the ConfigMap with the trusted
    root holds exactly these and the address of the repository: when it did as it was read nothing
    is written, when it held others it is updated and when there was none it is created, and this
    is the only write of the run; and the status of the platform records their hashes and the address, and is otherwise unchanged.  A
    run that reports an error leaves the platform as it is. *)
Theorem rootKeys_published (p p' : DisconnectedPlatform) (e : option error) tr
    (H : exec (extractRHTASRootKeys p) tr (Done (p', e))) :
  match e with
  | Some _ => p' = p
  | None =>
      exists fulcio rekor tuf, keysRead tr fulcio rekor tuf /\ keysPublished tr fulcio rekor tuf /\
        keysRecorded p p' fulcio rekor tuf
  end.
Proof.
  unfold extractRHTASRootKeys in H.
  apply exec_bind in H as [(m & _ & [=])|(k & t1 & t2 & H1 & H & ->)].
  destruct k as [[[fulcio rekor] tuf]|err]; [|by apply exec_mret in H as [_ [= <- <-]]].
  apply exec_bind in H as [(m & _ & [=])|([err|] & t3 & t4 & H2 & H & ->)];
    [by apply exec_mret in H as [_ [= <- <-]]|].
  apply exec_bind in H as [(m & _ & [=])|(p1 & t5 & t6 & H3 & H & ->)]. apply exec_mret in H as [-> [= <- <-]].
  apply readRootKeys_writes in H1 as Hw1. apply readRootKeys_spec in H1. apply publishKeys_spec in H2.
  apply recordKeys_spec in H3 as [Hr Hw]. exists fulcio, rekor, tuf. rewrite app_nil_r.
  split; [by apply keysRead_app|]. split; [by apply keysPublished_app|exact Hr].
Qed.
End Keys.

Section Witness.
#[local] Existing Instance sampleX.

(** ** A signing service that is ready *)

Definition readySecuresign : Unstructured :=
  mkUnstructured securesignGVK (sampleMeta architectNamespace securesignName)
    [("status", JMap [("conditions", JList [JMap [("type", JStr "Ready"); ("status", JStr "True")]]);
                      ("tuf", JMap [("url", JStr "https://tuf.example.com")])])].
Definition keyEntry (name secret key : string) : json :=
  JMap [("name", JStr name); ("secretRef", JMap [("name", JStr secret); ("key", JStr key)])].
Definition sampleTuf : Unstructured :=
  mkUnstructured tufGVK (sampleMeta architectNamespace securesignName)
    [("status", JMap [("keys", JList [keyEntry "rekor.pub" "rekor-keys" "public"; keyEntry "ctfe.pub" "ctlog" "public";
                                      keyEntry "fulcio_v1.crt.pem" "fulcio-cert" "cert"])])].
Definition signingStore : store :=
  with_objs (with_objs (with_objs emptyStore KSecuresign [readySecuresign]) (KUnstructured tufGVK) [sampleTuf])
    KSecret [mkSecret (sampleMeta architectNamespace "rekor-keys") (Some {[ "public" := "REKOR" ]});
             mkSecret (sampleMeta architectNamespace "fulcio-cert") (Some {[ "cert" := "FULCIO" ]})].
Definition signedPlatform : DisconnectedPlatform :=
  mkDisconnectedPlatform (mkTypeMeta "" "") (sampleMeta "" "platform")
    (mkDisconnectedPlatformSpec PlatformModeConnected None None None None)
    (mkDisconnectedPlatformStatus "" [] None [] None [] [] None).
Definition keysRun (s : store) := run (extractRHTASRootKeys signedPlatform) s.

(** The first run writes the ConfigMap, the second writes nothing; both read the same keys. *)
Lemma rootKeys_published_witness :
  let again := snd (keysRun signingStore) in
  length (writes (fst (fst (keysRun signingStore)))) = 1 /\ writes (fst (fst (keysRun again))) = [] /\
  exists p', exec (extractRHTASRootKeys signedPlatform) (fst (fst (keysRun signingStore))) (Done (p', None)) /\
    exists fulcio rekor tuf, keysRead (fst (fst (keysRun signingStore))) fulcio rekor tuf /\
      keysPublished (fst (fst (keysRun signingStore))) fulcio rekor tuf /\
      keysRecorded signedPlatform p' fulcio rekor tuf.
Proof.
  split; [vm_compute; reflexivity|]. split; [vm_compute; reflexivity|].
  assert (H := traceOf_exec (extractRHTASRootKeys signedPlatform) signingStore).
  change (traceOf _ _) with (fst (fst (keysRun signingStore))) in H.
  assert (E : exists p', outcomeOf (extractRHTASRootKeys signedPlatform) signingStore = Done (p', None))
    by (eexists; vm_compute; reflexivity).
  destruct E as [p' E]. rewrite E in H. exists p'. split; [exact H|].
  exact (rootKeys_published signedPlatform p' None _ H).
Defined.
End Witness.
