(* ===== verification/SampleCluster.v ===== *)
(** A sample connected cluster on which the platform is reconciled: its operators are
    installed, its Keycloak is ready and answers. *)
From S2P Require Import Prelude GoStrings K8s Json Api Kube Externals Helpers Samples Instances Operators Platform.
From S2P Require Import Health PullSecrets Quay KeycloakAdmin ManagedKeycloak Signing PlatformReconciler OperatorProps.

(** ** The platform *)

Definition sampleKeycloakConfig (realm : string) : ManagedKeycloakConfig :=
  mkManagedKeycloakConfig true realm "" "" (Some (mkLocalRef "tls")).
Definition sampleConnected (realm : string) : ConnectedConfig :=
  mkConnectedConfig "" "" (mkArtifactStorageConfig "" "") [] None
    (Some (mkRHTASInstallerConfig
             (Some (mkRHTASOIDCConfig "" "" "" "" (Some (sampleKeycloakConfig realm)))) None None))
    (Some (mkRHTPAInstallerConfig (Some (mkRHTPAStorageConfig "" "" "" "" "" "")) None None "" "" None))
    None None None "".
Definition noStatus : DisconnectedPlatformStatus :=
  mkDisconnectedPlatformStatus "" [] None [] None [] [] None.
Definition sampleConnectedPlatform (mode realm : string) : DisconnectedPlatform :=
  mkDisconnectedPlatform (mkTypeMeta "" "")
    ((sampleMeta "" "platform") <| om_Finalizers := [platformFinalizer] |>)
    (mkDisconnectedPlatformSpec mode (Some (sampleConnected realm)) None None None) noStatus.
Definition sampleReconciler : DisconnectedPlatformReconciler :=
  mkPlatformReconciler "oc-mirror:v2" "" "" "" "skopeo:1" "ubi9:1" "ubi9-minimal:1" false false false.
Definition samplePlatformKey : NamespacedName := mkNN "" "platform".

(** ** What Keycloak answers *)

Section Web.
#[local] Existing Instance sampleX.
Definition webOk (code : Z) (v : json) : result HttpReply := Ok (mkHttpReply code "" "https://keycloak/x/id-1" (marshalText v)).
(** Every list is empty, everything can be created. *)
Definition sampleWeb (rq : HttpRequest) : result HttpReply :=
  if HasSuffix (rq_URL rq) "/openid-connect/token" then webOk 200 (JMap [("access_token", JStr "t0k3n")])
  else if HasSuffix (rq_URL rq) "/client-secret" then webOk 200 (JMap [("value", JStr "s3cret")])
  else if rq_Method rq == "GET" then
    webOk 200 (if Contains (rq_URL rq) "?clientId=" then JList [JMap [("id", JStr "client-1")]] else JList [])
  else if rq_Method rq == "POST" then webOk 201 (JMap [])
  else webOk 204 (JMap []).
End Web.

(** ** The cluster *)

Definition sampleKeycloak : Unstructured :=
  mkUnstructured keycloakGVK (sampleMeta architectNamespace keycloakName)
    [("spec", JMap [("hostname", JMap [("hostname", JStr "keycloak.apps.example.com")])]);
     ("status", JMap [("conditions", JList [JMap [("type", JStr "Ready"); ("status", JStr "True")]])])].
Definition sampleIngress : Unstructured :=
  mkUnstructured gvkIngress (sampleMeta "" "cluster") [("spec", JMap [("domain", JStr "apps.example.com")])].
Definition sampleAdminSecret : Secret :=
  mkSecret (sampleMeta architectNamespace "mirror-operator-keycloak-initial-admin")
    (Some (list_to_map [("username", "admin"); ("password", "pa55word")])).

Definition with_web (s : store) (web : HttpRequest -> result HttpReply) : store :=
  mkStore (st_objs s) (st_clock s) (st_http s) web.
Definition installed_operators (s : store) : store :=
  with_objs (with_objs s KSubscription (map sampleSubscription defaultOperators))
    (KUnstructured csvGVK) (map sampleCSV defaultOperators).
Definition clusterStore (mode realm : string) : store :=
  with_web
    (installed_operators
       (with_objs (with_objs (with_objs (with_objs emptyStore KDisconnectedPlatform [sampleConnectedPlatform mode realm])
          (KUnstructured keycloakGVK) [sampleKeycloak]) (KUnstructured gvkIngress) [sampleIngress])
          KSecret [sampleAdminSecret]))
    sampleWeb.

Definition samplePlatformRun : prog reconcile_out :=
  Reconcile (X := sampleX) "#!/bin/bash" sampleReconciler samplePlatformKey.
