(* ===== verification/RightsProps.v ===== *)
(** The operator stays within its rights: every call of a reconciler is one its ClusterRole
    allows, and no role it writes grants more than it holds. *)
From S2P Require Import Prelude GoStrings K8s Json Api Kube Externals Helpers Operators PlatformStatus Platform.
From S2P Require Import Health CABundles PullSecrets Pipelines Quay ConnectedQuay Architect Registry Airgapped HostInventory.
From S2P Require Import UpdateService KeycloakAdmin Keycloak Postgres KeycloakOAuth ManagedKeycloak Signing Trustify RHTPA.
From S2P Require Import Samples Instances SampleCluster ImageSet CollectionBuild Collection ImportController Bootstrap Events Nested Artifacts PlatformReconciler Rights.

(** ** Calls within the rights *)

(** The one call that is not: [ensureTrustifyOIDCClient] lists a kind of another group. *)
Definition listsCharts (c : call) : Prop := c = CList (KUnstructured chartTPAGVK) None [].
Definition within (c : call) : Prop := (permitted c = true \/ listsCharts c) /\ grantable c = true.
(** It does not write the status of a platform. *)
Definition statusKept (c : call) : Prop :=
  match c with CStatusUpdate K _ => K <> KDisconnectedPlatform | _ => True end.
Definition offline (c : call) : Prop := match c with CHttp _ => False | _ => True end.

(** The calls of the parts of the reconcile: those of most, and those of the parts that talk to
    Keycloak. *)
Definition talking (c : call) : Prop := within c /\ statusKept c.
Definition quiet (c : call) : Prop := talking c /\ offline c.

Ltac head_of t := lazymatch t with ?f _ => head_of f | _ => t end.
Ltac unfold_program :=
  lazymatch goal with
  | |- always _ ?p => let h := head_of p in unfold h
  end.
Ltac within_leaf :=
  repeat lazymatch goal with
  | |- quiet _ => split
  | |- talking _ => split
  | |- within _ => split; [first [left; lazy; reflexivity|right; reflexivity]|lazy; reflexivity]
  | |- statusKept _ => cbn; first [exact I|discriminate]
  | |- offline _ => cbn; exact I
  end.
(** Goes through a program, unfolding the functions it calls; [leaf] closes the goal of a call. *)
Ltac walk_program leaf :=
  cbv beta zeta;
  first
    [ solve [eauto with always]
    | lazymatch goal with |- always _ (Call _ Ret) => idtac end;
      apply always_call; intros ?; solve [leaf tt]
    | always_step; walk_program leaf
    | unfold_program; walk_program leaf
    | idtac ].
Ltac program_go := walk_program ltac:(fun _ => constructor; [within_leaf|constructor]).

Section Footprint.
Context {X : Externals} {Y : IscYaml} `{!ExternalsLaws X}.

(** *** What all platforms need *)

Lemma quiet_own l : always (calls quiet) (configureOwnSubscription l).
Proof. induction l; cbn [configureOwnSubscription]; program_go. Qed.
#[local] Hint Resolve quiet_own : always.
Lemma quiet_bundles : always (calls quiet) ensureBundles.
Proof. program_go. Qed.
Lemma quiet_subscribeAll o l c : always (calls quiet) (subscribeAll o l c).
Proof. revert c. induction l; intros; cbn [subscribeAll]; program_go. Qed.
#[local] Hint Resolve quiet_subscribeAll quiet_bundles : always.
Lemma quiet_subscriptions p : always (calls quiet) (reconcileSubscriptions p).
Proof. program_go. Qed.
Lemma quiet_deletePods l : always (calls quiet) (PullSecrets.deletePods l).
Proof. induction l; cbn [PullSecrets.deletePods]; program_go. Qed.

(** A kind whose objects may be read and deleted. *)
Definition deletable (g : GroupVersionKind) : bool :=
  held (on "get" (KUnstructured g) "") && held (on "delete" (KUnstructured g) "").
Lemma quiet_deletable g (k : NamespacedName) (o : Unstructured) :
  deletable g = true -> quiet (CGet (KUnstructured g) k) /\ quiet (CDelete (KUnstructured g) o).
Proof.
  intros [H1 H2]%andb_true_iff. repeat split; left; unfold permitted; cbn [rightsOf readRights cached forallb].
  - by rewrite H1.
  - by rewrite H2.
Qed.
Lemma quiet_deleteResources l :
  Forall (fun gn => deletable (fst gn) = true) l -> always (calls quiet) (deleteResources l).
Proof.
  induction 1 as [|[g name] l Hg _ IH]; cbn [deleteResources]; [program_go|].
  apply always_bind; [exact _| |intros _; exact IH]. unfold deleteResource.
  apply always_bind; [exact _|apply always_call; intros r|intros [o|e]].
  - constructor; [|constructor]. by apply (quiet_deletable g _ (unstructured_ g "" "" [])).
  - apply always_call; intros r. constructor; [|constructor]. by apply (quiet_deletable g (mkNN "" "")).
  - apply always_ret; exact _.
Qed.
Lemma quiet_deleteBlindly l :
  Forall (fun o => deletable (u_GVK o) = true) l -> always (calls quiet) (deleteBlindly l).
Proof.
  induction 1 as [|o l Hg _ IH]; cbn [deleteBlindly]; [program_go|].
  apply always_bind; [exact _|apply always_call; intros r|intros _; exact IH].
  constructor; [|constructor]. by apply (quiet_deletable _ (mkNN "" "")).
Qed.

(** *** The Airgap Architect *)

Lemma quiet_removeArchitect p : always (calls quiet) (deleteArchitectResources p).
Proof. apply quiet_deleteResources. repeat constructor; lazy; reflexivity. Qed.
Lemma quiet_removePlugin : always (calls quiet) deleteConsolePluginResources.
Proof. apply quiet_deleteBlindly. repeat constructor; lazy; reflexivity. Qed.
Lemma quiet_removeFrontend p : always (calls quiet) (deleteArchitectFrontendResources p).
Proof. apply quiet_deleteBlindly. repeat constructor; lazy; reflexivity. Qed.

Lemma architect_rules : jget (u_Object architectRole) "rules" = JList architectRules.
Proof.
  unfold architectRole, architectObject. cbn [set u_Object unstructured_].
  assert (H := set_field_at [] (JList architectRules) ["rules"] eq_refl).
  unfold set_field in H. rewrite <- SetNestedSlice_field in H. cbn in H.
  by destruct (jhas _ "rules"); injection H.
Qed.
(** The rules of the backend, granted whatever version of its role is replaced. *)
Lemma quiet_architectRole :
  (quiet (CCreate (KUnstructured roleGVK) architectRole)) /\
  forall o, quiet (CUpdate (KUnstructured roleGVK) (withVersionOf o architectRole)).
Proof.
  assert (H : forallb held (concat (map grants (map ruleOf architectRules))) = true) by (vm_compute; reflexivity).
  repeat split; try (left; lazy; reflexivity); try discriminate.
  all: unfold grantable, writtenRules, rulesOf; cbn [withVersionOf set u_Object]; rewrite architect_rules; exact H.
Qed.
Lemma quiet_ensureArchitectRole : always (calls quiet) ensureArchitectRole.
Proof. program_go; (constructor; [apply quiet_architectRole|constructor]). Qed.
#[local] Hint Resolve quiet_subscriptions quiet_deletePods quiet_removeArchitect quiet_removePlugin
  quiet_removeFrontend quiet_ensureArchitectRole : always.
Lemma quiet_architect r p : always (calls quiet) (reconcileArchitect r p).
Proof. program_go. Qed.

(** *** The airgapped platform *)

Lemma quiet_subscribeAirgapped l c b : always (calls quiet) (subscribeAirgapped l c b).
Proof. revert c b. induction l; intros; cbn [subscribeAirgapped]; program_go. Qed.
Lemma quiet_passwordFrom n i : always (calls quiet) (passwordFrom n i).
Proof. revert i. induction n; intros; cbn [passwordFrom]; program_go. Qed.
Lemma quiet_imageSets h l : always (calls quiet) (createImageSets h l).
Proof. induction l; intros; cbn [createImageSets]; program_go. Qed.
#[local] Hint Resolve quiet_subscribeAirgapped quiet_passwordFrom quiet_imageSets quiet_architect : always.
Lemma quiet_airgappedSubscriptions p : always (calls quiet) (reconcileAirgappedSubscriptions p).
Proof. program_go. Qed.
Lemma quiet_airgapped r p : always (calls quiet) (reconcileAirgapped r p).
Proof. program_go. Qed.
#[local] Hint Resolve quiet_airgappedSubscriptions quiet_airgapped : always.
Lemma quiet_airgappedStep r p : always (calls quiet) (airgappedStep r p).
Proof. program_go. Qed.

(** *** The connected platform *)

Lemma quiet_quay p : always (calls quiet) (reconcileQuayConfig p).
Proof. program_go. Qed.
#[local] Hint Resolve quiet_quay : always.
Lemma quiet_quayStep r p : always (calls quiet) (quayStep r p).
Proof. program_go. Qed.
Lemma quiet_updateServiceStep r p : always (calls quiet) (updateServiceStep r p).
Proof. program_go. Qed.
Lemma quiet_artifactsStep s r p : always (calls quiet) (artifactsStep s r p).
Proof. program_go. Qed.
#[local] Hint Resolve quiet_quayStep quiet_updateServiceStep quiet_artifactsStep : always.
Lemma quiet_connectedStep s r p : always (calls quiet) (connectedStep s r p).
Proof. program_go. Qed.

(** *** Signing and its health *)

Lemma quiet_history l : always (calls quiet) (collectionHistory l).
Proof. induction l; cbn [collectionHistory]; program_go. Qed.
Lemma quiet_restartFulcio pod l : always (calls quiet) (restartFulcio pod l).
Proof. induction l; cbn [restartFulcio]; program_go. Qed.
Lemma quiet_collections k l : always (calls quiet) (updateCollections k l).
Proof. induction l; cbn [updateCollections]; program_go. Qed.
#[local] Hint Resolve quiet_history quiet_restartFulcio quiet_collections quiet_connectedStep quiet_airgappedStep : always.
Lemma quiet_healthChecks p : always (calls quiet) (performRHTASHealthChecks p).
Proof. program_go. Qed.

(** *** The parts that talk to Keycloak *)

Lemma always_talking {A} (p : prog A) : always (calls quiet) p -> always (calls talking) p.
Proof. apply always_mono. intros tr. apply calls_mono. by intros c []. Qed.
#[local] Hint Resolve always_talking quiet_healthChecks : always.

Lemma talking_updateSecret h c r : always (calls talking) (updateKeycloakClientSecret h c r).
Proof. program_go. Qed.
Lemma talking_emailMapper h c r : always (calls talking) (configureKeycloakEmailMapper h c r).
Proof. program_go. Qed.
Lemma talking_emailScope h c r u t : always (calls talking) (ensureEmailVerifiedClientScope h c r u t).
Proof. program_go. Qed.
#[local] Hint Resolve talking_updateSecret talking_emailMapper talking_emailScope : always.
Lemma talking_realm h r c : always (calls talking) (configureKeycloakRealmAndClient h r c).
Proof. program_go. Qed.
Lemma talking_realms h a t l : always (calls talking) (addToRealms h a t l).
Proof. induction l; cbn [addToRealms]; program_go. Qed.
#[local] Hint Resolve talking_realm talking_realms : always.
Lemma talking_keycloak p : always (calls talking) (reconcileManagedKeycloak p).
Proof. program_go. Qed.
Lemma talking_rootKeys p : always (calls talking) (extractRHTASRootKeys p).
Proof. program_go. Qed.
Lemma talking_signing p : always (calls talking) (configureCollectionPipelineSigning p).
Proof. program_go. Qed.
#[local] Hint Resolve talking_keycloak talking_rootKeys talking_signing : always.
Lemma talking_signingStep p : always (calls talking) (signingStep p).
Proof. program_go. Qed.

Lemma talking_assignScope h r u s t : always (calls talking) (assignScopeToClient h r u s t).
Proof. program_go. Qed.
Lemma talking_assignRole h r u s t : always (calls talking) (assignRoleToServiceAccountByClient h r u s t).
Proof. program_go. Qed.
#[local] Hint Resolve talking_assignScope talking_assignRole : always.
Lemma talking_oidcClient h r c d t b : always (calls talking) (ensureTrustifyOIDCClient h r c d t b).
Proof. program_go. Qed.
Lemma talking_redirects h r c : always (calls talking) (updateTrustifyRedirectURIs h r c).
Proof. program_go. Qed.
#[local] Hint Resolve talking_oidcClient talking_redirects : always.
Lemma talking_trustifyRealm h r d : always (calls talking) (ensureTrustifyRealmAndOIDC h r d).
Proof. program_go. Qed.
#[local] Hint Resolve talking_trustifyRealm : always.
Lemma talking_refresh i o : always (calls talking) (refreshTPA i o).
Proof. program_go. Qed.
Lemma talking_createTPA cfg : always (calls talking) (createTPA cfg).
Proof. program_go. Qed.
#[local] Hint Resolve talking_refresh talking_createTPA : always.
Lemma talking_rhtpaStep p : always (calls talking) (rhtpaStep p).
Proof. program_go. Qed.

(** *** The reconcilers *)

Lemma always_within {A} (p : prog A) : always (calls talking) p -> always (calls within) p.
Proof. apply always_mono. intros tr. apply calls_mono. by intros c []. Qed.
#[local] Hint Resolve always_within talking_signingStep talking_rhtpaStep : always.
Lemma within_removal p : always (calls within) (PlatformReconciler.cleanup p).
Proof. program_go. Qed.
Lemma within_rest s r o b p : always (calls within) (reconcileRest s r o b p).
Proof. program_go. Qed.
#[local] Hint Resolve within_rest within_removal : always.
Lemma within_platform s r q : always (calls within) (PlatformReconciler.Reconcile s r q).
Proof. program_go. Qed.
Lemma within_bootstrap q : always (calls within) (Bootstrap.Reconcile q).
Proof. program_go. Qed.
Lemma within_import r q : always (calls within) (ImportController.Reconcile r q).
Proof. program_go. Qed.
Lemma within_containers pod l : always (calls within) (checkContainers pod l).
Proof. induction l; cbn [checkContainers]; program_go. Qed.
#[local] Hint Resolve within_containers : always.
Lemma within_health q : always (calls within) (Health.Reconcile q).
Proof. program_go. Qed.
Lemma within_restart l : always (calls within) (restartPods l).
Proof. induction l; cbn [restartPods]; program_go. Qed.
#[local] Hint Resolve within_restart : always.
Lemma within_taskRun e : always (calls within) (taskRunEventHandler e).
Proof. program_go. Qed.
Lemma within_collectionEvent e : always (calls within) (collectionPipelineEventHandler e).
Proof. program_go. Qed.
Lemma within_nodeEvent e : always (calls within) (nodeEventHandler e).
Proof. program_go. Qed.
Lemma within_secretEvent e : always (calls within) (secretEventHandler e).
Proof. program_go. Qed.
Lemma within_collection r q : always (calls within) (Collection.Reconcile r q).
Proof. program_go. Qed.

(** What the operator does: a run of one of its reconcilers, or of the handler of an event. *)
Inductive operates : trace -> Prop :=
| runs_collection r q tr o : exec (Collection.Reconcile r q) tr o -> operates tr
| runs_platform script r q tr o : exec (PlatformReconciler.Reconcile script r q) tr o -> operates tr
| runs_import r q tr o : exec (ImportController.Reconcile r q) tr o -> operates tr
| runs_bootstrap q tr o : exec (Bootstrap.Reconcile q) tr o -> operates tr
| runs_health q tr o : exec (Health.Reconcile q) tr o -> operates tr
| sees_secret e tr o : exec (secretEventHandler e) tr o -> operates tr
| sees_collection e tr o : exec (collectionPipelineEventHandler e) tr o -> operates tr
| sees_node e tr o : exec (nodeEventHandler e) tr o -> operates tr
| sees_taskRun e tr o : exec (taskRunEventHandler e) tr o -> operates tr.

Lemma operates_within tr : operates tr -> calls within tr.
Proof.
  destruct 1 as [r q tr o H|s r q tr o H|r q tr o H|q tr o H|q tr o H|e tr o H|e tr o H|e tr o H|e tr o H];
    (eapply always_exec; [|exact H]);
    first [apply within_collection|apply within_platform|apply within_import|apply within_bootstrap
          |apply within_health|apply within_secretEvent|apply within_collectionEvent|apply within_nodeEvent
          |apply within_taskRun].
Qed.

(** C1: The operator stays within its rights.  Whatever the cluster answers, every call of its
    five reconcilers and of its event handlers is one that the rules of its ClusterRole allow
    (a read of an object with a schema needs to list and watch its kind too, for the cache),
    but one: listing the profile analyzers of the group [charts.trustification.dev], which no
    rule mentions and which therefore always fails.  And every Role or ClusterRole it writes
    grants only what the operator itself holds, without which the API server rejects the role. *)
Theorem operator_within_rights (tr : trace) (c : call) (H : operates tr) (Hc : In c (map ev_call tr)) :
  (permitted c = true \/ listsCharts c) /\ grantable c = true.
Proof.
  apply in_map_iff in Hc as (e & <- & He). apply operates_within in H.
  unfold calls in H. rewrite List.Forall_forall in H. exact (H e He).
Qed.

(** The call no rule allows is made. *)
Lemma charts_not_permitted c : listsCharts c -> permitted c = false.
Proof. intros ->. vm_compute. reflexivity. Qed.
End Footprint.

#[export] Hint Resolve quiet_bundles quiet_subscriptions quiet_architect quiet_airgappedStep quiet_connectedStep
  quiet_history always_talking talking_keycloak talking_signingStep talking_rhtpaStep : always.

Section Witness.
#[local] Existing Instances sampleX sampleYaml.

Definition lists_charts (c : call) : bool :=
  match c with CList K None [] => bool_decide (K = KUnstructured chartTPAGVK) | _ => false end.
Lemma listed l : existsb lists_charts l = true -> In (CList (KUnstructured chartTPAGVK) None []) l.
Proof.
  intros ([] & Hin & H)%existsb_exists; try discriminate. destruct ns, labels; try discriminate.
  apply bool_decide_eq_true in H as ->. exact Hin.
Qed.

Lemma operator_within_rights_witness :
  let tr := traceOf samplePlatformRun (clusterStore "airgapped" "") in
  operates tr /\ length (writes tr) = 9 /\
  In (CList (KUnstructured chartTPAGVK) None []) (map ev_call tr) /\
  forall c, In c (map ev_call tr) -> (permitted c = true \/ listsCharts c) /\ grantable c = true.
Proof.
  intros tr.
  assert (H : operates tr) 
    by exact (runs_platform _ _ _ _ _ (traceOf_exec samplePlatformRun (clusterStore "airgapped" ""))).
  split; [exact H|]. split; [vm_compute; reflexivity|]. split.
  - apply listed. vm_compute. reflexivity.
  - intros c. exact (operator_within_rights tr c H).
Defined.
End Witness.
