(* ===== verification/PlatformReconcilerProps.v ===== *)
(** Properties of the reconcile of a platform: what it reports and when it comes back, its
    finalizer, and what waits for Keycloak. *)
From S2P Require Import Prelude GoStrings K8s Json Api Kube Externals Helpers Operators PlatformStatus Platform.
From S2P Require Import Samples Instances SampleCluster PlatformStatusProps Health CABundles PullSecrets Quay ConnectedQuay.
From S2P Require Import Architect ArchitectProps Airgapped ManagedKeycloak Signing Trustify RHTPA PlatformReconciler RightsProps.

(** ** What is reported *)

Section Report.
Context {X : Externals} `{!ExternalsLaws X}.

Abbreviation StatusWrite p u := (Ev (CStatusUpdate KDisconnectedPlatform p) u).










(** *** The status that is written *)



(** *** The steps that count *)



(** *** What comes after them *)







(** ** The finalizer *)

(** What a removal deletes, without reading it first, after the six resources of the Airgap
    Architect: the parts of Keycloak, of the signing service, of the profile analyzer and of the
    hub of ACM. *)
Definition partDeletions : list call :=
  let named (g : GroupVersionKind) (ns name : string) := CDelete (KUnstructured g) (unstructured_ g ns name []) in
  [named keycloakRealmGVK architectNamespace "mirror-operator-keycloak-realm";
   named keycloakGVK architectNamespace keycloakName;
   named certificateGVK architectNamespace "keycloak-certificate";
   named securesignGVK architectNamespace securesignName;
   CDelete KConfigMap
     (mkConfigMap (meta0 <| om_Name := "rhtas-trusted-root" |> <| om_Namespace := architectNamespace |>) None);
   named tpaGVK architectNamespace tpaName;
   named mchGVK acmNamespace "multiclusterhub";
   CDelete KSubscription
     (unstructured_ subscriptionGVK acmNamespace "mirror-operator-advanced-cluster-management" [])].

Definition removeParts : prog unit :=
  _ ← deleteManagedKeycloak; _ ← deleteRHTASConfig; _ ← deleteRHTPAConfig; _ ← deleteAirgappedACM; mret tt.
Lemma cleanup_parts p :
  containsString (dp_Finalizers p) platformFinalizer = true ->
  forall tr o, exec (PlatformReconciler.cleanup p) tr o <->
    exec (e ← deleteArchitectResources p;
          match e with
          | Some e => fail_with e
          | None => _ ← removeParts;
                    return_update KDisconnectedPlatform
                      (withPlatformFinalizers p (fun l => removeString l platformFinalizer))
          end) tr o.
Proof.
  intros Hf tr o. unfold PlatformReconciler.cleanup. rewrite Hf. reflexivity.
Qed.
Lemma removeParts_exec tr o : exec removeParts tr o -> o = Done tt /\ map ev_call tr = partDeletions.
Proof.
  intros H. do 8 (apply exec_inv in H as (? & ? & -> & H)). by apply exec_inv in H as [-> ->].
Qed.

Definition dyingPlatform (p : DisconnectedPlatform) : bool := negb (IsZero (om_DeletionTimestamp (dp_ObjectMeta p))).
Definition finalizedPlatform (p : DisconnectedPlatform) : bool := containsString (dp_Finalizers p) platformFinalizer.

(** The removal of a platform. *)
Inductive taken_down (p : DisconnectedPlatform) : trace -> outcome reconcile_out -> Prop :=
| removal_of t1 t2 u :
    removed (architectResources p) t1 -> map ev_call t2 = partDeletions ->
    taken_down p
      (t1 ++ t2 ++ [Ev (CUpdate KDisconnectedPlatform
                          (withPlatformFinalizers p (fun l => removeString l platformFinalizer))) u])
      (Done (Result0, err_of u)).

Lemma removal_shape p tr o :
  exec (PlatformReconciler.cleanup p) tr o ->
  if finalizedPlatform p then taken_down p tr o else tr = [] /\ o = Done (Result0, None).
Proof.
  destruct (finalizedPlatform p) eqn:Ef.
  - intros H. apply (cleanup_parts p Ef) in H.
    apply exec_bind in H as [(m & H & _)|(e & t1 & t2 & H1 & H & ->)];
      [by destruct (deleteResources_exec _ _ _ H) as [[=] _]|].
    apply deleteResources_exec in H1 as [[= ->] H1].
    apply exec_bind in H as [(m & H & _)|(x & t3 & t4 & H3 & H & ->)]; [by destruct (removeParts_exec _ _ H) as [[=] _]|].
    apply removeParts_exec in H3 as [_ H3].
    apply exec_call_bind in H as (u & t & -> & H). apply exec_inv in H as [-> ->]. by apply removal_of.
  - unfold PlatformReconciler.cleanup. unfold finalizedPlatform in Ef. rewrite Ef. intros H. exact (exec_inv _ _ _ H).
Qed.

(** C13: The finalizer of a platform.  A platform that is being removed and has it is taken down by
    these calls and no others: the six resources of the Airgap Architect are read and those that
    are there deleted; three objects of Keycloak, two of the signing service, the profile analyzer
    and two of the hub of ACM are deleted, whatever each call was answered; then the finalizer is
    taken off, as the last call.  So the databases, their claims, the secrets and the console
    plugin stay.  A platform that is being removed without it is left alone, and one that has none
    yet is given it and nothing else. *)
Theorem platform_finalizer_protocol (script : string) (r : DisconnectedPlatformReconciler) (req : NamespacedName) tr o
    (H : exec (PlatformReconciler.Reconcile script r req) tr o) :
  (exists e, tr = [Ev (CGet KDisconnectedPlatform req) (Err e)] /\
     o = Done (Result0, if IsNotFound e then None else Some e)) \/
  (exists p rest, tr = Ev (CGet KDisconnectedPlatform req) (Ok p) :: rest /\
     (dyingPlatform p = false -> finalizedPlatform p = false -> exists u,
        rest = [Ev (CUpdate KDisconnectedPlatform (withPlatformFinalizers p (fun l => snoc l platformFinalizer))) u] /\
        o = Done (Result0, err_of u)) /\
     (dyingPlatform p = true -> finalizedPlatform p = false -> rest = [] /\ o = Done (Result0, None)) /\
     (dyingPlatform p = true -> finalizedPlatform p = true -> taken_down p rest o)).
Proof.
  apply exec_call_bind in H as ([p|e] & rest & -> & H).
  - right. exists p, rest. split; [done|]. fold (dyingPlatform p) (finalizedPlatform p) in H.
    destruct (dyingPlatform p); (split; [|split]); intros Hd Hf; try done.
    + apply removal_shape in H. rewrite Hf in H. exact H.
    + apply removal_shape in H. rewrite Hf in H. exact H.
    + rewrite Hf in H. apply exec_call_bind in H as (u & t & -> & H). apply exec_inv in H as [-> ->]. eauto.
  - left. exists e. destruct (IsNotFound e); by apply exec_inv in H as [-> ->].
Qed.

(** ** What waits for Keycloak *)

Lemma returns_setError p reason message : returns (setErrorCondition p reason message).
Proof. unfold setErrorCondition, transitionTime. returns_go. Qed.

Lemma health_ready platform cc m tr :
  dps_Connected (dp_Spec platform) = Some cc -> enabledKeycloak cc = Some m ->
  exec (checkKeycloakHealth platform) tr (Done None) ->
  exists kc, tr = [Ev (CGet KKeycloak keycloakKey) (Ok kc)] /\ isReady kc = true.
Proof.
  intros Hc Hm H. unfold checkKeycloakHealth, withConnected in H. rewrite Hc, Hm in H.
  apply exec_call_bind in H as (g & t & -> & H). apply exec_inv in H as [-> [= H]].
  destruct g as [kc|e]; [|done]. exists kc. split; [done|]. unfold isReady.
  destruct (statusOf kc) as [status|]; [|done]. cbn [mbind option_bind].
  destruct (conditionsOf status) as [conditions|]; [|done].
  destruct (find_first _ conditions) as [c|] eqn:E; [|done].
  destruct (trueCondition "Ready" c) eqn:Et; [|done].
  apply find_first_Some in E as [Hin _]. apply existsb_exists. eauto.
Qed.

(** With its operator installed and the managed Keycloak enabled, what comes after Keycloak in
    a reconcile only comes once, in this very reconcile, a Keycloak was read that is ready;
    that read is the last call before. *)
Theorem keycloak_gate (platform platform' : DisconnectedPlatform) (cc : ConnectedConfig)
    (m : ManagedKeycloakConfig) tr
    (Hc : dps_Connected (dp_Spec platform) = Some cc) (Hm : enabledKeycloak cc = Some m)
    (Ho : componentSucceeded "rhbk-operator" platform = true)
    (H : exec (keycloakStep platform) tr (Done (Next platform'))) :
  exists t kc, tr = snoc t (Ev (CGet KKeycloak keycloakKey) (Ok kc)) /\ isReady kc = true.
Proof.
  unfold keycloakStep in H. rewrite Ho in H.
  apply exec_bind in H as [(x & _ & [=])|([e|] & t1 & t2 & _ & H & ->)].
  { unfold failReason in H. apply exec_bind in H as [(x & _ & [=])|(p' & t3 & t4 & _ & H & ->)].
    apply exec_inv in H as (u & t & -> & H). by apply exec_inv in H as [_ [=]]. }
  cbv zeta in H. apply exec_bind in H as [(x & _ & [=])|([e|] & t3 & t4 & H3 & H & ->)].
  { unfold failReason in H. apply exec_bind in H as [(x & _ & [=])|(p' & t5 & t6 & _ & H & ->)].
    apply exec_inv in H as (u & t & -> & H). by apply exec_inv in H as [_ [=]]. }
  apply exec_inv in H as [-> _]. eapply health_ready in H3 as (kc & -> & Hk); [|exact Hc|exact Hm].
  exists t1, kc. by rewrite app_nil_r.
Qed.
End Report.

(** ** Samples *)

Section Witnesses.
#[local] Existing Instance sampleX.

(** A platform whose Trusted Profile Analyzer fails, since the bucket it claimed is not there
    yet, says all the same that all components were reconciled. *)
Definition failingRun : prog reconcile_out :=
  reconcilePlatform (X := sampleX) "#!/bin/bash" sampleReconciler (sampleConnectedPlatform "airgapped" "").
Example failing_component_is_ready :
  (match outcomeOf (rhtpaStep (sampleConnectedPlatform "airgapped" "")) (clusterStore "airgapped" "") with
   | Done (p, _) => dpst_Components (dp_Status p)
   | Panicked _ => []
   end = []) /\
  map (fun p => (dpst_Phase (dp_Status p), map (fun c => (c_Type c, c_Message c)) (dpst_Conditions (dp_Status p))))
    (st_objs (snd (run failingRun (clusterStore "airgapped" ""))) KDisconnectedPlatform)
  = [("Ready", [("Ready", "All components reconciled successfully")])].
Proof. vm_compute. split; reflexivity. Qed.


(** When the first subscription cannot be created the phase is Error, and no condition says why. *)
Example failing_operators_unexplained :
  let s := with_objs emptyStore KDisconnectedPlatform [sampleConnectedPlatform "connected" ""] in
  let refused := run (H := refusing (fun c => match c with CCreate _ _ => true | _ => false end)) samplePlatformRun (1, s) in
  snd (fst refused) = Done (Result0, None) /\
  map (fun p => (dpst_Phase (dp_Status p), length (dpst_Conditions (dp_Status p))))
    (st_objs (snd (snd refused)) KDisconnectedPlatform) = [(PlatformPhaseError, 0)].
Proof. vm_compute. split; reflexivity. Qed.

(** A platform that is being removed. *)
Definition dyingSample : DisconnectedPlatform :=
  (sampleConnectedPlatform "connected" "")
    <| dp_ObjectMeta ::= fun om => om <| om_DeletionTimestamp := Some sampleClock |> |>.
Definition dyingCluster : store := with_objs (clusterStore "connected" "") KDisconnectedPlatform [dyingSample].

(** The platform a trace starts with. *)
Definition firstPlatform (tr : trace) : option DisconnectedPlatform :=
  match tr with
  | Ev (CGet KDisconnectedPlatform _) (Ok p) :: _ => Some p
  | _ => None
  end.

Lemma platform_finalizer_protocol_witness :
  let tr := traceOf samplePlatformRun dyingCluster in
  map dp_Finalizers (st_objs (snd (run samplePlatformRun dyingCluster)) KDisconnectedPlatform) = [[]] /\
  exists rest, tr = Ev (CGet KDisconnectedPlatform samplePlatformKey) (Ok dyingSample) :: rest /\
    taken_down dyingSample rest (outcomeOf samplePlatformRun dyingCluster).
Proof.
  intros tr. split; [vm_compute; reflexivity|].
  assert (Ep : firstPlatform tr = Some dyingSample) by (vm_compute; reflexivity).
  destruct (platform_finalizer_protocol _ _ _ _ _ (traceOf_exec samplePlatformRun dyingCluster))
    as [(e & E & _)|(p & rest & E & _ & _ & H)]; unfold tr in Ep; rewrite E in Ep; [discriminate Ep|].
  injection Ep as ->.
  exists rest. split; [exact E|]. exact (H eq_refl eq_refl).
Defined.

(** An airgapped platform that waits for its operators asks to come back the first time, and
    not the second, when its status does not change. *)
Definition waitingPlatform : DisconnectedPlatform :=
  (sampleConnectedPlatform "airgapped" "")
    <| dp_Spec ::= fun s => s <| dps_Connected := None |>
                              <| dps_Airgapped := Some (mkAirgappedConfig false "" false "" "" None None None None None "" None) |> |>.
Definition waitingStore : store := with_objs emptyStore KDisconnectedPlatform [waitingPlatform].
Example waits_only_once :
  let s1 := snd (run samplePlatformRun waitingStore) in
  outcomeOf samplePlatformRun waitingStore = Done (RequeueAfter retryInterval, None) /\
  outcomeOf samplePlatformRun s1 = Done (Result0, None) /\ 
  outcomeOf (reconcileAirgappedSubscriptions waitingPlatform) s1 = Done (waitingPlatform, (true, None)).
Proof. vm_compute. repeat split; reflexivity. Qed.
End Witnesses.
