(* ===== verification/KeycloakProps.v ===== *)
(** The credentials of Keycloak's administrator: whom the reconcile of a platform sends the
    password and the tokens to. *)
From S2P Require Import Prelude GoStrings K8s Json Api Kube Externals Helpers Operators PlatformStatus Platform.
From S2P Require Import Health PullSecrets Quay ConnectedQuay Architect Airgapped HostInventory.
From S2P Require Import UpdateService KeycloakAdmin Keycloak Postgres KeycloakOAuth ManagedKeycloak Signing Trustify RHTPA.
From S2P Require Import Samples Instances SampleCluster Artifacts PlatformReconciler Rights RightsProps.

(** ** What a request needs *)

Section Authentic.
Context {X : Externals}.

Definition adminTokenRequest (host user password : string) : HttpRequest :=
  mkHttpRequest "POST" (adminTokenURL host) [("Content-Type", "application/x-www-form-urlencoded")]
    (FormBody (passwordForm user password)).
Definition tokenPolicies : list TokenPolicy :=
  [secretTokenPolicy; emailTokenPolicy; realmTokenPolicy; strictTokenPolicy; redirectTokenPolicy; lenientTokenPolicy].

(** The cluster says that Keycloak is at [host]: the domain of its ingress, or the Keycloak object. *)
Definition ingressRead (ingress : Unstructured) : event :=
  Ev (CGet (KUnstructured gvkIngress) (clusterKey "cluster")) (Ok ingress).
Definition keycloakOf (ingress : Unstructured) : string :=
  "keycloak." +:+ nested_string (u_Object ingress) ["spec"; "domain"].
Definition keycloakRead (kc : Unstructured) : event := Ev (CGet KKeycloak keycloakKey) (Ok kc).
Definition hostKnown (past : trace) (host : string) : Prop :=
  (exists ingress, In (ingressRead ingress) past /\ host = keycloakOf ingress) \/
  (exists kc, In (keycloakRead kc) past /\ keycloakHostname kc = Ok host).

(** The password was read from the secret of the administrator. *)
Definition passwordRead (past : trace) (password : string) : Prop :=
  exists s, In (Ev (CGet KSecret adminSecretKey) (Ok s)) past /\ password = map_get (sec_Data s) "password".

(** [host] answered a request for a token with this one. *)
Definition issued (past : trace) (host token : string) : Prop :=
  exists user password rep tp, In (Ev (CHttp (adminTokenRequest host user password)) (Ok rep)) past /\
    In tp tokenPolicies /\ readToken tp rep = Ok token.

Definition under (host url : string) : Prop := exists rest, url = adminURL host rest.

Inductive authorised (past : trace) (rq : HttpRequest) : Prop :=
| asks_token host user password :
    hostKnown past host -> passwordRead past password -> rq = adminTokenRequest host user password -> authorised past rq
| administers host token :
    issued past host token -> under host (rq_URL rq) -> hd_error (rq_Headers rq) = Some (bearer token) ->
    match rq_Body rq with FormBody _ => False | _ => True end -> authorised past rq.

Definition obeys (past : trace) (c : call) : Prop :=
  match c with CHttp rq => authorised past rq | _ => True end.
(** Every request of a trace is authorised by what came before it. *)
Fixpoint authentic (past tr : trace) : Prop :=
  match tr with
  | [] => True
  | e :: tr => obeys past (ev_call e) /\ authentic (e :: past) tr
  end.

(** ** Its laws *)

Lemma hostKnown_incl p1 p2 host : incl p1 p2 -> hostKnown p1 host -> hostKnown p2 host.
Proof. intros Hi [(i & H & ->)|(kc & H & E)]; [left|right]; eauto. Qed.
Lemma issued_incl p1 p2 host token : incl p1 p2 -> issued p1 host token -> issued p2 host token.
Proof. intros Hi (u & pw & rep & tp & H & Ht & E). exists u, pw, rep, tp. auto. Qed.
Lemma authorised_incl p1 p2 rq : incl p1 p2 -> authorised p1 rq -> authorised p2 rq.
Proof.
  intros Hi [host u pw Hn (s & Hs & Hp) ->|host token H1 H2 H3 H4].
  - eapply asks_token; [by eapply hostKnown_incl|exists s; eauto|done].
  - eapply administers; [by eapply issued_incl|done..].
Qed.
Lemma authentic_incl tr p1 p2 : incl p1 p2 -> authentic p1 tr -> authentic p2 tr.
Proof.
  revert p1 p2. induction tr as [|e tr IH]; intros p1 p2 Hi; [done|]. intros [He Ht]. split.
  - destruct e as [[] r]; try exact I. revert He. by apply authorised_incl.
  - eapply IH; [|exact Ht]. intros x [->|Hx]; [by left|right; auto].
Qed.
Lemma authentic_app t1 past t2 :
  authentic past t1 -> authentic (rev t1 ++ past) t2 -> authentic past (t1 ++ t2).
Proof.
  revert past. induction t1 as [|e t1 IH]; intros past; [done|]. cbn [rev app]. intros [He H1] H2.
  split; [exact He|]. apply IH; [exact H1|]. by rewrite <- app_assoc in H2.
Qed.
#[export] Instance authentic_prop past : TraceProp (authentic past).
Proof.
  split; [exact I|]. intros t1 t2 H1 H2. apply authentic_app; [exact H1|]. revert H2.
  apply authentic_incl, incl_appr, incl_refl.
Qed.
Lemma authentic_offline past tr : calls offline tr -> authentic past tr.
Proof.
  revert past. induction tr as [|[c r] tr IH]; intros past; [done|]. intros [Hc Ht]%Forall_cons. split; [|auto].
  by destruct c.
Qed.
Lemma authentic_split before past c r after :
  authentic past (before ++ Ev c r :: after) -> obeys (rev before ++ past) c.
Proof.
  revert past. induction before as [|e before IH]; intros past; [by intros [H _]|]. intros [_ H].
  apply IH in H. cbn [rev]. by rewrite <- app_assoc.
Qed.

(** ** The rules of programs *)

Lemma always_quiet {A} past (p : prog A) : always (calls quiet) p -> always (authentic past) p.
Proof. apply always_mono. intros tr H. apply authentic_offline. revert H. apply calls_mono. by intros c []. Qed.

(** What is read is known afterwards. *)
Lemma always_learn {A} past c (f : reply c -> prog A) :
  obeys past c -> (forall r, always (authentic (Ev c r :: past)) (f r)) ->
  always (authentic past) (Call c Ret ≫= f).
Proof. intros Hc Hf r. specialize (Hf r). revert Hf. apply wp_mono. intros tr o H. split; [exact Hc|exact H]. Qed.

Lemma always_adminToken {A} past tp host user password (f : result string -> prog A) :
  In tp tokenPolicies -> hostKnown past host -> passwordRead past password ->
  (forall past' r, incl past past' -> (forall token, r = Ok token -> issued past' host token) ->
     always (authentic past') (f r)) ->
  always (authentic past) (adminToken tp host user password ≫= f).
Proof.
  intros Htp Hn Hp Hf. unfold adminToken. change (always (authentic past)
    (Call (CHttp (adminTokenRequest host user password)) Ret ≫= fun r => f (match r with
       | Err e => Err (Wrapf "failed to get admin token" e) | Ok rep => readToken tp rep end))).
  apply always_learn; [by eapply asks_token|]. intros r. apply Hf; [apply incl_tl, incl_refl|].
  intros token Ht. destruct r as [rep|]; [|discriminate].
  exists user, password, rep, tp. split; [by left|done].
Qed.
Lemma always_tokenFromSecret {A} past tp host failure user (f : result string -> prog A) :
  In tp tokenPolicies -> hostKnown past host ->
  (forall past' r, incl past past' -> (forall token, r = Ok token -> issued past' host token) ->
     always (authentic past') (f r)) ->
  always (authentic past) (tokenFromSecret tp host failure user ≫= f).
Proof.
  intros Htp Hn Hf.
  change (always (authentic past) (Call (CGet KSecret adminSecretKey) Ret ≫= fun s =>
    match s with
    | Err e => mret (Err (Wrapf failure e))
    | Ok adminSecret => adminToken tp host (default (map_get (sec_Data adminSecret) "username") user)
                          (map_get (sec_Data adminSecret) "password")
    end ≫= f)).
  apply always_learn; [exact I|]. intros [s|e].
  - apply always_adminToken; [done| |eexists; split; [by left|done]|].
    + eapply hostKnown_incl; [apply incl_tl, incl_refl|exact Hn].
    + intros past' r Hi. apply Hf. intros x Hx. apply Hi. by right.
  - apply Hf; [apply incl_tl, incl_refl|done].
Qed.

(** ** The functions of the administration interface *)

Lemma under_app host url rest : under host url -> under host (url +:+ rest).
Proof. intros [r ->]. exists (r +:+ rest). unfold adminURL. by rewrite !app_str_assoc. Qed.

Lemma learned_ingress past ingress : hostKnown (ingressRead ingress :: past) (keycloakOf ingress).
Proof. left. exists ingress. split; [by left|done]. Qed.
Lemma learned_keycloak past kc host : In (keycloakRead kc) past -> keycloakHostname kc = Ok host -> hostKnown past host.
Proof. intros. right. by exists kc. Qed.

Ltac under_go :=
  cbn [rq_URL jsonHeaders jsonRequest getRequest bareRequest];
  repeat lazymatch goal with
  | |- under ?h (adminURL ?h _) => eexists; reflexivity
  | |- under _ (_ +:+ _) => apply under_app
  | |- under _ ?u => let f := head_of u in unfold f
  end.
(** The leaves: a request with a token, or a call that is none. *)
Ltac authentic_leaf :=
  lazymatch goal with
  | |- authentic _ [Ev (CHttp _) _] =>
      split; [eapply administers; [eassumption|under_go|reflexivity|exact I]|exact I]
  | |- authentic _ [Ev _ _] => split; exact I
  end.
Ltac ask_token :=
  lazymatch goal with
  | |- always _ (onOk (tokenFromSecret _ _ _ _) _) => unfold onOk; ask_token
  | |- always _ (tokenFromSecret _ _ _ _ ≫= _) =>
      apply always_tokenFromSecret;
        [cbn; tauto|eauto with always
        |let past := fresh "past" in let r := fresh "r" in let Hi := fresh "Hi" in let Ht := fresh "Ht" in
         intros past r Hi Ht; destruct r as [|]; [pose proof (Ht _ eq_refl)|]]
  end.
Ltac walk_authentic :=
  cbv beta zeta;
  first
    [ solve [eauto with always]
    | ask_token; walk_authentic
    | lazymatch goal with |- always _ (Call _ Ret) => idtac end;
      apply always_call; intros ?; solve [authentic_leaf]
    | always_step; walk_authentic
    | unfold_program; walk_authentic
    | idtac ].
#[local] Hint Resolve hostKnown_incl issued_incl learned_ingress : always.

Lemma traffic_storeSecret past v : always (authentic past) (storeClientSecret v).
Proof. walk_authentic. Qed.
#[local] Hint Resolve traffic_storeSecret : always.
Lemma traffic_updateSecret past host clientID realm :
  hostKnown past host -> always (authentic past) (updateKeycloakClientSecret host clientID realm).
Proof. intros Hn. walk_authentic. Qed.
Lemma traffic_emailMapper past host clientID realm :
  hostKnown past host -> always (authentic past) (configureKeycloakEmailMapper host clientID realm).
Proof. intros Hn. walk_authentic. Qed.
Lemma traffic_emailScope past host c r u token :
  issued past host token -> always (authentic past) (ensureEmailVerifiedClientScope host c r u token).
Proof. intros Hn. walk_authentic. Qed.
#[local] Hint Resolve traffic_updateSecret traffic_emailMapper traffic_emailScope : always.
Lemma traffic_realm past host realm c :
  hostKnown past host -> always (authentic past) (configureKeycloakRealmAndClient host realm c).
Proof. intros Hn. walk_authentic. Qed.
#[local] Hint Resolve traffic_realm : always.

Lemma traffic_profile past host realm token :
  issued past host token -> always (authentic past) (configureRealmProfileSettings host realm token).
Proof. intros Hn. walk_authentic. Qed.
#[local] Hint Resolve traffic_profile : always.
Lemma traffic_updateProvider past host realm a token s :
  issued past host token -> always (authentic past) (updateProvider host realm a token s).
Proof. intros Hn. walk_authentic. Qed.
#[local] Hint Resolve traffic_updateProvider : always.
Lemma traffic_provider past host realm a token :
  issued past host token -> always (authentic past) (addOpenShiftIdentityProvider host realm a token).
Proof. intros Hn. walk_authentic. Qed.
#[local] Hint Resolve traffic_provider : always.
Lemma traffic_realms past host a token l :
  issued past host token -> always (authentic past) (addToRealms host a token l).
Proof. intros Hn. induction l; cbn [addToRealms]; walk_authentic. Qed.
#[local] Hint Resolve traffic_realms : always.
Lemma traffic_openShift past host :
  hostKnown past host -> always (authentic past) (configureOpenShiftOAuth host).
Proof.
  intros Hn. unfold configureOpenShiftOAuth. apply always_learn; [exact I|]. intros [s|e]; [|walk_authentic].
  apply always_learn; [exact I|]. intros [i|e]; [|walk_authentic]. always_step; [walk_authentic|].
  unfold onOk. apply always_adminToken.
  - cbn; tauto.
  - revert Hn. apply hostKnown_incl. intros x Hx. by do 2 right.
  - exists s. split; [by right; left|done].
  - intros past' [token|e] Hi Ht; [pose proof (Ht _ eq_refl)|]; walk_authentic.
Qed.
#[local] Hint Resolve traffic_openShift : always.
Lemma traffic_configureKeycloak past host realm :
  hostKnown past host -> always (authentic past) (configureKeycloak host realm).
Proof. intros Hn. walk_authentic. Qed.
#[local] Hint Resolve traffic_configureKeycloak : always.
Lemma traffic_keycloak past p : always (authentic past) (reconcileManagedKeycloak p).
Proof.
  unfold reconcileManagedKeycloak, withConnected. do 2 (always_step; [|walk_authentic]).
  apply always_learn; [exact I|]. intros [ingress|e]; [|walk_authentic].
  pose proof (learned_ingress past ingress). walk_authentic.
Qed.

(** *** The profile analyzer *)

Lemma traffic_assignScope past host r u s token :
  issued past host token -> always (authentic past) (assignScopeToClient host r u s token).
Proof. intros Hn. walk_authentic. Qed.
Lemma traffic_assignRole past host r u s token :
  issued past host token -> always (authentic past) (assignRoleToServiceAccountByClient host r u s token).
Proof. intros Hn. walk_authentic. Qed.
#[local] Hint Resolve traffic_assignScope traffic_assignRole : always.
Lemma traffic_updateClient past host r d token b m :
  issued past host token -> always (authentic past) (updateClient host r d token b m).
Proof. intros Hn. walk_authentic. Qed.
Lemma traffic_createClient past host r c d token b :
  issued past host token -> always (authentic past) (createClient host r c d token b).
Proof. intros Hn. walk_authentic. Qed.
#[local] Hint Resolve traffic_updateClient traffic_createClient : always.
Lemma traffic_oidcClient past host r c d token b :
  issued past host token -> always (authentic past) (ensureTrustifyOIDCClient host r c d token b).
Proof. intros Hn. walk_authentic. Qed.
Lemma traffic_redirects past host r c :
  hostKnown past host -> always (authentic past) (updateTrustifyRedirectURIs host r c).
Proof. intros Hn. walk_authentic. Qed.
#[local] Hint Resolve traffic_oidcClient traffic_redirects : always.
Lemma traffic_trustifyRealm past host r d :
  hostKnown past host -> always (authentic past) (ensureTrustifyRealmAndOIDC host r d).
Proof. intros Hn. walk_authentic. Qed.
Lemma traffic_refreshClients past host d :
  hostKnown past host -> always (authentic past) (refreshClients host d).
Proof. intros Hn. walk_authentic. Qed.
#[local] Hint Resolve traffic_trustifyRealm traffic_refreshClients : always.
Lemma traffic_refreshKeycloak past : always (authentic past) refreshKeycloak.
Proof.
  unfold refreshKeycloak. apply always_learn; [exact I|]. intros [ingress|e]; [|walk_authentic].
  pose proof (learned_ingress past ingress). walk_authentic.
Qed.
#[local] Hint Resolve traffic_refreshKeycloak : always.
Lemma traffic_refresh past i o : always (authentic past) (refreshTPA i o).
Proof. walk_authentic. Qed.
Lemma always_getWrapped {A} past failure K k (f : result (obj K) -> prog A) :
  (forall o, always (authentic (Ev (CGet K k) (Ok o) :: past)) (f (Ok o))) ->
  (forall e, always (authentic past) (f (Err (Wrapf failure e)))) ->
  always (authentic past) (getWrapped failure K k ≫= f).
Proof.
  intros Ho He. change (always (authentic past) (Call (CGet K k) Ret ≫= fun g =>
    f (match g with Ok o => Ok o | Err e => Err (Wrapf failure e) end))).
  apply always_learn; [exact I|]. intros [o|e]; [apply Ho|].
  eapply always_mono; [|apply He]. intros tr. apply authentic_incl, incl_tl, incl_refl.
Qed.
Lemma always_known {A B} S (a : A) (f : A -> prog B) : always S (f a) -> always S (mret a ≫= f).
Proof. done. Qed.
Lemma always_rbind {A B C} S (p : prog (result A)) (k : A -> prog (result B)) (f : result B -> prog C) :
  always S (p ≫= fun r => match r with Err e => f (Err e) | Ok a => k a ≫= f end) ->
  always S (rbind p k ≫= f).
Proof.
  unfold always, rbind. intros H. apply prog_bind_assoc. revert H. rewrite !wp_bind.
  apply wp_mono. by intros tr [[a|e]|m].
Qed.

Lemma traffic_createTPA past cfg : always (authentic past) (createTPA cfg).
Proof.
  unfold createTPA, onOk. apply always_getWrapped; [intros ingress|intros e; walk_authentic].
  pose proof (learned_ingress past ingress). walk_authentic.
Qed.
#[local] Hint Resolve traffic_refresh traffic_createTPA : always.
Lemma traffic_rhtpa past p : always (authentic past) (reconcileRHTPAConfig p).
Proof. walk_authentic. Qed.

(** *** Signing *)

Lemma traffic_collections past k l : always (authentic past) (updateCollections k l).
Proof. induction l; cbn [updateCollections]; walk_authentic. Qed.
#[local] Hint Resolve traffic_collections : always.
Lemma traffic_signing past p : always (authentic past) (configureCollectionPipelineSigning p).
Proof.
  unfold configureCollectionPipelineSigning, withConnected, onOk. do 2 (always_step; [|walk_authentic]).
  apply always_rbind, always_getWrapped; [intros securesign|intros e; walk_authentic].
  apply always_rbind, always_known; cbv beta. always_step; [|walk_authentic].
  apply always_rbind, always_getWrapped; [intros kc|intros e; walk_authentic].
  apply always_rbind, always_known; cbv beta. always_step; [|walk_authentic].
  assert (hostKnown (keycloakRead kc :: Ev (CGet KSecuresign securesignKey) (Ok securesign) :: past) a0)
    by (eapply learned_keycloak; [by left|eassumption]).
  apply always_known. walk_authentic.
Qed.
#[local] Hint Resolve traffic_rhtpa traffic_signing traffic_keycloak : always.
Lemma traffic_rootKeys past p : always (authentic past) (extractRHTASRootKeys p).
Proof. walk_authentic. Qed.
#[local] Hint Resolve traffic_rootKeys : always.

(** *** The reconcile *)

Context `{!ExternalsLaws X}.
#[local] Hint Resolve always_quiet quiet_healthChecks quiet_removeArchitect : always.
Lemma traffic_signingStep past p : always (authentic past) (signingStep p).
Proof. walk_authentic. Qed.
#[local] Hint Resolve traffic_signingStep : always.
Lemma traffic_platform past s r q : always (authentic past) (PlatformReconciler.Reconcile s r q).
Proof. walk_authentic. Qed.

(** C2: The credentials of Keycloak's administrator reach only Keycloak.  Every HTTP request
    that the reconcile of a platform sends is one of two.  It asks for a token, with the password
    read before from the administrator's secret, over HTTPS at the host of which the cluster
    said before that it is Keycloak's; or it administers a host, over HTTPS and below
    [/admin/realms], with a bearer token that this very host issued before and without the
    password.  This holds for every answer of the cluster and of the hosts, and when requests
    fail.  It is about the address: the client does not verify certificates. *)
Theorem keycloak_credentials script r q before rq (reply : result HttpReply) after o
    (H : exec (PlatformReconciler.Reconcile script r q) (before ++ Ev (CHttp rq) reply :: after) o) :
  (exists host user password, rq = adminTokenRequest host user password /\ hostKnown (rev before) host /\
     passwordRead (rev before) password) \/
  (exists host token rest, issued (rev before) host token /\ rq_URL rq = adminURL host rest /\
     hd_error (rq_Headers rq) = Some (bearer token) /\ forall data, rq_Body rq <> FormBody data).
Proof.
  apply (always_exec (authentic [])) in H; [|apply traffic_platform].
  apply authentic_split in H. rewrite app_nil_r in H.
  destruct H as [host user pw H1 H2 ->|host token H1 [rest H2] H3 H4]; [left|right].
  - by exists host, user, pw.
  - exists host, token, rest. repeat split; [done..|]. intros data E. by rewrite E in H4.
Qed.
End Authentic.

Section Witness.
#[local] Existing Instance sampleX.

Definition asks (b : HttpRequest -> bool) (e : event) : bool :=
  match ev_call e with CHttp rq => b rq | _ => false end.
Lemma asks_split b tr :
  existsb (asks b) tr = true ->
  exists before rq reply after, tr = before ++ Ev (CHttp rq) reply :: after /\ b rq = true.
Proof.
  intros ([[] r] & Hin & H)%existsb_exists; try discriminate.
  apply in_split in Hin as (before & after & ->). by exists before, rq, r, after.
Qed.
Definition createsScope (rq : HttpRequest) : bool :=
  (rq_Method rq == "POST") &&
  (rq_URL rq == "https://keycloak.apps.example.com/admin/realms/trustify/client-scopes").

(** The scopes of the profile analyzer are created with a token of the host of the ingress. *)
Lemma keycloak_credentials_witness :
  exists before rq reply after,
    traceOf samplePlatformRun (clusterStore "airgapped" "") = before ++ Ev (CHttp rq) reply :: after /\
    createsScope rq = true /\
    ((exists host user password, rq = adminTokenRequest host user password /\ hostKnown (rev before) host /\
        passwordRead (rev before) password) \/
     (exists host token rest, issued (rev before) host token /\ rq_URL rq = adminURL host rest /\
        hd_error (rq_Headers rq) = Some (bearer token) /\ forall data, rq_Body rq <> FormBody data)).
Proof.
  destruct (asks_split createsScope (traceOf samplePlatformRun (clusterStore "airgapped" "")))
    as (before & rq & reply & after & E & H); [vm_compute; reflexivity|].
  exists before, rq, reply, after. split; [exact E|]. split; [exact H|].
  eapply (keycloak_credentials _ _ _ before rq reply after).
  rewrite <- E. exact (traceOf_exec samplePlatformRun (clusterStore "airgapped" "")).
Defined.
End Witness.
