(* ===== verification/IssuerProps.v ===== *)
(** The signing service and the collections agree on who issues the tokens of a signer, except
    when no realm is configured. *)
From S2P Require Import Prelude GoStrings K8s Json Api Kube Externals Helpers Samples Instances Platform.
From S2P Require Import Health PullSecrets Quay KeycloakAdmin Keycloak ManagedKeycloak Signing SigningProps SampleCluster.
From S2P Require Import ConnectedQuay RightsProps KeycloakProps.

(** The entry of the only issuer that a Securesign object accepts tokens of. *)
Definition issuerEntry (o : Unstructured) : option fields :=
  spec ← as_map (jget (u_Object o) "spec");
  fulcio ← as_map (jget spec "fulcio");
  config ← as_map (jget fulcio "config");
  match jget config "OIDCIssuers" with JList [e] => as_map e | _ => None end.
(** The keyless signing of a collection. *)
Definition givenSigning (p : CollectionPipeline) : option KeylessSigningConfig :=
  cps_Signing (cp_Spec p) ≫= csc_Keyless.

Definition createdSecuresign (c : call) : option Unstructured :=
  match c with
  | CCreate K o => match K return obj K -> option Unstructured with KUnstructured g => fun o => Some o | _ => fun _ => None end o
  | _ => None
  end.
Definition updatedCollection (c : call) : option CollectionPipeline :=
  match c with
  | CUpdate K o =>
      match K return obj K -> option CollectionPipeline with KCollectionPipeline => fun o => Some o | _ => fun _ => None end o
  | _ => None
  end.
Definition keepsCollections (c : call) : Prop := updatedCollection c = None.

Lemma In_created tr s r : In (Ev (CCreate KSecuresign s) r) tr -> In (Some s) (map (fun e => createdSecuresign (ev_call e)) tr).
Proof. intros H. exact (in_map (fun e => createdSecuresign (ev_call e)) _ _ H). Qed.
Lemma In_updated tr p r :
  In (Ev (CUpdate KCollectionPipeline p) r) tr -> In (Some p) (map (fun e => updatedCollection (ev_call e)) tr).
Proof. intros H. exact (in_map (fun e => updatedCollection (ev_call e)) _ _ H). Qed.

Section Issuer.
Context {X : Externals}.

Lemma issuerEntry_spec issuer client type_ db extra :
  issuerEntry (withTrustedCA (unstructured_ securesignGVK architectNamespace securesignName
                 (("spec", JMap (securesignSpec issuer client type_ db)) :: extra))) =
  Some [("ClientID", JStr client); ("Issuer", JStr issuer); ("IssuerURL", JStr issuer); ("Type", JStr type_)].
Proof. reflexivity. Qed.

(** The object that is created accepts the realm at the host of the ingress. *)
Lemma created_accepts platform cc m tr o s r :
  dps_Connected (dp_Spec platform) = Some cc -> enabledKeycloak cc = Some m ->
  exec (reconcileRHTASConfig platform) tr o -> In (Ev (CCreate KSecuresign s) r) tr ->
  exists ingress e, In (ingressRead ingress) tr /\ issuerEntry s = Some e /\
    jget e "ClientID" = JStr "trusted-artifact-signer" /\
    jget e "Issuer" = JStr ("https://" +:+ keycloakOf ingress +:+ "/realms/" +:+ realmName m).
Proof.
  unfold reconcileRHTASConfig, withConnected, enabledKeycloak. intros Hc Hm H Hin. rewrite Hc in H.
  destruct (cc_RHTAS cc) as [cfg|]; [|done]. cbn in Hm, H. destruct (ric_OIDC cfg) as [oidc|]; [|done]. cbn in Hm.
  destruct (roc_Managed oidc) as [m'|] eqn:Em; [|done]. cbn in Hm. destruct (mkc_Enabled m') eqn:Ee; [|done].
  injection Hm as ->. apply In_created in Hin.
  apply exec_call_bind in H as (g & t & -> & H). destruct g as [old|e].
  { destruct (_ != _) in H; [apply exec_call_bind in H as (u & t' & -> & H)|];
      apply exec_inv in H as [-> _]; cbn in Hin; intuition congruence. }
  destruct (negb (IsNotFound e)); [apply exec_inv in H as [-> _]; cbn in Hin; intuition congruence|].
  unfold onOk, oidcOf in H. rewrite Em, Ee in H. apply exec_assoc, exec_call_bind in H as (i & t' & -> & H).
  destruct i as [ingress|ei]; [|apply exec_inv in H as [-> _]; cbn in Hin; intuition congruence].
  apply exec_bind in H as [(x & H & _)|(x & t1 & t2 & H1 & H & ->)]; [by apply exec_inv in H as [_ [=]]|].
  apply exec_mret in H1 as [-> <-]. cbn beta iota in H.
  destruct (_ || _) in H; [apply exec_inv in H as [-> _]; cbn in Hin; intuition congruence|].
  apply exec_call_bind in H as (c & t & -> & H). apply exec_inv in H as [-> _].
  cbn [map app ev_call createdSecuresign] in Hin.
  destruct Hin as [[=]|[[=]|[[= <-]|[]]]]. exists ingress. eexists. split; [by right; left|].
  split; [apply (issuerEntry_spec _ _ _ _ [])|split; reflexivity].
Qed.

(** What collections are told. *)
Lemma keeps_secret h c r : always (calls keepsCollections) (updateKeycloakClientSecret h c r).
Proof. walk_program ltac:(fun _ => constructor; [reflexivity|constructor]). Qed.
Lemma keeps_mapper h c r : always (calls keepsCollections) (configureKeycloakEmailMapper h c r).
Proof. walk_program ltac:(fun _ => constructor; [reflexivity|constructor]). Qed.
Lemma kept_not_updated tr p : calls keepsCollections tr -> ~ In (Some p) (map (fun e => updatedCollection (ev_call e)) tr).
Proof. intros H (e & E & He)%in_map_iff. unfold calls in H. rewrite List.Forall_forall in H. apply H in He. congruence. Qed.
Lemma updated_keyless k l tr o p :
  exec (updateCollections k l) tr o -> In (Some p) (map (fun e => updatedCollection (ev_call e)) tr) -> givenSigning p = Some k.
Proof.
  revert tr. induction l as [|q l IH]; intros tr; [by intros [-> _]%exec_inv|].
  cbn [updateCollections]. intros (u & t & -> & H)%exec_call_bind [[= <-]|Hin]; [done|eauto].
Qed.
Lemma keeps_then {A B} (q : prog A) (f : A -> prog B) tr o p (Hq : always (calls keepsCollections) q) :
  exec (q ≫= f) tr o -> In (Some p) (map (fun e => updatedCollection (ev_call e)) tr) ->
  exists a t1 t2, tr = t1 ++ t2 /\ exec q t1 (Done a) /\ exec (f a) t2 o /\
    In (Some p) (map (fun e => updatedCollection (ev_call e)) t2).
Proof.
  intros [(m & H & _)|(a & t1 & t2 & H1 & H & ->)]%exec_bind Hin.
  - apply (always_exec _ _ _ _ Hq) in H. by apply kept_not_updated in Hin.
  - exists a, t1, t2. split_and!; try done. rewrite map_app, in_app_iff in Hin. destruct Hin as [Hin|Hin]; [|done].
    apply (always_exec _ _ _ _ Hq) in H1. by apply kept_not_updated in Hin.
Qed.
(** The addresses of the services, and the host of Keycloak. *)
Lemma keeps_urls (f g : string) : always (calls keepsCollections)
  (let? securesign := getWrapped f KSecuresign securesignKey in
   let? urls := mret (serviceURLs securesign) in
   let? kc := getWrapped g KKeycloak keycloakKey in
   let? hostname := mret (keycloakHostname kc) in mret (Ok (urls, hostname))).
Proof. walk_program ltac:(fun _ => constructor; [reflexivity|constructor]). Qed.
Lemma configured_keyless platform cc m tr o p r :
  dps_Connected (dp_Spec platform) = Some cc -> enabledKeycloak cc = Some m ->
  exec (configureCollectionPipelineSigning platform) tr o -> In (Ev (CUpdate KCollectionPipeline p) r) tr ->
  exists kc host k, In (keycloakRead kc) tr /\ keycloakHostname kc = Ok host /\ givenSigning p = Some k /\
    ksc_OIDCClientID k = "trusted-artifact-signer" /\
    ksc_OIDCIssuer k = "https://" +:+ host +:+ "/realms/" +:+ mkc_Realm m.
Proof.
  unfold configureCollectionPipelineSigning, withConnected, onOk. intros Hc Hm H Hin. rewrite Hc, Hm in H.
  apply In_updated in Hin.
  destruct (keeps_then _ _ _ _ _ (keeps_urls _ _) H Hin) as (a & t1 & t2 & -> & H1 & H' & Hin2); clear H; rename H' into H.
  destruct a as [[urls host]|e]; [|by apply exec_inv in H as [-> _]].
  apply exec_rbind in H1 as (securesign & t3 & t4 & -> & ->%exec_getWrapped & H1).
  apply exec_rbind in H1 as (u & t5 & t6 & -> & [-> Hu]%exec_mret & H1).
  apply exec_rbind in H1 as (kc & t7 & t8 & -> & ->%exec_getWrapped & H1).
  apply exec_rbind in H1 as (h & t9 & t10 & -> & [-> Hh]%exec_mret & H1). apply exec_mret in H1 as [-> [= -> ->]].
  destruct (keeps_then _ _ _ _ _ (keeps_secret _ _ _) H Hin2) as (e1 & t11 & t12 & -> & _ & H' & Hin3); clear H; rename H' into H.
  destruct e1; [by apply exec_inv in H as [-> _]|].
  destruct (keeps_then _ _ _ _ _ (keeps_mapper _ _ _) H Hin3) as (e2 & t13 & t14 & -> & _ & H' & Hin4); clear H; rename H' into H.
  destruct e2; [by apply exec_inv in H as [-> _]|].
  apply exec_call_bind in H as (l & t & -> & H). destruct l as [l|]; [|apply exec_inv in H as [-> _]; by destruct Hin4].
  destruct Hin4 as [[=]|Hin4].
  assert (Hk : givenSigning p = Some (keylessConfig urls host (mkc_Realm m))).
  { apply exec_bind in H as [(x & H & _)|(x & t15 & t16 & H & E & ->)]; [exact (updated_keyless _ _ _ _ _ H Hin4)|].
    apply exec_inv in E as [-> _]. rewrite app_nil_r in Hin4. exact (updated_keyless _ _ _ _ _ H Hin4). }
  exists kc, host. eexists. split; [by right; left|]. split; [exact Hh|]. split; [exact Hk|].
  by destruct urls as [[? ?] ?].
Qed.

(** C15: The signing service and the collections agree on who signs, if a realm is configured.
    Let one reconcile create the Securesign object of a platform with a managed Keycloak, and
    let another, later or earlier, give a collection its keyless signing, where the Keycloak
    object has the host that the ingress of the cluster gives.  Then the collection asks for
    tokens as the client the signing service accepts, and from the issuer it accepts exactly
    when the realm of the specification is not empty: with an empty one the service accepts the
    realm [trusted-artifact-signer], and the collection names a realm without a name. *)
Theorem collections_use_accepted_issuer platform cc m tr1 o1 s rs tr2 o2 p rp
    (Hc : dps_Connected (dp_Spec platform) = Some cc) (Hm : enabledKeycloak cc = Some m)
    (H1 : exec (reconcileRHTASConfig platform) tr1 o1) (Hs : In (Ev (CCreate KSecuresign s) rs) tr1)
    (H2 : exec (configureCollectionPipelineSigning platform) tr2 o2)
    (Hp : In (Ev (CUpdate KCollectionPipeline p) rp) tr2)
    (Hhost : forall ingress kc, In (ingressRead ingress) tr1 -> In (keycloakRead kc) tr2 ->
       keycloakHostname kc = Ok (keycloakOf ingress)) :
  exists e k, issuerEntry s = Some e /\ givenSigning p = Some k /\
    jget e "ClientID" = JStr (ksc_OIDCClientID k) /\
    (jget e "Issuer" = JStr (ksc_OIDCIssuer k) <-> mkc_Realm m <> "").
Proof.
  destruct (created_accepts platform cc m tr1 o1 s rs Hc Hm H1 Hs) as (ingress & e & Hi & He & Hid & His).
  destruct (configured_keyless platform cc m tr2 o2 p rp Hc Hm H2 Hp) as (kc & host & k & Hk & Hh & Hkey & Hkid & Hkis).
  exists e, k. split; [done|]. split; [done|]. split; [by rewrite Hid, Hkid|]. rewrite His, Hkis.
  specialize (Hhost ingress kc Hi Hk). rewrite Hh in Hhost. injection Hhost as ->. unfold realmName.
  destruct (mkc_Realm m == "") eqn:E.
  - apply String.eqb_eq in E as ->. split; [|done]. intros [= H]. by do 2 apply app_str_cancel_l in H.
  - apply String.eqb_neq in E. done.
Qed.
End Issuer.

(** ** Samples *)

Section Witness.
#[local] Existing Instance sampleX.

Lemma found_create K tr : existsb (fun e => creates K (ev_call e)) tr = true -> exists o r, In (Ev (CCreate K o) r) tr.
Proof.
  intros ([c r] & Hin & H)%existsb_exists. destruct c; try discriminate. apply bool_decide_eq_true in H as ->. eauto.
Qed.
Lemma found_update K tr : existsb (fun e => updates K (ev_call e)) tr = true -> exists o r, In (Ev (CUpdate K o) r) tr.
Proof.
  intros ([c r] & Hin & H)%existsb_exists. destruct c; try discriminate. apply bool_decide_eq_true in H as ->. eauto.
Qed.
(** What an event has read of objects of a kind. *)
Definition readObject (g : GroupVersionKind) (e : event) : option Unstructured :=
  match e with
  | Ev c r =>
      match c return reply c -> option Unstructured with
      | CGet K _ =>
          match K return result (obj K) -> option Unstructured with
          | KUnstructured g' => fun r =>
              match r with Ok o => if decide (g' = g) then Some o else None | Err _ => None end
          | _ => fun _ => None
          end
      | _ => fun _ => None
      end r
  end.
Definition hostsRead (tr : trace) : list (result string) :=
  omap (fun e => keycloakHostname <$> readObject keycloakGVK e) tr.
Definition domainsRead (tr : trace) : list string := omap (fun e => keycloakOf <$> readObject gvkIngress e) tr.
Lemma hosts_read kc tr : In (keycloakRead kc) tr -> In (keycloakHostname kc) (hostsRead tr).
Proof. intros H. apply list_elem_of_In, list_elem_of_omap. exists (keycloakRead kc). split; [by apply list_elem_of_In|done]. Qed.
Lemma domains_read i tr : In (ingressRead i) tr -> In (keycloakOf i) (domainsRead tr).
Proof. intros H. apply list_elem_of_In, list_elem_of_omap. exists (ingressRead i). split; [by apply list_elem_of_In|done]. Qed.

(** A cluster before the signing service is installed, and one where it has its addresses. *)
Definition signingPlatform (realm : string) : DisconnectedPlatform := sampleConnectedPlatform PlatformModeConnected realm.
Definition servedSecuresign : Unstructured :=
  mkUnstructured securesignGVK (sampleMeta architectNamespace securesignName)
    [("status", JMap [("fulcio", JMap [("url", JStr "https://fulcio")]); ("rekor", JMap [("url", JStr "https://rekor")])])].
Definition servedStore (realm : string) : store :=
  with_objs (with_objs (clusterStore PlatformModeConnected realm) KSecuresign [servedSecuresign]) KCollectionPipeline
    [samplePipeline "weekly" sampleSpec status0 []].
Definition installTrace (realm : string) : trace :=
  traceOf (reconcileRHTASConfig (signingPlatform realm)) (clusterStore PlatformModeConnected realm).
Definition signingTrace (realm : string) : trace :=
  traceOf (configureCollectionPipelineSigning (signingPlatform realm)) (servedStore realm).

Definition agreement (realm : string) (agree : Prop -> Prop) : Prop :=
  exists s rs p rp e k, In (Ev (CCreate KSecuresign s) rs) (installTrace realm) /\
    In (Ev (CUpdate KCollectionPipeline p) rp) (signingTrace realm) /\
    issuerEntry s = Some e /\ givenSigning p = Some k /\ agree (jget e "Issuer" = JStr (ksc_OIDCIssuer k)).
Lemma collections_use_accepted_issuer_witness : agreement "mirror" (fun P => P) /\ agreement "" not.
Proof.
  assert (H : forall realm, In realm ["mirror"; ""] ->
    exists s rs p rp e k, In (Ev (CCreate KSecuresign s) rs) (installTrace realm) /\
      In (Ev (CUpdate KCollectionPipeline p) rp) (signingTrace realm) /\
      issuerEntry s = Some e /\ givenSigning p = Some k /\ (jget e "Issuer" = JStr (ksc_OIDCIssuer k) <-> realm <> "")).
  { intros realm Hr.
    assert (H1 : existsb (fun e => creates KSecuresign (ev_call e)) (installTrace realm) = true)
      by (destruct Hr as [<-|[<-|[]]]; vm_compute; reflexivity).
    assert (H2 : existsb (fun e => updates KCollectionPipeline (ev_call e)) (signingTrace realm) = true)
      by (destruct Hr as [<-|[<-|[]]]; vm_compute; reflexivity).
    apply found_create in H1 as (s & rs & H1). apply found_update in H2 as (p & rp & H2).
    destruct (collections_use_accepted_issuer (signingPlatform realm) (sampleConnected realm) (sampleKeycloakConfig realm)
                _ _ s rs _ _ p rp eq_refl eq_refl (traceOf_exec _ (clusterStore PlatformModeConnected realm)) H1
                (traceOf_exec _ (servedStore realm)) H2) as (e & k & He & Hk & _ & Hi).
    - intros ingress kc Hin Hkc. apply domains_read in Hin. apply hosts_read in Hkc.
      revert Hin Hkc. generalize (keycloakOf ingress) (keycloakHostname kc). intros d h Hin Hkc.
      destruct Hr as [<-|[<-|[]]]; vm_compute in Hin, Hkc; intuition congruence.
    - exists s, rs, p, rp, e, k. tauto. }
  split.
  - destruct (H "mirror") as (s & rs & p & rp & e & k & H1 & H2 & He & Hk & Hi); [by left|].
    exists s, rs, p, rp, e, k. split_and!; try done. by apply Hi.
  - destruct (H "") as (s & rs & p & rp & e & k & H1 & H2 & He & Hk & Hi); [by right; left|].
    exists s, rs, p, rp, e, k. split_and!; try done. intros E. by apply Hi in E.
Defined.
End Witness.
