(* ===== verification/RHTPAProps.v ===== *)
(** When the Trusted Profile Analyzer is taken down: only one that lacks something, and only to be
    created again. *)
From S2P Require Import Prelude GoStrings K8s Json Api Kube Externals Helpers Samples Instances Platform PullSecrets.
From S2P Require Import Quay ConnectedQuay KeycloakAdmin Postgres ManagedKeycloak Signing Trustify Artifacts RHTPA.
From S2P Require Import SampleCluster SigningProps RightsProps.

Definition deletesNothing (c : call) : Prop := match c with CDelete _ _ => False | _ => True end.
(** An object of the analyzer is written, and the write succeeds. *)
Definition analyzerWritten (tr : trace) : Prop :=
  exists o o', In (Ev (CCreate KTPA o) (Ok o')) tr \/ In (Ev (CUpdate KTPA o) (Ok o')) tr.

Section Analyzer.
Context {X : Externals}.

Ltac nothing_deleted := walk_program ltac:(fun _ => constructor; [exact I|constructor]).

Lemma keeps_scope h r u s t : always (calls deletesNothing) (assignScopeToClient h r u s t).
Proof. nothing_deleted. Qed.
Lemma keeps_role h r u s t : always (calls deletesNothing) (assignRoleToServiceAccountByClient h r u s t).
Proof. nothing_deleted. Qed.
#[local] Hint Resolve keeps_scope keeps_role : always.
Lemma keeps_client h r c d t b : always (calls deletesNothing) (ensureTrustifyOIDCClient h r c d t b).
Proof. nothing_deleted. Qed.
#[local] Hint Resolve keeps_client : always.
Lemma keeps_issuer cfg d : always (calls deletesNothing) (tpaIssuer cfg d).
Proof. nothing_deleted. Qed.
Lemma keeps_database cfg : always (calls deletesNothing) (tpaDatabase cfg).
Proof. nothing_deleted. Qed.
Lemma keeps_storage : always (calls deletesNothing) claimedStorage.
Proof. nothing_deleted. Qed.
Lemma keeps_redirects h r c : always (calls deletesNothing) (updateTrustifyRedirectURIs h r c).
Proof. nothing_deleted. Qed.
#[local] Hint Resolve keeps_issuer keeps_database keeps_storage keeps_redirects : always.
Lemma keeps_refresh i o : always (calls deletesNothing) (refreshTPA i o).
Proof. nothing_deleted. Qed.
Lemma keeps_create cfg : always (calls deletesNothing) (createTPA cfg).
Proof. nothing_deleted. Qed.

Lemma exec_onOk {A} (p : prog (result A)) k tr :
  exec (onOk p k) tr (Done None) ->
  exists a t1 t2, tr = t1 ++ t2 /\ exec p t1 (Done (Ok a)) /\ exec (k a) t2 (Done None).
Proof.
  unfold onOk. intros [(m & _ & [=])|([a|e] & t1 & t2 & H1 & H2 & ->)]%exec_bind; [eauto 10|].
  apply exec_inv in H2 as [_ [=]].
Qed.
Lemma exec_orReturn p q tr :
  exec (orReturn p q) tr (Done None) ->
  exists t1 t2, tr = t1 ++ t2 /\ exec p t1 (Done None) /\ exec q t2 (Done None).
Proof.
  unfold orReturn. intros [(m & _ & [=])|([e|] & t1 & t2 & H1 & H2 & ->)]%exec_bind; [|eauto 10].
  apply exec_inv in H2 as [_ [=]].
Qed.

Lemma analyzerWritten_app t1 t t2 : analyzerWritten t -> analyzerWritten (t1 ++ t ++ t2).
Proof. intros (o & o' & H). exists o, o'. rewrite !in_app_iff. tauto. Qed.
Lemma analyzerWritten_r t1 t : analyzerWritten t -> analyzerWritten (t1 ++ t).
Proof. intros (o & o' & H). exists o, o'. rewrite !in_app_iff. tauto. Qed.
Lemma writeTPA_writes spec tr : exec (writeTPA spec) tr (Done None) -> analyzerWritten tr.
Proof.
  unfold writeTPA. cbv zeta. intros (g & t & -> & H)%exec_call_bind. destruct g as [o|e].
  - apply exec_call_bind in H as (u & t' & -> & H). apply exec_inv in H as [-> [= H]]. destruct u; [|done].
    do 2 eexists. right. right. left. reflexivity.
  - destruct (IsNotFound e); [|by apply exec_inv in H as [_ [=]]].
    apply exec_call_bind in H as (u & t' & -> & H). apply exec_inv in H as [-> [= H]]. destruct u; [|done].
    do 2 eexists. left. right. left. reflexivity.
Qed.
Lemma createTPA_writes cfg tr : exec (createTPA cfg) tr (Done None) -> analyzerWritten tr.
Proof.
  unfold createTPA. intros (i & t1 & r1 & -> & _ & H)%exec_onOk. cbv zeta in H.
  apply exec_onOk in H as (u & t2 & r2 & -> & _ & H). apply exec_onOk in H as (d & t3 & r3 & -> & _ & H).
  apply exec_onOk in H as (s & t4 & r4 & -> & _ & H). apply exec_orReturn in H as (t5 & t6 & -> & H & _).
  apply writeTPA_writes in H. do 4 apply analyzerWritten_r. exact (analyzerWritten_app [] t5 t6 H).
Qed.

(** C5: The analyzer is deleted only to be replaced.  A reconcile of the profile analyzer deletes
    nothing, or exactly one object with its second call: the analyzer that its first call read,
    which has no OIDC configuration or does not create or migrate its database.  When that
    deletion fails the reconcile ends with an error; after it succeeded, the reconcile reports
    no error only when it has written an analyzer again. *)
Theorem analyzer_replaced platform tr o (H : exec (reconcileRHTPAConfig platform) tr o) :
  calls deletesNothing tr \/
  exists tpa d rest,
    tr = Ev (CGet KTPA tpaKey) (Ok tpa) :: Ev (CDelete KTPA tpa) d :: rest /\
    tpaConfigured tpa = false /\ calls deletesNothing rest /\
    match d with
    | Some e => rest = [] /\ o = Done (Some (Wrapf "failed to delete existing TPA for update" e))
    | None => o = Done None -> analyzerWritten rest
    end.
Proof.
  unfold reconcileRHTPAConfig, withConnected in H.
  destruct (dps_Connected _) as [cc|]; [|apply exec_inv in H as [-> _]; left; constructor].
  destruct (cc_RHTPA cc) as [cfg|]; [|apply exec_inv in H as [-> _]; left; constructor].
  destruct (tic_Storage cfg); [|apply exec_inv in H as [-> _]; left; constructor].
  apply exec_call_bind in H as (g & t & -> & H). destruct g as [tpa|e].
  - destruct (tpaConfigured tpa) eqn:Ec.
    + left. constructor; [exact I|]. exact (always_exec _ _ _ _ (keeps_refresh _ _) H).
    + right. apply exec_call_bind in H as (d & t' & -> & H). exists tpa, d, t'. split; [done|]. split; [done|].
      destruct d as [e|]; [apply exec_inv in H as [-> ->]; split; [constructor|done]|].
      apply exec_call_bind in H as ([] & t & -> & H). split.
      * constructor; [exact I|]. exact (always_exec _ _ _ _ (keeps_create _) H).
      * intros ->. apply createTPA_writes in H. exact (analyzerWritten_r [_] t H).
  - left. constructor; [exact I|]. destruct (negb (IsNotFound e)); [apply exec_inv in H as [-> _]; constructor|].
    exact (always_exec _ _ _ _ (keeps_create _) H).
Qed.
End Analyzer.

Section Witness.
#[local] Existing Instance sampleX.

(** An analyzer without OIDC, on a cluster where its bucket is not described yet, and on one where
    it is. *)
Definition bareTPA : Unstructured := mkUnstructured tpaGVK (sampleMeta architectNamespace tpaName) [("spec", JMap [])].
Definition withoutBucket : store := with_objs (clusterStore PlatformModeConnected "") KTPA [bareTPA].
Definition withBucket : store :=
  with_objs (with_objs withoutBucket KConfigMap
    [mkConfigMap (sampleMeta architectNamespace tpaBucket) (Some {[ "BUCKET_NAME" := "rhtpa" ]})])
    KSecret [sampleAdminSecret; mkSecret (sampleMeta architectNamespace tpaBucket)
                                  (Some {[ "AWS_ACCESS_KEY_ID" := "id" ]})].
Definition analyzerProg : prog (option error) := reconcileRHTPAConfig (sampleConnectedPlatform PlatformModeConnected "").
Definition noDeletion (c : call) : bool := match c with CDelete _ _ => false | _ => true end.
Lemma noDeletion_forallb tr : calls deletesNothing tr -> forallb noDeletion (map ev_call tr) = true.
Proof. induction 1 as [|[[] r] tr Hc _ IH]; cbn in *; tauto. Qed.

(** The analyzer is deleted in both; without the bucket none is created, and none is left. *)
Lemma analyzer_replaced_witness :
  st_objs (snd (run analyzerProg withoutBucket)) KTPA = [] /\
  length (st_objs (snd (run analyzerProg withBucket)) KTPA) = 1 /\
  exists tpa rest, traceOf analyzerProg withBucket =
      Ev (CGet KTPA tpaKey) (Ok tpa) :: Ev (CDelete KTPA tpa) None :: rest /\
    tpaConfigured tpa = false /\ analyzerWritten rest.
Proof.
  split; [vm_compute; reflexivity|]. split; [vm_compute; reflexivity|].
  destruct (analyzer_replaced (sampleConnectedPlatform PlatformModeConnected "") (traceOf analyzerProg withBucket)
              (outcomeOf analyzerProg withBucket) (traceOf_exec analyzerProg withBucket)) as [H|(tpa & d & rest & E & Hc & _ & H)].
  - apply noDeletion_forallb in H. vm_compute in H. discriminate.
  - exists tpa, rest. destruct d as [e|].
    + exfalso. destruct H as [_ H]. vm_compute in H. discriminate.
    + split; [exact E|]. split; [exact Hc|]. apply H. vm_compute. reflexivity.
Defined.
End Witness.
