(* ===== verification/StartupProps.v ===== *)
(** Properties of the entry point: every controller is registered or waited for, and what a late
    registration misses. *)
From S2P Require Import Prelude GoStrings K8s Json Api Kube Externals Helpers Operators PlatformStatus Platform.
From S2P Require Import Health CABundles PullSecrets Pipelines Quay ConnectedQuay Architect Registry Airgapped HostInventory.
From S2P Require Import CollectionBuild ImportController Events Startup Samples Instances Rights RightsProps.

(** ** Runs *)

(** What the calls of a start answered, and the status the process ends with. *)
Abbreviation setupTrace := (list (setupCall * option error)).
Inductive runs : startup -> setupTrace -> Z -> Prop :=
| runs_exit s : runs (Exited s) [] s
| runs_do c k e tr s : runs (k e) tr s -> runs (Do c k) ((c, e) :: tr) s.

Definition discovery (c : setupCall) : bool := match c with Discover _ => true | _ => false end.
(** The first failure of a call that is no discovery ends the process, with status 1; without one
    it ends with the manager, with status 0. *)
Inductive setup_report : setupTrace -> Z -> Prop :=
| report_fails c e : discovery c = false -> setup_report [(c, Some e)] 1
| report_ran : setup_report [(Start, None)] 0
| report_goes_on c e tr s :
    e = None \/ discovery c = true -> c <> Start -> setup_report tr s -> setup_report ((c, e) :: tr) s.

(** The manager when it starts. *)
Definition setUp (tr : setupTrace) : list controller :=
  omap (fun ce => match ce with (SetupWithManager c, None) => Some c | _ => None end) tr.
Definition added (tr : setupTrace) : list watcher :=
  omap (fun ce => match ce with (AddRunnable w, None) => Some w | _ => None end) tr.
Definition discovered (tr : setupTrace) : list string :=
  omap (fun ce => match ce with (Discover g, None) => Some g | _ => None end) tr.
Definition startedManager (tr : setupTrace) : manager := mkManager (setUp tr) (added tr) (discovered tr).

(** The controllers of a manager, registered or waited for; the group one needs. *)
Definition controllersOf (m : manager) : list controller := mg_Registered m ++ map wt_Controller (mg_Waiting m).
Definition allNames : list string :=
  ["DisconnectedPlatform"; "CollectionPipeline"; "MirrorImport"; "ClusterBootstrap"; "RHTASHealthCheck"].
Definition groupOf (c : controller) : option string :=
  match c with
  | CollectionController _ | MirrorImportController _ => Some tektonGroup
  | HealthController => Some securesignGroup
  | _ => None
  end.

(** The turns of watchers while the process runs. *)
Definition evolves : manager -> manager -> Prop := rtc (fun m m' => exists t, t <> Stopped /\ managerStep t m m').

(** ** The set-up *)

Lemma runs_inv p tr s :
  runs p tr s ->
  match p with
  | Exited s' => tr = [] /\ s = s'
  | Do c k => exists e tr', tr = (c, e) :: tr' /\ runs (k e) tr' s
  end.
Proof. destruct 1; eauto. Qed.
Lemma runs_orExit c next tr s :
  runs (orExit c next) tr s ->
  (exists e, tr = [(c, Some e)] /\ s = 1%Z) \/ exists tr', tr = (c, None) :: tr' /\ runs next tr' s.
Proof.
  intros ([e|] & t & -> & H)%runs_inv; [|eauto]. apply runs_inv in H as [-> ->]. eauto.
Qed.
Lemma runs_ifAvailable g k tr s :
  runs (ifAvailable g k) tr s ->
  exists (e : option error) tr', tr = (Discover g, e) :: tr' /\ runs (k (bool_decide (e = None))) tr' s.
Proof. intros ([e|] & t & -> & H)%runs_inv; do 2 eexists; (split; [done|exact H]). Qed.

(** Goes through a run of the set-up, call by call. *)
Ltac startup_go H :=
  lazymatch type of H with
  | runs (ifAvailable _ _) _ _ =>
      let e := fresh "e" in apply runs_ifAvailable in H as (e & ? & -> & H); destruct e as [e|]; cbn in H; startup_go H
  | runs (registerWhen true _ _) _ _ => unfold registerWhen in H; startup_go H
  | runs (registerWhen false _ _) _ _ => unfold registerWhen in H; startup_go H
  | runs (orExit _ _) _ _ => apply runs_orExit in H as [(? & -> & ->)|(? & -> & H)]; [|startup_go H]
  | runs (Exited _) _ _ => apply runs_inv in H as [-> ->]
  | _ => idtac
  end.

(** What the last call of the set-up is, and how the process ends. *)
Lemma startup_reports f tr s : runs (main f) tr s -> setup_report tr s.
Proof.
  intros H. unfold main in H. startup_go H;
    repeat first [apply report_ran|apply report_fails; reflexivity
                 |apply report_goes_on; [solve [by left|by right]|discriminate|]].
Qed.

Definition accounted (m : manager) : Prop :=
  map controllerName (controllersOf m) ≡ₚ allNames /\
  (forall c g, In c (mg_Registered m) -> groupOf c = Some g -> In g (mg_Found m)) /\
  forall w, In w (mg_Waiting m) -> groupOf (wt_Controller w) = Some (wt_Group w).

Lemma accounted_start f tr s e : runs (main f) tr s -> In (Start, e) tr -> accounted (startedManager tr).
Proof.
  intros H Hin. unfold main in H. startup_go H;
    try (exfalso; cbn in Hin; repeat (destruct Hin as [Hin|Hin]; [discriminate Hin|]); exact Hin).
  all: split; [apply (bool_decide_eq_true_1 _); vm_compute; reflexivity|split].
  all: cbn; intros; destruct_or?; simplify_eq; cbn in *; simplify_eq; first [reflexivity|tauto].
Qed.

Lemma accounted_step t m m' : t <> Stopped -> managerStep t m m' -> accounted m -> accounted m'.
Proof.
  intros Ht [reg pre w post found Hw|reg pre w post found registered Hw] (Hp & Hg & Hwait).
  - split; [exact Hp|]. split; [|exact Hwait]. intros c g Hc Hn. apply in_or_app. left. exact (Hg c g Hc Hn).
  - assert (registered = true /\ foundBy w t = [wt_Group w]) as [-> Hf]
      by (destruct t as [|[] [|]]; cbn in Hw; naive_solver).
    unfold accounted, controllersOf in *. cbn [mg_Registered mg_Waiting mg_Found] in *; cbv iota. split; [|split].
    + rewrite <- Hp. apply Permutation_map. rewrite !map_app. cbn [map]. unfold snoc. solve_Permutation.
    + rewrite Hf. intros c g [Hc|[<-|[]]]%in_app_or Hn; apply in_or_app; [left; eauto|right].
      assert (Hw' := Hwait w ltac:(apply in_or_app; by right; left)). left. congruence.
    + intros w' [Hin|Hin]%in_app_or; apply Hwait, in_or_app; [by left|by right; right].
Qed.
Lemma accounted_evolves m m' : evolves m m' -> accounted m -> accounted m'.
Proof. induction 1 as [|m m1 m' (t & Ht & Hs) _ IH]; [done|]. intros H. by apply IH, (accounted_step t m m1). Qed.

(** A turn in which the kinds are found and the registration succeeds. *)
Abbreviation accepted := (Ticked true None).
Lemma accepted_step m m' : managerStep accepted m m' -> length (mg_Waiting m) = S (length (mg_Waiting m')).
Proof.
  intros H. inversion H as [? ? ? ? ? Hw|? ? ? ? ? [] Hw]; try discriminate Hw. subst. cbn. rewrite !length_app. cbn. lia.
Qed.
Lemma accepted_possible m : mg_Waiting m <> [] -> exists m', managerStep accepted m m'.
Proof.
  destruct m as [reg [|w post] found]; [done|]. intros _. eexists.
  exact (step_over accepted reg [] w post found true eq_refl).
Qed.

(** C3: No controller is lost.  When the manager runs, the five controllers of the operator are
    each registered once or waited for once, and this stays so in every state that the turns of
    the watchers reach, whatever the discovery answers and however often a registration fails.
    One that needs a group of kinds is registered only after the discovery found the group.  As
    long as one is waited for, there is a turn that registers it, when the manager accepts it, and
    every such turn leaves one less to wait for; when none is waited for, all five are registered. *)
Theorem controllers_accounted f tr s e m
    (H : runs (main f) tr s) (Hs : In (Start, e) tr) (Hm : evolves (startedManager tr) m) :
  map controllerName (controllersOf m) ≡ₚ allNames /\
  (forall c g, In c (mg_Registered m) -> groupOf c = Some g -> In g (mg_Found m)) /\
  (mg_Waiting m <> [] -> exists m', managerStep accepted m m') /\
  (forall m', managerStep accepted m m' -> length (mg_Waiting m) = S (length (mg_Waiting m'))) /\
  (mg_Waiting m = [] -> map controllerName (mg_Registered m) ≡ₚ allNames).
Proof.
  apply accounted_start with (1 := H) in Hs. apply (accounted_evolves _ _ Hm) in Hs as (Hp & Hg & _).
  split; [exact Hp|]. split; [exact Hg|]. split; [apply accepted_possible|]. split; [apply accepted_step|].
  intros E. unfold controllersOf in Hp. by rewrite E, app_nil_r in Hp.
Qed.

(** ** What is decided once *)

Lemma waiting_evolves m m' w : evolves m m' -> In w (mg_Waiting m') -> In w (mg_Waiting m).
Proof.
  induction 1 as [|m m1 m' (t & Ht & Hs) _ IH]; [done|]. intros Hw. apply IH in Hw. destruct Hs; cbn in *; [done|].
  rewrite in_app_iff in *. cbn. tauto.
Qed.
(** A controller that is registered was when the manager started, or was waited for. *)
Lemma registered_evolves m m' c :
  evolves m m' -> In c (mg_Registered m') -> In c (mg_Registered m) \/ In c (map wt_Controller (mg_Waiting m)).
Proof.
  induction 1 as [|m m1 m' (t & Ht & Hs) _ IH]; [by left|]. intros [Hc|Hc]%IH.
  - destruct Hs as [|reg pre w post found [] Hw]; cbn in *; [by left| |by left].
    apply in_app_or in Hc as [Hc|[<-|[]]]; [by left|right]. rewrite map_app, in_app_iff. by right; left.
  - right. destruct Hs; cbn in *; [done|]. rewrite map_app, in_app_iff in *. cbn. tauto.
Qed.

Lemma platform_start f tr s e m r :
  runs (main f) tr s -> In (Discover tektonGroup, e) tr -> evolves (startedManager tr) m ->
  In (PlatformController r) (mg_Registered m) -> dpr_TektonAvailable r = bool_decide (e = None).
Proof.
  intros H Hd Hm Hr. apply (registered_evolves _ _ _ Hm) in Hr. clear Hm. unfold main in H. startup_go H.
  all: cbn in Hd; destruct_or? Hd; try discriminate Hd; try contradiction; injection Hd as <-.
  all: cbn in Hr; destruct_or? Hr; try discriminate Hr; try contradiction; injection Hr as <-; reflexivity.
Qed.

(** Writes of pipelines. *)
Definition writesPipeline (c : call) : bool :=
  creates (KUnstructured pipelineGVK) c || updates (KUnstructured pipelineGVK) c.
Definition keepsPipelines (c : call) : Prop := writesPipeline c = false.

Section Templates.
Context {X : Externals} `{!ExternalsLaws X}.

Ltac no_pipeline := walk_program ltac:(fun _ => constructor; [lazy; reflexivity|constructor]).
Lemma keeps_subscribe l c b : always (calls keepsPipelines) (subscribeAirgapped l c b).
Proof. revert c b. induction l; intros; cbn [subscribeAirgapped]; no_pipeline. Qed.
Lemma keeps_password n i : always (calls keepsPipelines) (passwordFrom n i).
Proof. revert i. induction n; intros; cbn [passwordFrom]; no_pipeline. Qed.
Lemma keeps_imageSets h l : always (calls keepsPipelines) (createImageSets h l).
Proof. induction l; intros; cbn [createImageSets]; no_pipeline. Qed.
Lemma keeps_deletePods l : always (calls keepsPipelines) (PullSecrets.deletePods l).
Proof. induction l; cbn [PullSecrets.deletePods]; no_pipeline. Qed.
#[local] Hint Resolve keeps_subscribe keeps_password keeps_imageSets keeps_deletePods : always.
Lemma airgapped_keeps_pipelines r p :
  dpr_TektonAvailable r = false -> always (calls keepsPipelines) (reconcileAirgapped r p).
Proof. intros E. no_pipeline; congruence. Qed.

(** C4: Whether Tekton is there is decided once.  In every state the manager reaches, the
    controller of platforms is told of TaskRuns, and of the pipelines it owns, exactly when the
    discovery found Tekton as the process started.  Installed later (as the operator itself does
    on a new cluster) Tekton lets the controllers of collections and imports be registered, but
    until the process restarts the handler that restarts the update service after a mirroring
    task gets no event, and no reconcile of an airgapped platform writes the pipeline that
    imports refer to. *)
Theorem tekton_decided_at_start f tr s e m r
    (H : runs (main f) tr s) (Hd : In (Discover tektonGroup, e) tr) (Hm : evolves (startedManager tr) m)
    (Hr : In (PlatformController r) (mg_Registered m)) :
  let b := builderOf (PlatformController r) in
  (handlersFor b (KUnstructured taskRunGVK) = match e with None => [TaskRunHandler] | Some _ => [] end) /\
  (In (KUnstructured pipelineGVK) (bl_Owns b) <-> e = None) /\
  handlersFor b KSecret = [SecretHandler] /\ handlersFor b KCollectionPipeline = [CollectionHandler] /\
  handlersFor b KNode = [NodeHandler] /\
  (e <> None -> forall platform t o, exec (reconcileAirgapped r platform) t o -> calls keepsPipelines t).
Proof.
  assert (E := platform_start f tr s e m r H Hd Hm Hr). cbn [builderOf]. rewrite E.
  split; [destruct e; vm_compute; reflexivity|]. split; [|do 3 (split; [destruct e; vm_compute; reflexivity|])].
  - destruct e as [e|]; (split; [intros Hin|intros [=]]); [|done|vm_compute; tauto].
    vm_compute in Hin. intuition discriminate.
  - intros Hn platform t o Ht. eapply always_exec; [|exact Ht]. apply airgapped_keeps_pipelines. by destruct e.
Qed.
End Templates.

(** Every kind that a controller is told of may be listed and watched. *)
Definition watchedKinds (b : Builder) : list kind := bl_For b :: bl_Owns b ++ map fst (bl_Watches b).
Theorem watched_kinds_allowed c K :
  In K (watchedKinds (builderOf c)) -> held (on "list" K "") = true /\ held (on "watch" K "") = true.
Proof.
  assert (H : forall b, In b [platformBuilder true; platformBuilder false; collectionBuilder; importBuilder;
                              bootstrapBuilder; healthBuilder] ->
    forallb (fun K => held (on "list" K "") && held (on "watch" K "")) (watchedKinds b) = true)
    by (intros b Hb; cbn in Hb; destruct_or? Hb; subst; try contradiction; vm_compute; reflexivity).
  intros HK. apply andb_true_iff. revert K HK. apply forallb_forall, H.
  destruct c as [r| | | |]; cbn [builderOf]; [destruct (dpr_TektonAvailable r)|..]; cbn; tauto.
Qed.

(** ** Samples *)

(** A start whose calls are answered by a function. *)
Fixpoint runWith (answer : setupCall -> option error) (p : startup) : setupTrace * Z :=
  match p with
  | Exited s => ([], s)
  | Do c k => let '(tr, s) := runWith answer (k (answer c)) in ((c, answer c) :: tr, s)
  end.
Lemma runWith_runs answer p : runs p (fst (runWith answer p)) (snd (runWith answer p)).
Proof.
  induction p as [s|c k IH]; [constructor|]. cbn. specialize (IH (answer c)).
  destruct (runWith answer (k (answer c))) as [tr s]. by constructor.
Qed.

(** No variable is set, and neither Tekton nor the signing service is installed. *)
Definition bareFlags : Flags := parseFlags (fun _ => "") [leader_elect true].
Definition bareAnswer (c : setupCall) : option error :=
  if discovery c then Some (Errorf "the server could not find the requested resource") else None.
Definition bareStart : setupTrace := fst (runWith bareAnswer (main bareFlags)).
(** Tekton is installed; the watcher of collections is the first to notice. *)
Definition lateManager : manager :=
  mkManager (setUp bareStart ++ [collectionController bareFlags])
    [mkWatcher tektonGroup (importController bareFlags); mkWatcher securesignGroup HealthController] [tektonGroup].
Lemma late_evolves : evolves (startedManager bareStart) lateManager.
Proof.
  apply rtc_once. exists accepted. split; [discriminate|].
  exact (step_over accepted (setUp bareStart) [] (mkWatcher tektonGroup (collectionController bareFlags))
           (mg_Waiting lateManager) [] true eq_refl).
Qed.

Lemma controllers_accounted_witness :
  map controllerName (mg_Registered lateManager) = ["DisconnectedPlatform"; "ClusterBootstrap"; "CollectionPipeline"] /\
  map controllerName (controllersOf lateManager) ≡ₚ allNames /\ exists m', managerStep accepted lateManager m'.
Proof.
  destruct (controllers_accounted bareFlags bareStart 0 None lateManager) as (Hp & _ & Hn & _).
  - exact (runWith_runs bareAnswer (main bareFlags)).
  - vm_compute. tauto.
  - exact late_evolves.
  - split; [reflexivity|]. split; [exact Hp|]. by apply Hn.
Defined.

(** Collections are reconciled, no event of a TaskRun is handled and no template is written. *)
Section Witness.
#[local] Existing Instance sampleX.
Lemma tekton_decided_at_start_witness :
  let r := platformReconciler bareFlags false in
  In (collectionController bareFlags) (mg_Registered lateManager) /\
  handlersFor (builderOf (PlatformController r)) (KUnstructured taskRunGVK) = [] /\
  forall platform t o, exec (reconcileAirgapped r platform) t o -> calls keepsPipelines t.
Proof.
  split; [vm_compute; tauto|].
  destruct (tekton_decided_at_start bareFlags bareStart 0 (bareAnswer (Discover tektonGroup)) lateManager
              (platformReconciler bareFlags false)) as (H1 & _ & _ & _ & _ & H2).
  - exact (runWith_runs bareAnswer (main bareFlags)).
  - vm_compute. tauto.
  - exact late_evolves.
  - vm_compute. tauto.
  - split; [exact H1|]. apply H2. discriminate.
Defined.
End Witness.
